(* ===== verification/_CoqProject ===== *)
-Q . S2P
Prelude.v
Bytes.v
Common.v
Store.v
MapDb.v
Access.v
Tree.v
Layout.v
Image.v
Inode.v
Dir.v
Attr.v
Truncate.v
File.v
Readdir.v
Rename.v
Xattr.v
Limits.v
SuperBlock.v
FsCommon.v
Fuse.v
FuseDir.v
SpecialRead.v
FuseOps.v
Serve.v
Session.v
Restart.v
Progress.v
Rvfs.v
RvfsFacts.v
Vfscore.v
Alien.v
Extend.v
DiskFile.v
Log.v
Engine.v
Adapter.v
Wal.v
Transaction.v
Crash.v
Programs.v
Rvfs2Common.v
Rvfs2Tree.v
Rvfs2Facts.v
Rvfs2Session.v
Rvfs2Node.v
Rvfs2Mount.v
Rvfs2Heap.v
Demo.v
