(* ===== verification/Prelude.v ===== *)
(** * DBFS2: a verified model of a file system on a key-value database

    DBFS2 stores a POSIX file system in [jammdb], an embedded key-value store
    with transactions. An inode is a bucket named by the eight big-endian bytes
    of its number; its attributes, its directory entries, its extended
    attributes and the slices of its data are pairs of that bucket. On top of
    that layer the repository has a second, log-structured engine (data in an
    append-only log on a block device, metadata in the database) with an
    adapter to a VFS, and a transaction manager with a write-ahead log.

    ** Reading order: file of this library, source, contents

    Foundations
    - [Prelude]: tactics, hint databases, lemmas on integers and lists; this
      header.
    - [Bytes] (lib.rs): big- and little-endian encodings, decimal numerals,
      the byte order of keys.
    - [Common] (common.rs, inode.rs): errors, permissions, file types, time
      stamps, the attribute record, data keys, the table of interrupted
      listings.
    - [Store] (lib.rs, common.rs): the database as the class [JammDb] with
      [JammDbLaws]; the monad [Tx] for the body of one transaction and the
      monad [Op] for an entry point, whose state [world] is the committed
      database, the counter [DBFS_INODE_NUMBER] and the table
      [GLOBAL_READDIR_TABLE].
    - [MapDb]: a concrete database that satisfies the laws.

    The common layer (src/src/inode.rs, dir.rs, link.rs, file.rs, attr.rs)
    - [Access]: the permission decisions, against a reference in terms of the
      nine POSIX permission bits.
    - [Tree], [Layout], [Image]: the abstract specification. [Tree] is the
      file system as a map from inode numbers to nodes with the invariant
      [wf]; [Layout] defines [represents], the relation between a database and
      a tree, and turns each read and write of a transaction into a reading or
      an update of a node; [Image] shows that every tree with well-formed
      nodes has a database.
    - [Inode]: attributes, lookup, access, open, create. [Dir]: link, unlink,
      rmdir, rename, readlink. [Rename]: what a rename does to the tree.
      [Attr], [Xattr]: chmod, chown, utimens, extended attributes and their
      listing. [Truncate]: truncate and fallocate. [File]: read, write and
      copy_file_range. [Readdir]: both directory listings.
    - [SuperBlock] (fuse/mkfs.rs, fs_type.rs): making, mounting, statfs,
      unmounting. [FsCommon] (fs_common.rs): the second version of these.

    The front ends of the common layer
    - [Limits]: fallocate at its limits, and writes beyond 2^32 slices.
    - [Fuse] (fuse/inode.rs, attr.rs, link.rs, file.rs, sblk.rs and the
      conversions of common.rs), [FuseDir] (the two listings of fuse/file.rs)
      and [FuseOps] (fuse/mod.rs): the functions of the FUSE daemon, up to
      the reply each callback sends. [Serve]: the abstract daemon [t_serve],
      an operation on the tree for each request of the kernel, and the proof
      that each callback does just that. [Session]: sequences of requests, and
      the tree they keep. [Restart]: stopping, killing and starting the daemon.
      [SpecialRead] (fuse/file.rs): the gathering read that no callback uses.
    - [Progress]: a client that reads a file piece by piece while others use
      the database.
    - [Rvfs] (the dbfs_* functions of inode.rs, file.rs, fs_type.rs that the
      [rvfs] crate calls): the same layer behind objects that cache sizes,
      link counts and owners. [RvfsFacts]: which operations keep the objects
      in step with the database.

    Parts that stand by themselves
    - [Extend] (extend.rs): sets of operations of user programs on nested
      buckets, with an interface to the database of its own ([NestedDb],
      [NestedDbLaws], [NestedReliable]) and a concrete one.
    - [Vfscore]: the errors, node types and conversions of the [vfscore]
      crate that the newer adapters share. [Alien] (alien_integration): an
      in-memory file system. [Demo] (rvfs2_demo): a constant one.
    - [DiskFile] (fuse/mkfs.rs): the file of the host under the daemon's
      database, and its memory map.

    The log-structured engine
    - [Log] (log_manager.rs, models.rs): the device, the log, its header.
    - [Engine] (tx_engine.rs): files as extents of the log.
    - [Adapter] (rvfs_adapter.rs, and the device of rvfs_test.rs): VFS inodes,
      mounting, the cache of dentries.

    The transaction manager
    - [Wal] (operation.rs, wal.rs, and the storage of dbfs_test.rs): operations,
      frames, recovery.
    - [Transaction] (transaction.rs): commit, replay. [Crash]: a commit as the
      calls it makes, what a crash between them leaves on the disk, and what a
      restart makes of it.
    - [Programs] (dbfs_test.rs, examples/operate.rs): the tests of the manager
      and the example of operation sets, as programs over [Transaction] and
      [Extend].

    The second VFS adapter (rvfs2)
    - [Rvfs2Common] (rvfs2/common.rs): database functions independent of the
      common layer, with a layout of their own (names next to the attributes,
      data in blocks). [Rvfs2Tree]: what they promise, a file system of nodes
      with names, link counts and blocks, and the relation to a database.
      [Rvfs2Facts]: each operation keeps to it. [Rvfs2Session]: sequences of
      calls.
    - [Rvfs2Node] (rvfs2/inode.rs, superblock.rs, dentry.rs, fstype.rs, mod.rs):
      inodes, super blocks and dentries as shared objects over the transaction
      manager, mounting, and the log on an inode of another file system.
      [Rvfs2Mount]: time stamps and mounting. [Rvfs2Heap]: the order the
      objects keep, whatever is below.

    ** What the theorems show

    - The daemon as a whole: for every sequence of requests the callbacks
      return what the abstract daemon returns, errors and panics included, and
      the database stands for the tree it computes ([daemon_refines_tree]; of
      [readdir], [readdirplus], [statfs] and [listxattr] only the effect is
      described, which is none). [fits] says which requests the abstract daemon
      is for: values in their widths, modes of one type, places in a file
      below the 2^32nd slice, no directory removed, linked or moved through or
      onto itself. Well-formedness is a matter of the requests: [tidy] leaves out
      renames onto a name in use, exchanges, block devices and sockets, which
      the kernel sends and which break the tree ([rename_over_breaks_tree]), and
      what the VFS layer never sends; tidy sessions keep the tree well formed
      from the first start on ([sessions_keep_tree]). So do unmounts, kills and
      new starts ([lives_keep_tree]; a kill falls between two requests, the
      store commits each transaction whole), but the inode counter does not
      survive them ([creations_fail_after_start]).
    - Each operation of the common layer, run on a database that represents a
      well-formed tree, has the effect stated on the tree and keeps it well
      formed ([create_keeps_tree], [unlink_keeps_tree], [link_keeps_tree],
      [rmdir_keeps_tree], [rename_moves_file], [write_contents],
      [truncate_bytes], [mkfs_root]); the reading operations report the tree
      ([attr_and_lookup_report], [read_contents], [readdir_lists_entries]).
    - Round trips through several operations: [create_then_lookup],
      [write_then_read], [xattr_roundtrip], [remount_restores],
      [create_then_found], [write_appends] with [read_file_contents],
      [recover_returns_appended], [replay_completes_commit].
    - The second adapter: its database functions have, in every sequence of
      calls, the replies and the effect of the abstract file system
      ([rvfs2_refines]); its objects keep number, type and super block and its
      caches lead to the right ones ([rvfs2_objects_typed], by induction over
      the steps of clients).
    - Progress: a reader with a buffer of whole slices comes to the end of a
      file without holes and has all of it, whatever others do between its reads
      ([reader_gets_all]).
    - The rvfs objects: lookup and link keep them in step with the tree
      ([rvfs_lookup_in_step], [rvfs_link_in_step], [rvfs_rmdir_in_step]); the
      attributes form a map ([rvfs_attr_roundtrip]).
    - User programs: a renamed bucket keeps all that is in it
      ([rename_bucket_moves]); reading stays inside the caller's buffer
      ([read_concatenates]).
    - Types and bounds: [alien_typed]; [fallocate_bounds],
      [write_wraps_around], [map_misses_growth].
    - Errors and guards: [sticky_protects], [chown_guarded],
      [write_fails_cleanly], the theorems on permission bits.
    - Crash safety of the log: [recover_after_torn_write] and [recover_ends].
      [commit_step] splits a commit into its calls ([commit_is_its_steps]);
      [crash_leaves] gives the disk after a crash: of a log that is not flushed
      any prefix of what was written, in order, and the old log when its
      truncation was not flushed. [commit_crash_recovers] and
      [crash_applies_any_prefix] say which operations a replay applies,
      [failed_commit_replayed], [replay_applies_again] and
      [torn_log_loses_commit] where the log is not what it means to be. A single
      operation that can be repeated is done once or not at all
      ([crashed_operation_whole]).
    - Programs: [recovery_test_passes], [atomicity_test_fails],
      [rollback_test_passes]; the first operation set of the example does what
      the code beside it does by hand ([first_set_is_equal]).
    - Where the code departs from what it means to do, the theorem states what
      it does: [rename_over_breaks_tree], [write_exposes_memory],
      [overwrite_reads_stale], [mount_overwrites_log], [read_contents] (a read
      that starts inside a later slice returns the bytes from its start),
      [fuse_listing_chunks], [rvfs_unlink_out_of_step], [rvfs_rename_destroys],
      [alien_lookup_forgets], [rename_pair_copies], [mount_needs_root],
      [update_time_loses_nsec], [demo_never_ends], [creations_fail_after_start],
      [failed_commit_replayed], [torn_log_loses_commit], [special_read_gathers].

    ** Conventions

    A machine integer is a [Z] with its wrap-around, its panic or its
    saturation written out; [usize] has 64 bits. The code is built in release
    mode unless a definition says otherwise. Names and values are lists of
    bytes; a Rust [String] is its UTF-8 bytes. An operation that can panic has
    a [Panic] outcome, which drops its transaction as an error does. Locks
    guard single calls and each locked section is one step. Logging is left
    out.

    Loops over data are structural where the code iterates over a list or a
    counted range ([free_slices] counts the slices of the range). The others
    have fuel, with a theorem that the fuel chosen is enough: the write loop
    one more unit than there are bytes, since every turn stores at least one
    ([write_fuel]); the chunked listing as many turns as the kernel's loop can
    take; the log's loops one unit per byte of the buffer; recovery takes its
    fuel as an argument, and [recover_ends] says that one unit per frame and
    one for the end suffice, whatever the storage holds. Copying a bucket
    takes the depth of the database's nesting ([nb_depth], [shallow]), which
    [rename_bucket_moves] shows to be enough; the gathering read a round per byte
    asked for and two more ([special_read_gathers]).

    ** Assumptions, each a class with an instance that meets it

    [JammDb], [JammDbLaws], [Reliable] (the database; [MapDb]). [Memory] (where
    buffers lie and what a fresh slice of the buddy allocator holds).
    [SliceConfig] (the slice size a cargo feature selects). [BlockDevice] and
    [BlockDeviceLaws] (the device; [RamDisk]). [MetaCodec] and [EntryCodec]
    ([serde_json]; encodings from [Bytes]). [WalStorage] and [WalStorageLaws]
    (the storage of the log; [MockStorage]). [BottomFs] (the functions
    [crate::common::dbfs_*] the write-ahead log calls, which are not in the
    repository; a panic in them is not modelled). [Cache] (the buffer the allocator hands to a read), [ReplyBuffers]
    (when the kernel's reply is full), [RvfsCrate] (the fields of a new inode
    object), [VfsCore] and [VfsModes] (the permission and mode bits of the [vfscore]
    crate, whose time stamps have two fields of 64 bits), [VfsDevice] (the inode
    of another file system a log is kept in), [VfsNode] and [VfsFileNode] (the
    node of the VFS under the engine's device and its database file), [NodeCalls] (the functions that
    rvfs2/inode.rs calls with signatures that rvfs2/common.rs does not give
    them; nothing is asked of them), [NestedDb] with its laws.

    The two statics DBFS_INODE_NUMBER, of inode.rs and of inode_common.rs, are
    never in one world: [w_next] is the first in the files of the common layer and
    its front ends, and the second in [FsCommon] and the files of rvfs2. Using
    the handle of a bucket that its transaction has deleted is taken for a panic
    of the database ([tx_live]); only [dbfs_rmdir] of rvfs2/common.rs can do so, on
    a directory entered in itself.

    ** Not modelled

    - The byte layout of the C structures, the callbacks of the daemon that do nothing
      (forget, batch_forget).
    - The files of rvfs2 and alien_integration do not compile against the rest
      of the repository: rvfs2 names variants, fields and results that common.rs
      does not have. The model takes them as written, with types of its own for
      what they name ([Rvfs2Type], [Rvfs2Attr], messages as results).
    - Answers of constants (owners, times and flags in rvfs2_demo, the flags and
      names of file-system types).
    - show_dbfs of extend.rs, which prints.
    - Concurrency inside the database, and the loss of the engine's device
      blocks: the library keeps to the first 32 MiB of the device and the log to
      the rest, and the model has them as separate states.
    - Writes to the log that reach the disk out of order, a crash inside a
      transaction of the database, which the library makes atomic, and a kill of
      the daemon inside a request.
    - The replies of listings and of statfs in [t_serve]: [readdir_lists_entries],
      [fuse_listing_chunks] and [listxattr_names] state them.
    - The other example programs and the test of rvfs_test.rs, apart from its
      device: they run through the VFS crates, or only write to the database.
    - The tables of function pointers of the rvfs interface ([DBFS_DIR_INODE_OPS]
      and the like), whose functions are all modelled; the allocator. *)

From stdpp Require Export base list numbers gmap option strings sorting.
From Stdlib Require Export ZArith Lia.

#[export] Set Default Goal Selector "!".
#[global] Open Scope Z_scope.

(** ** Hint databases *)

(** [fs] holds the facts the file-system proofs use without naming them;
    [lens] rewrites lengths of buffers. *)
Create HintDb fs discriminated.
Create Rewrite HintDb lens.

#[export] Hint Rewrite @length_app @length_take @length_drop @length_replicate
  @length_insert @length_fmap @length_seqZ : lens.

(** [lens] normalises lengths everywhere and closes the arithmetic goal. *)
Ltac lens := autorewrite with lens in *; try lia.

(** Split every conjunction of the context and of the goal. *)
Ltac split_all := repeat match goal with
  | H : _ /\ _ |- _ => destruct H
  | |- _ /\ _ => split
  end.

(** Case on the scrutinee of the first [if]/[match] of the goal, keeping
    the equation. *)
Ltac case_goal := match goal with
  | |- context [match ?x with _ => _ end] => destruct x eqn:?
  end.

(** Case on the scrutinee of a [match] in [H], discarding the impossible
    branches. *)
Ltac case_in H := match type of H with
  | context [match ?x with _ => _ end] => destruct x eqn:?; try discriminate H
  end.

(** Prove a closed decidable proposition by evaluation. *)
Ltac by_eval := apply (bool_decide_unpack _); vm_compute; exact I.

(** ** Booleans and integers *)

Lemma Zeqb_refl' (a : Z) : (a =? a) = true.
Proof. apply Z.eqb_refl. Qed.

Lemma Zeqb_ne (a b : Z) : a <> b -> (a =? b) = false.
Proof. intros. by apply Z.eqb_neq. Qed.

Lemma Zltb_t (a b : Z) : a < b -> (a <? b) = true.
Proof. intros. by apply Z.ltb_lt. Qed.

Lemma Zltb_f (a b : Z) : b <= a -> (a <? b) = false.
Proof. intros. by apply Z.ltb_ge. Qed.

Lemma Zleb_t (a b : Z) : a <= b -> (a <=? b) = true.
Proof. intros. by apply Z.leb_le. Qed.

Lemma Zleb_f (a b : Z) : b < a -> (a <=? b) = false.
Proof. intros. by apply Z.leb_gt. Qed.

(** Turn every boolean comparison of the context into its proposition. *)
Ltac zbool := repeat match goal with
  | H : (_ =? _) = true |- _ => apply Z.eqb_eq in H
  | H : (_ =? _) = false |- _ => apply Z.eqb_neq in H
  | H : (_ <? _) = true |- _ => apply Z.ltb_lt in H
  | H : (_ <? _) = false |- _ => apply Z.ltb_ge in H
  | H : (_ <=? _) = true |- _ => apply Z.leb_le in H
  | H : (_ <=? _) = false |- _ => apply Z.leb_gt in H
  | H : (_ && _)%bool = true |- _ => apply andb_true_iff in H; destruct H
  | H : (_ || _)%bool = false |- _ => apply orb_false_iff in H; destruct H
  | H : negb _ = true |- _ => apply negb_true_iff in H
  | H : negb _ = false |- _ => apply negb_false_iff in H
  end.

Lemma land_ones_mod (a n : Z) : 0 <= n -> Z.land a (Z.ones n) = a mod 2 ^ n.
Proof. intros. by apply Z.land_ones. Qed.

(** Reflexive case analysis on the bit index for bitwise equalities. *)
Lemma bits_ext (a b : Z) :
  (forall i, 0 <= i -> Z.testbit a i = Z.testbit b i) -> a = b.
Proof. intros H. apply Z.bits_inj'. intros n Hn. by apply H. Qed.

(** [x] is contained in [y] bitwise exactly when every bit of [x] is one of
    [y]. *)
Lemma land_eq_l_iff (x y : Z) :
  Z.land y x = x <-> (forall i, 0 <= i -> Z.testbit x i = true -> Z.testbit y i = true).
Proof.
  split.
  - intros H i Hi Hx. rewrite <- H, Z.land_spec in Hx.
    apply andb_true_iff in Hx. tauto.
  - intros H. apply bits_ext. intros i Hi. rewrite Z.land_spec.
    destruct (Z.testbit x i) eqn:E; [rewrite (H i Hi E)|rewrite andb_false_r]; done.
Qed.

(** Taking away the bits of [m] that [y] has leaves the bits of [m] that [y]
    lacks. *)
Lemma sub_land_ldiff (m y : Z) : m - Z.land m y = Z.ldiff m y.
Proof.
  assert (H : Z.ldiff m y + Z.land m y = m).
  { rewrite Z.add_nocarry_lxor.
    - apply bits_ext. intros i Hi.
      rewrite Z.lxor_spec, Z.ldiff_spec, Z.land_spec.
      by destruct (Z.testbit m i), (Z.testbit y i).
    - apply bits_ext. intros i Hi.
      rewrite !Z.land_spec, Z.ldiff_spec, Z.bits_0.
      by destruct (Z.testbit m i), (Z.testbit y i). }
  lia.
Qed.

Lemma ldiff_0_iff (m y : Z) :
  Z.ldiff m y = 0 <->
  (forall i, 0 <= i -> Z.testbit m i = true -> Z.testbit y i = true).
Proof.
  split.
  - intros H i Hi Hm.
    assert (E : Z.testbit (Z.ldiff m y) i = false) by (rewrite H; apply Z.bits_0).
    rewrite Z.ldiff_spec, Hm in E. by destruct (Z.testbit y i).
  - intros H. apply bits_ext. intros i Hi. rewrite Z.ldiff_spec, Z.bits_0.
    destruct (Z.testbit m i) eqn:E; [|done]. by rewrite (H i Hi E).
Qed.

(** ** Machine integers: ranges and wrap-around *)

Definition w16 (z : Z) : Z := z mod 2 ^ 16.
Definition w32 (z : Z) : Z := z mod 2 ^ 32.
Definition w64 (z : Z) : Z := z mod 2 ^ 64.

Definition is_u16 (z : Z) : Prop := 0 <= z < 2 ^ 16.
Definition is_u32 (z : Z) : Prop := 0 <= z < 2 ^ 32.
Definition is_u64 (z : Z) : Prop := 0 <= z < 2 ^ 64.

Lemma w16_small z : is_u16 z -> w16 z = z.
Proof. unfold is_u16, w16. intros. by apply Z.mod_small. Qed.
Lemma w32_small z : is_u32 z -> w32 z = z.
Proof. unfold is_u32, w32. intros. by apply Z.mod_small. Qed.
Lemma w64_small z : is_u64 z -> w64 z = z.
Proof. unfold is_u64, w64. intros. by apply Z.mod_small. Qed.

Lemma w64_range z : is_u64 (w64 z).
Proof. unfold is_u64, w64. apply Z.mod_pos_bound. lia. Qed.
Lemma w32_range z : is_u32 (w32 z).
Proof. unfold is_u32, w32. apply Z.mod_pos_bound. lia. Qed.
Lemma w16_range z : is_u16 (w16 z).
Proof. unfold is_u16, w16. apply Z.mod_pos_bound. lia. Qed.

#[export] Hint Resolve w64_range w32_range w16_range : fs.

(** [saturating_sub] of the unsigned types. *)
Definition sat_sub (a b : Z) : Z := Z.max 0 (a - b).

(** ** Lists *)

Section lists.
Context {A : Type}.
Implicit Types l : list A.

(** The length of a list as an integer ([Vec::len]). *)
Definition zlen l : Z := Z.of_nat (length l).

Lemma zlen_nonneg l : 0 <= zlen l.
Proof. unfold zlen. lia. Qed.

Lemma zlen_app l1 l2 : zlen (l1 ++ l2) = zlen l1 + zlen l2.
Proof. unfold zlen. rewrite length_app. lia. Qed.

(** Rust's [&l[a..b]]: panics ([None]) unless [a <= b <= len]. *)
Definition slice l (a b : Z) : option (list A) :=
  if (0 <=? a) && (a <=? b) && (b <=? zlen l)
  then Some (take (Z.to_nat (b - a)) (drop (Z.to_nat a) l))
  else None.

Lemma slice_ok l a b :
  0 <= a -> a <= b -> b <= zlen l ->
  slice l a b = Some (take (Z.to_nat (b - a)) (drop (Z.to_nat a) l)).
Proof.
  intros. unfold slice. by rewrite !Zleb_t.
Qed.

Lemma slice_len l a b r : slice l a b = Some r -> zlen r = b - a.
Proof.
  unfold slice. intros H. case_in H. zbool. injection H as <-.
  unfold zlen in *. lens.
Qed.

(** Writing [v] over positions [a .. a + len v] of [l], the effect of
    [l[a..b].copy_from_slice(v)]. *)
Definition splice l (a : Z) (v : list A) : list A :=
  take (Z.to_nat a) l ++ v ++ drop (Z.to_nat a + length v) l.

(** [l[a..b].copy_from_slice(v)]: panics on a bad range or on slices of
    different lengths. *)
Definition copy_into l (a b : Z) (v : list A) : option (list A) :=
  if (0 <=? a) && (a <=? b) && (b <=? zlen l) && (zlen v =? b - a)
  then Some (splice l a v) else None.

Lemma splice_len l a v :
  0 <= a -> a + zlen v <= zlen l -> zlen (splice l a v) = zlen l.
Proof. unfold zlen, splice. intros. lens. Qed.

Lemma copy_into_ok l a b v :
  0 <= a -> b = a + zlen v -> b <= zlen l ->
  copy_into l a b v = Some (splice l a v).
Proof.
  intros. subst b. unfold copy_into. pose proof (zlen_nonneg v).
  rewrite !Zleb_t by lia. by rewrite (proj2 (Z.eqb_eq _ _)) by lia.
Qed.

Lemma splice_lookup_new l a v (i : nat) :
  0 <= a -> a + zlen v <= zlen l ->
  (Z.to_nat a <= i)%nat -> (i < Z.to_nat a + length v)%nat ->
  splice l a v !! i = v !! (i - Z.to_nat a)%nat.
Proof.
  intros. unfold splice, zlen in *.
  rewrite lookup_app_r by lens. rewrite length_take_le by lia.
  by rewrite lookup_app_l by lia.
Qed.

Lemma splice_lookup_old l a v (i : nat) :
  0 <= a -> a + zlen v <= zlen l ->
  (i < Z.to_nat a)%nat \/ (Z.to_nat a + length v <= i)%nat ->
  splice l a v !! i = l !! i.
Proof.
  intros ?? Hi. unfold splice, zlen in *. destruct Hi.
  - rewrite lookup_app_l by lens. by rewrite lookup_take_lt.
  - rewrite lookup_app_r by lens. rewrite length_take_le by lia.
    rewrite lookup_app_r by lia. rewrite lookup_drop. f_equal. lia.
Qed.

Lemma splice_nil l a : splice l a [] = l.
Proof. unfold splice. cbn. rewrite Nat.add_0_r. apply take_drop. Qed.

Lemma splice_app l v u a b :
  0 <= a -> b = a + zlen v -> b + zlen u <= zlen l ->
  splice (splice l a v) b u = splice l a (v ++ u).
Proof.
  intros Ha -> Hl. unfold splice, zlen in *.
  rewrite take_app_ge by lens. rewrite drop_app_ge by lens. rewrite !length_take_le by lia.
  rewrite take_app_ge, drop_app_ge by lens.
  replace (Z.to_nat (a + Z.of_nat (length v)) - Z.to_nat a - length v)%nat with 0%nat by lia.
  cbn [take]. rewrite app_nil_r, <- !app_assoc. do 3 f_equal.
  rewrite drop_drop, length_app. f_equal. lia.
Qed.

Lemma splice_all l v : zlen v = zlen l -> splice l 0 v = v.
Proof.
  unfold splice, zlen. intros Hl. cbn. rewrite drop_ge by lia. apply app_nil_r.
Qed.

(** Two consecutive parts of a list. *)
Lemma take_drop_app l (a n m : nat) :
  take n (drop a l) ++ take m (drop (a + n) l) = take (n + m) (drop a l).
Proof. by rewrite <- drop_drop, take_take_drop. Qed.

(** Equal parts have equal parts. *)
Lemma take_drop_sub l1 l2 (p q L k n : nat) :
  take L (drop p l1) = take L (drop q l2) -> (k + n <= L)%nat ->
  take n (drop (p + k) l1) = take n (drop (q + k) l2).
Proof.
  intros HE Hn. rewrite <- !drop_drop.
  assert (HT : forall l, take n (drop k l) = take n (drop k (take L l))).
  { intros l. rewrite skipn_firstn_comm, take_take. f_equal. lia. }
  by rewrite (HT (drop p l1)), (HT (drop q l2)), HE.
Qed.

Lemma filter_none (P : A -> Prop) `{!forall x, Decision (P x)} l :
  (forall x, x ∈ l -> ~ P x) -> filter P l = [].
Proof.
  induction l as [|x l IH]; intros Hl; [done|]. rewrite filter_cons_False by (apply Hl; left).
  apply IH. intros y Hy. apply Hl. by right.
Qed.

Lemma filter_all (P : A -> Prop) `{!forall x, Decision (P x)} l :
  (forall x, x ∈ l -> P x) -> filter P l = l.
Proof.
  induction l as [|x l IH]; intros Hl; [done|]. rewrite filter_cons_True by (apply Hl; left).
  f_equal. apply IH. intros y Hy. apply Hl. by right.
Qed.

Lemma list_eq_zlen l1 l2 :
  zlen l1 = zlen l2 ->
  (forall i, (i < length l1)%nat -> l1 !! i = l2 !! i) -> l1 = l2.
Proof.
  unfold zlen. intros Hl H. apply list_eq. intros i.
  destruct (decide (i < length l1)%nat); [by apply H|].
  rewrite !lookup_ge_None_2; [done|lia|lia].
Qed.
End lists.

#[export] Hint Resolve zlen_nonneg : fs.
#[export] Hint Rewrite @zlen_app : lens.
