(* ===== verification/Bytes.v ===== *)
(** * Byte strings, machine-integer encodings and decimal numerals

    The keys and values of the database are byte strings. This file gives
    the conversions the code applies to them: [to_be_bytes] and the macros
    [u16!], [u32!], [u64!], [usize!] of src/src/lib.rs (big-endian, the
    length checked), [to_le_bytes] for the log, [format!("{}", n)] and
    [str::parse::<usize>] for the inode numbers of directory entries, and
    the lexicographic order in which the database iterates its keys. *)

From S2P Require Import Prelude.
From Stdlib Require Import Strings.Byte.

Abbreviation bytes := (list Byte.byte).

(** Byte-string literals: [b"size"] of the source is [bs "size"]. *)
Definition bs (s : string) : bytes := String.list_byte_of_string s.

#[export] Instance byte_eq_dec : EqDecision Byte.byte := Byte.byte_eq_dec.

#[export] Instance byte_countable : Countable Byte.byte.
Proof.
  refine (inj_countable Byte.to_N Byte.of_N _). intros x. apply Byte.of_to_N.
Defined.

(** Two keys that differ in a leading byte. *)
Ltac key_neq := let H := fresh in intros H; discriminate H.

#[export] Hint Extern 1 (_ <> _ :> list Byte.byte) => key_neq : fs.

(** ** Bytes as integers *)

Definition byte_val (b : Byte.byte) : Z := Z.of_N (Byte.to_N b).

Definition byte_of (z : Z) : Byte.byte :=
  match Byte.of_N (Z.to_N (z mod 256)) with
  | Some b => b
  | None => x00
  end.

Lemma byte_val_range b : 0 <= byte_val b < 256.
Proof. unfold byte_val. pose proof (Byte.to_N_bounded b). lia. Qed.

Lemma byte_of_val b : byte_of (byte_val b) = b.
Proof.
  unfold byte_of. pose proof (byte_val_range b).
  rewrite Z.mod_small by lia. unfold byte_val. rewrite N2Z.id.
  by rewrite Byte.of_to_N.
Qed.

Lemma byte_val_of z : byte_val (byte_of z) = z mod 256.
Proof.
  unfold byte_of. pose proof (Z.mod_pos_bound z 256 ltac:(lia)).
  destruct (Byte.of_N (Z.to_N (z mod 256))) as [b|] eqn:E.
  - apply Byte.to_of_N in E. unfold byte_val. rewrite E. lia.
  - apply Byte.of_N_None_iff in E. lia.
Qed.

Lemma byte_val_inj a b : byte_val a = byte_val b -> a = b.
Proof. intros H. rewrite <- (byte_of_val a), H. apply byte_of_val. Qed.

(** ** Big-endian encodings *)

(** The [n] low bytes of [z], most significant first ([to_be_bytes]). *)
Fixpoint to_be (n : nat) (z : Z) : bytes :=
  match n with
  | O => []
  | S m => byte_of (z / 256 ^ Z.of_nat m) :: to_be m z
  end.

(** The value of a big-endian byte string ([from_be_bytes]). *)
Fixpoint from_be (l : bytes) : Z :=
  match l with
  | [] => 0
  | b :: r => byte_val b * 256 ^ zlen r + from_be r
  end.

Lemma length_to_be n z : length (to_be n z) = n.
Proof. induction n; simpl; congruence. Qed.
#[export] Hint Rewrite length_to_be : lens.

Lemma zlen_to_be n z : zlen (to_be n z) = Z.of_nat n.
Proof. unfold zlen. by rewrite length_to_be. Qed.

Lemma from_be_range l : 0 <= from_be l < 256 ^ zlen l.
Proof.
  induction l as [|b l IH]; [done|]. cbn [from_be].
  pose proof (byte_val_range b). unfold zlen in *. cbn [length].
  rewrite Nat2Z.inj_succ, Z.pow_succ_r by lia. nia.
Qed.

Lemma from_to_be n z : from_be (to_be n z) = z mod 256 ^ Z.of_nat n.
Proof.
  induction n as [|n IH]; [by rewrite Z.mod_1_r|].
  cbn [to_be from_be]. rewrite zlen_to_be, IH, byte_val_of.
  rewrite Nat2Z.inj_succ, Z.pow_succ_r by lia.
  rewrite (Z.mul_comm 256), Z.rem_mul_r by lia. lia.
Qed.

Lemma to_be_mod_le n m z :
  (n <= m)%nat -> to_be n (z mod 256 ^ Z.of_nat m) = to_be n z.
Proof.
  intros H. induction n as [|n IH]; [done|]. cbn [to_be]. f_equal; [|apply IH; lia].
  apply byte_val_inj. rewrite !byte_val_of.
  replace (256 ^ Z.of_nat m)
    with (256 ^ Z.of_nat n * (256 * 256 ^ Z.of_nat (m - S n))).
  2: { rewrite <- Z.pow_succ_r, <- Z.pow_add_r by lia. f_equal. lia. }
  rewrite Z.rem_mul_r by lia.
  rewrite (Z.mul_comm (256 ^ Z.of_nat n) (_ mod _)), Z.div_add by lia.
  rewrite (Z.div_small (z mod _)) by (apply Z.mod_pos_bound; lia).
  rewrite Z.add_0_l, (Z.rem_mul_r _ 256) by lia.
  rewrite (Z.mul_comm 256 (_ mod _)), Z.mod_add by lia. apply Z.mod_mod. lia.
Qed.

Lemma to_from_be l : to_be (length l) (from_be l) = l.
Proof.
  induction l as [|b l IH]; [done|]. cbn [length to_be from_be].
  pose proof (from_be_range l) as HR. unfold zlen in *. f_equal.
  - rewrite Z.div_add_l by lia. rewrite Z.div_small by done.
    rewrite Z.add_0_r. apply byte_of_val.
  - transitivity (to_be (length l) (from_be l)); [|done].
    rewrite <- (to_be_mod_le (length l) (length l) (_ + _)) by lia.
    rewrite (Z.add_comm (_ * _)), Z.mod_add, Z.mod_small by lia. done.
Qed.

Lemma to_be_inj n x y :
  0 <= x < 256 ^ Z.of_nat n -> 0 <= y < 256 ^ Z.of_nat n ->
  to_be n x = to_be n y -> x = y.
Proof.
  intros Hx Hy H. apply (f_equal from_be) in H.
  rewrite !from_to_be, !Z.mod_small in H by done. done.
Qed.

(** The macros [u16!], [u32!], [u64!] and [usize!]: [try_into().unwrap()]
    fails ([None], a panic in the code) unless the length is exact. *)
Definition from_be_n (n : nat) (l : bytes) : option Z :=
  if (length l =? n)%nat then Some (from_be l) else None.

Definition u16_of : bytes -> option Z := from_be_n 2.
Definition u32_of : bytes -> option Z := from_be_n 4.
Definition u64_of : bytes -> option Z := from_be_n 8.
Definition usize_of : bytes -> option Z := from_be_n 8.

Definition u16_be : Z -> bytes := to_be 2.
Definition u32_be : Z -> bytes := to_be 4.
Definition u64_be : Z -> bytes := to_be 8.
Definition usize_be : Z -> bytes := to_be 8.

Lemma from_be_n_to_be n z :
  from_be_n n (to_be n z) = Some (z mod 256 ^ Z.of_nat n).
Proof.
  unfold from_be_n. rewrite length_to_be, Nat.eqb_refl. by rewrite from_to_be.
Qed.

Lemma from_be_n_Some n l z :
  from_be_n n l = Some z -> l = to_be n z /\ 0 <= z < 256 ^ Z.of_nat n.
Proof.
  unfold from_be_n. intros H. case_in H. apply Nat.eqb_eq in Heqb. subst n.
  injection H as <-. split; [by rewrite to_from_be|]. apply from_be_range.
Qed.

Lemma u16_of_be z : is_u16 z -> u16_of (u16_be z) = Some z.
Proof.
  intros H. unfold u16_of, u16_be. rewrite from_be_n_to_be.
  by rewrite Z.mod_small.
Qed.
Lemma u32_of_be z : is_u32 z -> u32_of (u32_be z) = Some z.
Proof.
  intros H. unfold u32_of, u32_be. rewrite from_be_n_to_be.
  by rewrite Z.mod_small.
Qed.
Lemma u64_of_be z : is_u64 z -> u64_of (u64_be z) = Some z.
Proof.
  intros H. unfold u64_of, u64_be. rewrite from_be_n_to_be.
  by rewrite Z.mod_small.
Qed.
Lemma usize_of_be z : is_u64 z -> usize_of (usize_be z) = Some z.
Proof. apply u64_of_be. Qed.

#[export] Hint Resolve u16_of_be u32_of_be u64_of_be usize_of_be : fs.

Lemma usize_be_inj x y : is_u64 x -> is_u64 y -> usize_be x = usize_be y -> x = y.
Proof. apply (to_be_inj 8). Qed.

(** A four-byte value is never an eight-byte one: reading a [u32] field with
    [usize!] panics. *)
Lemma usize_of_u32_be z : usize_of (u32_be z) = None.
Proof. unfold usize_of, from_be_n, u32_be. by rewrite length_to_be. Qed.

(** ** Little-endian encodings *)

Definition to_le (n : nat) (z : Z) : bytes := rev (to_be n z).
Definition from_le (l : bytes) : Z := from_be (rev l).

Lemma from_to_le n z : from_le (to_le n z) = z mod 256 ^ Z.of_nat n.
Proof. unfold from_le, to_le. rewrite rev_involutive. apply from_to_be. Qed.

Lemma length_to_le n z : length (to_le n z) = n.
Proof. unfold to_le. by rewrite length_rev, length_to_be. Qed.
#[export] Hint Rewrite length_to_le : lens.

(** ** The order of keys *)

(** Lexicographic comparison of byte strings, the order of the database's
    keys. *)
Fixpoint blt (a b : bytes) : bool :=
  match a, b with
  | [], [] => false
  | [], _ :: _ => true
  | _ :: _, [] => false
  | x :: a', y :: b' =>
      if byte_val x <? byte_val y then true
      else if byte_val y <? byte_val x then false
      else blt a' b'
  end.

Definition ble (a b : bytes) : bool := negb (blt b a).

Lemma blt_irrefl a : blt a a = false.
Proof. induction a as [|x a IH]; [done|]. cbn. by rewrite Z.ltb_irrefl. Qed.

Lemma blt_trans a b c : blt a b = true -> blt b c = true -> blt a c = true.
Proof.
  revert b c. induction a as [|x a IH]; intros [|y b] [|z c]; cbn; try done.
  intros H1 H2.
  repeat match goal with H : context [if ?t then _ else _] |- _ => destruct t eqn:? end;
    try done; zbool; try (rewrite Zltb_t by lia; done).
  rewrite !Zltb_f by lia. by apply (IH b).
Qed.

Lemma blt_total a b : blt a b = false -> blt b a = false -> a = b.
Proof.
  revert b. induction a as [|x a IH]; intros [|y b]; cbn; try done.
  intros H1 H2.
  destruct (byte_val x <? byte_val y) eqn:E1; [done|].
  destruct (byte_val y <? byte_val x) eqn:E2; [done|].
  zbool. f_equal; [apply byte_val_inj; lia|by apply IH].
Qed.

Lemma blt_app_prefix p a b : blt (p ++ a) (p ++ b) = blt a b.
Proof. induction p as [|x p IH]; [done|]. cbn. by rewrite !Z.ltb_irrefl. Qed.

(** On strings of one length the order is that of the encoded numbers. *)
Lemma blt_from_be a b :
  length a = length b -> blt a b = (from_be a <? from_be b).
Proof.
  revert b. induction a as [|x a IH]; intros [|y b]; try done.
  intros Hl. injection Hl as Hl. cbn. rewrite IH by done.
  pose proof (from_be_range a). pose proof (from_be_range b).
  unfold zlen in *. rewrite <- Hl in *.
  destruct (Z.ltb_spec (byte_val x) (byte_val y)).
  { symmetry. apply Z.ltb_lt. nia. }
  destruct (Z.ltb_spec (byte_val y) (byte_val x)).
  { symmetry. apply Z.ltb_ge. nia. }
  replace (byte_val y) with (byte_val x) by lia.
  destruct (Z.ltb_spec (from_be a) (from_be b)); symmetry;
    [apply Z.ltb_lt|apply Z.ltb_ge]; lia.
Qed.

(** Whatever lies between two extensions of [p] extends [p]. *)
Lemma ble_blt_prefix p a b k :
  ble (p ++ a) k = true -> blt k (p ++ b) = true -> exists c, k = p ++ c.
Proof.
  revert k. induction p as [|x p IH]; intros k; [by exists k|].
  unfold ble. destruct k as [|y k]; cbn; [done|].
  destruct (byte_val y <? byte_val x) eqn:E1; [done|].
  destruct (byte_val x <? byte_val y) eqn:E2; [done|].
  intros H1 H2. destruct (IH k) as [c ->]; [done|done|].
  exists c. f_equal. zbool. apply byte_val_inj. lia.
Qed.

Definition key_lt (a b : bytes) : Prop := blt a b = true.

#[export] Instance key_lt_dec : RelDecision key_lt.
Proof. intros a b. unfold key_lt. apply _. Defined.

#[export] Instance key_lt_strict : StrictOrder key_lt.
Proof.
  split.
  - intros a. unfold complement, key_lt. by rewrite blt_irrefl.
  - intros a b c. apply blt_trans.
Qed.

(** ** Decimal numerals *)

Definition digit_char (d : Z) : Byte.byte := byte_of (48 + d).

Definition digit_val (b : Byte.byte) : option Z :=
  let v := byte_val b - 48 in
  if (0 <=? v) && (v <=? 9) then Some v else None.

(** The decimal digits of [n], at most [fuel] of them. *)
Fixpoint dec_digits (fuel : nat) (n : Z) : bytes :=
  match fuel with
  | O => []
  | S f => (if n <? 10 then [] else dec_digits f (n / 10)) ++ [digit_char (n mod 10)]
  end.

(** [format!("{}", n)] for a [usize]: 2^64 has twenty digits. *)
Definition usize_to_string (n : Z) : bytes := dec_digits 20 n.

Fixpoint parse_digits (acc : Z) (l : bytes) : option Z :=
  match l with
  | [] => Some acc
  | b :: r =>
      match digit_val b with
      | None => None
      | Some d =>
          let acc' := acc * 10 + d in
          if acc' <? 2 ^ 64 then parse_digits acc' r else None
      end
  end.

(** [str::parse::<usize>]: an optional leading [+], at least one digit,
    nothing else, and no overflow. *)
Definition parse_usize (l : bytes) : option Z :=
  match l with
  | [] => None
  | b :: r =>
      if bool_decide (b = x2b)
      then match r with [] => None | _ => parse_digits 0 r end
      else parse_digits 0 l
  end.

Lemma digit_val_char d : 0 <= d <= 9 -> digit_val (digit_char d) = Some d.
Proof.
  intros H. unfold digit_val, digit_char. rewrite byte_val_of, Z.mod_small by lia.
  replace (48 + d - 48) with d by lia. by rewrite !Zleb_t by lia.
Qed.

Lemma parse_digits_snoc acc l d :
  0 <= d <= 9 ->
  parse_digits acc (l ++ [digit_char d]) =
  match parse_digits acc l with
  | Some x => if x * 10 + d <? 2 ^ 64 then Some (x * 10 + d) else None
  | None => None
  end.
Proof.
  intros Hd. revert acc. induction l as [|b l IH]; intros acc; cbn [app parse_digits].
  - by rewrite digit_val_char.
  - destruct (digit_val b); [|done]. destruct (_ <? _); [apply IH|done].
Qed.

Lemma parse_dec_digits f n :
  0 <= n -> n < 2 ^ 64 -> n < 10 ^ Z.of_nat f -> (0 < f)%nat ->
  parse_digits 0 (dec_digits f n) = Some n.
Proof.
  revert n. induction f as [|f IH]; intros n H0 H64 Hf Hpos; [lia|].
  cbn [dec_digits]. pose proof (Z.mod_pos_bound n 10 ltac:(lia)).
  pose proof (Z.div_mod n 10 ltac:(lia)).
  rewrite parse_digits_snoc by lia. destruct (Z.ltb_spec n 10) as [Hlt|Hge].
  - cbn [parse_digits]. rewrite Zltb_t by lia. f_equal.
    rewrite Z.mod_small by lia. lia.
  - destruct f as [|f]; [cbn in Hf; lia|].
    rewrite Nat2Z.inj_succ, Z.pow_succ_r in Hf by lia.
    rewrite IH; [|apply Z.div_pos; lia|lia|apply Z.div_lt_upper_bound; lia|lia].
    rewrite Zltb_t by lia. f_equal. lia.
Qed.

(** Every digit string starts with a digit, not with a sign. *)
Lemma dec_digits_head f n :
  (0 < f)%nat -> 0 <= n -> exists d r, dec_digits f n = digit_char d :: r /\ 0 <= d <= 9.
Proof.
  revert n. induction f as [|f IH]; intros n Hf Hn; [lia|]. cbn [dec_digits].
  pose proof (Z.mod_pos_bound n 10 ltac:(lia)).
  destruct (Z.ltb_spec n 10).
  { exists (n mod 10), []. split; [done|lia]. }
  destruct f as [|f]; [exists (n mod 10), []; split; [done|lia]|].
  destruct (IH (n / 10)) as (d & r & -> & Hd); [lia|apply Z.div_pos; lia|].
  by exists d, (r ++ [digit_char (n mod 10)]).
Qed.

Lemma digit_char_not_plus d : 0 <= d <= 9 -> digit_char d <> x2b.
Proof.
  intros H E. apply (f_equal byte_val) in E. unfold digit_char in E.
  rewrite byte_val_of, Z.mod_small in E by lia. cbn in E. lia.
Qed.

Lemma dec_digits_ascii f n : 0 <= n -> Forall (fun b => byte_val b < 0x80) (dec_digits f n).
Proof.
  revert n. induction f as [|f IH]; intros n Hn; cbn [dec_digits]; [done|].
  apply Forall_app. split.
  - destruct (n <? 10); [done|]. apply IH, Z.div_pos; lia.
  - apply Forall_singleton. unfold digit_char. pose proof (Z.mod_pos_bound n 10 ltac:(lia)).
    rewrite byte_val_of, Z.mod_small by lia. lia.
Qed.

Lemma parse_usize_to_string n : is_u64 n -> parse_usize (usize_to_string n) = Some n.
Proof.
  intros [H0 H64]. unfold parse_usize, usize_to_string.
  destruct (dec_digits_head 20 n) as (d & r & E & Hd); [lia|lia|].
  rewrite E. rewrite bool_decide_eq_false_2 by (by apply digit_char_not_plus).
  rewrite <- E. apply parse_dec_digits; lia.
Qed.

#[export] Hint Resolve parse_usize_to_string : fs.

(** ** A concrete encoding

    The encodings of the program ([serde_json]) are parameters; this one, a
    byte for each bit of the [Countable] code of a value, serves the
    witnesses. *)

Fixpoint pos_to_bytes (p : positive) : bytes :=
  match p with
  | xH => []
  | xO p => Byte.x00 :: pos_to_bytes p
  | xI p => Byte.x01 :: pos_to_bytes p
  end.

Fixpoint pos_of_bytes (l : bytes) : option positive :=
  match l with
  | [] => Some xH
  | Byte.x00 :: l => xO <$> pos_of_bytes l
  | Byte.x01 :: l => xI <$> pos_of_bytes l
  | _ => None
  end.

Lemma pos_of_to_bytes p : pos_of_bytes (pos_to_bytes p) = Some p.
Proof. by induction p as [p IH|p IH|]; cbn; rewrite ?IH. Qed.

Definition plain_encode {A} `{Countable A} (x : A) : bytes := pos_to_bytes (encode x).
Definition plain_decode {A} `{Countable A} (l : bytes) : option A := p ← pos_of_bytes l; decode p.

Lemma plain_decode_encode {A} `{Countable A} (x : A) : plain_decode (plain_encode x) = Some x.
Proof. unfold plain_decode, plain_encode. rewrite pos_of_to_bytes. apply decode_encode. Qed.

Example usize_to_string_ex : usize_to_string 1205 = bs "1205".
Proof. reflexivity. Qed.

(** Encodings stay folded under simplification. *)
#[global] Arguments u16_be : simpl never.
#[global] Arguments u32_be : simpl never.
#[global] Arguments u64_be : simpl never.
#[global] Arguments usize_be : simpl never.
#[global] Arguments usize_to_string : simpl never.
#[global] Arguments parse_usize : simpl never.
