(* ===== verification/Common.v ===== *)
(** * Data shared by the whole file system: src/src/common.rs

    The error type, the permission bits, the file types, time stamps, the
    attribute record, the keys under which directory entries and data slices
    are stored, and the table of interrupted directory reads. *)

From S2P Require Import Prelude Bytes.

(** ** Constants *)

Definition FMODE_EXEC : Z := 0x20.
Definition MAX_PATH_LEN : Z := 255.
Definition ACCESS_R_OK : Z := 4.
Definition ACCESS_F_OK : Z := 0.
Definition ACCESS_W_OK : Z := 2.
Definition ACCESS_X_OK : Z := 1.
Definition RENAME_EXCHANGE : Z := 0x2.

(** ** Errors *)

Inductive DbfsError :=
  | PermissionDenied | NotFound | AccessError | FileExists | InvalidArgument
  | NoSpace | RangeError | NameTooLong | NoSys | NotEmpty | Io | NotSupported
  | NoData | Other.

#[export] Instance DbfsError_eq_dec : EqDecision DbfsError.
Proof. solve_decision. Defined.

(** The discriminants, which the FUSE layer returns as errno ([x as i32]). *)
Definition error_code (e : DbfsError) : Z :=
  match e with
  | PermissionDenied => 1 | NotFound => 2 | AccessError => 13
  | FileExists => 17 | InvalidArgument => 22 | NoSpace => 28
  | RangeError => 34 | NameTooLong => 36 | NoSys => 38 | NotEmpty => 39
  | Io => 5 | NotSupported => 95 | NoData => 61 | Other => 999
  end.

(** The errors of the database library, as the conversion below names them
    (their payloads are not used). *)
Inductive JammError :=
  | JBucketExists | JBucketMissing | JKeyValueMissing | JIncompatibleValue
  | JReadOnlyTx | JIo | JSync | JInvalidDB | JAlloc.

(** [impl From<jammdb::Error> for DbfsError]. *)
Definition from_jamm (e : JammError) : DbfsError :=
  match e with
  | JBucketExists => FileExists
  | JBucketMissing => NoData
  | JKeyValueMissing => NoData
  | JIncompatibleValue => InvalidArgument
  | JReadOnlyTx => AccessError
  | JIo => Io
  | JSync => Io
  | JInvalidDB => Other
  | JAlloc => Other
  end.

(** ** Results

    A [DbfsResult], or the panic of an [unwrap], an index out of range, an
    [assert!] or a [panic!]. *)
Inductive outcome (A : Type) :=
  | Ok (a : A)
  | Err (e : DbfsError)
  | Panic.
Arguments Ok {A} a.
Arguments Err {A} e.
Arguments Panic {A}.

#[export] Instance outcome_ret : MRet outcome := fun A a => Ok a.
#[export] Instance outcome_bind : MBind outcome := fun A B f m =>
  match m with Ok a => f a | Err e => Err e | Panic => Panic end.

(** [Option::unwrap]. *)
Definition unwrap {A} (o : option A) : outcome A :=
  match o with Some a => Ok a | None => Panic end.

(** [Result::map_err(|_| e)]. *)
Definition map_err {A} (e : DbfsError) (m : outcome A) : outcome A :=
  match m with Err _ => Err e | _ => m end.

(** ** Permissions: the bitflags type [DbfsPermission] over [u16] *)

Module Perm.
Definition S_IFMT : Z := 0xF000.
Definition S_IFSOCK : Z := 0xC000.
Definition S_IFLNK : Z := 0xA000.
Definition S_IFREG : Z := 0x8000.
Definition S_IFBLK : Z := 0x6000.
Definition S_IFDIR : Z := 0x4000.
Definition S_IFCHR : Z := 0x2000.
Definition S_IFIFO : Z := 0x1000.
Definition S_ISUID : Z := 0x800.
Definition S_ISGID : Z := 0x400.
Definition S_ISVTX : Z := 0x200.
Definition S_IRWXU : Z := 0x1C0.
Definition S_IRUSR : Z := 0x100.
Definition S_IWUSR : Z := 0x80.
Definition S_IXUSR : Z := 0x40.
Definition S_IRWXG : Z := 0x38.
Definition S_IRGRP : Z := 0x20.
Definition S_IWGRP : Z := 0x10.
Definition S_IXGRP : Z := 0x8.
Definition S_IRWXO : Z := 0x7.
Definition S_IROTH : Z := 0x4.
Definition S_IWOTH : Z := 0x2.
Definition S_IXOTH : Z := 0x1.

(** The union of the flags ([all]): every bit of a [u16]. *)
Definition all : Z :=
  foldr Z.lor 0
    [S_IFMT; S_IFSOCK; S_IFLNK; S_IFREG; S_IFBLK; S_IFDIR; S_IFCHR; S_IFIFO;
     S_ISUID; S_ISGID; S_ISVTX; S_IRWXU; S_IRUSR; S_IWUSR; S_IXUSR; S_IRWXG;
     S_IRGRP; S_IWGRP; S_IXGRP; S_IRWXO; S_IROTH; S_IWOTH; S_IXOTH].

Definition from_bits_truncate (b : Z) : Z := Z.land b all.
Definition from_bits (b : Z) : option Z :=
  if Z.land b (Z.ldiff 0xFFFF all) =? 0 then Some b else None.
Definition contains (p f : Z) : bool := Z.land p f =? f.
Definition union (p f : Z) : Z := Z.lor p f.
Definition remove (p f : Z) : Z := Z.ldiff p f.

Lemma from_bits_truncate_u16 b : is_u16 b -> from_bits_truncate b = b.
Proof.
  intros H. unfold from_bits_truncate. change all with (Z.ones 16).
  rewrite Z.land_ones by lia. by apply w16_small.
Qed.

Lemma from_bits_u16 b : from_bits b = Some b.
Proof. unfold from_bits. change (Z.ldiff 0xFFFF all) with 0. by rewrite Z.land_0_r. Qed.

Lemma contains_spec p f :
  contains p f = true <->
  (forall i, 0 <= i -> Z.testbit f i = true -> Z.testbit p i = true).
Proof. unfold contains. rewrite Z.eqb_eq. apply land_eq_l_iff. Qed.

Lemma union_u16 a b : is_u16 a -> is_u16 b -> is_u16 (union a b).
Proof.
  unfold is_u16, union. intros Ha Hb. split; [apply Z.lor_nonneg; lia|].
  apply Z.log2_lt_cancel. rewrite Z.log2_lor by lia. change (Z.log2 (2 ^ 16)) with 16.
  assert (L : forall x, 0 <= x < 2 ^ 16 -> Z.log2 x < 16).
  { intros x Hx. destruct (decide (x = 0)) as [->|]; [done|].
    apply Z.log2_lt_pow2; lia. }
  apply Z.max_lub_lt; by apply L.
Qed.

Lemma land_u16 a b : is_u16 a -> 0 <= b -> is_u16 (Z.land a b).
Proof.
  unfold is_u16. intros Ha Hb. split; [apply Z.land_nonneg; lia|].
  destruct (decide (Z.land a b = 0)) as [->|Hne]; [done|].
  apply Z.log2_lt_cancel. change (Z.log2 (2 ^ 16)) with 16.
  pose proof (Z.log2_land a b ltac:(lia) ltac:(lia)) as HL.
  assert (Z.log2 a < 16); [|lia].
  destruct (decide (a = 0)) as [->|]; [done|]. apply Z.log2_lt_pow2; lia.
Qed.

Lemma remove_u16 a b : is_u16 a -> is_u16 (remove a b).
Proof.
  unfold is_u16, remove. intros Ha.
  assert (0 <= Z.ldiff a b) by (apply Z.ldiff_nonneg; lia).
  rewrite <- sub_land_ldiff in *.
  assert (0 <= Z.land a b) by (apply Z.land_nonneg; lia). lia.
Qed.
End Perm.

#[export] Hint Resolve Perm.union_u16 Perm.remove_u16 : fs.

(** ** File types *)

Inductive DbfsFileType :=
  | NamedPipe | CharDevice | BlockDevice | Directory | RegularFile | Symlink | Socket.

#[export] Instance DbfsFileType_eq_dec : EqDecision DbfsFileType.
Proof. solve_decision. Defined.

(** [impl From<DbfsPermission> for DbfsFileType]; [None] is the panic
    "Invalid file type". *)
Definition file_type_of_perm (p : Z) : option DbfsFileType :=
  if Perm.contains p Perm.S_IFSOCK then Some Socket
  else if Perm.contains p Perm.S_IFLNK then Some Symlink
  else if Perm.contains p Perm.S_IFREG then Some RegularFile
  else if Perm.contains p Perm.S_IFBLK then Some BlockDevice
  else if Perm.contains p Perm.S_IFDIR then Some Directory
  else if Perm.contains p Perm.S_IFCHR then Some CharDevice
  else if Perm.contains p Perm.S_IFIFO then Some NamedPipe
  else None.

(** The type bits of each file type, [S_IF*] of <sys/stat.h>. *)
Definition type_bits (t : DbfsFileType) : Z :=
  match t with
  | Socket => Perm.S_IFSOCK | Symlink => Perm.S_IFLNK | RegularFile => Perm.S_IFREG
  | BlockDevice => Perm.S_IFBLK | Directory => Perm.S_IFDIR
  | CharDevice => Perm.S_IFCHR | NamedPipe => Perm.S_IFIFO
  end.

(** [impl From<&[u8]> for DbfsFileType]. *)
Definition file_type_of_bytes (v : bytes) : option DbfsFileType :=
  if bool_decide (v = bs "p") then Some NamedPipe
  else if bool_decide (v = bs "c") then Some CharDevice
  else if bool_decide (v = bs "b") then Some BlockDevice
  else if bool_decide (v = bs "d") then Some Directory
  else if bool_decide (v = bs "f") then Some RegularFile
  else if bool_decide (v = bs "l") then Some Symlink
  else if bool_decide (v = bs "s") then Some Socket
  else None.

Inductive XattrNamespace := NsSecurity | NsSystem | NsTrusted | NsUser.

(** ** Time stamps *)

Record DbfsTimeSpec := TimeSpec { sec : Z; nsec : Z }.

(** [DbfsTimeSpec::default]. *)
Definition time_default : DbfsTimeSpec := TimeSpec 0 0.

Definition time_ok (t : DbfsTimeSpec) : Prop := is_u64 (sec t) /\ is_u32 (nsec t).

(** [DbfsTimeSpec::to_be_bytes]. *)
Definition time_to_be_bytes (t : DbfsTimeSpec) : bytes :=
  u64_be (sec t) ++ u32_be (nsec t).

(** [impl From<&[u8]> for DbfsTimeSpec] and the macro [dbfs_time_spec!]:
    the slices [0..8] and [8..12] must exist. *)
Definition time_of_bytes (v : bytes) : option DbfsTimeSpec :=
  s ← slice v 0 8; n ← slice v 8 12;
  s ← u64_of s; n ← u32_of n; Some (TimeSpec s n).

Lemma time_roundtrip t rest :
  time_ok t -> time_of_bytes (time_to_be_bytes t ++ rest) = Some t.
Proof.
  intros [Hs Hn]. unfold time_of_bytes, time_to_be_bytes.
  pose proof (zlen_nonneg rest).
  rewrite slice_ok by (rewrite ?zlen_app; unfold u64_be, u32_be; rewrite ?zlen_to_be; lia).
  rewrite slice_ok by (rewrite ?zlen_app; unfold u64_be, u32_be; rewrite ?zlen_to_be; lia).
  cbn [mbind option_bind].
  replace (take (Z.to_nat (8 - 0)) _) with (u64_be (sec t)).
  2: { rewrite drop_0, <- app_assoc. unfold u64_be. rewrite take_app_le by lens.
       rewrite take_ge by lens. done. }
  replace (take (Z.to_nat (12 - 8)) _) with (u32_be (nsec t)).
  2: { rewrite <- app_assoc. rewrite drop_app_ge by (unfold u64_be; lens).
       unfold u64_be at 1. rewrite length_to_be, drop_0.
       unfold u32_be. rewrite take_app_le by lens. by rewrite take_ge by lens. }
  rewrite u64_of_be, u32_of_be by done. cbn. by destruct t.
Qed.

Lemma time_of_to t : time_ok t -> time_of_bytes (time_to_be_bytes t) = Some t.
Proof. intros. rewrite <- (app_nil_r (time_to_be_bytes t)). by apply time_roundtrip. Qed.

#[export] Hint Resolve time_of_to : fs.

(** ** Attributes *)

Record DbfsAttr := Attr {
  a_ino : Z; a_size : Z; a_blocks : Z;
  a_atime : DbfsTimeSpec; a_mtime : DbfsTimeSpec; a_ctime : DbfsTimeSpec;
  a_crtime : DbfsTimeSpec; a_kind : DbfsFileType; a_perm : Z; a_nlink : Z;
  a_uid : Z; a_gid : Z; a_rdev : Z; a_blksize : Z; a_padding : Z; a_flags : Z }.

(** [DbfsDirEntry], an entry of [readdir]. *)
Record DbfsDirEntry := DirEntry {
  d_ino : Z; d_offset : Z; d_kind : DbfsFileType; d_name : bytes;
  d_attr : option DbfsAttr }.

(** [DbfsFsStat], the result of [statfs]. *)
Record DbfsFsStat := FsStat {
  f_bsize : Z; f_frsize : Z; f_blocks : Z; f_bfree : Z; f_bavail : Z;
  f_files : Z; f_ffree : Z; f_favail : Z; f_fsid : Z; f_flag : Z;
  f_namemax : Z; f_name : bytes }.

(** ** Keys *)

(** The key of the data slice [num] of a file. *)
Definition generate_data_key_with_number (num : Z) : bytes :=
  bs "zdata:" ++ u32_be num.

(** The key of the directory entry [value]. *)
Definition generate_data_key (value : bytes) : bytes := bs "data:" ++ value.

#[global] Arguments generate_data_key : simpl never.
#[global] Arguments generate_data_key_with_number : simpl never.

Lemma data_key_inj a b : generate_data_key a = generate_data_key b -> a = b.
Proof. apply app_inv_head. Qed.

Lemma slice_key_inj i j :
  is_u32 i -> is_u32 j ->
  generate_data_key_with_number i = generate_data_key_with_number j -> i = j.
Proof. intros Hi Hj H. apply app_inv_head in H. by apply (to_be_inj 4). Qed.

(** Slice keys are ordered as their numbers. *)
Lemma slice_key_blt i j :
  is_u32 i -> is_u32 j ->
  blt (generate_data_key_with_number i) (generate_data_key_with_number j) = (i <? j).
Proof.
  intros Hi Hj. unfold generate_data_key_with_number, u32_be.
  rewrite blt_app_prefix, blt_from_be by lens.
  by rewrite !from_to_be, !Z.mod_small.
Qed.

(** ** The table of interrupted directory reads *)

Record ReadDirInfo := ReadDir { rd_offset : Z; rd_key : bytes }.

Abbreviation readdir_table := (gmap Z ReadDirInfo).

Definition push_readdir_table (ino : Z) (info : ReadDirInfo) (t : readdir_table) :
  readdir_table := <[ino := info]> t.

Definition pop_readdir_table (ino : Z) (t : readdir_table) :
  option ReadDirInfo * readdir_table := (t !! ino, delete ino t).

Definition get_readdir_table (ino : Z) (t : readdir_table) : option ReadDirInfo :=
  t !! ino.
