(* ===== verification/Store.v ===== *)
(** * The database, transactions and the state of the file system

    The file system keeps everything in a [jammdb] database, a library the
    repository only calls: it is a parameter of the model, the class
    [JammDb], whose laws [JammDbLaws] state the documented behaviour the code
    relies on. [MapDb] at the end is a concrete database, used by the
    witnesses and to show that the laws can hold.

    Two small monads carry the code: [Tx] for the body of one transaction
    (the working copy of the database is the state, an error or a panic drops
    it) and [Op] for an entry point of the file system (the state is
    [world]: the committed database, the inode counter
    [DBFS_INODE_NUMBER] and the table [GLOBAL_READDIR_TABLE]). *)

From S2P Require Import Prelude Bytes Common.

(** ** The interface of the database *)

Class JammDb (D : Type) := {
  (** [DB::tx(writable)] and [Tx::commit] may fail. *)
  db_begin : D -> bool -> option JammError;
  db_commit : D -> D -> option JammError;
  (** The buckets of the root: [get_bucket(..).is_ok()], [create_bucket]
      (fails with [BucketExists]), [delete_bucket] (fails with
      [BucketMissing]). *)
  db_has : D -> bytes -> bool;
  db_create : D -> bytes -> option D;
  db_drop : D -> bytes -> option D;
  (** The pairs of a bucket: [get_kv], [put], [delete] (fails with
      [KeyValueMissing]). *)
  db_get : D -> bytes -> bytes -> option bytes;
  db_put : D -> bytes -> bytes -> bytes -> D;
  db_delete : D -> bytes -> bytes -> option D;
  (** [kv_pairs] (or the cursor), [range(lo..hi)] and a cursor after
      [seek(k)]: whether the key exists and the pairs from there on. *)
  db_pairs : D -> bytes -> list (bytes * bytes);
  db_range : D -> bytes -> bytes -> bytes -> list (bytes * bytes);
  db_seek : D -> bytes -> bytes -> bool * list (bytes * bytes) }.

(** The documented behaviour. [put] and [delete] are on a bucket a handle
    exists for. *)
Class JammDbLaws (D : Type) `{JammDb D} : Prop := {
  db_get_missing : forall d b k, db_has d b = false -> db_get d b k = None;
  db_has_put : forall d b k v b', db_has (db_put d b k v) b' = db_has d b';
  db_get_put_eq : forall d b k v,
    db_has d b = true -> db_get (db_put d b k v) b k = Some v;
  db_get_put_ne : forall d b k v b' k',
    b' <> b \/ k' <> k -> db_get (db_put d b k v) b' k' = db_get d b' k';
  db_delete_None : forall d b k, db_delete d b k = None <-> db_get d b k = None;
  db_has_delete : forall d b k d' b',
    db_delete d b k = Some d' -> db_has d' b' = db_has d b';
  db_get_delete_eq : forall d b k d',
    db_delete d b k = Some d' -> db_get d' b k = None;
  db_get_delete_ne : forall d b k d' b' k',
    db_delete d b k = Some d' -> b' <> b \/ k' <> k ->
    db_get d' b' k' = db_get d b' k';
  db_create_None : forall d b, db_create d b = None <-> db_has d b = true;
  db_has_create : forall d b d' b',
    db_create d b = Some d' -> db_has d' b' = bool_decide (b' = b) || db_has d b';
  db_get_create : forall d b d' b' k,
    db_create d b = Some d' ->
    db_get d' b' k = if bool_decide (b' = b) then None else db_get d b' k;
  db_drop_None : forall d b, db_drop d b = None <-> db_has d b = false;
  db_has_drop : forall d b d' b',
    db_drop d b = Some d' -> db_has d' b' = negb (bool_decide (b' = b)) && db_has d b';
  db_get_drop : forall d b d' b' k,
    db_drop d b = Some d' ->
    db_get d' b' k = if bool_decide (b' = b) then None else db_get d b' k;
  db_pairs_sorted : forall d b, StronglySorted key_lt (db_pairs d b).*1;
  db_pairs_elem : forall d b k v, (k, v) ∈ db_pairs d b <-> db_get d b k = Some v;
  db_range_spec : forall d b lo hi,
    db_range d b lo hi =
    filter (fun kv => ble lo kv.1 = true /\ blt kv.1 hi = true) (db_pairs d b);
  db_seek_spec : forall d b k,
    db_seek d b k =
    (bool_decide (is_Some (db_get d b k)),
     filter (fun kv => ble k kv.1 = true) (db_pairs d b)) }.

(** The fault-free store: transactions begin and commits succeed. *)
Class Reliable (D : Type) `{JammDb D} : Prop := {
  begin_ok : forall d w, db_begin d w = None;
  commit_ok : forall d d', db_commit d d' = None }.

(** ** Bodies of transactions *)

(** How the code treats the error of [tx] and of [commit]: [?] or
    [unwrap()]. *)
Inductive on_error := Question | Unwrap.

Definition raise {A} (p : on_error) (e : JammError) : outcome A :=
  match p with Question => Err (from_jamm e) | Unwrap => Panic end.

Definition Tx (D A : Type) : Type := D -> outcome (A * D).

Section tx.
Context {D : Type}.

#[export] Instance tx_ret : MRet (Tx D) := fun A a d => Ok (a, d).
#[export] Instance tx_bind : MBind (Tx D) := fun A B f m d =>
  match m d with
  | Ok (a, d') => f a d'
  | Err e => Err e
  | Panic => Panic
  end.

(** [return Err(e)]: the transaction is dropped. *)
Definition tx_fail {A} (e : DbfsError) : Tx D A := fun d => Err e.
(** [Option::unwrap] and the checks that panic. *)
Definition tx_unwrap {A} (o : option A) : Tx D A := fun d =>
  match o with Some a => Ok (a, d) | None => Panic end.
(** [Result::unwrap]. *)
Definition tx_expect {A} (m : Tx D A) : Tx D A := fun d =>
  match m d with Err _ => Panic | r => r end.
Definition tx_map_err {A} (e : DbfsError) (m : Tx D A) : Tx D A := fun d =>
  match m d with Err _ => Err e | r => r end.
(** A guard that fails with [e]. *)
Definition tx_guard (c : bool) (e : DbfsError) : Tx D unit :=
  if c then mret tt else tx_fail e.
Definition tx_when (c : bool) (m : Tx D unit) : Tx D unit :=
  if c then m else mret tt.

Context `{JammDb D}.

Definition tx_has (b : bytes) : Tx D bool := fun d => Ok (db_has d b, d).

(** A bucket handle is the name of the bucket. *)
Definition get_bucket (b : bytes) : Tx D bytes := fun d =>
  if db_has d b then Ok (b, d) else Err (from_jamm JBucketMissing).
Definition create_bucket (b : bytes) : Tx D bytes := fun d =>
  match db_create d b with
  | Some d' => Ok (b, d')
  | None => Err (from_jamm JBucketExists)
  end.
(** [get_or_create_bucket]. *)
Definition get_or_create_bucket (b : bytes) : Tx D bytes := fun d =>
  if db_has d b then Ok (b, d) else create_bucket b d.
Definition delete_bucket (b : bytes) : Tx D unit := fun d =>
  match db_drop d b with
  | Some d' => Ok (tt, d')
  | None => Err (from_jamm JBucketMissing)
  end.

Definition get_kv (h k : bytes) : Tx D (option bytes) := fun d => Ok (db_get d h k, d).
Definition put (h k v : bytes) : Tx D unit := fun d => Ok (tt, db_put d h k v).
Definition delete (h k : bytes) : Tx D unit := fun d =>
  match db_delete d h k with
  | Some d' => Ok (tt, d')
  | None => Err (from_jamm JKeyValueMissing)
  end.
Definition kv_pairs (h : bytes) : Tx D (list (bytes * bytes)) := fun d =>
  Ok (db_pairs d h, d).
Definition kv_range (h lo hi : bytes) : Tx D (list (bytes * bytes)) := fun d =>
  Ok (db_range d h lo hi, d).

(** [let v = bucket.get_kv(k).unwrap(); let v = conv!(v.value());] *)
Definition read_field {A} (conv : bytes -> option A) (h k : bytes) : Tx D A :=
  v ← get_kv h k; v ← tx_unwrap v; tx_unwrap (conv v).

Definition read_u16 : bytes -> bytes -> Tx D Z := read_field u16_of.
Definition read_u32 : bytes -> bytes -> Tx D Z := read_field u32_of.
Definition read_u64 : bytes -> bytes -> Tx D Z := read_field u64_of.
Definition read_usize : bytes -> bytes -> Tx D Z := read_field usize_of.
Definition read_time : bytes -> bytes -> Tx D DbfsTimeSpec := read_field time_of_bytes.
End tx.

(** ** Entry points *)

Record world (D : Type) := World {
  w_db : D;
  w_next : Z;
  w_dirs : readdir_table }.
Arguments World {D} w_db w_next w_dirs.
Arguments w_db {D} w.
Arguments w_next {D} w.
Arguments w_dirs {D} w.

Definition Op (D A : Type) : Type := world D -> outcome A * world D.

Section op.
Context {D : Type}.

Definition set_db (w : world D) (d : D) : world D := World d (w_next w) (w_dirs w).
Definition set_next (w : world D) (n : Z) : world D := World (w_db w) n (w_dirs w).
Definition set_dirs (w : world D) (t : readdir_table) : world D :=
  World (w_db w) (w_next w) t.

#[export] Instance op_ret : MRet (Op D) := fun A a w => (Ok a, w).
#[export] Instance op_bind : MBind (Op D) := fun A B f m w =>
  match m w with
  | (Ok a, w') => f a w'
  | (Err e, w') => (Err e, w')
  | (Panic, w') => (Panic, w')
  end.

Definition op_fail {A} (e : DbfsError) : Op D A := fun w => (Err e, w).
Definition op_lift {A} (o : outcome A) : Op D A := fun w => (o, w).
Definition op_unwrap {A} (o : option A) : Op D A := op_lift (unwrap o).
Definition op_map_err {A} (e : DbfsError) (m : Op D A) : Op D A := fun w =>
  let '(o, w') := m w in (map_err e o, w').
Definition op_expect {A} (m : Op D A) : Op D A := fun w =>
  match m w with (Err _, w') => (Panic, w') | r => r end.

(** [DBFS_INODE_NUMBER.fetch_add(1)] on a 64-bit [usize], [load], [store]. *)
Definition fetch_next : Op D Z := fun w =>
  (Ok (w_next w), set_next w (w64 (w_next w + 1))).
Definition load_next : Op D Z := fun w => (Ok (w_next w), w).
Definition store_next (n : Z) : Op D unit := fun w => (Ok tt, set_next w n).

Context `{JammDb D}.

(** [let tx = db.tx(true)..; body; tx.commit()..; Ok(r)]. An error or a
    panic of the body drops the transaction. *)
Definition write_tx {A} (pb pc : on_error) (body : Tx D A) : Op D A := fun w =>
  match db_begin (w_db w) true with
  | Some e => (raise pb e, w)
  | None =>
      match body (w_db w) with
      | Ok (a, d') =>
          match db_commit (w_db w) d' with
          | Some e => (raise pc e, w)
          | None => (Ok a, set_db w d')
          end
      | Err e => (Err e, w)
      | Panic => (Panic, w)
      end
  end.

(** A transaction that ends without [commit]: its changes are lost. *)
Definition dropped_tx {A} (writable : bool) (pb : on_error) (body : Tx D A) : Op D A :=
  fun w =>
    match db_begin (w_db w) writable with
    | Some e => (raise pb e, w)
    | None =>
        match body (w_db w) with
        | Ok (a, _) => (Ok a, w)
        | Err e => (Err e, w)
        | Panic => (Panic, w)
        end
    end.

Definition read_tx {A} : on_error -> Tx D A -> Op D A := dropped_tx false.

(** [db.tx(writable)] alone, before steps outside the database. *)
Definition op_begin (p : on_error) (writable : bool) : Op D unit := fun w =>
  match db_begin (w_db w) writable with Some e => (raise p e, w) | None => (Ok tt, w) end.
End op.

(** ** Entry points whose errors are messages

    The operations called by the [rvfs] crate return [StrResult]: the error
    is a message, [inl]. *)

Definition StrOp (D A : Type) : Type := Op D (bytes + A).

Section str_op.
Context {D : Type}.

Definition str_ret {A} (a : A) : StrOp D A := mret (inr a).
Definition str_err {A} (msg : bytes) : StrOp D A := mret (inl msg).
Definition str_bind {A B} (m : StrOp D A) (f : A -> StrOp D B) : StrOp D B :=
  mbind (M := Op D)
    (fun r : bytes + A => match r with inr a => f a | inl msg => str_err msg end) m.
(** [.map_err(|_| msg)]. *)
Definition str_of {A} (msg : bytes) (m : Op D A) : StrOp D A := fun w =>
  match m w with
  | (Ok a, w') => (Ok (inr a), w')
  | (Err _, w') => (Ok (inl msg), w')
  | (Panic, w') => (Panic, w')
  end.

Lemma str_of_ok {A} msg (m : Op D A) w a w' :
  m w = (Ok a, w') -> str_of msg m w = (Ok (inr a), w').
Proof. intros E. unfold str_of. by rewrite E. Qed.

Lemma str_of_err {A} msg (m : Op D A) w e w' :
  m w = (Err e, w') -> str_of msg m w = (Ok (inl msg), w').
Proof. intros E. unfold str_of. by rewrite E. Qed.

Lemma str_bind_ok {A B} (m : StrOp D A) (f : A -> StrOp D B) w a w' :
  m w = (Ok (inr a), w') -> str_bind m f w = f a w'.
Proof. intros E. unfold str_bind, mbind, op_bind. by rewrite E. Qed.

Lemma str_bind_msg {A B} (m : StrOp D A) (f : A -> StrOp D B) w msg w' :
  m w = (Ok (inl msg), w') -> str_bind m f w = (Ok (inl msg), w').
Proof. intros E. unfold str_bind, mbind, op_bind. by rewrite E. Qed.
End str_op.

Notation "x <-- m ; f" := (str_bind m (fun x => f))
  (at level 20, m at level 100, f at level 200, right associativity).

(** ** Reasoning about transactions *)

Section tx_facts.
Context {D : Type}.
Implicit Types d : D.

Lemma tx_bind_ok {A B} (m : Tx D A) (f : A -> Tx D B) d a d' :
  m d = Ok (a, d') -> (m ≫= f) d = f a d'.
Proof. intros E. unfold mbind, tx_bind. by rewrite E. Qed.

Lemma tx_bind_err {A B} (m : Tx D A) (f : A -> Tx D B) d e :
  m d = Err e -> (m ≫= f) d = Err e.
Proof. intros E. unfold mbind, tx_bind. by rewrite E. Qed.

Lemma tx_bind_panic {A B} (m : Tx D A) (f : A -> Tx D B) d :
  m d = Panic -> (m ≫= f) d = Panic.
Proof. intros E. unfold mbind, tx_bind. by rewrite E. Qed.

(** A body that returns has run its first step and then the rest. *)
Lemma tx_bind_inv {A B} (m : Tx D A) (f : A -> Tx D B) d b d'' :
  (m ≫= f) d = Ok (b, d'') ->
  exists a d', m d = Ok (a, d') /\ f a d' = Ok (b, d'').
Proof.
  unfold mbind, tx_bind. destruct (m d) as [[a d']| |] eqn:E; [|done|done].
  intros H. by exists a, d'.
Qed.

Lemma tx_guard_true e d : tx_guard true e d = Ok (tt, d).
Proof. done. Qed.

Lemma tx_unwrap_some {A} (a : A) d : tx_unwrap (Some a) d = Ok (a, d).
Proof. done. Qed.

Context `{JammDbLaws D}.

Lemma get_bucket_ok d b : db_has d b = true -> get_bucket b d = Ok (b, d).
Proof. intros E. unfold get_bucket. by rewrite E. Qed.

Lemma get_bucket_missing d b : db_has d b = false -> get_bucket b d = Err NoData.
Proof. intros E. unfold get_bucket. by rewrite E. Qed.

Lemma tx_expect_ok {A} (m : Tx D A) d r : m d = Ok r -> tx_expect m d = Ok r.
Proof. intros E. unfold tx_expect. by rewrite E. Qed.

Lemma read_field_ok {A} (conv : bytes -> option A) d h k v x :
  db_get d h k = Some v -> conv v = Some x -> read_field conv h k d = Ok (x, d).
Proof.
  intros E Ec. unfold read_field, mbind, tx_bind, get_kv. rewrite E. cbn. by rewrite Ec.
Qed.

Lemma delete_ok d h k d' : db_delete d h k = Some d' -> delete h k d = Ok (tt, d').
Proof. intros E. unfold delete. by rewrite E. Qed.

Lemma db_has_some d b k v : db_get d b k = Some v -> db_has d b = true.
Proof.
  intros E. destruct (db_has d b) eqn:Hb; [done|].
  by rewrite db_get_missing in E.
Qed.

Lemma db_delete_some d b k v :
  db_get d b k = Some v -> exists d', db_delete d b k = Some d'.
Proof.
  intros E. destruct (db_delete d b k) as [d'|] eqn:Hd; [by exists d'|].
  apply db_delete_None in Hd. congruence.
Qed.

Lemma db_drop_some d b :
  db_has d b = true -> exists d', db_drop d b = Some d'.
Proof.
  intros E. destruct (db_drop d b) as [d'|] eqn:Hd; [by exists d'|].
  apply db_drop_None in Hd. congruence.
Qed.

Lemma db_create_some d b :
  db_has d b = false -> exists d', db_create d b = Some d'.
Proof.
  intros E. destruct (db_create d b) as [d'|] eqn:Hd; [by exists d'|].
  apply db_create_None in Hd. congruence.
Qed.

Lemma db_get_put_key d b k v b' k' :
  k' <> k -> db_get (db_put d b k v) b' k' = db_get d b' k'.
Proof. intros. apply db_get_put_ne. by right. Qed.

Lemma db_get_put_bucket d b k v b' k' :
  b' <> b -> db_get (db_put d b k v) b' k' = db_get d b' k'.
Proof. intros. apply db_get_put_ne. by left. Qed.

Lemma db_get_put d b k v b' k' :
  db_has d b = true ->
  db_get (db_put d b k v) b' k' =
  if bool_decide (b' = b /\ k' = k) then Some v else db_get d b' k'.
Proof.
  intros Hb. case_bool_decide as E.
  - destruct E as [-> ->]. by apply db_get_put_eq.
  - apply db_get_put_ne. destruct (decide (b' = b)); [|by left].
    right. tauto.
Qed.

(** Deletion, as a table of the remaining pairs. *)
Lemma db_get_delete d b k d' b' k' :
  db_delete d b k = Some d' ->
  db_get d' b' k' = if bool_decide (b' = b /\ k' = k) then None else db_get d b' k'.
Proof.
  intros Hd. case_bool_decide as E.
  - destruct E as [-> ->]. by apply (db_get_delete_eq _ _ _ _ Hd).
  - apply (db_get_delete_ne _ _ _ _ _ _ Hd).
    destruct (decide (b' = b)); [right; tauto|by left].
Qed.
End tx_facts.

#[export] Hint Resolve get_bucket_ok delete_ok : fs.

(** Rewrite lookups through a chain of writes. *)
Ltac db_simpl := repeat first
  [ rewrite db_has_put
  | rewrite db_get_put_key by (first [assumption | key_neq | auto with fs])
  | rewrite db_get_put_bucket by (first [assumption | key_neq | auto with fs])
  | rewrite db_get_put_eq by (rewrite ?db_has_put; first [assumption | auto with fs]) ].

(** Run one step of a transaction whose outcome the context determines. *)
Ltac tx_side := repeat progress (db_simpl);
  first [ eassumption | solve [eauto with fs nocore] | reflexivity ].

Ltac tx_step := first
  [ erewrite tx_bind_ok; [|first
      [ eapply read_field_ok; [tx_side|tx_side]
      | eapply get_bucket_ok; tx_side
      | eapply tx_expect_ok; eapply get_bucket_ok; tx_side
      | reflexivity ]]
  | erewrite tx_bind_ok by (solve [tx_side]) ]; cbv beta.

(** ** Reasoning about entry points *)

Section op_facts.
Context `{JammDb D}.
Implicit Types (w : world D) (d : D).

Lemma op_bind_ok {A B} (m : Op D A) (f : A -> Op D B) w a w' :
  m w = (Ok a, w') -> (m ≫= f) w = f a w'.
Proof. intros E. unfold mbind, op_bind. by rewrite E. Qed.

Lemma op_bind_err {A B} (m : Op D A) (f : A -> Op D B) w e w' :
  m w = (Err e, w') -> (m ≫= f) w = (Err e, w').
Proof. intros E. unfold mbind, op_bind. by rewrite E. Qed.

Lemma op_bind_panic {A B} (m : Op D A) (f : A -> Op D B) w w' :
  m w = (Panic, w') -> (m ≫= f) w = (Panic, w').
Proof. intros E. unfold mbind, op_bind. by rewrite E. Qed.

Lemma op_map_err_ok {A} e (m : Op D A) w a w' :
  m w = (Ok a, w') -> op_map_err e m w = (Ok a, w').
Proof. intros E. unfold op_map_err. by rewrite E. Qed.

Lemma op_bind_inv {A B} (m : Op D A) (f : A -> Op D B) w b w'' :
  (m ≫= f) w = (Ok b, w'') ->
  exists a w', m w = (Ok a, w') /\ f a w' = (Ok b, w'').
Proof.
  unfold mbind, op_bind. destruct (m w) as [[a|e|] w'] eqn:E; [|done|done].
  intros Hf. by exists a, w'.
Qed.

Lemma read_tx_ok `{!Reliable D} {A} p (body : Tx D A) w a d :
  body (w_db w) = Ok (a, d) -> read_tx p body w = (Ok a, w).
Proof. intros E. unfold read_tx, dropped_tx. by rewrite begin_ok, E. Qed.

Lemma dropped_tx_ok `{!Reliable D} {A} wr p (body : Tx D A) w a d :
  body (w_db w) = Ok (a, d) -> dropped_tx wr p body w = (Ok a, w).
Proof. intros E. unfold dropped_tx. by rewrite begin_ok, E. Qed.

Lemma dropped_tx_err `{!Reliable D} {A} wr p (body : Tx D A) w e :
  body (w_db w) = Err e -> dropped_tx wr p body w = (Err e, w).
Proof. intros E. unfold dropped_tx. by rewrite begin_ok, E. Qed.

Lemma write_tx_ok `{!Reliable D} {A} pb pc (body : Tx D A) w a d' :
  body (w_db w) = Ok (a, d') -> write_tx pb pc body w = (Ok a, set_db w d').
Proof. intros E. unfold write_tx. by rewrite begin_ok, E, commit_ok. Qed.

Lemma write_tx_err `{!Reliable D} {A} pb pc (body : Tx D A) w e :
  body (w_db w) = Err e -> write_tx pb pc body w = (Err e, w).
Proof. intros E. unfold write_tx. by rewrite begin_ok, E. Qed.

Lemma write_tx_panic `{!Reliable D} {A} pb pc (body : Tx D A) w :
  body (w_db w) = Panic -> write_tx pb pc body w = (Panic, w).
Proof. intros E. unfold write_tx. by rewrite begin_ok, E. Qed.

(** A transaction without commit never changes the database. *)
Lemma dropped_tx_same {A} wr p (body : Tx D A) w : (dropped_tx wr p body w).2 = w.
Proof.
  unfold dropped_tx. destruct (db_begin _ _); [done|].
  by destruct (body _) as [[??]| |].
Qed.

(** ** Atomicity: an entry point that fails leaves the database as it was. *)
Definition failed {A} (o : outcome A) : Prop :=
  match o with Ok _ => False | _ => True end.

Definition readonly {A} (m : Op D A) : Prop := forall w, w_db (m w).2 = w_db w.
Definition atomic {A} (m : Op D A) : Prop :=
  forall w, failed (m w).1 -> w_db (m w).2 = w_db w.
(** [m] returns, in every state, and keeps the database. *)
Definition settled {A} (m : Op D A) : Prop :=
  forall w, ~ failed (m w).1 /\ w_db (m w).2 = w_db w.

Lemma readonly_atomic {A} (m : Op D A) : readonly m -> atomic m.
Proof. intros Hm w _. apply Hm. Qed.

Lemma readonly_dropped {A} wr p (body : Tx D A) : readonly (dropped_tx wr p body).
Proof. intros w. by rewrite dropped_tx_same. Qed.

Lemma atomic_write {A} pb pc (body : Tx D A) : atomic (write_tx pb pc body).
Proof.
  intros w. unfold write_tx. destruct (db_begin _ _); [done|].
  destruct (body _) as [[??]| |]; [|done|done]. by destruct (db_commit _ _).
Qed.

Lemma readonly_ret {A} (a : A) : readonly (mret a : Op D A).
Proof. by intros w. Qed.
Lemma readonly_fail {A} e : readonly (op_fail e : Op D A).
Proof. by intros w. Qed.
Lemma readonly_lift {A} (o : outcome A) : readonly (op_lift o : Op D A).
Proof. by intros w. Qed.
Lemma readonly_fetch : readonly (fetch_next (D := D)).
Proof. by intros w. Qed.
Lemma readonly_load : readonly (load_next (D := D)).
Proof. by intros w. Qed.

Lemma readonly_map_err {A} e (m : Op D A) : readonly m -> readonly (op_map_err e m).
Proof. intros Hm w. unfold op_map_err. specialize (Hm w). by destruct (m w). Qed.

Lemma atomic_map_err {A} e (m : Op D A) : atomic m -> atomic (op_map_err e m).
Proof.
  intros Hm w. unfold op_map_err. specialize (Hm w).
  destruct (m w) as [[]]; simpl in *; auto.
Qed.

Lemma readonly_bind {A B} (m : Op D A) (f : A -> Op D B) :
  readonly m -> (forall a, readonly (f a)) -> readonly (m ≫= f).
Proof.
  intros Hm Hf w. unfold mbind, op_bind. specialize (Hm w).
  destruct (m w) as [[a| |] w']; simpl in *; [|done|done].
  by rewrite Hf.
Qed.

Lemma atomic_bind {A B} (m : Op D A) (f : A -> Op D B) :
  readonly m -> (forall a, atomic (f a)) -> atomic (m ≫= f).
Proof.
  intros Hm Hf w. unfold mbind, op_bind. specialize (Hm w).
  destruct (m w) as [[a| |] w']; simpl in *; [|done|done].
  intros Hx. by rewrite Hf.
Qed.

Lemma settled_ret {A} (a : A) : settled (mret a : Op D A).
Proof. intros w. split; [by intros []|done]. Qed.

(** A commit followed by steps that always return is atomic. *)
Lemma atomic_bind_settled {A B} (m : Op D A) (f : A -> Op D B) :
  atomic m -> (forall a, settled (f a)) -> atomic (m ≫= f).
Proof.
  intros Hm Hf w. unfold mbind, op_bind. specialize (Hm w).
  destruct (m w) as [[a| |] w']; simpl in *; [|by apply Hm|by apply Hm].
  intros Hx. by destruct (Hf a w') as [[] _].
Qed.
End op_facts.

#[export] Hint Resolve readonly_dropped atomic_write readonly_ret readonly_fail
  readonly_lift readonly_fetch readonly_load readonly_map_err atomic_map_err
  settled_ret : fs.

(** Prove [readonly] and [atomic] by the structure of the code. *)
Ltac op_atomic := repeat match goal with
  | |- readonly (mbind _ _) => apply readonly_bind; [|intros ?]
  | |- readonly (match ?x with _ => _ end) => destruct x
  | |- readonly (read_tx _ _) => apply readonly_dropped
  | |- readonly (op_map_err _ _) => apply readonly_map_err
  | |- readonly _ => solve [auto with fs]
  | |- settled _ => solve [auto with fs]
  | |- atomic (match ?x with _ => _ end) => destruct x
  | |- atomic (mbind _ _) =>
      first [ apply atomic_bind; [solve [op_atomic]|intros ?]
            | apply atomic_bind_settled; [|intros ?] ]
  | |- atomic (write_tx _ _ _) => apply atomic_write
  | |- atomic (op_fail _) => apply readonly_atomic, readonly_fail
  | |- atomic (mret _) => apply readonly_atomic, readonly_ret
  | |- atomic (op_lift _) => apply readonly_atomic, readonly_lift
  | |- atomic (op_map_err _ _) => apply atomic_map_err
  | |- atomic _ => solve [auto with fs]
  end.
