(* ===== verification/MapDb.v ===== *)
(** * A concrete database

    A map from bucket names to maps from keys to values, with the pairs of a
    bucket listed in key order. It satisfies [JammDbLaws] and is
    [Reliable]; the witnesses of the development run on it. *)

From S2P Require Import Prelude Bytes Common Store.

Abbreviation mapdb := (gmap bytes (gmap bytes bytes)).

Section pairs.
Context {V : Type}.

Definition pair_le (x y : bytes * V) : Prop := ble x.1 y.1 = true.

#[export] Instance pair_le_dec : RelDecision pair_le.
Proof. intros x y. unfold pair_le. apply _. Defined.

#[export] Instance pair_le_trans : Transitive pair_le.
Proof.
  intros [x ?] [y ?] [z ?]. unfold pair_le, ble. cbn. rewrite !negb_true_iff.
  intros H1 H2. destruct (blt z x) eqn:E; [|done].
  destruct (blt x y) eqn:E1.
  - by rewrite (blt_trans z x y) in H2.
  - by rewrite (blt_total x y E1 H1), H2 in E.
Qed.

#[export] Instance pair_le_total : Total pair_le.
Proof.
  intros [x ?] [y ?]. unfold pair_le, ble. cbn. rewrite !negb_true_iff.
  destruct (blt y x) eqn:E; [|by left]. right.
  destruct (blt x y) eqn:E2; [|done].
  by rewrite <- (blt_irrefl x), (blt_trans x y x).
Qed.

(** Sorting pairs with distinct keys gives strictly increasing keys. *)
Lemma sorted_keys_strict (l : list (bytes * V)) :
  NoDup l.*1 -> StronglySorted pair_le l -> StronglySorted key_lt l.*1.
Proof.
  induction l as [|[k v] l IH]; cbn; intros Hnd Hs; [constructor|].
  apply NoDup_cons in Hnd as [Hk Hnd]. apply StronglySorted_inv in Hs as [Hs Hall].
  constructor; [by apply IH|]. apply Forall_fmap, Forall_forall.
  intros [k' v'] Hin. cbn. pose proof (proj1 (Forall_forall _ _) Hall _ Hin) as Hle.
  unfold pair_le, ble, key_lt in *. cbn in Hle. apply negb_true_iff in Hle.
  destruct (blt k k') eqn:E; [done|]. destruct Hk.
  rewrite (blt_total k k' E Hle). apply list_elem_of_fmap. by exists (k', v').
Qed.

(** The pairs of a map in the order of their keys. *)
Definition sorted_pairs (m : gmap bytes V) : list (bytes * V) := merge_sort pair_le (map_to_list m).

Lemma sorted_pairs_elem m k v : (k, v) ∈ sorted_pairs m <-> m !! k = Some v.
Proof. unfold sorted_pairs. rewrite merge_sort_Permutation. apply elem_of_map_to_list. Qed.

Lemma sorted_pairs_sorted m : StronglySorted key_lt (sorted_pairs m).*1.
Proof.
  apply sorted_keys_strict.
  - unfold sorted_pairs. rewrite merge_sort_Permutation. apply NoDup_fst_map_to_list.
  - apply (StronglySorted_merge_sort pair_le).
Qed.

(** Two lists in strict key order with the same pairs are one. *)
Lemma sorted_pairs_unique (l1 l2 : list (bytes * V)) :
  StronglySorted key_lt l1.*1 -> StronglySorted key_lt l2.*1 ->
  (forall x, x ∈ l1 <-> x ∈ l2) -> l1 = l2.
Proof.
  revert l2. induction l1 as [|[k1 v1] l1 IH]; intros [|[k2 v2] l2] H1 H2 Hin; [done| | |].
  - exfalso. apply (not_elem_of_nil (k2, v2)), Hin. by left.
  - exfalso. apply (not_elem_of_nil (k1, v1)), Hin. by left.
  - cbn in H1, H2. apply StronglySorted_inv in H1 as [H1 A1], H2 as [H2 A2].
    rewrite Forall_forall in A1, A2.
    assert (E : (k1, v1) = (k2, v2)).
    { destruct (proj1 (elem_of_cons _ _ _) (proj1 (Hin (k1, v1)) ltac:(by left))) as [E|Ha]; [done|].
      destruct (proj1 (elem_of_cons _ _ _) (proj2 (Hin (k2, v2)) ltac:(by left))) as [E|Hb]; [done|].
      exfalso. assert (L1 : key_lt k2 k1) by (apply A2, list_elem_of_fmap; by exists (k1, v1)).
      assert (L2 : key_lt k1 k2) by (apply A1, list_elem_of_fmap; by exists (k2, v2)).
      apply (irreflexivity key_lt k1). by transitivity k2. }
    injection E as <- <-. f_equal. apply IH; [done..|]. intros x. split; intros Hx.
    + destruct (proj1 (elem_of_cons _ _ _) (proj1 (Hin x) ltac:(by right))) as [->|?]; [|done].
      exfalso. apply (irreflexivity key_lt k1), A1, list_elem_of_fmap. by exists (k1, v1).
    + destruct (proj1 (elem_of_cons _ _ _) (proj2 (Hin x) ltac:(by right))) as [->|?]; [|done].
      exfalso. apply (irreflexivity key_lt k1), A2, list_elem_of_fmap. by exists (k1, v1).
Qed.
End pairs.

Definition map_get (d : mapdb) (b k : bytes) : option bytes := d !! b ≫= (.!! k).

Definition map_pairs (d : mapdb) (b : bytes) : list (bytes * bytes) :=
  sorted_pairs (default ∅ (d !! b)).

#[export] Instance mapdb_jammdb : JammDb mapdb := {
  db_begin _ _ := None;
  db_commit _ _ := None;
  db_has d b := bool_decide (is_Some (d !! b));
  db_create d b := match d !! b with Some _ => None | None => Some (<[b := ∅]> d) end;
  db_drop d b := match d !! b with Some _ => Some (base.delete b d) | None => None end;
  db_get := map_get;
  db_put d b k v := alter <[k := v]> b d;
  db_delete d b k :=
    match map_get d b k with Some _ => Some (alter (base.delete k) b d) | None => None end;
  db_pairs := map_pairs;
  db_range d b lo hi :=
    filter (fun kv => ble lo kv.1 = true /\ blt kv.1 hi = true) (map_pairs d b);
  db_seek d b k :=
    (bool_decide (is_Some (map_get d b k)),
     filter (fun kv => ble k kv.1 = true) (map_pairs d b)) }.

#[export] Instance mapdb_reliable : Reliable mapdb.
Proof. by split. Qed.

Lemma map_get_alter_ne d b f b' k :
  b' <> b -> map_get (alter f b d) b' k = map_get d b' k.
Proof. intros. unfold map_get. by rewrite lookup_alter_ne. Qed.

Lemma map_get_alter_eq d b f k :
  map_get (alter f b d) b k = (f <$> d !! b) ≫= (.!! k).
Proof. unfold map_get. by rewrite lookup_alter_eq. Qed.

Lemma map_has_alter (d : mapdb) b f b' :
  bool_decide (is_Some (alter f b d !! b')) = bool_decide (is_Some (d !! b')).
Proof.
  apply bool_decide_ext. destruct (decide (b' = b)) as [->|].
  - rewrite lookup_alter_eq. by rewrite fmap_is_Some.
  - by rewrite lookup_alter_ne.
Qed.

Lemma map_pairs_sorted d b : StronglySorted key_lt (map_pairs d b).*1.
Proof. apply sorted_pairs_sorted. Qed.

Lemma map_pairs_elem d b k v : (k, v) ∈ map_pairs d b <-> map_get d b k = Some v.
Proof.
  unfold map_pairs. rewrite sorted_pairs_elem. unfold map_get.
  destruct (d !! b); cbn; [done|]. by rewrite lookup_empty.
Qed.

#[export] Instance mapdb_laws : JammDbLaws mapdb.
Proof.
  split; cbn.
  - intros d b k Hb. apply bool_decide_eq_false in Hb. unfold map_get.
    destruct (d !! b); [destruct Hb; by eexists|done].
  - intros. apply map_has_alter.
  - intros d b k v Hb. apply bool_decide_eq_true in Hb as [m Hm].
    rewrite map_get_alter_eq, Hm. cbn. by rewrite lookup_insert_eq.
  - intros d b k v b' k' Hne. destruct (decide (b' = b)) as [->|].
    + rewrite map_get_alter_eq. unfold map_get. destruct (d !! b); cbn; [|done].
      rewrite lookup_insert_ne; [done|]. intros ->. by destruct Hne.
    + by apply map_get_alter_ne.
  - intros d b k. by destruct (map_get d b k).
  - intros d b k d' b' Hd. destruct (map_get d b k); [|done].
    injection Hd as <-. apply map_has_alter.
  - intros d b k d' Hd. destruct (map_get d b k); [|done].
    injection Hd as <-. rewrite map_get_alter_eq.
    destruct (d !! b); cbn; [|done]. by rewrite lookup_delete_eq.
  - intros d b k d' b' k' Hd Hne. destruct (map_get d b k); [|done].
    injection Hd as <-. destruct (decide (b' = b)) as [->|]; [|by apply map_get_alter_ne].
    rewrite map_get_alter_eq. unfold map_get. destruct (d !! b); cbn; [|done].
    rewrite lookup_delete_ne; [done|]. intros ->. by destruct Hne.
  - intros d b. rewrite bool_decide_eq_true. by destruct (d !! b).
  - intros d b d' b' Hd. destruct (d !! b) eqn:Eb; [done|]. injection Hd as <-.
    destruct (decide (b' = b)) as [->|].
    + rewrite lookup_insert_eq, (bool_decide_eq_true_2 (b = b)) by done.
      by rewrite bool_decide_eq_true_2 by (by eexists).
    + by rewrite lookup_insert_ne, (bool_decide_eq_false_2 (b' = b)).
  - intros d b d' b' k Hd. destruct (d !! b) eqn:Eb; [done|]. injection Hd as <-.
    unfold map_get. case_bool_decide as E.
    + subst. rewrite lookup_insert_eq. cbn. apply lookup_empty.
    + by rewrite lookup_insert_ne.
  - intros d b. rewrite bool_decide_eq_false. destruct (d !! b).
    + split; [done|]. intros []. by eexists.
    + split; [by intros _ []|done].
  - intros d b d' b' Hd. destruct (d !! b) eqn:Eb; [|done]. injection Hd as <-.
    destruct (decide (b' = b)) as [->|].
    + rewrite lookup_delete_eq, (bool_decide_eq_true_2 (b = b)) by done.
      by rewrite bool_decide_eq_false_2 by (by intros []).
    + by rewrite lookup_delete_ne, (bool_decide_eq_false_2 (b' = b)).
  - intros d b d' b' k Hd. destruct (d !! b) eqn:Eb; [|done]. injection Hd as <-.
    unfold map_get. case_bool_decide as E.
    + subst. by rewrite lookup_delete_eq.
    + by rewrite lookup_delete_ne.
  - apply map_pairs_sorted.
  - apply map_pairs_elem.
  - done.
  - done.
Qed.
