(* ===== verification/Access.v ===== *)
(** * Permission checks

    [checkout_access] and [creation_gid] of src/src/inode.rs, and
    [clear_suid_sgid], [parse_xattr_namespace] and [xattr_access_check] of
    src/src/attr.rs: the pure decisions every operation starts with. *)

From S2P Require Import Prelude Bytes Common.

(** [checkout_access]: the [u16] subtractions take away the granted bits. *)
Definition checkout_access (p_uid p_gid mode uid gid access_mask : Z) : bool :=
  if access_mask =? 0 then true
  else
    let permission := mode in
    if uid =? 0 then
      let m := Z.land access_mask 1 in
      let m := m - Z.land m (Z.shiftr permission 6) in
      let m := m - Z.land m (Z.shiftr permission 3) in
      let m := m - Z.land m permission in
      m =? 0
    else
      let m :=
        if p_uid =? uid then access_mask - Z.land access_mask (Z.shiftr permission 6)
        else if p_gid =? gid then access_mask - Z.land access_mask (Z.shiftr permission 3)
        else access_mask - Z.land access_mask permission in
      m =? 0.

(** [creation_gid]. *)
Definition creation_gid (p_gid p_mode gid : Z) : Z :=
  if Perm.contains p_mode Perm.S_ISGID then p_gid else gid.

(** [clear_suid_sgid]. *)
Definition clear_suid_sgid (perm : Z) : Z :=
  let perm := Perm.remove perm Perm.S_ISUID in
  if Perm.contains perm Perm.S_IXGRP then Perm.remove perm Perm.S_ISGID else perm.

(** [str::starts_with]. *)
Definition starts_with (k p : bytes) : bool := bool_decide (take (length p) k = p).

(** [parse_xattr_namespace]. *)
Definition parse_xattr_namespace (key : bytes) : outcome XattrNamespace :=
  if starts_with key (bs "user.") then Ok NsUser
  else if starts_with key (bs "system.") then Ok NsSystem
  else if starts_with key (bs "trusted.") then Ok NsTrusted
  else if starts_with key (bs "security.") then Ok NsSecurity
  else Err NotSupported.

(** The names with a known namespace. *)
Definition is_xattr_key (k : bytes) : bool :=
  match parse_xattr_namespace k with Ok _ => true | _ => false end.

(** [xattr_access_check]. *)
Definition xattr_access_check (key : bytes) (access_mask r_uid r_gid uid gid mode : Z) :
  outcome unit :=
  ns ← parse_xattr_namespace key;
  match ns with
  | NsSecurity =>
      if negb (access_mask =? ACCESS_R_OK) && negb (r_uid =? 0)
      then Err PermissionDenied else Ok tt
  | NsTrusted => if negb (r_uid =? 0) then Err PermissionDenied else Ok tt
  | NsSystem =>
      if bool_decide (key = bs "system.posix_acl_access")
      then if checkout_access uid gid mode r_uid r_gid access_mask
           then Ok tt else Err PermissionDenied
      else if negb (r_uid =? 0) then Err PermissionDenied else Ok tt
  | NsUser =>
      if checkout_access uid gid mode r_uid r_gid access_mask
      then Ok tt else Err PermissionDenied
  end.

(** ** The permission rule of POSIX

    The class of the caller decides which triple of mode bits counts; the
    superuser may read and write anything and execute what somebody may
    execute. *)

Definition class_shift (p_uid p_gid uid gid : Z) : Z :=
  if p_uid =? uid then 6 else if p_gid =? gid then 3 else 0.

Definition posix_grants (p_uid p_gid mode uid gid mask : Z) : Prop :=
  if uid =? 0 then
    Z.testbit mask 0 = true ->
    Z.testbit mode 6 = true \/ Z.testbit mode 3 = true \/ Z.testbit mode 0 = true
  else
    forall i, 0 <= i -> Z.testbit mask i = true ->
    Z.testbit mode (i + class_shift p_uid p_gid uid gid) = true.

Lemma sub_land_eqb_0 m y :
  (m - Z.land m y =? 0) = true <->
  (forall i, 0 <= i -> Z.testbit m i = true -> Z.testbit y i = true).
Proof. rewrite sub_land_ldiff, Z.eqb_eq. apply ldiff_0_iff. Qed.

Lemma testbit_land_1 m i :
  0 <= i -> Z.testbit (Z.land m 1) i = Z.testbit m i && (i =? 0).
Proof.
  intros Hi. rewrite Z.land_spec. by destruct i.
Qed.

(** The superuser's rule, from the three subtractions of the code. *)
Lemma root_exec_rule mask mode :
  (let m := Z.land mask 1 in
   let m := m - Z.land m (Z.shiftr mode 6) in
   let m := m - Z.land m (Z.shiftr mode 3) in
   let m := m - Z.land m mode in m =? 0) = true <->
  (Z.testbit mask 0 = true ->
   Z.testbit mode 6 = true \/ Z.testbit mode 3 = true \/ Z.testbit mode 0 = true).
Proof.
  cbv zeta. rewrite sub_land_eqb_0, !sub_land_ldiff.
  assert (E : forall i, 0 <= i ->
    Z.testbit (Z.ldiff (Z.ldiff (Z.land mask 1) (Z.shiftr mode 6)) (Z.shiftr mode 3)) i =
    (Z.testbit mask i && (i =? 0)) && negb (Z.testbit mode (i + 6))
      && negb (Z.testbit mode (i + 3))).
  { intros i Hi. by rewrite !Z.ldiff_spec, testbit_land_1, !Z.shiftr_spec. }
  split.
  - intros H Hm. specialize (H 0 ltac:(lia)). rewrite E, Hm, !Z.add_0_l in H by lia.
    destruct (Z.testbit mode 6); [by left|].
    destruct (Z.testbit mode 3); [by right; left|]. right; right. by apply H.
  - intros H i Hi. rewrite E by done.
    destruct (Z.eqb_spec i 0) as [->|]; [|by rewrite andb_false_r].
    change (0 + 6) with 6. change (0 + 3) with 3.
    destruct (Z.testbit mask 0); [|done].
    destruct H as [E1|[E1|E1]]; [done| | |];
      rewrite E1, ?andb_false_r; done.
Qed.

Lemma checkout_access_iff p_uid p_gid mode uid gid mask :
  checkout_access p_uid p_gid mode uid gid mask = true <->
  posix_grants p_uid p_gid mode uid gid mask.
Proof.
  unfold checkout_access, posix_grants, class_shift.
  destruct (Z.eqb_spec mask 0) as [->|Hm].
  { destruct (uid =? 0).
    - by rewrite Z.bits_0.
    - split; [|done]. intros _ i _. by rewrite Z.bits_0. }
  destruct (uid =? 0); [apply root_exec_rule|]. cbv zeta.
  destruct (p_uid =? uid); [|destruct (p_gid =? gid)]; rewrite sub_land_eqb_0;
    split; intros H i Hi Hb; specialize (H i Hi Hb);
    rewrite ?Z.shiftr_spec, ?Z.add_0_r in * by done; done.
Qed.

(** C35: [checkout_access] grants a request exactly when the POSIX rule for
    the caller's class does: the owner's bits for the owner, else the
    group's bits for the group, else the others' bits; and the superuser is
    refused only execution of what nobody may execute. *)
Theorem checkout_access_posix p_uid p_gid mode uid gid mask :
  checkout_access p_uid p_gid mode uid gid mask = true <->
  posix_grants p_uid p_gid mode uid gid mask.
Proof. apply checkout_access_iff. Qed.

(** Permission and file-type bits above the low nine do not matter for the
    masks the file system uses: masking the mode with [0o777] changes
    nothing. *)
Lemma checkout_access_low_bits p_uid p_gid mode uid gid mask :
  0 <= mask < 8 ->
  checkout_access p_uid p_gid (Z.land mode 0x1FF) uid gid mask =
  checkout_access p_uid p_gid mode uid gid mask.
Proof.
  intros Hm.
  assert (HB : forall i, 0 <= i < 9 -> Z.testbit (Z.land mode 0x1FF) i = Z.testbit mode i).
  { intros i Hi. rewrite Z.land_spec. change 0x1FF with (Z.ones 9).
    rewrite Z.ones_spec_low by done. apply andb_true_r. }
  assert (HM : forall i, Z.testbit mask i = true -> i < 3).
  { intros i Hi. destruct (Z_lt_ge_dec i 3) as [|Hge]; [done|].
    rewrite Z.bits_above_log2 in Hi; [done|lia|].
    destruct (decide (mask = 0)) as [->|]; [cbn; lia|].
    assert (Z.log2 mask < 3) by (apply Z.log2_lt_pow2; lia). lia. }
  apply eq_true_iff_eq. rewrite !checkout_access_iff. unfold posix_grants.
  destruct (uid =? 0); [by rewrite !HB by lia|].
  unfold class_shift. split; intros H i Hi Hb; specialize (H i Hi Hb); specialize (HM i Hb);
    destruct (p_uid =? uid), (p_gid =? gid); rewrite ?HB in * by lia; done.
Qed.

(** The owner and the superuser of a file with mode [0o200] or more. *)
Lemma checkout_root_write p_uid p_gid mode gid :
  checkout_access p_uid p_gid mode 0 gid ACCESS_W_OK = true.
Proof. apply checkout_access_iff. cbn. done. Qed.

#[export] Hint Resolve checkout_root_write : fs.

(** ** Set-user-ID and set-group-ID bits *)

Lemma testbit_pow2_eqb n i : 0 <= n -> Z.testbit (2 ^ n) i = (n =? i).
Proof. intros. by apply Z.pow2_bits_eqb. Qed.

Lemma contains_pow2 p n : 0 <= n -> Perm.contains p (2 ^ n) = Z.testbit p n.
Proof.
  intros Hn. apply eq_true_iff_eq. rewrite Perm.contains_spec. split.
  - intros H. apply H; [done|]. rewrite testbit_pow2_eqb by done. apply Z.eqb_refl.
  - intros H i Hi. rewrite testbit_pow2_eqb by done. intros E%Z.eqb_eq. by subst.
Qed.

Lemma remove_pow2_spec p n i :
  0 <= n -> 0 <= i -> Z.testbit (Perm.remove p (2 ^ n)) i = Z.testbit p i && negb (i =? n).
Proof.
  intros. unfold Perm.remove. rewrite Z.ldiff_spec, testbit_pow2_eqb by done.
  by rewrite Z.eqb_sym.
Qed.

Lemma clear_suid_sgid_spec perm i :
  0 <= i ->
  Z.testbit (clear_suid_sgid perm) i =
  Z.testbit perm i && negb (i =? 11) && negb ((i =? 10) && Z.testbit perm 3).
Proof.
  intros Hi. unfold clear_suid_sgid.
  change Perm.S_ISUID with (2 ^ 11). change Perm.S_ISGID with (2 ^ 10).
  change Perm.S_IXGRP with (2 ^ 3).
  rewrite contains_pow2, remove_pow2_spec by lia. cbn [Z.eqb negb]. rewrite andb_true_r.
  destruct (Z.testbit perm 3) eqn:E3.
  - rewrite !remove_pow2_spec by lia. by rewrite andb_true_r.
  - rewrite remove_pow2_spec by lia. by rewrite !andb_false_r, !andb_true_r.
Qed.

(** truncation and a change of owner clear the set-user-ID bit always,
    the set-group-ID bit exactly when the group may execute, and touch no
    other bit of the mode. *)
Theorem clear_suid_sgid_bits perm i :
  Z.testbit (clear_suid_sgid perm) i =
  Z.testbit perm i && negb (i =? 11) && negb ((i =? 10) && Z.testbit perm 3).
Proof.
  destruct (Z.leb_spec 0 i); [by apply clear_suid_sgid_spec|].
  by rewrite !(Z.testbit_neg_r _ i).
Qed.

Lemma clear_suid_sgid_u16 p : is_u16 p -> is_u16 (clear_suid_sgid p).
Proof.
  intros. unfold clear_suid_sgid. destruct (Perm.contains _ _); auto with fs.
Qed.

#[export] Hint Resolve clear_suid_sgid_u16 : fs.

(** The file type of a mode is in its four high bits: clearing the
    set-user-ID and set-group-ID bits keeps it. *)
Lemma contains_ext p q f :
  (forall i, 0 <= i -> Z.testbit f i = true -> Z.testbit p i = Z.testbit q i) ->
  Perm.contains p f = Perm.contains q f.
Proof.
  intros H. apply eq_true_iff_eq. rewrite !Perm.contains_spec.
  split; intros Hc i Hi Hf; specialize (H i Hi Hf); specialize (Hc i Hi Hf); congruence.
Qed.

Definition type_masks : list Z :=
  [Perm.S_IFSOCK; Perm.S_IFLNK; Perm.S_IFREG; Perm.S_IFBLK; Perm.S_IFDIR;
   Perm.S_IFCHR; Perm.S_IFIFO].

Lemma type_mask_bits f i :
  f ∈ type_masks -> 0 <= i -> Z.testbit f i = true -> 12 <= i < 16.
Proof.
  intros Hf Hi Hb.
  assert (HA : Forall (fun f => Z.land f 0xF000 = f) type_masks) by repeat constructor.
  rewrite <- (proj1 (Forall_forall _ _) HA f Hf), Z.land_spec in Hb.
  apply andb_true_iff in Hb as [_ Hb].
  change 0xF000 with (15 * 2 ^ 12) in Hb. rewrite Z.mul_pow2_bits in Hb by lia.
  destruct (Z_lt_ge_dec i 12); [rewrite Z.testbit_neg_r in Hb by lia; done|].
  destruct (Z_lt_ge_dec i 16); [lia|].
  rewrite Z.bits_above_log2 in Hb; [done|lia|cbn; lia].
Qed.

Lemma file_type_ext p q :
  (forall i, 12 <= i < 16 -> Z.testbit p i = Z.testbit q i) ->
  file_type_of_perm p = file_type_of_perm q.
Proof.
  intros H.
  assert (Hc : forall f, f ∈ type_masks -> Perm.contains p f = Perm.contains q f).
  { intros f Hf. apply contains_ext. intros i Hi Hb. apply H.
    by apply (type_mask_bits f i). }
  unfold file_type_of_perm.
  by rewrite !Hc by (unfold type_masks; set_solver).
Qed.

Lemma file_type_clear_suid p : file_type_of_perm (clear_suid_sgid p) = file_type_of_perm p.
Proof.
  apply file_type_ext. intros i Hi. rewrite clear_suid_sgid_spec by lia.
  rewrite !Zeqb_ne by lia. cbn. by rewrite !andb_true_r.
Qed.
