(* ===== verification/Tree.v ===== *)
(** * The abstract file system

    What the database of a mounted file system stands for: a finite map from
    inode numbers to nodes, and the free space recorded in the super block.
    A directory's node holds the map from names to inode numbers, a file's
    node its data slices. The refinement theorems of the components relate
    the operations of the code to the operations defined here; the
    well-formedness of a tree ([wf]) is the invariant they preserve. *)

From S2P Require Import Prelude Bytes Common Access.

Record node := Node {
  n_size : Z; n_mode : Z; n_nlink : Z; n_uid : Z; n_gid : Z; n_blksize : Z;
  n_atime : DbfsTimeSpec; n_mtime : DbfsTimeSpec; n_ctime : DbfsTimeSpec;
  n_entries : gmap bytes Z;
  n_target : option bytes;
  n_dev : option Z;
  n_slices : gmap Z bytes;
  n_xattrs : gmap bytes bytes }.

(** ** Updates of one field *)

Definition with_size (z : Z) (n : node) : node :=
  Node z (n_mode n) (n_nlink n) (n_uid n) (n_gid n) (n_blksize n) (n_atime n)
    (n_mtime n) (n_ctime n) (n_entries n) (n_target n) (n_dev n) (n_slices n) (n_xattrs n).
Definition with_mode (z : Z) (n : node) : node :=
  Node (n_size n) z (n_nlink n) (n_uid n) (n_gid n) (n_blksize n) (n_atime n)
    (n_mtime n) (n_ctime n) (n_entries n) (n_target n) (n_dev n) (n_slices n) (n_xattrs n).
Definition with_nlink (z : Z) (n : node) : node :=
  Node (n_size n) (n_mode n) z (n_uid n) (n_gid n) (n_blksize n) (n_atime n)
    (n_mtime n) (n_ctime n) (n_entries n) (n_target n) (n_dev n) (n_slices n) (n_xattrs n).
Definition with_uid (z : Z) (n : node) : node :=
  Node (n_size n) (n_mode n) (n_nlink n) z (n_gid n) (n_blksize n) (n_atime n)
    (n_mtime n) (n_ctime n) (n_entries n) (n_target n) (n_dev n) (n_slices n) (n_xattrs n).
Definition with_gid (z : Z) (n : node) : node :=
  Node (n_size n) (n_mode n) (n_nlink n) (n_uid n) z (n_blksize n) (n_atime n)
    (n_mtime n) (n_ctime n) (n_entries n) (n_target n) (n_dev n) (n_slices n) (n_xattrs n).
Definition with_atime (t : DbfsTimeSpec) (n : node) : node :=
  Node (n_size n) (n_mode n) (n_nlink n) (n_uid n) (n_gid n) (n_blksize n) t
    (n_mtime n) (n_ctime n) (n_entries n) (n_target n) (n_dev n) (n_slices n) (n_xattrs n).
Definition with_mtime (t : DbfsTimeSpec) (n : node) : node :=
  Node (n_size n) (n_mode n) (n_nlink n) (n_uid n) (n_gid n) (n_blksize n) (n_atime n)
    t (n_ctime n) (n_entries n) (n_target n) (n_dev n) (n_slices n) (n_xattrs n).
Definition with_ctime (t : DbfsTimeSpec) (n : node) : node :=
  Node (n_size n) (n_mode n) (n_nlink n) (n_uid n) (n_gid n) (n_blksize n) (n_atime n)
    (n_mtime n) t (n_entries n) (n_target n) (n_dev n) (n_slices n) (n_xattrs n).
Definition with_entries (f : gmap bytes Z -> gmap bytes Z) (n : node) : node :=
  Node (n_size n) (n_mode n) (n_nlink n) (n_uid n) (n_gid n) (n_blksize n) (n_atime n)
    (n_mtime n) (n_ctime n) (f (n_entries n)) (n_target n) (n_dev n) (n_slices n)
    (n_xattrs n).
Definition with_slices (f : gmap Z bytes -> gmap Z bytes) (n : node) : node :=
  Node (n_size n) (n_mode n) (n_nlink n) (n_uid n) (n_gid n) (n_blksize n) (n_atime n)
    (n_mtime n) (n_ctime n) (n_entries n) (n_target n) (n_dev n) (f (n_slices n))
    (n_xattrs n).
Definition with_xattrs (f : gmap bytes bytes -> gmap bytes bytes) (n : node) : node :=
  Node (n_size n) (n_mode n) (n_nlink n) (n_uid n) (n_gid n) (n_blksize n) (n_atime n)
    (n_mtime n) (n_ctime n) (n_entries n) (n_target n) (n_dev n) (n_slices n)
    (f (n_xattrs n)).

(** The modification of a directory or of a file's contents. *)
Definition touch (t : DbfsTimeSpec) (n : node) : node := with_ctime t (with_mtime t n).

Definition node_is_dir (n : node) : bool :=
  bool_decide (file_type_of_perm (n_mode n) = Some Directory).

(** Every field has its width, the mode a file type. *)
Record node_ok (n : node) : Prop := {
  ok_size : is_u64 (n_size n);
  ok_mode : is_u16 (n_mode n);
  ok_nlink : is_u32 (n_nlink n);
  ok_uid : is_u32 (n_uid n);
  ok_gid : is_u32 (n_gid n);
  ok_blksize : is_u32 (n_blksize n);
  ok_blksize_pos : n_blksize n <> 0;
  ok_atime : time_ok (n_atime n);
  ok_mtime : time_ok (n_mtime n);
  ok_ctime : time_ok (n_ctime n);
  ok_type : is_Some (file_type_of_perm (n_mode n));
  ok_entries : forall name ino, n_entries n !! name = Some ino -> is_u64 ino;
  ok_slices : forall i v, n_slices n !! i = Some v -> is_u32 i;
  ok_xattrs : forall k v, n_xattrs n !! k = Some v -> is_xattr_key k = true;
  ok_dev : forall z, n_dev n = Some z -> is_u32 z;
  ok_special : forall t, file_type_of_perm (n_mode n) = Some t ->
    t = CharDevice \/ t = BlockDevice -> is_Some (n_dev n) }.

#[export] Hint Resolve ok_size ok_mode ok_nlink ok_uid ok_gid ok_blksize
  ok_atime ok_mtime ok_ctime : fs.

(** ** Trees *)

Record fs := Fs { f_nodes : gmap Z node; f_free : Z }.

Definition upd (ino : Z) (g : node -> node) (s : fs) : fs :=
  Fs (alter g ino (f_nodes s)) (f_free s).
Definition add_node (ino : Z) (n : node) (s : fs) : fs :=
  Fs (<[ino := n]> (f_nodes s)) (f_free s).
Definition remove_node (ino : Z) (s : fs) : fs :=
  Fs (delete ino (f_nodes s)) (f_free s).
Definition set_free (z : Z) (s : fs) : fs := Fs (f_nodes s) z.

(** The entry [name] of the directory [dir]. *)
Definition entry (s : fs) (dir : Z) (name : bytes) : option Z :=
  n ← f_nodes s !! dir; n_entries n !! name.

Lemma upd_lookup s i g j :
  f_nodes (upd i g s) !! j = (fun n => if decide (j = i) then g n else n) <$> f_nodes s !! j.
Proof.
  cbn. destruct (decide (j = i)) as [->|Hne].
  - by rewrite lookup_alter_eq.
  - rewrite lookup_alter_ne by done. by destruct (f_nodes s !! j).
Qed.

Lemma upd_lookup_eq s i g n :
  f_nodes s !! i = Some n -> f_nodes (upd i g s) !! i = Some (g n).
Proof. intros E. rewrite upd_lookup, E. cbn. by rewrite decide_True. Qed.

Lemma upd_lookup_ne s i g j :
  j <> i -> f_nodes (upd i g s) !! j = f_nodes s !! j.
Proof. intros. cbn. by rewrite lookup_alter_ne. Qed.

Lemma upd_upd s i g g' : upd i g (upd i g' s) = upd i (fun n => g (g' n)) s.
Proof.
  unfold upd. cbn. f_equal. apply map_eq. intros j. destruct (decide (j = i)) as [->|].
  - rewrite !lookup_alter_eq. by destruct (f_nodes s !! i).
  - by rewrite !lookup_alter_ne.
Qed.

Lemma upd_ext s i g g' :
  (forall n, f_nodes s !! i = Some n -> g n = g' n) -> upd i g s = upd i g' s.
Proof.
  intros Hg. unfold upd. f_equal. apply map_eq. intros j.
  destruct (decide (j = i)) as [->|].
  - rewrite !lookup_alter_eq. destruct (f_nodes s !! i) eqn:E; [|done].
    cbn. by rewrite Hg.
  - by rewrite !lookup_alter_ne.
Qed.

Lemma upd_comm s i j g g' : i <> j -> upd i g (upd j g' s) = upd j g' (upd i g s).
Proof.
  intros Hne. unfold upd. cbn. f_equal. apply map_eq. intros k.
  destruct (decide (k = i)) as [->|]; [|destruct (decide (k = j)) as [->|]].
  - rewrite lookup_alter_eq, !(lookup_alter_ne _ _ j i) by done.
    by rewrite lookup_alter_eq.
  - rewrite lookup_alter_eq, !(lookup_alter_ne _ _ i j) by done.
    by rewrite lookup_alter_eq.
  - by rewrite !lookup_alter_ne.
Qed.

(** ** Well-formedness *)

(** [X] is the set of the entries that name [ino]. *)
Definition links (s : fs) (ino : Z) (X : gset (Z * bytes)) : Prop :=
  forall dir name, (dir, name) ∈ X <-> entry s dir name = Some ino.

(** The names of a directory itself and of its parent. *)
Definition dot (name : bytes) : Prop := name = bs "." \/ name = bs "..".

(** [ino] is a directory of the tree. *)
Definition is_dir (s : fs) (ino : Z) : Prop :=
  exists n, f_nodes s !! ino = Some n /\ node_is_dir n = true.

(** - every entry names a node of the tree;
    - the size of a directory is the number of its entries;
    - the link count of a node that is not a directory is the number of
      entries that name it, and is not zero: no node is lost and none is
      dropped too early;
    - only directories have entries;
    - a directory's [.] is itself; beside [.] and the [..] of its children it has
      at most one name, which is in the directory its [..] leads to, and one
      with a [..] has such a name (the root has neither). That the directories
      hang together is not said: a directory may be moved below itself. *)
Record wf (s : fs) : Prop := {
  wf_closed : forall dir name ino, entry s dir name = Some ino -> is_Some (f_nodes s !! ino);
  wf_size : forall dir p, f_nodes s !! dir = Some p -> node_is_dir p = true ->
    n_size p = Z.of_nat (size (n_entries p));
  wf_nlink : forall ino n, f_nodes s !! ino = Some n -> node_is_dir n = false ->
    0 < n_nlink n /\ exists X, links s ino X /\ n_nlink n = Z.of_nat (size X);
  wf_entries : forall dir p, f_nodes s !! dir = Some p -> node_is_dir p = false ->
    n_entries p = ∅;
  wf_self : forall dir, is_dir s dir -> entry s dir (bs ".") = Some dir;
  wf_up : forall dir par, entry s dir (bs "..") = Some par ->
    exists name, ~ dot name /\ entry s par name = Some dir;
  wf_down : forall dir name ino, entry s dir name = Some ino -> ~ dot name ->
    is_dir s ino -> entry s ino (bs "..") = Some dir;
  wf_unique : forall dir name name' ino, entry s dir name = Some ino ->
    entry s dir name' = Some ino -> ~ dot name -> ~ dot name' -> is_dir s ino ->
    name = name' }.

(** ** Entries after an update *)

Lemma entry_add s new n dir name :
  entry (add_node new n s) dir name =
  if decide (dir = new) then n_entries n !! name else entry s dir name.
Proof.
  unfold entry. cbn. case_decide as E; [subst; by rewrite lookup_insert_eq|].
  by rewrite lookup_insert_ne.
Qed.

Lemma entry_remove s ino dir name :
  entry (remove_node ino s) dir name = if decide (dir = ino) then None else entry s dir name.
Proof.
  unfold entry. cbn. case_decide as E; [subst; by rewrite lookup_delete_eq|].
  by rewrite lookup_delete_ne.
Qed.

Lemma entry_upd s i g dir name :
  entry (upd i g s) dir name =
  if decide (dir = i) then n ← f_nodes s !! i; n_entries (g n) !! name
  else entry s dir name.
Proof.
  unfold entry. rewrite upd_lookup. case_decide as E; [subst|]; by destruct (f_nodes s !! _).
Qed.

Lemma entry_upd_same s i g dir name :
  (forall n, n_entries (g n) = n_entries n) -> entry (upd i g s) dir name = entry s dir name.
Proof.
  intros Hg. rewrite entry_upd. case_decide as E; [subst|done].
  unfold entry. destruct (f_nodes s !! i); cbn; [by rewrite Hg|done].
Qed.

Lemma entry_some s dir name ino p :
  f_nodes s !! dir = Some p -> entry s dir name = Some ino -> n_entries p !! name = Some ino.
Proof. unfold entry. by intros ->. Qed.

Lemma links_ext s s' ino X :
  (forall dir name, entry s' dir name = Some ino <-> entry s dir name = Some ino) ->
  links s ino X -> links s' ino X.
Proof. intros He HX dir name. etransitivity; [apply HX|symmetry; apply He]. Qed.

Lemma node_is_dir_mode n m : n_mode n = n_mode m -> node_is_dir n = node_is_dir m.
Proof. unfold node_is_dir. by intros ->. Qed.

(** A directory with an entry is a directory. *)
Lemma entry_is_dir s dir name ino : wf s -> entry s dir name = Some ino -> is_dir s dir.
Proof.
  intros Hwf E. unfold entry in E. destruct (f_nodes s !! dir) as [p|] eqn:Ep; [|done].
  exists p. split; [done|]. destruct (node_is_dir p) eqn:Ed; [done|].
  cbn in E. by rewrite (wf_entries _ Hwf _ _ Ep Ed), lookup_empty in E.
Qed.

(** [.] of a directory is itself whatever it is an entry for. *)
Lemma entry_self s dir ino : wf s -> entry s dir (bs ".") = Some ino -> ino = dir.
Proof.
  intros Hwf E. pose proof (entry_is_dir _ _ _ _ Hwf E) as Hd.
  rewrite (wf_self _ Hwf _ Hd) in E. congruence.
Qed.

(** ** Creation keeps a tree well formed *)

Section create.
Variables (s : fs) (new dir : Z) (p n : node) (name : bytes) (g : node -> node).
Hypothesis Hwf : wf s.
Hypothesis Hnew : f_nodes s !! new = None.
Hypothesis Hp : f_nodes s !! dir = Some p.
Hypothesis Hdir : node_is_dir p = true.
Hypothesis Hfree : entry s dir name = None.
Hypothesis Hdot : ~ dot name.
Hypothesis Hge : n_entries (g p) = <[name := new]> (n_entries p).
Hypothesis Hgs : n_size (g p) = n_size p + 1.
Hypothesis Hgm : n_mode (g p) = n_mode p.
(** The new node: a directory with itself and its parent, or a node with
    one link. *)
Hypothesis Hn :
  if node_is_dir n
  then n_entries n = <[bs ".." := dir]> {[bs "." := new]} /\ n_size n = 2
  else n_entries n = ∅ /\ n_nlink n = 1.

Let s' := add_node new n (upd dir g s).

Lemma create_ne : dir <> new.
Proof. congruence. Qed.

Lemma create_entry d nm :
  entry s' d nm =
  if decide (d = new) then n_entries n !! nm
  else if decide (d = dir /\ nm = name) then Some new else entry s d nm.
Proof.
  subst s'. rewrite entry_add. case_decide; [done|]. rewrite entry_upd.
  destruct (decide (d = dir)) as [->|].
  - rewrite Hp. cbn. rewrite Hge. case_decide as E.
    + destruct E as [_ ->]. apply lookup_insert_eq.
    + rewrite lookup_insert_ne by (intros ->; tauto). unfold entry. by rewrite Hp.
  - by rewrite decide_False by tauto.
Qed.

Lemma create_node j m :
  f_nodes s' !! j = Some m ->
  (j = new /\ m = n) \/ (j = dir /\ m = g p) \/
  (j <> new /\ j <> dir /\ f_nodes s !! j = Some m).
Proof.
  subst s'. cbn. destruct (decide (j = new)) as [->|].
  { rewrite lookup_insert_eq. intros [= <-]. by left. }
  rewrite lookup_insert_ne by done. destruct (decide (j = dir)) as [->|].
  { rewrite lookup_alter_eq, Hp. intros [= <-]. right; by left. }
  rewrite lookup_alter_ne by done. intros. by right; right.
Qed.

Lemma create_is_some j : is_Some (f_nodes s !! j) \/ j = new -> is_Some (f_nodes s' !! j).
Proof.
  subst s'. cbn. destruct (decide (j = new)) as [->|].
  { rewrite lookup_insert_eq. by eexists. }
  rewrite lookup_insert_ne by done. intros [[m Hm]|]; [|done].
  destruct (decide (j = dir)) as [->|].
  - rewrite lookup_alter_eq, Hm. by eexists.
  - rewrite lookup_alter_ne by done. by eexists.
Qed.

(** The entries of the new node name itself and its parent. *)
Lemma create_dots nm j :
  n_entries n !! nm = Some j -> node_is_dir n = true /\ (j = new \/ j = dir).
Proof.
  destruct (node_is_dir n); destruct Hn as [-> _]; [|done].
  rewrite lookup_insert_Some, lookup_singleton_Some.
  intros [[_ <-]|[_ [_ <-]]]; (split; [done|]); [by right|by left].
Qed.

Lemma create_closed d nm j : entry s' d nm = Some j -> is_Some (f_nodes s' !! j).
Proof.
  rewrite create_entry. intros E. apply create_is_some. repeat case_decide.
  - apply create_dots in E as [_ [->| ->]]; [by right|left; by eexists].
  - right. congruence.
  - left. by apply (wf_closed _ Hwf d nm).
Qed.

Lemma create_size j m :
  f_nodes s' !! j = Some m -> node_is_dir m = true ->
  n_size m = Z.of_nat (size (n_entries m)).
Proof.
  intros Hj Hm. apply create_node in Hj as [[-> ->]|[[-> ->]|(?&?&Hj)]].
  - rewrite Hm in Hn. destruct Hn as [-> ->].
    rewrite map_size_insert_None by (by rewrite lookup_singleton_ne).
    by rewrite map_size_singleton.
  - rewrite Hgs, Hge, (wf_size _ Hwf _ _ Hp Hdir).
    unfold entry in Hfree. rewrite Hp in Hfree. cbn in Hfree.
    rewrite map_size_insert_None by done. lia.
  - by apply (wf_size _ Hwf j).
Qed.

Lemma create_links j m :
  f_nodes s' !! j = Some m -> node_is_dir m = false ->
  0 < n_nlink m /\ exists X, links s' j X /\ n_nlink m = Z.of_nat (size X).
Proof.
  pose proof create_ne as Hdn. pose proof create_dots as Hdots.
  intros Hj Hm. apply create_node in Hj as [[-> ->]|[[-> ->]|(Hjn&Hjd&Hj)]].
  - rewrite Hm in Hn. destruct Hn as [Hne ->]. split; [done|].
    exists {[(dir, name)]}. rewrite size_singleton. split; [|done].
    intros d nm. rewrite create_entry, elem_of_singleton, Hne. repeat case_decide.
    + subst. rewrite lookup_empty. split; [|done]. intros [= <- _]. by destruct Hdn.
    + naive_solver.
    + split; [naive_solver|]. intros E%(wf_closed _ Hwf). rewrite Hnew in E.
      by destruct E.
  - by rewrite (node_is_dir_mode _ _ Hgm), Hdir in Hm.
  - destruct (wf_nlink _ Hwf _ _ Hj Hm) as (Hpos & X & HX & HsX). split; [done|].
    exists X. split; [|done]. eapply links_ext; [|done].
    intros d nm. rewrite create_entry. repeat case_decide.
    + subst. unfold entry. rewrite Hnew. cbn. split; [|done].
      intros E%Hdots. by destruct E as [_ [?|?]].
    + split; [naive_solver|]. destruct_and!. subst. by rewrite Hfree.
    + done.
Qed.

Lemma create_is_dir j :
  is_dir s' j -> (j = new /\ node_is_dir n = true) \/ (j <> new /\ is_dir s j).
Proof.
  intros (m & Hj & Hm). pose proof create_ne as Hdn.
  apply create_node in Hj as [[-> ->]|[[-> ->]|(?&?&Hj)]]; [by left|right..].
  - split; [done|]. by exists p.
  - split; [done|]. by exists m.
Qed.

(** The entries of the old tree are kept. *)
Lemma create_old d nm j : entry s d nm = Some j -> entry s' d nm = Some j.
Proof.
  intros E. rewrite create_entry. rewrite !decide_False; [done| |].
  - intros [-> ->]. congruence.
  - intros ->. unfold entry in E. by rewrite Hnew in E.
Qed.

(** An entry that is not a dot is the new one or an old one. *)
Lemma create_entry_inv d nm j :
  ~ dot nm -> entry s' d nm = Some j ->
  (d = dir /\ nm = name /\ j = new) \/ (entry s d nm = Some j /\ j <> new).
Proof.
  intros Hd. rewrite create_entry. repeat case_decide.
  - intros E. destruct (node_is_dir n); destruct Hn as [He _]; rewrite He in E; [|done].
    rewrite lookup_insert_Some, lookup_singleton_Some in E. destruct Hd. unfold dot. naive_solver.
  - destruct_and!. intros [= <-]. by left.
  - intros E. right. split; [done|]. intros ->.
    destruct (wf_closed _ Hwf _ _ _ E) as [? E2]. congruence.
Qed.

Lemma create_dotdot : node_is_dir n = true -> entry s' new (bs "..") = Some dir.
Proof.
  intros Hd. rewrite create_entry, decide_True by done. rewrite Hd in Hn.
  destruct Hn as [-> _]. apply lookup_insert_eq.
Qed.

Lemma wf_create : wf s'.
Proof.
  pose proof create_old as Hold.
  split; [exact create_closed|exact create_size|exact create_links|..].
  - intros j m Hj Hm. apply create_node in Hj as [[-> ->]|[[-> ->]|(?&?&Hj)]].
    + rewrite Hm in Hn. by destruct Hn.
    + by rewrite (node_is_dir_mode _ _ Hgm), Hdir in Hm.
    + by apply (wf_entries _ Hwf j).
  - intros j [[-> Hd]|[Hne Hd]]%create_is_dir.
    + rewrite create_entry, decide_True by done. rewrite Hd in Hn.
      destruct Hn as [-> _]. by rewrite lookup_insert_ne, lookup_singleton_eq.
    + by apply Hold, (wf_self _ Hwf).
  - intros d par. destruct (decide (d = new)) as [->|Hne].
    + rewrite create_entry, decide_True by done. intros E.
      exists name. split; [done|]. rewrite create_entry.
      destruct (node_is_dir n); destruct Hn as [He _]; rewrite He in E; [|done].
      rewrite lookup_insert_eq in E. injection E as <-.
      rewrite decide_False by apply create_ne. by rewrite decide_True.
    + rewrite create_entry, decide_False by done.
      rewrite decide_False by (intros [_ <-]; apply Hdot; by right).
      intros (nm & Hnm & E)%(wf_up _ Hwf). exists nm. split; [done|]. by apply Hold.
  - intros d nm j E Hnm Hj. apply create_entry_inv in E as [(-> & -> & ->)|[E Hne]]; [| |done].
    + apply create_is_dir in Hj as [[_ Hd]|[? _]]; [|done]. by apply create_dotdot.
    + apply create_is_dir in Hj as [[? _]|[_ Hj]]; [done|].
      by apply Hold, (wf_down _ Hwf d nm).
  - intros d nm nm' j E E' Hnm Hnm' Hj.
    apply create_entry_inv in E as [(-> & -> & ->)|[E Hne]]; [| |done];
      apply create_entry_inv in E' as [(? & -> & ?)|[E' Hne']]; try done.
    apply create_is_dir in Hj as [[? _]|[_ Hj]]; [done|].
    by apply (wf_unique _ Hwf d nm nm' j).
Qed.
End create.

(** ** Entries for files: hard links *)

(** The directory structure is kept when one entry for a file comes, goes or
    changes. *)
Lemma wf_dirs_frame s s' dir name :
  wf s -> ~ dot name ->
  (forall j, is_dir s' j <-> is_dir s j) ->
  (forall d nm, ~ (d = dir /\ nm = name) -> entry s' d nm = entry s d nm) ->
  (forall j, entry s dir name = Some j \/ entry s' dir name = Some j -> ~ is_dir s j) ->
  (forall d nm j, entry s' d nm = Some j -> is_Some (f_nodes s' !! j)) ->
  (forall d p, f_nodes s' !! d = Some p -> node_is_dir p = true ->
    n_size p = Z.of_nat (size (n_entries p))) ->
  (forall j m, f_nodes s' !! j = Some m -> node_is_dir m = false ->
    0 < n_nlink m /\ exists X, links s' j X /\ n_nlink m = Z.of_nat (size X)) ->
  (forall d p, f_nodes s' !! d = Some p -> node_is_dir p = false -> n_entries p = ∅) ->
  wf s'.
Proof.
  intros Hwf Hdot Hd He Hj Hc Hs Hl Hn.
  assert (Hne : forall d nm j, entry s' d nm = Some j -> is_dir s' j -> entry s d nm = Some j).
  { intros d nm j E Hdj. apply Hd in Hdj. rewrite <- He; [done|]. intros [-> ->].
    by apply (Hj j); [right|]. }
  split; [done..| | | |].
  - intros d Hdd. rewrite He; [by apply (wf_self _ Hwf), Hd|]. intros [_ <-]. by apply Hdot; left.
  - intros d par E. rewrite He in E by (intros [_ <-]; by apply Hdot; right).
    destruct (wf_up _ Hwf _ _ E) as (nm & Hnm & E2). exists nm. split; [done|].
    rewrite He; [done|]. intros [-> ->]. apply (Hj d); [by left|].
    by apply (entry_is_dir _ _ _ _ Hwf E).
  - intros d nm j E Hnm Hdj. rewrite He by (intros [_ <-]; by apply Hdot; right).
    apply (wf_down _ Hwf d nm); [by apply Hne|done|by apply Hd].
  - intros d nm nm' j E E' Hnm Hnm' Hdj.
    apply (wf_unique _ Hwf d nm nm' j); [by apply Hne|by apply Hne|done|done|by apply Hd].
Qed.

Lemma is_dir_upd s i g j :
  (forall n, f_nodes s !! i = Some n -> n_mode (g n) = n_mode n) ->
  is_dir (upd i g s) j <-> is_dir s j.
Proof.
  intros Hg. unfold is_dir. rewrite upd_lookup. split.
  - intros (m & Hm & Hd). apply fmap_Some in Hm as (n & En & ->). exists n.
    split; [done|]. case_decide; [|done]. subst.
    by rewrite (node_is_dir_mode (g n) n) in Hd by (by apply Hg).
  - intros (n & En & Hd). rewrite En. cbn. eexists. split; [done|].
    case_decide; [|done]. subst. rewrite (node_is_dir_mode (g n) n); [done|by apply Hg].
Qed.

Section link.
Variables (s : fs) (dir ino : Z) (p n : node) (name : bytes) (g h : node -> node).
Hypothesis Hwf : wf s.
Hypothesis Hp : f_nodes s !! dir = Some p.
Hypothesis Hn : f_nodes s !! ino = Some n.
Hypothesis Hpd : node_is_dir p = true.
Hypothesis Hnd : node_is_dir n = false.
Hypothesis Hdot : ~ dot name.
Hypothesis Hgm : n_mode (g p) = n_mode p.
Hypothesis Hhm : n_mode (h n) = n_mode n.
Hypothesis Hhe : n_entries (h n) = n_entries n.

Lemma link_ne : dir <> ino.
Proof. congruence. Qed.

(** The tree after both nodes have changed. *)
Lemma link_node j m :
  f_nodes (upd ino h (upd dir g s)) !! j = Some m ->
  (j = ino /\ m = h n) \/ (j = dir /\ m = g p) \/
  (j <> ino /\ j <> dir /\ f_nodes s !! j = Some m).
Proof.
  pose proof link_ne as Hne. rewrite !upd_lookup.
  destruct (decide (j = ino)) as [->|].
  - rewrite Hn. cbn. rewrite decide_False by done. intros [= <-]. by left.
  - destruct (decide (j = dir)) as [->|].
    + rewrite Hp. cbn. intros [= <-]. right; by left.
    + destruct (f_nodes s !! j); cbn; [|done]. intros [= <-]. by right; right.
Qed.

Lemma link_is_some j : is_Some (f_nodes (upd ino h (upd dir g s)) !! j) <-> is_Some (f_nodes s !! j).
Proof. rewrite !upd_lookup. by rewrite !fmap_is_Some. Qed.

Lemma link_is_dir j : is_dir (upd ino h (upd dir g s)) j <-> is_dir s j.
Proof.
  rewrite is_dir_upd; [apply is_dir_upd|].
  - intros m. rewrite Hp. by intros [= <-].
  - intros m. rewrite upd_lookup_ne by (apply not_eq_sym, link_ne). rewrite Hn. by intros [= <-].
Qed.

Lemma not_is_dir : ~ is_dir s ino.
Proof. intros (m & Hm & Hd). congruence. Qed.

Lemma link_entry d nm :
  entry (upd ino h (upd dir g s)) d nm =
  if decide (d = dir) then n_entries (g p) !! nm else entry s d nm.
Proof.
  pose proof link_ne as Hne. rewrite entry_upd. destruct (decide (d = ino)) as [->|].
  - rewrite upd_lookup_ne by (by apply not_eq_sym). rewrite Hn. cbn. rewrite Hhe.
    rewrite decide_False by (by apply not_eq_sym). unfold entry. by rewrite Hn.
  - rewrite entry_upd, Hp. by case_decide.
Qed.

(** A new entry for the file [ino]. *)
Lemma wf_link :
  entry s dir name = None ->
  n_entries (g p) = <[name := ino]> (n_entries p) -> n_size (g p) = n_size p + 1 ->
  n_nlink (h n) = n_nlink n + 1 ->
  wf (upd ino h (upd dir g s)).
Proof.
  intros Hfree Hge Hgs Hhl. pose proof link_ne as Hne. pose proof not_is_dir as Hnid.
  assert (HE : forall d nm, entry (upd ino h (upd dir g s)) d nm =
    if decide (d = dir /\ nm = name) then Some ino else entry s d nm).
  { intros d nm. rewrite link_entry, Hge. destruct (decide (d = dir)) as [->|].
    - case_decide as E; [destruct E as [_ ->]; apply lookup_insert_eq|].
      rewrite lookup_insert_ne by (intros ->; tauto). unfold entry. by rewrite Hp.
    - by rewrite decide_False by tauto. }
  eapply (wf_dirs_frame s _ dir name); [done|done|apply link_is_dir|..].
  - intros d nm Hx. by rewrite HE, decide_False.
  - intros j. rewrite HE, decide_True by done. rewrite Hfree.
    by intros [|[= <-]].
  - intros d nm j. rewrite HE, link_is_some. case_decide.
    + intros [= <-]. by eexists.
    + apply (wf_closed _ Hwf).
  - intros j m Hj Hm. apply link_node in Hj as [[-> ->]|[[-> ->]|(?&?&Hj)]].
    + by rewrite (node_is_dir_mode _ _ Hhm), Hnd in Hm.
    + rewrite Hgs, Hge, (wf_size _ Hwf _ _ Hp Hpd). unfold entry in Hfree.
      rewrite Hp in Hfree. rewrite map_size_insert_None by done. lia.
    + by apply (wf_size _ Hwf j).
  - intros j m Hj Hm. apply link_node in Hj as [[-> ->]|[[-> ->]|(?&?&Hj)]].
    + destruct (wf_nlink _ Hwf _ _ Hn Hnd) as (Hpos & X & HX & HsX).
      split; [lia|]. exists ({[(dir, name)]} ∪ X). split.
      * intros d nm. rewrite elem_of_union, elem_of_singleton, HE, (HX d nm).
        case_decide; naive_solver.
      * rewrite size_union, size_singleton; [lia|].
        apply disjoint_singleton_l. rewrite (HX dir name), Hfree. done.
    + by rewrite (node_is_dir_mode _ _ Hgm), Hpd in Hm.
    + destruct (wf_nlink _ Hwf _ _ Hj Hm) as (Hpos & X & HX & HsX). split; [done|].
      exists X. split; [|done]. eapply links_ext; [|done]. intros d nm. rewrite HE.
      case_decide; [|done]. destruct_and!. subst. rewrite Hfree. naive_solver.
  - intros j m Hj Hm. apply link_node in Hj as [[-> ->]|[[-> ->]|(?&?&Hj)]].
    + rewrite Hhe. by apply (wf_entries _ Hwf ino).
    + by rewrite (node_is_dir_mode _ _ Hgm), Hpd in Hm.
    + by apply (wf_entries _ Hwf j).
Qed.

(** The directory without the entry. *)
Hypothesis Hent : entry s dir name = Some ino.
Hypothesis Hgd : n_entries (g p) = delete name (n_entries p).
Hypothesis Hgs : n_size (g p) = n_size p - 1.

Lemma unlink_entry d nm :
  entry (upd ino h (upd dir g s)) d nm =
  if decide (d = dir /\ nm = name) then None else entry s d nm.
Proof.
  rewrite link_entry, Hgd. destruct (decide (d = dir)) as [->|].
  - case_decide as E; [destruct E as [_ ->]; apply lookup_delete_eq|].
    rewrite lookup_delete_ne by (intros ->; tauto). unfold entry. by rewrite Hp.
  - by rewrite decide_False by tauto.
Qed.

Lemma unlink_size : n_size (g p) = Z.of_nat (size (n_entries (g p))).
Proof.
  rewrite Hgs, Hgd, (wf_size _ Hwf _ _ Hp Hpd).
  unfold entry in Hent. rewrite Hp in Hent. cbn in Hent.
  assert (Hpos : size (n_entries p) <> 0%nat).
  { intros E%map_size_empty_inv. rewrite E in Hent. by rewrite lookup_empty in Hent. }
  rewrite map_size_delete, Hent. cbn. lia.
Qed.

(** The links of [ino] lose one, those of every other file none. *)
Lemma unlink_links j X :
  links s j X -> links (upd ino h (upd dir g s)) j (X ∖ {[(dir, name)]}).
Proof.
  intros HX d nm. rewrite elem_of_difference, elem_of_singleton, (HX d nm), unlink_entry.
  case_decide as E; [destruct E as [-> ->]; split; [by intros [_ []]|done]|].
  split; [by intros [? _]|]. intros ?. split; [done|]. intros [= -> ->]. tauto.
Qed.

Lemma links_size_del X :
  links s ino X -> size (X ∖ {[(dir, name)]}) = (size X - 1)%nat.
Proof.
  intros HX. rewrite size_difference, size_singleton; [done|].
  apply singleton_subseteq_l. by apply HX.
Qed.

Lemma unlink_size_other j X :
  j <> ino -> links s j X -> X ∖ {[(dir, name)]} = X.
Proof.
  intros Hj HX. apply set_eq. intros [d nm].
  rewrite elem_of_difference, elem_of_singleton. split; [by intros [? _]|].
  intros Hin. split; [done|]. intros [= -> ->]. apply (HX dir name) in Hin. congruence.
Qed.

(** One of several links goes. *)
Lemma wf_unlink :
  n_nlink n <> 1 -> n_nlink (h n) = n_nlink n - 1 -> wf (upd ino h (upd dir g s)).
Proof.
  intros Hl1 Hhl. pose proof link_ne as Hne. pose proof not_is_dir as Hnid.
  eapply (wf_dirs_frame s _ dir name); [done|done|apply link_is_dir|..].
  - intros d nm Hx. by rewrite unlink_entry, decide_False.
  - intros j. rewrite unlink_entry, decide_True, Hent by done. by intros [[= <-]|].
  - intros d nm j. rewrite unlink_entry, link_is_some. case_decide; [done|].
    apply (wf_closed _ Hwf).
  - intros j m Hj Hm. apply link_node in Hj as [[-> ->]|[[-> ->]|(?&?&Hj)]].
    + by rewrite (node_is_dir_mode _ _ Hhm), Hnd in Hm.
    + apply unlink_size.
    + by apply (wf_size _ Hwf j).
  - intros j m Hj Hm. apply link_node in Hj as [[-> ->]|[[-> ->]|(?&?&Hj)]].
    + destruct (wf_nlink _ Hwf _ _ Hn Hnd) as (Hpos & X & HX & HsX).
      split; [lia|]. exists (X ∖ {[(dir, name)]}). split; [by apply unlink_links|].
      rewrite links_size_del by done. lia.
    + by rewrite (node_is_dir_mode _ _ Hgm), Hpd in Hm.
    + destruct (wf_nlink _ Hwf _ _ Hj Hm) as (Hpos & X & HX & HsX). split; [done|].
      exists X. split; [|done]. rewrite <- (unlink_size_other j X) by done.
      by apply unlink_links.
  - intros j m Hj Hm. apply link_node in Hj as [[-> ->]|[[-> ->]|(?&?&Hj)]].
    + rewrite Hhe. by apply (wf_entries _ Hwf ino).
    + by rewrite (node_is_dir_mode _ _ Hgm), Hpd in Hm.
    + by apply (wf_entries _ Hwf j).
Qed.

(** The last link goes, and the node with it. *)
Lemma last_link d nm :
  n_nlink n = 1 -> entry s d nm = Some ino -> d = dir /\ nm = name.
Proof.
  intros Hl E. destruct (wf_nlink _ Hwf _ _ Hn Hnd) as (_ & X & HX & HsX).
  assert (H1 : size X = 1%nat) by lia. apply size_1_elem_of in H1 as [x Hx].
  apply (HX d nm) in E. apply (HX dir name) in Hent.
  rewrite Hx, elem_of_singleton in E, Hent. naive_solver.
Qed.
End link.

Lemma remove_upd ino g s dir :
  dir <> ino -> remove_node ino (upd dir g s) = upd dir g (remove_node ino s).
Proof.
  intros Hne. unfold remove_node, upd. cbn. f_equal. apply map_eq. intros j.
  destruct (decide (j = ino)) as [->|].
  - rewrite lookup_delete_eq, lookup_alter_ne by done. by rewrite lookup_delete_eq.
  - rewrite lookup_delete_ne by done. destruct (decide (j = dir)) as [->|].
    + by rewrite !lookup_alter_eq, lookup_delete_ne.
    + by rewrite !lookup_alter_ne, lookup_delete_ne by done.
Qed.

Section unlink_last.
Variables (s : fs) (dir ino : Z) (p n : node) (name : bytes) (g : node -> node).
Hypothesis Hwf : wf s.
Hypothesis Hp : f_nodes s !! dir = Some p.
Hypothesis Hn : f_nodes s !! ino = Some n.
Hypothesis Hpd : node_is_dir p = true.
Hypothesis Hnd : node_is_dir n = false.
Hypothesis Hdot : ~ dot name.
Hypothesis Hgm : n_mode (g p) = n_mode p.
Hypothesis Hent : entry s dir name = Some ino.
Hypothesis Hgd : n_entries (g p) = delete name (n_entries p).
Hypothesis Hgs : n_size (g p) = n_size p - 1.
Hypothesis Hl : n_nlink n = 1.

Let s' := remove_node ino (upd dir g s).

Lemma unlink_last_entry d nm :
  entry s' d nm = if decide (d = dir /\ nm = name) then None else entry s d nm.
Proof.
  assert (Hne : dir <> ino) by congruence. subst s'. rewrite entry_remove.
  destruct (decide (d = ino)) as [->|].
  - rewrite decide_False by (intros [? _]; congruence). unfold entry. rewrite Hn. cbn.
    by rewrite (wf_entries _ Hwf _ _ Hn Hnd), lookup_empty.
  - rewrite entry_upd, Hp. cbn. rewrite Hgd. destruct (decide (d = dir)) as [->|].
    + case_decide as E; [destruct E as [_ ->]; apply lookup_delete_eq|].
      rewrite lookup_delete_ne by (intros ->; tauto). unfold entry. by rewrite Hp.
    + by rewrite decide_False by tauto.
Qed.

Lemma unlink_last_node j m :
  f_nodes s' !! j = Some m ->
  j <> ino /\ ((j = dir /\ m = g p) \/ (j <> dir /\ f_nodes s !! j = Some m)).
Proof.
  subst s'. cbn. intros [Hne Hj]%lookup_delete_Some. split; [done|].
  destruct (decide (j = dir)) as [->|].
  - rewrite lookup_alter_eq, Hp in Hj. injection Hj as <-. by left.
  - rewrite lookup_alter_ne in Hj by done. by right.
Qed.

Lemma unlink_last_is_some j :
  j <> ino -> is_Some (f_nodes s !! j) -> is_Some (f_nodes s' !! j).
Proof.
  intros Hne [m Hm]. subst s'. cbn. rewrite lookup_delete_ne by done.
  destruct (decide (j = dir)) as [->|].
  - rewrite lookup_alter_eq, Hm. by eexists.
  - rewrite lookup_alter_ne, Hm by done. by eexists.
Qed.

Lemma unlink_last_is_dir j : is_dir s' j <-> is_dir s j.
Proof.
  split.
  - intros (m & [Hne [[-> ->]|[_ Hj]]]%unlink_last_node & Hm); [by exists p|by exists m].
  - intros (m & Hj & Hm). assert (j <> ino) by congruence.
    destruct (unlink_last_is_some j) as [m' Hm']; [done|by eexists|]. exists m'. split; [done|].
    apply unlink_last_node in Hm' as [_ [[-> ->]|[_ Hj']]]; [|congruence].
    by rewrite (node_is_dir_mode _ _ Hgm).
Qed.

Lemma wf_unlink_last : wf s'.
Proof.
  assert (Hne : dir <> ino) by congruence.
  eapply (wf_dirs_frame s _ dir name); [done|done|apply unlink_last_is_dir|..].
  - intros d nm Hx. by rewrite unlink_last_entry, decide_False.
  - intros j. rewrite unlink_last_entry, decide_True, Hent by done.
    intros [[= <-]|]; [|done]. intros (m & Hm & Hd). congruence.
  - intros d nm j. rewrite unlink_last_entry. case_decide as Ex; [done|]. intros E.
    apply unlink_last_is_some; [|by apply (wf_closed _ Hwf d nm)]. intros ->.
    by apply Ex, (last_link s dir ino n name).
  - intros j m [? [[-> ->]|[? Hj]]]%unlink_last_node Hm; [|by apply (wf_size _ Hwf j)].
    by apply (unlink_size s dir ino p name).
  - intros j m [? [[-> ->]|[? Hj]]]%unlink_last_node Hm.
    { by rewrite (node_is_dir_mode _ _ Hgm), Hpd in Hm. }
    destruct (wf_nlink _ Hwf _ _ Hj Hm) as (Hpos & X & HX & HsX). split; [done|].
    exists X. split; [|done]. eapply links_ext; [|done]. intros d nm.
    rewrite unlink_last_entry. case_decide; [|done]. destruct_and!. subst.
    rewrite Hent. naive_solver.
  - intros j m [? [[-> ->]|[? Hj]]]%unlink_last_node Hm; [|by apply (wf_entries _ Hwf j)].
    by rewrite (node_is_dir_mode _ _ Hgm), Hpd in Hm.
Qed.
End unlink_last.

(** ** Removal of an empty directory *)

Lemma map_size_three {V} (m : gmap bytes V) (a b c : bytes) :
  is_Some (m !! a) -> is_Some (m !! b) -> is_Some (m !! c) ->
  a <> b -> a <> c -> b <> c -> (3 <= size m)%nat.
Proof.
  intros Ha Hb Hc Hab Hac Hbc. rewrite <- (size_dom (D := gset bytes)).
  assert (HS : {[a; b; c]} ⊆ dom m).
  { intros x Hx. apply elem_of_dom. set_unfold in Hx. by destruct_or! Hx; subst. }
  apply subseteq_size in HS.
  rewrite !size_union, !size_singleton in HS by set_solver. lia.
Qed.

Section rmdir.
Variables (s : fs) (dir ino : Z) (p n : node) (name : bytes) (g : node -> node).
Hypothesis Hwf : wf s.
Hypothesis Hp : f_nodes s !! dir = Some p.
Hypothesis Hn : f_nodes s !! ino = Some n.
Hypothesis Hnd : node_is_dir n = true.
Hypothesis Hempty : n_size n <= 2.
Hypothesis Hdot : ~ dot name.
Hypothesis Hent : entry s dir name = Some ino.
Hypothesis Hgm : n_mode (g p) = n_mode p.
Hypothesis Hgd : n_entries (g p) = delete name (n_entries p).
Hypothesis Hgs : n_size (g p) = n_size p - 1.

Let s' := remove_node ino (upd dir g s).

Lemma rmdir_is_dir : is_dir s ino.
Proof. by exists n. Qed.

(** An empty directory names itself and its parent, nothing else. *)
Lemma rmdir_entries nm j :
  entry s ino nm = Some j -> dot nm /\ (j = ino \/ j = dir).
Proof.
  intros E. pose proof rmdir_is_dir as Hd.
  pose proof (wf_self _ Hwf _ Hd) as E1. pose proof (wf_down _ Hwf _ _ _ Hent Hdot Hd) as E2.
  destruct (decide (nm = bs ".")) as [->|H1]; [split; [by left|left; congruence]|].
  destruct (decide (nm = bs "..")) as [->|H2]; [split; [by right|right; congruence]|].
  pose proof (wf_size _ Hwf _ _ Hn Hnd). unfold entry in E, E1, E2.
  rewrite Hn in E, E1, E2. cbn in E, E1, E2.
  assert (3 <= size (n_entries n))%nat; [|lia].
  by apply (map_size_three _ nm (bs ".") (bs "..")); [eexists..| | |].
Qed.

Lemma rmdir_ne : dir <> ino.
Proof.
  intros E. destruct (rmdir_entries name ino) as [? _]; [by rewrite <- E at 1|done].
Qed.

(** Only its parent and itself name an empty directory. *)
Lemma rmdir_only d nm : entry s d nm = Some ino -> (d = dir /\ nm = name) \/ d = ino.
Proof.
  intros E. pose proof rmdir_is_dir as Hd.
  destruct (decide (nm = bs ".")) as [->|H1].
  { right. symmetry. by apply (entry_self s). }
  destruct (decide (nm = bs "..")) as [->|H2].
  { destruct (wf_up _ Hwf _ _ E) as (nm & Hnm & E2). by apply rmdir_entries in E2 as [? _]. }
  assert (Hnm : ~ dot nm) by (intros []; done). left.
  pose proof (wf_down _ Hwf _ _ _ E Hnm Hd) as E1.
  pose proof (wf_down _ Hwf _ _ _ Hent Hdot Hd) as E2.
  assert (d = dir) by congruence. subst. split; [done|].
  by apply (wf_unique _ Hwf dir nm name ino).
Qed.

Lemma rmdir_entry d nm :
  entry s' d nm =
  if decide (d = ino) then None
  else if decide (d = dir /\ nm = name) then None else entry s d nm.
Proof.
  subst s'. rewrite entry_remove. case_decide; [done|]. rewrite entry_upd, Hp. cbn.
  rewrite Hgd. destruct (decide (d = dir)) as [->|].
  - case_decide as E; [destruct E as [_ ->]; apply lookup_delete_eq|].
    rewrite lookup_delete_ne by (intros ->; tauto). unfold entry. by rewrite Hp.
  - by rewrite decide_False by tauto.
Qed.

Lemma rmdir_entry_old d nm j :
  entry s' d nm = Some j -> entry s d nm = Some j /\ d <> ino /\ j <> ino.
Proof.
  rewrite rmdir_entry. repeat case_decide; try done. intros E. split_and!; [done..|].
  intros ->. apply rmdir_only in E as [?|?]; done.
Qed.

Lemma rmdir_entry_new d nm j :
  entry s d nm = Some j -> d <> ino -> j <> ino -> entry s' d nm = Some j.
Proof.
  intros E Hd Hj. rewrite rmdir_entry. rewrite !decide_False; [done| |done].
  intros [-> ->]. congruence.
Qed.

Lemma rmdir_node j m :
  f_nodes s' !! j = Some m ->
  j <> ino /\ ((j = dir /\ m = g p) \/ (j <> dir /\ f_nodes s !! j = Some m)).
Proof.
  subst s'. cbn. intros [Hne Hj]%lookup_delete_Some. split; [done|].
  destruct (decide (j = dir)) as [->|].
  - rewrite lookup_alter_eq, Hp in Hj. injection Hj as <-. by left.
  - rewrite lookup_alter_ne in Hj by done. by right.
Qed.

Lemma rmdir_keeps j : j <> ino -> is_Some (f_nodes s !! j) -> is_Some (f_nodes s' !! j).
Proof.
  intros Hne [m Hm]. subst s'. cbn. rewrite lookup_delete_ne by done.
  destruct (decide (j = dir)) as [->|].
  - rewrite lookup_alter_eq, Hm. by eexists.
  - rewrite lookup_alter_ne, Hm by done. by eexists.
Qed.

Lemma rmdir_dirs j : is_dir s' j -> j <> ino /\ is_dir s j.
Proof.
  intros (m & [Hne [[-> ->]|[_ Hj]]]%rmdir_node & Hm).
  - split; [done|]. exists p. split; [done|]. by rewrite (node_is_dir_mode _ _ Hgm) in Hm.
  - split; [done|]. by exists m.
Qed.

Lemma rmdir_files j m :
  f_nodes s' !! j = Some m -> node_is_dir m = false ->
  0 < n_nlink m /\ exists X, links s' j X /\ n_nlink m = Z.of_nat (size X).
Proof.
  pose proof rmdir_ne as Hdi. pose proof (entry_is_dir _ _ _ _ Hwf Hent) as (p' & Hp' & Hd').
  assert (p' = p) by congruence. subst p'.
  intros [Hne [[-> ->]|[Hjd Hj]]]%rmdir_node Hm.
  { by rewrite (node_is_dir_mode _ _ Hgm), Hd' in Hm. }
  destruct (wf_nlink _ Hwf _ _ Hj Hm) as (Hpos & X & HX & HsX). split; [done|].
  exists X. split; [|done]. eapply links_ext; [|done]. intros d nm. split.
  - by intros [? _]%rmdir_entry_old.
  - intros E. apply rmdir_entry_new; [done| |done]. intros ->.
    apply rmdir_entries in E as [_ [->| ->]]; done.
Qed.

Lemma wf_rmdir : wf s'.
Proof.
  pose proof rmdir_entry_new as Hnew.
  pose proof (entry_is_dir _ _ _ _ Hwf Hent) as (p' & Hp' & Hpd).
  assert (p' = p) by congruence. subst p'.
  split; [|  |exact rmdir_files|..].
  - intros d nm j (E & Hd & Hj)%rmdir_entry_old. apply rmdir_keeps; [done|].
    by apply (wf_closed _ Hwf d nm).
  - intros j m [? [[-> ->]|[? Hj]]]%rmdir_node Hm; [|by apply (wf_size _ Hwf j)].
    by apply (unlink_size s dir ino p name).
  - intros j m [? [[-> ->]|[? Hj]]]%rmdir_node Hm; [|by apply (wf_entries _ Hwf j)].
    by rewrite (node_is_dir_mode _ _ Hgm), Hpd in Hm.
  - intros j [Hne Hj]%rmdir_dirs. apply Hnew; [|done|done]. by apply (wf_self _ Hwf).
  - intros d par (E & Hd & Hj)%rmdir_entry_old.
    destruct (wf_up _ Hwf _ _ E) as (nm & Hnm & E2). exists nm. split; [done|].
    by apply Hnew.
  - intros d nm j (E & Hd & Hj)%rmdir_entry_old Hnm [_ Hjd]%rmdir_dirs.
    apply Hnew; [|done|done]. by apply (wf_down _ Hwf d nm).
  - intros d nm nm' j (E & _ & _)%rmdir_entry_old (E' & _ & _)%rmdir_entry_old Hnm Hnm'
      [_ Hjd]%rmdir_dirs. by apply (wf_unique _ Hwf d nm nm' j).
Qed.
End rmdir.

(** ** Changes of attributes and of file contents *)

(** A change that keeps the entries, the link count, the kind of the node and
    the size of a directory. *)
Lemma wf_upd_attr s i g :
  wf s ->
  (forall n, f_nodes s !! i = Some n ->
    n_entries (g n) = n_entries n /\ n_nlink (g n) = n_nlink n /\
    node_is_dir (g n) = node_is_dir n /\ (node_is_dir n = true -> n_size (g n) = n_size n)) ->
  wf (upd i g s).
Proof.
  intros Hwf Hg.
  assert (He : forall d nm, entry (upd i g s) d nm = entry s d nm).
  { intros d nm. rewrite entry_upd. case_decide as E; [subst|done]. unfold entry.
    destruct (f_nodes s !! i) as [n|] eqn:En; cbn; [|done].
    by destruct (Hg n eq_refl) as (-> & _). }
  assert (Hn : forall j m, f_nodes (upd i g s) !! j = Some m ->
    exists n, f_nodes s !! j = Some n /\ n_entries m = n_entries n /\ n_nlink m = n_nlink n /\
      node_is_dir m = node_is_dir n /\ (node_is_dir n = true -> n_size m = n_size n)).
  { intros j m. rewrite upd_lookup. intros (n & En & ->)%fmap_Some. exists n.
    split; [done|]. case_decide; [subst; by apply Hg|done]. }
  assert (Hs : forall j, is_Some (f_nodes s !! j) -> is_Some (f_nodes (upd i g s) !! j)).
  { intros j. rewrite upd_lookup. by rewrite fmap_is_Some. }
  assert (Hd : forall j, is_dir (upd i g s) j -> is_dir s j).
  { intros j (m & (n & En & _ & _ & Ed & _)%Hn & Hm). exists n. split; [done|]. congruence. }
  split.
  - intros d nm j. rewrite He. intros E. by apply Hs, (wf_closed _ Hwf d nm).
  - intros d m (n & En & Ee & _ & Ed & Es)%Hn Hm. rewrite Ed in Hm.
    rewrite Es, Ee by done. by apply (wf_size _ Hwf d).
  - intros j m (n & En & _ & El & Ed & _)%Hn Hm. rewrite El.
    destruct (wf_nlink _ Hwf j n) as (? & X & HX & ?); [done|congruence|]. split; [done|].
    exists X. split; [|done]. eapply links_ext; [|done]. intros d nm. by rewrite He.
  - intros d m (n & En & Ee & _ & Ed & _)%Hn Hm. rewrite Ee.
    apply (wf_entries _ Hwf d); [done|congruence].
  - intros j Hj%Hd. rewrite He. by apply (wf_self _ Hwf).
  - intros d par. rewrite He. intros (nm & ? & ?)%(wf_up _ Hwf). exists nm. by rewrite He.
  - intros d nm j. rewrite !He. intros E Hnm Hj%Hd. by apply (wf_down _ Hwf d nm).
  - intros d nm nm' j. rewrite !He. intros E E' ?? Hj%Hd. by apply (wf_unique _ Hwf d nm nm' j).
Qed.
