(* ===== verification/Layout.v ===== *)
(** * The layout of the database

    How a node is laid out as the pairs of a bucket: the keys, the value
    under each key, and the relation [represents] between a database and the
    abstract file system of [Tree]. Its lemmas turn each read and each write
    of a transaction into the reading or the update of one field of a
    node. *)

From S2P Require Import Prelude Bytes Common Store Access Tree.

(** ** Keys *)

Inductive key :=
  | KSize | KMode | KNlink | KUid | KGid | KBlksize | KAtime | KMtime | KCtime
  | KTarget | KDev
  | KEntry (name : bytes)
  | KSlice (num : Z)
  | KXattr (k : bytes)
  | KOther (k : bytes).

#[export] Instance key_eq_dec : EqDecision key.
Proof. solve_decision. Defined.

Definition key_bytes (k : key) : bytes :=
  match k with
  | KSize => bs "size" | KMode => bs "mode" | KNlink => bs "hard_links"
  | KUid => bs "uid" | KGid => bs "gid" | KBlksize => bs "block_size"
  | KAtime => bs "atime" | KMtime => bs "mtime" | KCtime => bs "ctime"
  | KTarget => bs "data" | KDev => bs "dev"
  | KEntry name => generate_data_key name
  | KSlice num => generate_data_key_with_number num
  | KXattr k => k
  | KOther k => k
  end.

(** The fixed keys. *)
Definition fixed_keys : list key :=
  [KSize; KMode; KNlink; KUid; KGid; KBlksize; KAtime; KMtime; KCtime; KTarget; KDev].

Definition parse_key (k : bytes) : key :=
  match list_find (fun κ => key_bytes κ = k) fixed_keys with
  | Some (_, κ) => κ
  | None =>
      if starts_with k (bs "data:") then KEntry (drop 5 k)
      else if starts_with k (bs "zdata:") && (length k =? 10)%nat
      then KSlice (from_be (drop 6 k))
      else if is_xattr_key k then KXattr k
      else KOther k
  end.

(** The keys a node uses. *)
Definition key_ok (k : key) : Prop :=
  match k with
  | KSlice num => is_u32 num
  | KXattr k => is_xattr_key k = true
  | KOther _ => False
  | _ => True
  end.

Lemma list_find_key_None κ0 k :
  (forall κ, κ ∈ fixed_keys -> key_bytes κ <> k) ->
  (match list_find (fun κ => key_bytes κ = k) fixed_keys with
   | Some (_, κ) => κ | None => κ0 end) = κ0.
Proof.
  intros Hk. destruct (list_find _ _) as [[i κ]|] eqn:E; [|done].
  apply list_find_Some in E as (E1 & E2 & _).
  destruct (Hk κ); [by eapply list_elem_of_lookup_2|done].
Qed.

Lemma starts_with_app p k : starts_with (p ++ k) p = true.
Proof.
  unfold starts_with. apply bool_decide_eq_true. rewrite take_app_le by lia.
  apply take_ge. lia.
Qed.

Lemma starts_with_inv k p : starts_with k p = true -> k = p ++ drop (length p) k.
Proof.
  unfold starts_with. intros E%bool_decide_eq_true.
  by rewrite <- E at 1; rewrite take_drop.
Qed.

Lemma is_xattr_key_inv k :
  is_xattr_key k = true ->
  starts_with k (bs "user.") = true \/ starts_with k (bs "system.") = true \/
  starts_with k (bs "trusted.") = true \/ starts_with k (bs "security.") = true.
Proof.
  unfold is_xattr_key, parse_xattr_namespace. intros H.
  destruct (starts_with k (bs "user.")); [by left|].
  destruct (starts_with k (bs "system.")); [by right; left|].
  destruct (starts_with k (bs "trusted.")); [by right; right; left|].
  destruct (starts_with k (bs "security.")); [by right; right; right|]. done.
Qed.

Lemma parse_key_bytes k : key_ok k -> parse_key (key_bytes k) = k.
Proof.
  destruct k as [| | | | | | | | | | |name|num|k|k]; intros Hk; try reflexivity.
  - cbn [key_bytes]. unfold parse_key. rewrite list_find_key_None.
    + unfold generate_data_key_with_number, u32_be.
      replace (starts_with _ (bs "data:")) with false by done.
      rewrite starts_with_app, length_app, length_to_be. cbn [length Nat.add Nat.eqb andb].
      f_equal. change (drop 6 _) with (to_be 4 num). rewrite from_to_be.
      by apply Z.mod_small.
    + intros κ Hκ. unfold fixed_keys in Hκ. set_unfold in Hκ.
      destruct_or! Hκ; subst; done.
  - cbn [key_bytes key_ok] in *. unfold parse_key. rewrite list_find_key_None.
    + assert (HS : forall p, starts_with k p = true -> is_xattr_key (p ++ drop (length p) k) = true).
      { intros p Hp. by rewrite <- (starts_with_inv k p Hp). }
      destruct (starts_with k (bs "data:")) eqn:E1.
      { by specialize (HS _ E1). }
      destruct (starts_with k (bs "zdata:")) eqn:E2.
      { by specialize (HS _ E2). }
      cbn. by rewrite Hk.
    + intros κ Hκ E. subst k. unfold fixed_keys in Hκ. set_unfold in Hκ.
      destruct_or! Hκ; subst; done.
  - destruct Hk.
Qed.

Lemma key_bytes_parse k : key_bytes (parse_key k) = k.
Proof.
  unfold parse_key. destruct (list_find _ _) as [[i κ]|] eqn:E.
  { by apply list_find_Some in E as (_ & ? & _). }
  destruct (starts_with k (bs "data:")) eqn:E1.
  { symmetry. apply (starts_with_inv _ _ E1). }
  destruct (starts_with k (bs "zdata:") && (length k =? 10)%nat) eqn:E2.
  { apply andb_true_iff in E2 as [E2 E3%Nat.eqb_eq].
    change (bs "zdata:" ++ to_be 4 (from_be (drop 6 k)) = k).
    assert (E4 : to_be 4 (from_be (drop 6 k)) = drop 6 k).
    { rewrite <- (to_from_be (drop 6 k)) at 2. f_equal. lens. }
    rewrite E4. symmetry. apply (starts_with_inv _ _ E2). }
  by destruct (is_xattr_key k).
Qed.

Lemma parse_key_iff k κ : key_ok κ -> (parse_key k = κ <-> k = key_bytes κ).
Proof.
  intros Hκ. split.
  - intros <-. by rewrite key_bytes_parse.
  - intros ->. by apply parse_key_bytes.
Qed.

(** ** The pairs of a node *)

Definition node_val (n : node) (k : key) : option bytes :=
  match k with
  | KSize => Some (usize_be (n_size n))
  | KMode => Some (u16_be (n_mode n))
  | KNlink => Some (u32_be (n_nlink n))
  | KUid => Some (u32_be (n_uid n))
  | KGid => Some (u32_be (n_gid n))
  | KBlksize => Some (u32_be (n_blksize n))
  | KAtime => Some (time_to_be_bytes (n_atime n))
  | KMtime => Some (time_to_be_bytes (n_mtime n))
  | KCtime => Some (time_to_be_bytes (n_ctime n))
  | KTarget => n_target n
  | KDev => u32_be <$> n_dev n
  | KEntry name => usize_to_string <$> n_entries n !! name
  | KSlice num => n_slices n !! num
  | KXattr k => n_xattrs n !! k
  | KOther _ => None
  end.

(** The bucket [b] holds exactly the pairs of the node [n]. *)
Definition node_at {D} `{JammDb D} (d : D) (b : bytes) (n : node) : Prop :=
  db_has d b = true /\ forall k, db_get d b k = node_val n (parse_key k).

(** Writing or deleting the pair of [k] turns the pairs of [n] into those of
    [n']. *)
Definition edits (k : key) (v : option bytes) (n n' : node) : Prop :=
  key_ok k /\ forall k', node_val n' k' = if decide (k' = k) then v else node_val n k'.

(** The super block's bucket and the free space in it. *)
Definition free_at {D} `{JammDb D} (d : D) (z : Z) : Prop :=
  db_get d (bs "super_blk") (bs "disk_size") = Some (u64_be z) /\ is_u64 z.

(** The database stands for the abstract file system: every node is laid
    out in the bucket of its number and there is no other inode bucket. *)
Record represents {D} `{JammDb D} (d : D) (s : fs) : Prop := {
  rep_node : forall ino n, f_nodes s !! ino = Some n ->
    is_u64 ino /\ node_at d (usize_be ino) n /\ node_ok n;
  rep_none : forall ino, is_u64 ino -> f_nodes s !! ino = None ->
    db_has d (usize_be ino) = false;
  rep_free : free_at d (f_free s) }.

Lemma super_blk_ne ino : bs "super_blk" <> usize_be ino.
Proof.
  intros E. apply (f_equal length) in E. unfold usize_be in E.
  rewrite length_to_be in E. done.
Qed.

Section layout.
Context {D : Type} `{JammDbLaws D}.
Implicit Types (d : D) (s : fs) (n : node).

Lemma node_at_edit d d' b n n' k v :
  edits k v n n' -> db_has d' b = db_has d b ->
  (forall k', db_get d' b k' = if decide (k' = key_bytes k) then v else db_get d b k') ->
  node_at d b n -> node_at d' b n'.
Proof.
  intros [Hk He] Hh Hg [Hb Hn]. split; [by rewrite Hh|].
  intros k'. rewrite Hg, He, Hn. destruct (decide (k' = key_bytes k)) as [E|E].
  - by rewrite decide_True by (by apply parse_key_iff).
  - rewrite decide_False; [done|]. intros E2. apply E. by apply parse_key_iff.
Qed.

Lemma node_at_frame d d' b n :
  db_has d' b = db_has d b -> (forall k, db_get d' b k = db_get d b k) ->
  node_at d b n -> node_at d' b n.
Proof. intros Hh Hg [Hb Hn]. split; [by rewrite Hh|]. intros k. by rewrite Hg. Qed.

Lemma node_at_get d b n k : key_ok k -> node_at d b n ->
  db_get d b (key_bytes k) = node_val n k.
Proof. intros Hk [_ Hn]. by rewrite Hn, parse_key_bytes. Qed.

(** A change of one bucket of an inode. *)
Lemma rep_edit d d' s ino n g k v :
  represents d s -> f_nodes s !! ino = Some n ->
  edits k v n (g n) -> node_ok (g n) ->
  (forall b, db_has d' b = db_has d b) ->
  (forall b k', db_get d' b k' =
     if decide (b = usize_be ino /\ k' = key_bytes k) then v else db_get d b k') ->
  represents d' (upd ino g s).
Proof.
  intros [Hn Ho [Hf Hfr]] Ei Hed Hok Hh Hg. split.
  - intros j m. rewrite upd_lookup. intros Ej.
    apply fmap_Some in Ej as (m0 & Ej & ->). pose proof (Hn _ _ Ej) as (Hj & Hat & Hm).
    split; [done|]. destruct (decide (j = ino)) as [->|Hne].
    + rewrite Ei in Ej. injection Ej as <-. split; [|done].
      eapply node_at_edit; [done|by rewrite Hh| |done].
      intros k'. rewrite Hg. destruct (decide (k' = key_bytes k)).
      * by rewrite decide_True.
      * by rewrite decide_False by (by intros []).
    + split; [|done]. eapply node_at_frame; [by rewrite Hh| |done].
      intros k'. rewrite Hg, decide_False; [done|]. intros [E _].
      apply Hne. apply usize_be_inj; [done| |done]. by apply (Hn _ _ Ei).
  - intros j Hj. rewrite upd_lookup. intros Ej%fmap_None. rewrite Hh. by apply Ho.
  - split; [|done]. cbn. rewrite Hg, decide_False; [done|].
    intros [E _]. by apply super_blk_ne in E.
Qed.

Lemma rep_put d s ino n g k v :
  represents d s -> f_nodes s !! ino = Some n ->
  edits k (Some v) n (g n) -> node_ok (g n) ->
  represents (db_put d (usize_be ino) (key_bytes k) v) (upd ino g s).
Proof.
  intros Hr Ei He Hok. eapply rep_edit; [done..| |].
  - intros b. by rewrite db_has_put.
  - intros b k'. rewrite db_get_put.
    + by rewrite <- decide_bool_decide.
    + apply (rep_node _ _ Hr _ _ Ei).
Qed.

Lemma rep_del d s ino n g k d' :
  represents d s -> f_nodes s !! ino = Some n ->
  edits k None n (g n) -> node_ok (g n) ->
  db_delete d (usize_be ino) (key_bytes k) = Some d' ->
  represents d' (upd ino g s).
Proof.
  intros Hr Ei He Hok Hd. eapply rep_edit; [done..| |].
  - intros b. by rewrite (db_has_delete _ _ _ _ _ Hd).
  - intros b k'. rewrite (db_get_delete _ _ _ _ _ _ Hd).
    by rewrite <- decide_bool_decide.
Qed.

Lemma rep_drop d s ino d' :
  represents d s -> is_u64 ino -> db_drop d (usize_be ino) = Some d' ->
  represents d' (remove_node ino s).
Proof.
  intros Hr Hi Hd. split.
  - intros j n Ej. cbn in Ej. apply lookup_delete_Some in Ej as [Hne Ej].
    pose proof (rep_node _ _ Hr _ _ Ej) as (Hj & Hat & Hm).
    assert (Hb : usize_be j <> usize_be ino) by (intros E; apply Hne; by apply usize_be_inj).
    split; [done|]. split; [|done]. eapply node_at_frame; [| |done].
    + rewrite (db_has_drop _ _ _ _ Hd). by rewrite bool_decide_eq_false_2.
    + intros k. rewrite (db_get_drop _ _ _ _ _ Hd). by rewrite bool_decide_eq_false_2.
  - intros j Hj Ej. cbn in Ej. rewrite (db_has_drop _ _ _ _ Hd).
    case_bool_decide; [done|]. cbn. apply (rep_none _ _ Hr); [done|].
    rewrite lookup_delete_ne in Ej; [done|]. congruence.
  - split; [|by apply (rep_free _ _ Hr)].
    rewrite (db_get_drop _ _ _ _ _ Hd), bool_decide_eq_false_2 by apply super_blk_ne.
    apply (rep_free _ _ Hr).
Qed.

(** A fresh bucket filled with the pairs of a node. *)
Lemma rep_add d s ino n d' :
  represents d s -> is_u64 ino -> f_nodes s !! ino = None -> node_ok n ->
  node_at d' (usize_be ino) n ->
  (forall b, b <> usize_be ino -> db_has d' b = db_has d b) ->
  (forall b k, b <> usize_be ino -> db_get d' b k = db_get d b k) ->
  represents d' (add_node ino n s).
Proof.
  intros Hr Hi Ei Hok Hat Hh Hg. split.
  - intros j m. cbn. destruct (decide (j = ino)) as [->|Hne].
    { rewrite lookup_insert_eq. by intros [= <-]. }
    rewrite lookup_insert_ne by done. intros Ej.
    pose proof (rep_node _ _ Hr _ _ Ej) as (Hj & Hat' & Hm).
    assert (Hb : usize_be j <> usize_be ino) by (intros E; apply Hne; by apply usize_be_inj).
    split; [done|]. split; [|done]. eapply node_at_frame; [by apply Hh| |done].
    intros k. by apply Hg.
  - intros j Hj. cbn. destruct (decide (j = ino)) as [->|Hne].
    { by rewrite lookup_insert_eq. }
    rewrite lookup_insert_ne by done. intros Ej. rewrite Hh.
    + by apply (rep_none _ _ Hr).
    + intros E. apply Hne. by apply usize_be_inj.
  - split; [|by apply (rep_free _ _ Hr)]. rewrite Hg by apply super_blk_ne.
    apply (rep_free _ _ Hr).
Qed.

(** The free space. *)
Lemma rep_set_free d s z :
  represents d s -> is_u64 z ->
  represents (db_put d (bs "super_blk") (bs "disk_size") (u64_be z)) (set_free z s).
Proof.
  intros Hr Hz. pose proof (rep_free _ _ Hr) as [Hf _].
  split.
  - intros j n Ej. pose proof (rep_node _ _ Hr _ _ Ej) as (Hj & Hat & Hm).
    split; [done|]. split; [|done].
    eapply node_at_frame; [by rewrite db_has_put| |done].
    intros k. apply db_get_put_bucket. apply not_eq_sym, super_blk_ne.
  - intros j Hj Ej. rewrite db_has_put. by apply (rep_none _ _ Hr).
  - split; [|done]. apply db_get_put_eq. by apply (db_has_some _ _ _ _ Hf).
Qed.
End layout.

(** ** Updates of one field *)

Ltac edits_tac := split; [done|let k := fresh in intros k; destruct k; try done].

Lemma edits_size n z : edits KSize (Some (usize_be z)) n (with_size z n).
Proof. edits_tac. Qed.
Lemma edits_mode n z : edits KMode (Some (u16_be z)) n (with_mode z n).
Proof. edits_tac. Qed.
Lemma edits_nlink n z : edits KNlink (Some (u32_be z)) n (with_nlink z n).
Proof. edits_tac. Qed.
Lemma edits_uid n z : edits KUid (Some (u32_be z)) n (with_uid z n).
Proof. edits_tac. Qed.
Lemma edits_gid n z : edits KGid (Some (u32_be z)) n (with_gid z n).
Proof. edits_tac. Qed.
Lemma edits_atime n t : edits KAtime (Some (time_to_be_bytes t)) n (with_atime t n).
Proof. edits_tac. Qed.
Lemma edits_mtime n t : edits KMtime (Some (time_to_be_bytes t)) n (with_mtime t n).
Proof. edits_tac. Qed.
Lemma edits_ctime n t : edits KCtime (Some (time_to_be_bytes t)) n (with_ctime t n).
Proof. edits_tac. Qed.

Ltac edits_map := cbn;
  let E := fresh in case_decide as E; [injection E as ->|];
  first [ by rewrite lookup_insert_eq | by rewrite lookup_delete_eq
        | rewrite lookup_insert_ne by congruence; done
        | rewrite lookup_delete_ne by congruence; done ].

Lemma edits_entry n name ino :
  edits (KEntry name) (Some (usize_to_string ino)) n (with_entries <[name := ino]> n).
Proof. edits_tac. edits_map. Qed.
Lemma edits_entry_del n name :
  edits (KEntry name) None n (with_entries (base.delete name) n).
Proof. edits_tac. edits_map. Qed.
Lemma edits_slice n i v :
  is_u32 i -> edits (KSlice i) (Some v) n (with_slices <[i := v]> n).
Proof. intros. edits_tac. edits_map. Qed.
Lemma edits_slice_del n i :
  is_u32 i -> edits (KSlice i) None n (with_slices (base.delete i) n).
Proof. intros. edits_tac. edits_map. Qed.
Lemma edits_xattr n k v :
  is_xattr_key k = true -> edits (KXattr k) (Some v) n (with_xattrs <[k := v]> n).
Proof. intros. edits_tac. edits_map. Qed.

(** Well-formed nodes. *)
Section node_ok.
Implicit Types n : node.

Lemma ok_with_size z n : is_u64 z -> node_ok n -> node_ok (with_size z n).
Proof. by intros ? []. Qed.
Lemma ok_with_mode z n :
  is_u16 z -> file_type_of_perm z = file_type_of_perm (n_mode n) ->
  node_ok n -> node_ok (with_mode z n).
Proof. intros ? Ht []. split; cbn; rewrite ?Ht; done. Qed.
Lemma ok_with_nlink z n : is_u32 z -> node_ok n -> node_ok (with_nlink z n).
Proof. by intros ? []. Qed.
Lemma ok_with_uid z n : is_u32 z -> node_ok n -> node_ok (with_uid z n).
Proof. by intros ? []. Qed.
Lemma ok_with_gid z n : is_u32 z -> node_ok n -> node_ok (with_gid z n).
Proof. by intros ? []. Qed.
Lemma ok_with_atime t n : time_ok t -> node_ok n -> node_ok (with_atime t n).
Proof. by intros ? []. Qed.
Lemma ok_with_mtime t n : time_ok t -> node_ok n -> node_ok (with_mtime t n).
Proof. by intros ? []. Qed.
Lemma ok_with_ctime t n : time_ok t -> node_ok n -> node_ok (with_ctime t n).
Proof. by intros ? []. Qed.
Lemma ok_with_entry name ino n :
  is_u64 ino -> node_ok n -> node_ok (with_entries <[name := ino]> n).
Proof.
  intros ? []. split; cbn; try done.
  intros name' j [[_ <-]|[_ E]]%lookup_insert_Some; eauto.
Qed.
Lemma ok_without_entry name n :
  node_ok n -> node_ok (with_entries (base.delete name) n).
Proof.
  intros []. split; cbn; try done. intros name' j [_ E]%lookup_delete_Some; eauto.
Qed.
Lemma ok_with_slice i v n :
  is_u32 i -> node_ok n -> node_ok (with_slices <[i := v]> n).
Proof.
  intros ? []. split; cbn; try done.
  intros j w [[<- _]|[_ E]]%lookup_insert_Some; eauto.
Qed.
Lemma ok_without_slice i n : node_ok n -> node_ok (with_slices (base.delete i) n).
Proof.
  intros []. split; cbn; try done. intros j w [_ E]%lookup_delete_Some; eauto.
Qed.
Lemma ok_with_xattr k v n :
  is_xattr_key k = true -> node_ok n -> node_ok (with_xattrs <[k := v]> n).
Proof.
  intros ? []. split; cbn; try done.
  intros j w [[<- _]|[_ E]]%lookup_insert_Some; eauto.
Qed.
End node_ok.

#[export] Hint Resolve edits_size edits_mode edits_nlink edits_uid edits_gid
  edits_atime edits_mtime edits_ctime edits_entry edits_entry_del edits_slice
  edits_slice_del edits_xattr : fs.
#[export] Hint Resolve ok_with_size ok_with_mode ok_with_nlink ok_with_uid ok_with_gid
  ok_with_atime ok_with_mtime ok_with_ctime ok_with_entry ok_without_entry
  ok_with_slice ok_without_slice ok_with_xattr : fs.

(** ** Running a transaction beside its abstract counterpart *)

(** The same result, and a database that stands for the abstract state. *)
Definition agree {D A} `{JammDb D} (r : outcome (A * D)) (r' : outcome (A * fs)) : Prop :=
  match r, r' with
  | Ok (a, d), Ok (a', s) => a = a' /\ represents d s
  | Err e, Err e' => e = e'
  | Panic, Panic => True
  | _, _ => False
  end.

(** The body of a transaction implements an abstract operation. *)
Definition refines {D A} `{JammDb D} (m : Tx D A) (f : fs -> outcome (A * fs)) : Prop :=
  forall d s, represents d s -> agree (m d) (f s).

Section agree.
Context {D : Type} `{JammDbLaws D} {B : Type}.
Implicit Types (d : D) (s : fs) (n : node) (R : outcome (B * fs)).

Lemma rep_has d s ino n :
  represents d s -> f_nodes s !! ino = Some n -> db_has d (usize_be ino) = true.
Proof. intros Hr Ei. apply (rep_node _ _ Hr _ _ Ei). Qed.

Lemma rep_get d s ino n k :
  represents d s -> f_nodes s !! ino = Some n -> key_ok k ->
  db_get d (usize_be ino) (key_bytes k) = node_val n k.
Proof. intros Hr Ei Hk. apply node_at_get; [done|]. apply (rep_node _ _ Hr _ _ Ei). Qed.

Lemma rep_ok d s ino n : represents d s -> f_nodes s !! ino = Some n -> node_ok n.
Proof. intros Hr Ei. apply (rep_node _ _ Hr _ _ Ei). Qed.

Lemma rep_ino d s ino n : represents d s -> f_nodes s !! ino = Some n -> is_u64 ino.
Proof. intros Hr Ei. apply (rep_node _ _ Hr _ _ Ei). Qed.

Lemma agree_bind_ok {A} (m : Tx D A) (f : A -> Tx D B) d a d' R :
  m d = Ok (a, d') -> agree (f a d') R -> agree ((m ≫= f) d) R.
Proof. intros E. by rewrite (tx_bind_ok _ _ _ _ _ E). Qed.

Lemma agree_bind_err {A} (m : Tx D A) (f : A -> Tx D B) d e R :
  m d = Err e -> R = Err e -> agree ((m ≫= f) d) R.
Proof. intros E ->. by rewrite (tx_bind_err _ _ _ _ E). Qed.

Lemma agree_bind_panic {A} (m : Tx D A) (f : A -> Tx D B) d R :
  m d = Panic -> R = Panic -> agree ((m ≫= f) d) R.
Proof. intros E ->. by rewrite (tx_bind_panic _ _ _ E). Qed.

Lemma agree_get_bucket (f : bytes -> Tx D B) d s ino n R :
  represents d s -> f_nodes s !! ino = Some n ->
  agree (f (usize_be ino) d) R -> agree ((get_bucket (usize_be ino) ≫= f) d) R.
Proof.
  intros Hr Ei. apply agree_bind_ok. apply get_bucket_ok. by eapply rep_has.
Qed.

Lemma agree_no_bucket (f : bytes -> Tx D B) d s ino R :
  represents d s -> is_u64 ino -> f_nodes s !! ino = None -> R = Err NoData ->
  agree ((get_bucket (usize_be ino) ≫= f) d) R.
Proof.
  intros Hr Hi Ei. apply agree_bind_err, get_bucket_missing. by eapply rep_none.
Qed.

Lemma agree_get_kv (f : option bytes -> Tx D B) d s ino n k R :
  represents d s -> f_nodes s !! ino = Some n -> key_ok k ->
  agree (f (node_val n k) d) R ->
  agree ((get_kv (usize_be ino) (key_bytes k) ≫= f) d) R.
Proof.
  intros Hr Ei Hk. apply agree_bind_ok. unfold get_kv. by rewrite (rep_get _ _ _ _ _ Hr Ei).
Qed.

Lemma agree_read {X} (conv : bytes -> option X) (f : X -> Tx D B) d s ino n k v x R :
  represents d s -> f_nodes s !! ino = Some n -> key_ok k ->
  node_val n k = Some v -> (node_ok n -> conv v = Some x) ->
  agree (f x d) R ->
  agree ((read_field conv (usize_be ino) (key_bytes k) ≫= f) d) R.
Proof.
  intros Hr Ei Hk Hv Hc. apply agree_bind_ok. eapply read_field_ok.
  - by rewrite (rep_get _ _ _ _ _ Hr Ei).
  - apply Hc. by eapply rep_ok.
Qed.

Lemma agree_put (f : unit -> Tx D B) d s ino n g k v R :
  represents d s -> f_nodes s !! ino = Some n ->
  edits k (Some v) n (g n) -> (node_ok n -> node_ok (g n)) ->
  (forall d', represents d' (upd ino g s) -> agree (f tt d') R) ->
  agree ((put (usize_be ino) (key_bytes k) v ≫= f) d) R.
Proof.
  intros Hr Ei He Hok Hf. eapply agree_bind_ok; [done|]. apply Hf.
  eapply rep_put; [done..|]. apply Hok. by eapply rep_ok.
Qed.

Lemma agree_delete (f : unit -> Tx D B) d s ino n g k v R :
  represents d s -> f_nodes s !! ino = Some n -> node_val n k = Some v ->
  edits k None n (g n) -> (node_ok n -> node_ok (g n)) ->
  (forall d', represents d' (upd ino g s) -> agree (f tt d') R) ->
  agree ((delete (usize_be ino) (key_bytes k) ≫= f) d) R.
Proof.
  intros Hr Ei Hv He Hok Hf.
  destruct (db_delete_some d (usize_be ino) (key_bytes k) v) as [d' Hd].
  { rewrite (rep_get _ _ _ _ _ Hr Ei); [done|]. by destruct He. }
  eapply agree_bind_ok; [by apply delete_ok|]. apply Hf.
  eapply rep_del; [done..| |done]. apply Hok. by eapply rep_ok.
Qed.

Lemma agree_drop d s ino n (R : outcome (unit * fs)) :
  represents d s -> f_nodes s !! ino = Some n ->
  R = Ok (tt, remove_node ino s) ->
  agree (delete_bucket (usize_be ino) d) R.
Proof.
  intros Hr Ei ->. pose proof (rep_has _ _ _ _ Hr Ei) as Hh.
  destruct (db_drop_some d _ Hh) as [d' Hd]. unfold delete_bucket. rewrite Hd.
  split; [done|]. eapply rep_drop; [done| |done]. by eapply rep_ino.
Qed.

Lemma agree_assoc {A A'} (m : Tx D A) (g : A -> Tx D A') (f : A' -> Tx D B) d R :
  agree ((m ≫= fun a => g a ≫= f) d) R -> agree (((m ≫= g) ≫= f) d) R.
Proof. unfold mbind, tx_bind. by destruct (m d) as [[??]| |]. Qed.

Lemma agree_guard (f : unit -> Tx D B) d c e R :
  (c = true -> agree (f tt d) R) -> (c = false -> R = Err e) ->
  agree ((tx_guard c e ≫= f) d) R.
Proof. destruct c; intros H1 H2; [by apply H1|by rewrite H2]. Qed.

Lemma agree_unwrap {A} (f : A -> Tx D B) d o a R :
  o = Some a -> agree (f a d) R -> agree ((tx_unwrap o ≫= f) d) R.
Proof. by intros ->. Qed.
End agree.

(** One lemma per field read and written, for the tactic [ag] below. *)
Section fields.
Context {D : Type} `{JammDbLaws D} {B : Type}.
Implicit Types (d : D) (s : fs) (n : node) (R : outcome (B * fs)).

Lemma agree_read_size (f : Z -> Tx D B) d s ino n R :
  represents d s -> f_nodes s !! ino = Some n -> agree (f (n_size n) d) R ->
  agree ((read_usize (usize_be ino) (bs "size") ≫= f) d) R.
Proof. intros. by eapply (agree_read _ _ d s ino n KSize); [| | |done|intros ?; eauto with fs nocore|]. Qed.
Lemma agree_read_mode (f : Z -> Tx D B) d s ino n R :
  represents d s -> f_nodes s !! ino = Some n -> agree (f (n_mode n) d) R ->
  agree ((read_u16 (usize_be ino) (bs "mode") ≫= f) d) R.
Proof. intros. by eapply (agree_read _ _ d s ino n KMode); [| | |done|intros ?; eauto with fs nocore|]. Qed.
Lemma agree_read_nlink (f : Z -> Tx D B) d s ino n R :
  represents d s -> f_nodes s !! ino = Some n -> agree (f (n_nlink n) d) R ->
  agree ((read_u32 (usize_be ino) (bs "hard_links") ≫= f) d) R.
Proof. intros. by eapply (agree_read _ _ d s ino n KNlink); [| | |done|intros ?; eauto with fs nocore|]. Qed.
Lemma agree_read_uid (f : Z -> Tx D B) d s ino n R :
  represents d s -> f_nodes s !! ino = Some n -> agree (f (n_uid n) d) R ->
  agree ((read_u32 (usize_be ino) (bs "uid") ≫= f) d) R.
Proof. intros. by eapply (agree_read _ _ d s ino n KUid); [| | |done|intros ?; eauto with fs nocore|]. Qed.
Lemma agree_read_gid (f : Z -> Tx D B) d s ino n R :
  represents d s -> f_nodes s !! ino = Some n -> agree (f (n_gid n) d) R ->
  agree ((read_u32 (usize_be ino) (bs "gid") ≫= f) d) R.
Proof. intros. by eapply (agree_read _ _ d s ino n KGid); [| | |done|intros ?; eauto with fs nocore|]. Qed.
Lemma agree_read_blksize (f : Z -> Tx D B) d s ino n R :
  represents d s -> f_nodes s !! ino = Some n -> agree (f (n_blksize n) d) R ->
  agree ((read_u32 (usize_be ino) (bs "block_size") ≫= f) d) R.
Proof. intros. by eapply (agree_read _ _ d s ino n KBlksize); [| | |done|intros ?; eauto with fs nocore|]. Qed.
Lemma agree_read_atime (f : DbfsTimeSpec -> Tx D B) d s ino n R :
  represents d s -> f_nodes s !! ino = Some n -> agree (f (n_atime n) d) R ->
  agree ((read_time (usize_be ino) (bs "atime") ≫= f) d) R.
Proof. intros. by eapply (agree_read _ _ d s ino n KAtime); [| | |done|intros ?; eauto with fs nocore|]. Qed.
Lemma agree_read_mtime (f : DbfsTimeSpec -> Tx D B) d s ino n R :
  represents d s -> f_nodes s !! ino = Some n -> agree (f (n_mtime n) d) R ->
  agree ((read_time (usize_be ino) (bs "mtime") ≫= f) d) R.
Proof. intros. by eapply (agree_read _ _ d s ino n KMtime); [| | |done|intros ?; eauto with fs nocore|]. Qed.
Lemma agree_read_ctime (f : DbfsTimeSpec -> Tx D B) d s ino n R :
  represents d s -> f_nodes s !! ino = Some n -> agree (f (n_ctime n) d) R ->
  agree ((read_time (usize_be ino) (bs "ctime") ≫= f) d) R.
Proof. intros. by eapply (agree_read _ _ d s ino n KCtime); [| | |done|intros ?; eauto with fs nocore|]. Qed.
Lemma agree_put_size (f : unit -> Tx D B) d s ino n z R :
  represents d s -> f_nodes s !! ino = Some n -> is_u64 z ->
  (forall d', represents d' (upd ino (with_size z) s) -> agree (f tt d') R) ->
  agree ((put (usize_be ino) (bs "size") (usize_be z) ≫= f) d) R.
Proof. intros. eapply (agree_put _ d s ino n (with_size z) KSize); eauto with fs nocore. Qed.
Lemma agree_put_mode (f : unit -> Tx D B) d s ino n z R :
  represents d s -> f_nodes s !! ino = Some n -> is_u16 z ->
  file_type_of_perm z = file_type_of_perm (n_mode n) ->
  (forall d', represents d' (upd ino (with_mode z) s) -> agree (f tt d') R) ->
  agree ((put (usize_be ino) (bs "mode") (u16_be z) ≫= f) d) R.
Proof. intros. eapply (agree_put _ d s ino n (with_mode z) KMode); eauto with fs nocore. Qed.
Lemma agree_put_nlink (f : unit -> Tx D B) d s ino n z R :
  represents d s -> f_nodes s !! ino = Some n -> is_u32 z ->
  (forall d', represents d' (upd ino (with_nlink z) s) -> agree (f tt d') R) ->
  agree ((put (usize_be ino) (bs "hard_links") (u32_be z) ≫= f) d) R.
Proof. intros. eapply (agree_put _ d s ino n (with_nlink z) KNlink); eauto with fs nocore. Qed.
Lemma agree_put_uid (f : unit -> Tx D B) d s ino n z R :
  represents d s -> f_nodes s !! ino = Some n -> is_u32 z ->
  (forall d', represents d' (upd ino (with_uid z) s) -> agree (f tt d') R) ->
  agree ((put (usize_be ino) (bs "uid") (u32_be z) ≫= f) d) R.
Proof. intros. eapply (agree_put _ d s ino n (with_uid z) KUid); eauto with fs nocore. Qed.
Lemma agree_put_gid (f : unit -> Tx D B) d s ino n z R :
  represents d s -> f_nodes s !! ino = Some n -> is_u32 z ->
  (forall d', represents d' (upd ino (with_gid z) s) -> agree (f tt d') R) ->
  agree ((put (usize_be ino) (bs "gid") (u32_be z) ≫= f) d) R.
Proof. intros. eapply (agree_put _ d s ino n (with_gid z) KGid); eauto with fs nocore. Qed.
Lemma agree_put_atime (f : unit -> Tx D B) d s ino n z R :
  represents d s -> f_nodes s !! ino = Some n -> time_ok z ->
  (forall d', represents d' (upd ino (with_atime z) s) -> agree (f tt d') R) ->
  agree ((put (usize_be ino) (bs "atime") (time_to_be_bytes z) ≫= f) d) R.
Proof. intros. eapply (agree_put _ d s ino n (with_atime z) KAtime); eauto with fs nocore. Qed.
Lemma agree_put_mtime (f : unit -> Tx D B) d s ino n z R :
  represents d s -> f_nodes s !! ino = Some n -> time_ok z ->
  (forall d', represents d' (upd ino (with_mtime z) s) -> agree (f tt d') R) ->
  agree ((put (usize_be ino) (bs "mtime") (time_to_be_bytes z) ≫= f) d) R.
Proof. intros. eapply (agree_put _ d s ino n (with_mtime z) KMtime); eauto with fs nocore. Qed.
Lemma agree_put_ctime (f : unit -> Tx D B) d s ino n z R :
  represents d s -> f_nodes s !! ino = Some n -> time_ok z ->
  (forall d', represents d' (upd ino (with_ctime z) s) -> agree (f tt d') R) ->
  agree ((put (usize_be ino) (bs "ctime") (time_to_be_bytes z) ≫= f) d) R.
Proof. intros. eapply (agree_put _ d s ino n (with_ctime z) KCtime); eauto with fs nocore. Qed.
Lemma agree_get_entry (f : option bytes -> Tx D B) d s ino n name R :
  represents d s -> f_nodes s !! ino = Some n ->
  agree (f (usize_to_string <$> n_entries n !! name) d) R ->
  agree ((get_kv (usize_be ino) (generate_data_key name) ≫= f) d) R.
Proof. intros. by eapply (agree_get_kv _ d s ino n (KEntry name)). Qed.
Lemma agree_put_entry (f : unit -> Tx D B) d s ino n name z R :
  represents d s -> f_nodes s !! ino = Some n -> is_u64 z ->
  (forall d', represents d' (upd ino (with_entries <[name := z]>) s) -> agree (f tt d') R) ->
  agree ((put (usize_be ino) (generate_data_key name) (usize_to_string z) ≫= f) d) R.
Proof.
  intros. eapply (agree_put _ d s ino n (with_entries <[name := z]>) (KEntry name));
    eauto with fs nocore.
Qed.
Lemma agree_del_entry (f : unit -> Tx D B) d s ino n name z R :
  represents d s -> f_nodes s !! ino = Some n -> n_entries n !! name = Some z ->
  (forall d', represents d' (upd ino (with_entries (base.delete name)) s) ->
    agree (f tt d') R) ->
  agree ((delete (usize_be ino) (generate_data_key name) ≫= f) d) R.
Proof.
  intros Hr Ei Hz Hf. eapply (agree_delete _ d s ino n _ (KEntry name));
    eauto with fs nocore. cbn. by rewrite Hz.
Qed.
Lemma agree_get_slice (f : option bytes -> Tx D B) d s ino n i R :
  represents d s -> f_nodes s !! ino = Some n -> is_u32 i ->
  agree (f (n_slices n !! i) d) R ->
  agree ((get_kv (usize_be ino) (generate_data_key_with_number i) ≫= f) d) R.
Proof. intros. by eapply (agree_get_kv _ d s ino n (KSlice i)). Qed.
Lemma agree_put_slice (f : unit -> Tx D B) d s ino n i v R :
  represents d s -> f_nodes s !! ino = Some n -> is_u32 i ->
  (forall d', represents d' (upd ino (with_slices <[i := v]>) s) -> agree (f tt d') R) ->
  agree ((put (usize_be ino) (generate_data_key_with_number i) v ≫= f) d) R.
Proof.
  intros. eapply (agree_put _ d s ino n (with_slices <[i := v]>) (KSlice i));
    eauto with fs nocore.
Qed.
Lemma agree_del_slice (f : unit -> Tx D B) d s ino n i v R :
  represents d s -> f_nodes s !! ino = Some n -> is_u32 i -> n_slices n !! i = Some v ->
  (forall d', represents d' (upd ino (with_slices (base.delete i)) s) -> agree (f tt d') R) ->
  agree ((delete (usize_be ino) (generate_data_key_with_number i) ≫= f) d) R.
Proof.
  intros Hr Ei Hi Hz Hf. eapply (agree_delete _ d s ino n _ (KSlice i));
    eauto with fs nocore.
Qed.
Lemma agree_get_xattr (f : option bytes -> Tx D B) d s ino n k R :
  represents d s -> f_nodes s !! ino = Some n -> is_xattr_key k = true ->
  agree (f (n_xattrs n !! k) d) R ->
  agree ((get_kv (usize_be ino) k ≫= f) d) R.
Proof. intros. by eapply (agree_get_kv _ d s ino n (KXattr k)). Qed.
Lemma agree_put_xattr (f : unit -> Tx D B) d s ino n k v R :
  represents d s -> f_nodes s !! ino = Some n -> is_xattr_key k = true ->
  (forall d', represents d' (upd ino (with_xattrs <[k := v]>) s) -> agree (f tt d') R) ->
  agree ((put (usize_be ino) k v ≫= f) d) R.
Proof.
  intros. eapply (agree_put _ d s ino n (with_xattrs <[k := v]>) (KXattr k));
    eauto with fs nocore.
Qed.

(** A final write has no continuation. *)
Lemma agree_last (m : Tx D B) d R : agree ((m ≫= mret) d) R -> agree (m d) R.
Proof.
  unfold mbind, tx_bind. by destruct (m d) as [[??]| |].
Qed.
End fields.

(** Solve a lookup in an updated tree. *)
Ltac look := repeat first
  [ eassumption
  | apply upd_lookup_eq
  | rewrite upd_lookup_ne by (first [done | congruence | by apply not_eq_sym]) ].

(** One step of the code: read, write or check one thing. ([eapply] would run
    the code to find a step that fits.) *)
Ltac ag := cbv beta; first
  [ simple eapply agree_get_bucket; [eassumption|look|]
  | first [ simple eapply agree_read_size | simple eapply agree_read_mode | simple eapply agree_read_nlink
          | simple eapply agree_read_uid | simple eapply agree_read_gid | simple eapply agree_read_blksize
          | simple eapply agree_read_atime | simple eapply agree_read_mtime | simple eapply agree_read_ctime
          | simple eapply agree_get_entry ];
    [eassumption|look|cbn [n_size n_mode n_nlink n_uid n_gid n_blksize n_atime n_mtime
       n_ctime n_entries with_size with_mode with_nlink with_uid with_gid with_atime
       with_mtime with_ctime with_entries with_slices with_xattrs touch]]
  | first [ simple eapply agree_put_size | simple eapply agree_put_mode | simple eapply agree_put_nlink
          | simple eapply agree_put_uid | simple eapply agree_put_gid | simple eapply agree_put_atime
          | simple eapply agree_put_mtime | simple eapply agree_put_ctime | simple eapply agree_put_entry
          | simple eapply agree_put_xattr ];
    [eassumption|look|first [assumption|eauto with fs|idtac]|intros ? ?] ].

(** Fuse the updates of one node in [H : represents d (upd i g (upd i g' s))]
    and state them as the one update [g]. *)
Ltac fuse i g := match goal with
  | Hr : represents ?d (upd i _ ?s0) |- _ =>
      rewrite ?upd_upd in Hr;
      match type of Hr with represents d (upd i ?g' ?s) =>
        let Hf := fresh "Hr" in
        assert (Hf : represents d (upd i g s));
        [ replace (upd i g s) with (upd i g' s); [exact Hr|];
          apply upd_ext; let n := fresh "n" in let En := fresh "En" in
          intros n En;
          repeat rewrite upd_lookup_ne in En by
            (first [done | congruence | by apply not_eq_sym]);
          repeat match goal with H : f_nodes _ !! i = Some _ |- _ =>
            rewrite En in H; injection H as <- end; reflexivity
        | clear Hr ]
      end
  end.

(** ** Entry points beside their abstract counterparts *)

(** On a fault-free store the entry point returns what the abstract
    operation returns and leaves a database that stands for its state; when
    it fails the world is as before. *)
Definition implements {D A} `{JammDb D} (m : Op D A) (f : fs -> outcome (A * fs)) : Prop :=
  forall w s, represents (w_db w) s ->
  match f s with
  | Ok (a, s') => exists d', m w = (Ok a, set_db w d') /\ represents d' s'
  | Err e => m w = (Err e, w)
  | Panic => m w = (Panic, w)
  end.

(** A reading operation as a state transformer that keeps the state. *)
Definition reading {A} (g : fs -> outcome A) (s : fs) : outcome (A * fs) :=
  match g s with Ok a => Ok (a, s) | Err e => Err e | Panic => Panic end.

Section implements.
Context {D : Type} `{JammDb D, !JammDbLaws D, !Reliable D}.

(** What a transaction that agrees with [r] does to the world. *)
Lemma write_runs {A} pb pc (body : Tx D A) w (r : outcome (A * fs)) :
  agree (body (w_db w)) r ->
  match r with
  | Ok (a, s') => exists d', write_tx pb pc body w = (Ok a, set_db w d') /\ represents d' s'
  | Err e => write_tx pb pc body w = (Err e, w)
  | Panic => write_tx pb pc body w = (Panic, w)
  end.
Proof.
  unfold agree. intros Hb.
  destruct r as [[a s']|e|], (body (w_db w)) as [[a' d']|e'|] eqn:E; try done.
  - destruct Hb as [-> Hr']. exists d'. by rewrite (write_tx_ok _ _ _ _ _ _ E).
  - subst. by apply write_tx_err.
  - by apply write_tx_panic.
Qed.

Lemma implements_write {A} pb pc (body : Tx D A) (f : fs -> outcome (A * fs)) :
  refines body f -> implements (write_tx pb pc body) f.
Proof. intros Hb w s Hr. by apply write_runs, Hb. Qed.

(** A transaction that only reads leaves the world as it was. *)
Lemma read_runs {A} p (body : Tx D A) (g : fs -> outcome A) w s :
  refines body (reading g) -> represents (w_db w) s ->
  read_tx p body w = (g s, w).
Proof.
  intros Hb Hr. specialize (Hb _ _ Hr). unfold agree, reading in Hb.
  unfold read_tx, dropped_tx. rewrite begin_ok.
  destruct (g s) as [a|e|], (body (w_db w)) as [[a' d']|e'|]; try done.
  - by destruct Hb as [-> _].
  - by subst.
Qed.

Lemma implements_map_err {A} e (m : Op D A) (f : fs -> outcome (A * fs)) :
  implements m f -> implements (op_map_err e m) (fun s => map_err e (f s)).
Proof.
  intros Hm w s Hr. specialize (Hm w s Hr). unfold op_map_err.
  destruct (f s) as [[a s']|e'|]; cbn.
  - destruct Hm as (d' & -> & Hr'). by exists d'.
  - by rewrite Hm.
  - by rewrite Hm.
Qed.
End implements.

(** ** Filling a fresh bucket *)

(** [d] is [d0] with one more bucket [b], whose pairs are those of [φ]. *)
Record filling {D} `{JammDb D} (d0 : D) (b : bytes) (φ : key -> option bytes) (d : D) :
  Prop := {
  fill_has : db_has d b = true;
  fill_get : forall k, db_get d b k = φ (parse_key k);
  fill_has_ne : forall b', b' <> b -> db_has d b' = db_has d0 b';
  fill_get_ne : forall b' k, b' <> b -> db_get d b' k = db_get d0 b' k }.

Section filling.
Context {D : Type} `{JammDbLaws D} {B : Type}.
Implicit Types (d : D) (s : fs) (φ : key -> option bytes).

Lemma filling_create d b d' :
  db_create d b = Some d' -> filling d b (fun _ => None) d'.
Proof.
  intros Hc. split.
  - rewrite (db_has_create _ _ _ _ Hc). by rewrite bool_decide_eq_true_2.
  - intros k. rewrite (db_get_create _ _ _ _ _ Hc). by rewrite bool_decide_eq_true_2.
  - intros b' Hb. rewrite (db_has_create _ _ _ _ Hc). by rewrite bool_decide_eq_false_2.
  - intros b' k Hb. rewrite (db_get_create _ _ _ _ _ Hc). by rewrite bool_decide_eq_false_2.
Qed.

Lemma filling_put d0 b φ d k v :
  key_ok k -> filling d0 b φ d ->
  filling d0 b (fun k' => if decide (k' = k) then Some v else φ k')
    (db_put d b (key_bytes k) v).
Proof.
  intros Hk [Hh Hg Hhn Hgn]. split.
  - by rewrite db_has_put.
  - intros k'. rewrite db_get_put by done. rewrite Hg.
    case_bool_decide as E.
    + destruct E as [_ E]. by rewrite decide_True by (by apply parse_key_iff).
    + rewrite decide_False; [done|]. intros E2. apply E. split; [done|].
      by apply parse_key_iff.
  - intros b' Hb. rewrite db_has_put. by apply Hhn.
  - intros b' k' Hb. rewrite db_get_put_bucket by done. by apply Hgn.
Qed.

Lemma agree_create (f : bytes -> Tx D B) d s ino (R : outcome (B * fs)) :
  represents d s -> is_u64 ino ->
  (f_nodes s !! ino = None -> forall d', filling d (usize_be ino) (fun _ => None) d' ->
    agree (f (usize_be ino) d') R) ->
  (is_Some (f_nodes s !! ino) -> R = Err FileExists) ->
  agree ((create_bucket (usize_be ino) ≫= f) d) R.
Proof.
  intros Hr Hi Hn Hs. destruct (f_nodes s !! ino) as [n|] eqn:Ei.
  - pose proof (rep_has _ _ _ _ Hr Ei) as Hh. apply db_create_None in Hh.
    eapply agree_bind_err; [unfold create_bucket; by rewrite Hh|]. by apply Hs.
  - pose proof (rep_none _ _ Hr _ Hi Ei) as Hh.
    destruct (db_create_some _ _ Hh) as [d' Hc].
    eapply agree_bind_ok; [unfold create_bucket; by rewrite Hc|].
    apply Hn; [done|]. by apply filling_create.
Qed.

Lemma agree_fill (f : unit -> Tx D B) d0 b φ d k kb v (R : outcome (B * fs)) :
  filling d0 b φ d -> kb = key_bytes k -> key_ok k ->
  (forall d', filling d0 b (fun k' => if decide (k' = k) then Some v else φ k') d' ->
    agree (f tt d') R) ->
  agree ((put b kb v ≫= f) d) R.
Proof.
  intros Hf -> Hk Hn. eapply agree_bind_ok; [done|]. apply Hn. by apply filling_put.
Qed.

Lemma rep_filled d0 s ino n φ d :
  represents d0 s -> is_u64 ino -> f_nodes s !! ino = None -> node_ok n ->
  filling d0 (usize_be ino) φ d -> (forall k, φ k = node_val n k) ->
  represents d (add_node ino n s).
Proof.
  intros Hr Hi Ei Hok [Hh Hg Hhn Hgn] Hφ. eapply rep_add; [done..| |done|done].
  split; [done|]. intros k. by rewrite Hg, Hφ.
Qed.
End filling.

(** One write into the fresh bucket. *)
Ltac fill1 k := simple eapply (agree_fill _ _ _ _ _ k); [eassumption|reflexivity|done|intros ? ?].
Ltac fill := cbv beta; first
  [ fill1 KSize | fill1 KMode | fill1 KNlink | fill1 KUid | fill1 KGid | fill1 KBlksize
  | fill1 (KEntry (bs ".")) | fill1 (KEntry (bs ".."))
  | fill1 KAtime | fill1 KMtime | fill1 KCtime | fill1 KTarget | fill1 KDev ].
