(* ===== verification/Image.v ===== *)
(** * Database images

    Every abstract file system whose nodes are well formed is stood for by a
    concrete database: [image] lays it out. So [represents] can always be
    met, and the witnesses of the development run the operations on the
    images of the small trees defined at the end. *)

From S2P Require Import Prelude Bytes Common Store MapDb Access Tree Layout.

(** The pairs of a node. *)
Definition node_pairs (n : node) : list (key * bytes) :=
  [(KSize, usize_be (n_size n)); (KMode, u16_be (n_mode n));
   (KNlink, u32_be (n_nlink n)); (KUid, u32_be (n_uid n)); (KGid, u32_be (n_gid n));
   (KBlksize, u32_be (n_blksize n)); (KAtime, time_to_be_bytes (n_atime n));
   (KMtime, time_to_be_bytes (n_mtime n)); (KCtime, time_to_be_bytes (n_ctime n))]
  ++ match n_target n with Some t => [(KTarget, t)] | None => [] end
  ++ match n_dev n with Some z => [(KDev, u32_be z)] | None => [] end
  ++ ((fun kv => (KEntry kv.1, usize_to_string kv.2)) <$> map_to_list (n_entries n))
  ++ ((fun kv => (KSlice kv.1, kv.2)) <$> map_to_list (n_slices n))
  ++ ((fun kv => (KXattr kv.1, kv.2)) <$> map_to_list (n_xattrs n)).

Definition node_image (n : node) : gmap bytes bytes :=
  list_to_map ((fun kv => (key_bytes kv.1, kv.2)) <$> node_pairs n).

Definition super_image (s : fs) : gmap bytes bytes :=
  {[bs "disk_size" := u64_be (f_free s)]}.

Definition image (s : fs) : mapdb :=
  <[bs "super_blk" := super_image s]>
    (list_to_map ((fun kv => (usize_be kv.1, node_image kv.2)) <$> map_to_list (f_nodes s))).

(** The nodes of a tree that can be stored. *)
Definition fs_ok (s : fs) : Prop :=
  is_u64 (f_free s) /\
  map_Forall (fun ino n => is_u64 ino /\ node_ok n) (f_nodes s).

Lemma node_pairs_spec n k v : (k, v) ∈ node_pairs n <-> node_val n k = Some v.
Proof.
  unfold node_pairs. rewrite !elem_of_app, !list_elem_of_fmap.
  split.
  - intros [H|[H|[H|[H|[H|H]]]]].
    + set_unfold in H. destruct_or! H; by simplify_eq.
    + destruct (n_target n) eqn:E; set_unfold in H; [|done]. destruct H; by simplify_eq.
    + destruct (n_dev n) eqn:E; set_unfold in H; [|done]. destruct H as [H|[]]. simplify_eq. cbn. by rewrite E.
    + destruct H as ([nm i] & [= -> ->] & Hi%elem_of_map_to_list). cbn. by rewrite Hi.
    + destruct H as ([i w] & [= -> ->] & Hi%elem_of_map_to_list). done.
    + destruct H as ([i w] & [= -> ->] & Hi%elem_of_map_to_list). done.
  - intros H. destruct k; cbn in H; try injection H as <-;
      try (left; set_solver).
    + right; left. rewrite H. set_solver.
    + do 2 right; left. apply fmap_Some in H as (z & -> & ->). set_solver.
    + do 3 right; left. apply fmap_Some in H as (z & Hz & ->).
      exists (name, z). split; [done|]. by apply elem_of_map_to_list.
    + do 4 right; left. exists (num, v). split; [done|]. by apply elem_of_map_to_list.
    + do 5 right. exists (k, v). split; [done|]. by apply elem_of_map_to_list.
Qed.

(** A list whose pairs are those of a partial function is its map. *)
Lemma list_to_map_fun {V} (l : list (bytes * V)) (φ : bytes -> option V) :
  (forall k v, (k, v) ∈ l <-> φ k = Some v) ->
  forall k, (list_to_map l : gmap bytes V) !! k = φ k.
Proof.
  intros Hl k. destruct (list_to_map l !! k) as [v|] eqn:E.
  - symmetry. apply Hl. by apply elem_of_list_to_map_2 in E.
  - apply not_elem_of_list_to_map_2 in E. destruct (φ k) as [v|] eqn:E2; [|done].
    destruct E. apply list_elem_of_fmap. exists (k, v). split; [done|]. by apply Hl.
Qed.

Lemma node_val_key_ok n k v : node_ok n -> node_val n k = Some v -> key_ok k.
Proof.
  intros Hn. destruct k; cbn; try done.
  - apply (ok_slices _ Hn).
  - apply (ok_xattrs _ Hn).
Qed.

Lemma node_image_lookup n k : node_ok n -> node_image n !! k = node_val n (parse_key k).
Proof.
  intros Hn. apply (list_to_map_fun _ (fun k => node_val n (parse_key k))).
  clear k. intros k v. rewrite list_elem_of_fmap. split.
  - intros ([κ w] & [= -> ->] & Hin%node_pairs_spec).
    rewrite parse_key_bytes; [done|]. by apply (node_val_key_ok n κ w).
  - intros Hv. exists (parse_key k, v). split; [|by apply node_pairs_spec].
    cbn. by rewrite key_bytes_parse.
Qed.

Lemma image_lookup s ino :
  fs_ok s -> is_u64 ino -> image s !! usize_be ino = node_image <$> f_nodes s !! ino.
Proof.
  intros [_ Hs] Hi. unfold image. rewrite lookup_insert_ne by apply super_blk_ne.
  set (l := _ <$> map_to_list _).
  assert (HE : forall k v, (k, v) ∈ l <->
    exists j n, k = usize_be j /\ v = node_image n /\ f_nodes s !! j = Some n).
  { intros k v. subst l. rewrite list_elem_of_fmap. split.
    - intros ([j n] & [= -> ->] & Hj%elem_of_map_to_list). by exists j, n.
    - intros (j & n & -> & -> & Hj). exists (j, n). split; [done|].
      by apply elem_of_map_to_list. }
  destruct (list_to_map l !! usize_be ino) as [v|] eqn:E.
  - apply elem_of_list_to_map_2, HE in E as (j & n & Ej & -> & Hj).
    apply usize_be_inj in Ej as <-; [|done|by apply (Hs _ _ Hj)]. by rewrite Hj.
  - apply not_elem_of_list_to_map_2 in E. destruct (f_nodes s !! ino) as [n|] eqn:E2; [|done].
    destruct E. apply list_elem_of_fmap. exists (usize_be ino, node_image n).
    split; [done|]. apply HE. by exists ino, n.
Qed.

Lemma image_represents s : fs_ok s -> represents (image s) s.
Proof.
  intros Hs. pose proof Hs as [Hf Hn]. split.
  - intros ino n Ei. destruct (Hn _ _ Ei) as [Hi Hok]. split; [done|]. split; [|done].
    pose proof (image_lookup s ino Hs Hi) as El. rewrite Ei in El. cbn in El. split.
    + cbn. rewrite El. by apply bool_decide_eq_true_2; eexists.
    + intros k. cbn. unfold map_get. rewrite El. cbn. by apply node_image_lookup.
  - intros ino Hi Ei. change (bool_decide (is_Some (image s !! usize_be ino)) = false).
    rewrite image_lookup, Ei by done.
    apply bool_decide_eq_false_2. by intros [].
  - split; [|done]. change (map_get (image s) (bs "super_blk") (bs "disk_size") =
      Some (u64_be (f_free s))). unfold map_get, image. rewrite lookup_insert_eq.
    apply lookup_insert_eq.
Qed.

(** ** Small trees *)

Definition sample_time : DbfsTimeSpec := TimeSpec 1700000000 7.

Definition dir_node (size : Z) (entries : gmap bytes Z) : node :=
  {| n_size := size; n_mode := 0x41FF; n_nlink := 2; n_uid := 0; n_gid := 0;
     n_blksize := 512; n_atime := sample_time; n_mtime := sample_time;
     n_ctime := sample_time; n_entries := entries; n_target := None; n_dev := None;
     n_slices := ∅; n_xattrs := ∅ |}.

Definition file_node (size : Z) (slices : gmap Z bytes) : node :=
  {| n_size := size; n_mode := 0x81ED; n_nlink := 1; n_uid := 1000; n_gid := 1000;
     n_blksize := 512; n_atime := sample_time; n_mtime := sample_time;
     n_ctime := sample_time; n_entries := ∅; n_target := None; n_dev := None;
     n_slices := slices; n_xattrs := ∅ |}.

(** The root alone. *)
Definition root_fs : fs := Fs {[1 := dir_node 1 {[bs "." := 1]}]} 1000000.

Definition enter_sample (name : bytes) (ino : Z) (p : node) : node :=
  with_size (n_size p + 1) (with_entries <[name := ino]> p).

(** The root with the file [a]. *)
Definition file_fs : fs :=
  add_node 2 (file_node 0 ∅) (upd 1 (enter_sample (bs "a") 2) root_fs).

(** The root with the file [a] and the empty directory [d]. *)
Definition tree_fs : fs :=
  add_node 3 (dir_node 2 (<[bs ".." := 1]> {[bs "." := 3]}))
    (upd 1 (enter_sample (bs "d") 3) file_fs).

Lemma fs_ok_add s ino n : fs_ok s -> is_u64 ino -> node_ok n -> fs_ok (add_node ino n s).
Proof.
  intros [Hf Hs] Hi Hn. split; [done|]. cbn. by apply map_Forall_insert_2.
Qed.

Lemma fs_ok_upd s i g :
  fs_ok s -> (forall n, f_nodes s !! i = Some n -> node_ok n -> node_ok (g n)) ->
  fs_ok (upd i g s).
Proof.
  intros [Hf Hs] Hg. split; [done|]. intros j n. rewrite upd_lookup.
  intros (m & Hm & ->)%fmap_Some. destruct (Hs _ _ Hm) as [Hj Hok]. split; [done|].
  case_decide; [subst; by apply Hg|done].
Qed.

Lemma dir_node_ok size entries :
  is_u64 size -> (forall nm i, entries !! nm = Some i -> is_u64 i) ->
  node_ok (dir_node size entries).
Proof. intros ? He. split; try done; [..|by intros t [= <-] []]; by eexists. Qed.

Lemma file_node_ok size slices :
  is_u64 size -> (forall i v, slices !! i = Some v -> is_u32 i) ->
  node_ok (file_node size slices).
Proof. intros ? He. split; try done; [..|by intros t [= <-] []]; by eexists. Qed.

Lemma root_fs_ok : fs_ok root_fs.
Proof.
  split; [done|]. apply map_Forall_singleton. split; [done|]. apply dir_node_ok; [done|].
  by intros nm i [_ <-]%lookup_singleton_Some.
Qed.

Lemma file_fs_ok : fs_ok file_fs.
Proof.
  apply fs_ok_add; [|done|by apply file_node_ok].
  apply fs_ok_upd; [apply root_fs_ok|].
  intros n Hn Hok. injection Hn as <-. unfold enter_sample.
  apply ok_with_size; [done|]. by apply ok_with_entry.
Qed.

Lemma tree_fs_ok : fs_ok tree_fs.
Proof.
  apply fs_ok_add; [|done|apply dir_node_ok; [done|]].
  2: { by intros nm i [[_ <-]|[_ [_ <-]%lookup_singleton_Some]]%lookup_insert_Some. }
  apply fs_ok_upd; [apply file_fs_ok|]. intros n Hn Hok. injection Hn as <-.
  unfold enter_sample at 1. apply ok_with_size; [done|]. by apply ok_with_entry.
Qed.

(** A root whose only entry is itself. *)
Lemma root_alone_wf p z :
  n_entries p = {[bs "." := 1]} -> n_size p = 1 -> node_is_dir p = true ->
  wf (Fs {[1 := p]} z).
Proof.
  intros Hp Hs Hd.
  assert (HE : forall d nm j, entry (Fs {[1 := p]} z) d nm = Some j ->
    d = 1 /\ nm = bs "." /\ j = 1).
  { intros d nm j. unfold entry. cbn [f_nodes]. destruct (decide (d = 1)) as [->|].
    - rewrite lookup_singleton_eq. cbn [mbind option_bind]. rewrite Hp.
      by intros [-> <-]%lookup_singleton_Some.
    - by rewrite lookup_singleton_ne. }
  assert (HN : forall j n, f_nodes (Fs {[1 := p]} z) !! j = Some n -> j = 1 /\ n = p).
  { intros j n. cbn [f_nodes]. rewrite lookup_singleton_Some. by intros [<- <-]. }
  split.
  - intros d nm j (-> & -> & ->)%HE. by eexists.
  - intros d n [-> ->]%HN _. by rewrite Hp, Hs.
  - intros d n [-> ->]%HN Hn. congruence.
  - intros d n [-> ->]%HN Hn. congruence.
  - intros d (n & [-> ->]%HN & _). unfold entry. cbn [f_nodes].
    rewrite lookup_singleton_eq. cbn [mbind option_bind]. rewrite Hp.
    apply lookup_singleton_eq.
  - by intros d par (_ & ? & _)%HE.
  - intros d nm j (-> & -> & ->)%HE Hn. destruct Hn. by left.
  - by intros d nm nm' j (-> & -> & ->)%HE (_ & -> & _)%HE.
Qed.

Lemma root_fs_wf : wf root_fs.
Proof. by apply root_alone_wf. Qed.

Lemma file_fs_wf : wf file_fs.
Proof.
  apply (wf_create root_fs 2 1 (dir_node 1 {[bs "." := 1]}) (file_node 0 ∅) (bs "a")
    (enter_sample (bs "a") 2)); try done; [apply root_fs_wf|by intros []].
Qed.

Lemma tree_fs_wf : wf tree_fs.
Proof.
  apply (wf_create file_fs 3 1 (enter_sample (bs "a") 2 (dir_node 1 {[bs "." := 1]}))
    (dir_node 2 (<[bs ".." := 1]> {[bs "." := 3]})) (bs "d")
    (enter_sample (bs "d") 3)); try done; [apply file_fs_wf|by intros []].
Qed.

#[export] Hint Resolve root_fs_ok file_fs_ok tree_fs_ok root_fs_wf file_fs_wf tree_fs_wf
  image_represents : fs.
