(* ===== verification/Inode.v ===== *)
(** * Inodes: attributes, lookup, access and creation

    An inode is a bucket named by its number; its fields are pairs of that
    bucket, and a directory's entries are the pairs [data:<name>] whose value
    is the inode number in decimal. This file models [dbfs_common_attr],
    [dbfs_common_lookup], [dbfs_common_access] and [dbfs_common_create] of
    src/src/inode.rs and [dbfs_common_open] of src/src/file.rs. *)

From S2P Require Import Prelude Bytes Common Store Access Tree Layout MapDb Image.

(** The slice size is chosen by a cargo feature ([sli512] .. [sli32k]). *)
Class SliceConfig := {
  SLICE_SIZE : Z;
  slice_choice : SLICE_SIZE ∈ [512; 1024; 4096; 8192; 32768] }.

Lemma slice_range `{SliceConfig} : 512 <= SLICE_SIZE <= 32768.
Proof. pose proof slice_choice as Hs. set_unfold in Hs. lia. Qed.

#[export] Instance sli512 : SliceConfig.
Proof. refine {| SLICE_SIZE := 512 |}. set_solver. Defined.

#[export] Instance sli32k : SliceConfig | 100.
Proof. refine {| SLICE_SIZE := 32768 |}. set_solver. Defined.

(** ** The operations *)

Section ops.
Context `{SliceConfig} {D : Type} `{JammDb D}.

(** [dbfs_common_attr]: the body of its transaction. *)
Definition attr_tx (number : Z) : Tx D DbfsAttr :=
  bucket ← get_bucket (usize_be number);
  size ← read_usize bucket (bs "size");
  mode ← read_u16 bucket (bs "mode");
  mode ← tx_unwrap (Perm.from_bits mode);
  file_type ← tx_unwrap (file_type_of_perm mode);
  n_links ← read_u32 bucket (bs "hard_links");
  uid ← read_u32 bucket (bs "uid");
  gid ← read_u32 bucket (bs "gid");
  blksize ← read_u32 bucket (bs "block_size");
  blocks ← tx_unwrap (if blksize =? 0 then None
                      else Some (w64 (size + blksize - 1) / blksize));
  atime ← read_time bucket (bs "atime");
  mtime ← read_time bucket (bs "mtime");
  ctime ← read_time bucket (bs "ctime");
  rdev ← (if bool_decide (file_type = CharDevice \/ file_type = BlockDevice)
          then read_u32 bucket (bs "dev") else mret 0);
  mret {| a_ino := number; a_size := size; a_blocks := blocks;
          a_atime := atime; a_mtime := mtime; a_ctime := ctime;
          a_crtime := time_default; a_kind := file_type; a_perm := mode;
          a_nlink := n_links; a_uid := uid; a_gid := gid; a_rdev := rdev;
          a_blksize := blksize; a_padding := 0; a_flags := 0 |}.

Definition dbfs_common_attr (number : Z) : Op D DbfsAttr :=
  read_tx Question (attr_tx number).

(** The inode number stored under a directory entry. *)
Definition lookup_tx (dir : Z) (name : bytes) : Tx D Z :=
  bucket ← get_bucket (usize_be dir);
  value ← get_kv bucket (generate_data_key name);
  match value with
  | None => tx_fail NotFound
  | Some value => tx_unwrap (parse_usize value)
  end.

Definition dbfs_common_lookup (dir : Z) (name : bytes) : Op D DbfsAttr :=
  number ← read_tx Question (lookup_tx dir name);
  dbfs_common_attr number.

(** [dbfs_common_access]: the caller's ids go where [checkout_access]
    takes the owner's, and the owner's where it takes the caller's. *)
Definition dbfs_common_access (p_uid p_gid ino mask : Z) : Op D bool :=
  read_tx Question (
    inode ← get_bucket (usize_be ino);
    mode ← read_u16 inode (bs "mode");
    uid ← read_u32 inode (bs "uid");
    gid ← read_u32 inode (bs "gid");
    mret (checkout_access p_uid p_gid mode uid gid (w16 mask))).

Definition dbfs_common_open (ino uid gid access_mask : Z) : Op D unit :=
  attr ← op_map_err NotFound (dbfs_common_attr ino);
  if checkout_access (a_uid attr) (a_gid attr) (a_perm attr) uid gid access_mask
  then mret tt else op_fail AccessError.

(** The mode of a new inode. *)
Definition create_mode (permission uid p_mode : Z) : Z :=
  let mode := permission in
  let mode := if negb (uid =? 0)
              then Perm.remove (Perm.remove mode Perm.S_ISUID) Perm.S_ISGID
              else mode in
  let p_mode := Perm.from_bits_truncate p_mode in
  if Perm.contains permission Perm.S_IFDIR
  then if Perm.contains p_mode Perm.S_IFDIR
       then Perm.union mode Perm.S_ISGID else mode
  else mode.

(** The link count, the size and the device number of a new inode. *)
Definition create_kind (permission : Z) (target_path : option bytes) (dev : option Z) :
  Tx D (Z * Z * option Z) :=
  if Perm.contains permission Perm.S_IFSOCK || Perm.contains permission Perm.S_IFCHR
     || Perm.contains permission Perm.S_IFBLK || Perm.contains permission Perm.S_IFIFO
  then mret (1, 0, dev)
  else if Perm.contains permission Perm.S_IFDIR then mret (2, 2, None)
  else if Perm.contains permission Perm.S_IFLNK then
    target ← tx_unwrap target_path;
    mret (1, zlen target, None)
  else mret (1, 0, None).

Definition create_tx (new_number dir : Z) (name : bytes) (uid gid : Z)
    (c_time : DbfsTimeSpec) (permission : Z) (target_path : option bytes)
    (dev : option Z) : Tx D (Z * Z * option Z * Z * Z) :=
  parent ← get_bucket (usize_be dir);
  p_uid ← read_u32 parent (bs "uid");
  p_gid ← read_u32 parent (bs "gid");
  p_mode ← read_u16 parent (bs "mode");
  tx_guard (checkout_access p_uid p_gid (Z.land p_mode 0x1FF) uid gid 2) AccessError;;
  size ← read_usize parent (bs "size");
  put parent (bs "size") (usize_be (w64 (size + 1)));;
  put parent (generate_data_key name) (usize_to_string new_number);;
  put parent (bs "ctime") (time_to_be_bytes c_time);;
  put parent (bs "mtime") (time_to_be_bytes c_time);;
  let mode := create_mode permission uid p_mode in
  let gid := creation_gid p_gid permission gid in
  new_inode ← create_bucket (usize_be new_number);
  put new_inode (bs "mode") (u16_be mode);;
  '(hard_link, file_size, dev) ← create_kind permission target_path dev;
  tx_when (Perm.contains permission Perm.S_IFDIR)
    (put new_inode (generate_data_key (bs ".")) (usize_to_string new_number);;
     put new_inode (generate_data_key (bs "..")) (usize_to_string dir));;
  put new_inode (bs "size") (usize_be file_size);;
  put new_inode (bs "hard_links") (u32_be hard_link);;
  put new_inode (bs "uid") (u32_be uid);;
  put new_inode (bs "gid") (u32_be gid);;
  put new_inode (bs "atime") (time_to_be_bytes c_time);;
  put new_inode (bs "mtime") (time_to_be_bytes c_time);;
  put new_inode (bs "ctime") (time_to_be_bytes c_time);;
  put new_inode (bs "block_size") (u32_be SLICE_SIZE);;
  tx_when (Perm.contains permission Perm.S_IFLNK)
    (target ← tx_unwrap target_path; put new_inode (bs "data") target);;
  match dev with
  | Some dev => put new_inode (bs "dev") (u32_be dev)
  | None => mret tt
  end;;
  mret (hard_link, file_size, dev, mode, gid).

(** The number is drawn before the transaction begins, and stays drawn
    when it fails; the file type of the result is computed after the
    commit. *)
Definition dbfs_common_create (dir : Z) (name : bytes) (uid gid : Z)
    (c_time : DbfsTimeSpec) (permission : Z) (target_path : option bytes)
    (dev : option Z) : Op D DbfsAttr :=
  new_number ← fetch_next;
  '(hard_link, file_size, dev, mode, gid) ←
    write_tx Question Question
      (create_tx new_number dir name uid gid c_time permission target_path dev);
  kind ← op_unwrap (file_type_of_perm permission);
  mret {| a_ino := new_number; a_size := file_size; a_blocks := 0;
          a_atime := c_time; a_mtime := c_time; a_ctime := c_time;
          a_crtime := time_default; a_kind := kind; a_perm := mode;
          a_nlink := hard_link; a_uid := uid; a_gid := gid;
          a_rdev := default 0 dev; a_blksize := 512; a_padding := 0;
          a_flags := 0 |}.
End ops.

(** ** What the operations promise *)

(** The attributes of a node. *)
Definition attr_of (ino : Z) (n : node) (t : DbfsFileType) : DbfsAttr :=
  {| a_ino := ino; a_size := n_size n;
     a_blocks := w64 (n_size n + n_blksize n - 1) / n_blksize n;
     a_atime := n_atime n; a_mtime := n_mtime n; a_ctime := n_ctime n;
     a_crtime := time_default; a_kind := t; a_perm := n_mode n;
     a_nlink := n_nlink n; a_uid := n_uid n; a_gid := n_gid n;
     a_rdev := if bool_decide (t = CharDevice \/ t = BlockDevice)
               then default 0 (n_dev n) else 0;
     a_blksize := n_blksize n; a_padding := 0; a_flags := 0 |}.

Definition t_attr (ino : Z) (s : fs) : outcome DbfsAttr :=
  match f_nodes s !! ino with
  | None => Err NoData
  | Some n =>
      match file_type_of_perm (n_mode n) with
      | Some t => Ok (attr_of ino n t)
      | None => Panic
      end
  end.

Definition t_lookup (dir : Z) (name : bytes) (s : fs) : outcome Z :=
  match f_nodes s !! dir with
  | None => Err NoData
  | Some p => match n_entries p !! name with Some ino => Ok ino | None => Err NotFound end
  end.

(** The directory [p] gains the entry [name]. *)
Definition enter (name : bytes) (ino : Z) (t : DbfsTimeSpec) (p : node) : node :=
  touch t (with_size (w64 (n_size p + 1)) (with_entries <[name := ino]> p)).

(** The entries of a new node: a directory starts with itself and its
    parent. The type bits of block devices and of sockets contain those of
    directories, so they get the two entries as well. *)
Definition dot_entries (t : DbfsFileType) (new dir : Z) : gmap bytes Z :=
  if bool_decide (t ∈ [Directory; BlockDevice; Socket])
  then <[bs ".." := dir]> {[bs "." := new]} else ∅.

(** A new node of type [t]; [mode] and [gid] as computed from the parent. *)
Definition new_node `{SliceConfig} (t : DbfsFileType) (new dir mode uid gid : Z)
    (c_time : DbfsTimeSpec) (target : option bytes) (dev : option Z) : node :=
  {| n_size := if bool_decide (t = Directory) then 2 else 0;
     n_mode := mode;
     n_nlink := if bool_decide (t = Directory) then 2 else 1;
     n_uid := uid; n_gid := gid; n_blksize := SLICE_SIZE;
     n_atime := c_time; n_mtime := c_time; n_ctime := c_time;
     n_entries := dot_entries t new dir;
     n_target := if bool_decide (t = Symlink) then target else None;
     n_dev := if bool_decide (t = Directory \/ t = RegularFile) then None else dev;
     n_slices := ∅; n_xattrs := ∅ |}.

(** Creation of a node of type [t] with the permission bits [bits]. *)
Definition t_create `{SliceConfig} (t : DbfsFileType) (new dir : Z) (name : bytes)
    (uid gid : Z) (c_time : DbfsTimeSpec) (bits : Z) (target : option bytes)
    (dev : option Z) (s : fs) : outcome (node * fs) :=
  match f_nodes s !! dir with
  | None => Err NoData
  | Some p =>
      if negb (checkout_access (n_uid p) (n_gid p) (n_mode p) uid gid ACCESS_W_OK)
      then Err AccessError
      else if bool_decide (is_Some (f_nodes s !! new)) then Err FileExists
      else
        let permission := Z.lor (type_bits t) bits in
        let mode := create_mode permission uid (n_mode p) in
        let gid := creation_gid (n_gid p) permission gid in
        let n := new_node t new dir mode uid gid c_time target dev in
        Ok (n, add_node new n (upd dir (enter name new c_time) s))
  end.

(** ** Facts about type bits *)

Lemma contains_type_bits t bits f :
  0 <= bits < 2 ^ 12 -> f ∈ type_masks ->
  Perm.contains (Z.lor (type_bits t) bits) f = Perm.contains (type_bits t) f.
Proof.
  intros Hb Hf. apply contains_ext. intros i Hi Hbit.
  pose proof (type_mask_bits f i Hf Hi Hbit) as Hr.
  rewrite Z.lor_spec, (Z.bits_above_log2 bits i), orb_false_r; [done|lia|].
  destruct (decide (bits = 0)) as [->|]; [cbn; lia|].
  assert (Z.log2 bits < 12) by (apply Z.log2_lt_pow2; lia). lia.
Qed.

Lemma file_type_type_bits t bits :
  0 <= bits < 2 ^ 12 -> file_type_of_perm (Z.lor (type_bits t) bits) = Some t.
Proof.
  intros Hb. unfold file_type_of_perm.
  rewrite !contains_type_bits by first [exact Hb | by_eval].
  by destruct t.
Qed.

Lemma file_type_create_mode perm uid p_mode :
  file_type_of_perm (create_mode perm uid p_mode) = file_type_of_perm perm.
Proof.
  apply file_type_ext. intros i Hi. unfold create_mode. cbv zeta.
  assert (HR : Z.testbit (if negb (uid =? 0)
      then Perm.remove (Perm.remove perm Perm.S_ISUID) Perm.S_ISGID else perm) i
      = Z.testbit perm i).
  { destruct (uid =? 0); [done|]. cbn [negb]. change Perm.S_ISUID with (2 ^ 11).
    change Perm.S_ISGID with (2 ^ 10).
    rewrite !remove_pow2_spec, !Zeqb_ne by lia. cbn. by rewrite !andb_true_r. }
  destruct (Perm.contains perm _); [|done]. destruct (Perm.contains _ _); [|done].
  unfold Perm.union. rewrite Z.lor_spec, HR. change Perm.S_ISGID with (2 ^ 10).
  rewrite testbit_pow2_eqb, (Zeqb_ne 10 i) by lia. apply orb_false_r.
Qed.

Lemma create_mode_u16 perm uid p_mode :
  is_u16 perm -> is_u16 (create_mode perm uid p_mode).
Proof.
  intros Hp. unfold create_mode. cbv zeta.
  assert (HS : is_u16 Perm.S_ISGID) by done.
  repeat case_match; auto with fs.
Qed.

Lemma type_bits_u16 t bits :
  0 <= bits < 2 ^ 12 -> is_u16 (Z.lor (type_bits t) bits).
Proof.
  intros Hb. apply Perm.union_u16; [by destruct t|]. unfold is_u16. lia.
Qed.

(** ** The operations keep their promises *)

Section facts.
Context `{SliceConfig} {D : Type} `{JammDbLaws D}.
Implicit Types (d : D) (w : world D) (s : fs) (n : node).

Lemma agree_missing {B} (f : bytes -> Tx D B) d s ino (R : outcome (B * fs)) :
  represents d s -> is_u64 ino -> f_nodes s !! ino = None -> R = Err NoData ->
  agree ((get_bucket (usize_be ino) ≫= f) d) R.
Proof. intros. by eapply agree_no_bucket. Qed.

Lemma attr_tx_refines ino : is_u64 ino -> refines (attr_tx (D := D) ino) (reading (t_attr ino)).
Proof.
  intros Hino d s Hr. unfold attr_tx, reading, t_attr.
  destruct (f_nodes s !! ino) as [n|] eqn:Ei.
  2: { by eapply agree_missing. }
  pose proof (rep_ok _ _ _ _ Hr Ei) as Hok. destruct (ok_type _ Hok) as [t Ht].
  rewrite Ht. do 3 ag. eapply agree_unwrap; [apply Perm.from_bits_u16|].
  eapply agree_unwrap; [done|]. do 4 ag.
  eapply agree_unwrap; [by rewrite Zeqb_ne by apply (ok_blksize_pos _ Hok)|]. do 3 ag.
  unfold attr_of. case_bool_decide as Hs.
  - destruct (ok_special _ Hok t Ht Hs) as [z Hz]. rewrite Hz.
    eapply (agree_read _ _ d s ino n KDev (u32_be z) z); [done|done|done|by cbn; rewrite Hz| |].
    + intros Hn. apply u32_of_be. by apply (ok_dev _ Hn).
    + done.
  - done.
Qed.

Lemma lookup_tx_refines dir name :
  is_u64 dir -> refines (lookup_tx (D := D) dir name) (reading (t_lookup dir name)).
Proof.
  intros Hd d s Hr. unfold lookup_tx, reading, t_lookup.
  destruct (f_nodes s !! dir) as [p|] eqn:Ep; [|by eapply agree_missing].
  do 2 ag. destruct (n_entries p !! name) as [ino|] eqn:En;
    cbn [fmap option_fmap option_map]; [|done].
  unfold tx_unwrap. rewrite parse_usize_to_string; [done|].
  by apply (ok_entries _ (rep_ok _ _ _ _ Hr Ep) name).
Qed.

(** The pair of link count and size, and the device number that is kept. *)
Lemma create_kind_ok t bits target dev d :
  0 <= bits < 2 ^ 12 ->
  create_kind (Z.lor (type_bits t) bits) target dev d =
  Ok ((if bool_decide (t = Directory) then 2 else 1,
       if bool_decide (t = Directory) then 2 else 0,
       if bool_decide (t = Directory \/ t = RegularFile) then None else dev), d).
Proof.
  intros Hb. unfold create_kind.
  rewrite !contains_type_bits by first [exact Hb | by_eval].
  by destruct t.
Qed.

Definition create_ok (t : DbfsFileType) (uid gid : Z) (c_time : DbfsTimeSpec) (bits : Z)
    (target : option bytes) (dev : option Z) : Prop :=
  is_u32 uid /\ is_u32 gid /\ time_ok c_time /\ 0 <= bits < 2 ^ 12 /\
  (t = Symlink -> is_Some target) /\
  (t = CharDevice \/ t = BlockDevice -> is_Some dev) /\
  (forall z, dev = Some z -> is_u32 z).

Lemma new_node_ok t new dir mode uid gid gid' c_time bits target dev :
  create_ok t uid gid' c_time bits target dev -> is_u32 gid -> is_u64 new -> is_u64 dir ->
  is_u16 mode -> file_type_of_perm mode = Some t ->
  node_ok (new_node t new dir mode uid gid c_time target dev).
Proof.
  intros (Hu & _ & Hc & Hb & Htg & Hdv & Hz) Hg Hn Hd Hm Ht.
  assert (HS : is_u32 SLICE_SIZE /\ SLICE_SIZE <> 0).
  { pose proof slice_range. unfold is_u32. lia. }
  destruct HS. split; cbn; try done.
  - by case_bool_decide.
  - by case_bool_decide.
  - intros name ino. unfold dot_entries. case_bool_decide; [|done].
    rewrite lookup_insert_Some, lookup_singleton_Some. intros [[_ <-]|[_ [_ <-]]]; done.
  - intros z. case_bool_decide; [done|]. by apply Hz.
  - rewrite Ht. intros t' [= <-] Hs. rewrite bool_decide_eq_false_2
      by (destruct Hs; subst; by intros []).
    by apply Hdv.
Qed.

Lemma dot_entries_vals t new dir name :
  t ∈ [Directory; BlockDevice; Socket] ->
  usize_to_string <$> dot_entries t new dir !! name =
  if decide (KEntry name = KEntry (bs "..")) then Some (usize_to_string dir)
  else if decide (KEntry name = KEntry (bs ".")) then Some (usize_to_string new)
  else None.
Proof.
  intros Ht. unfold dot_entries. rewrite bool_decide_eq_true_2 by done.
  case_decide as E1; [injection E1 as ->; by rewrite lookup_insert_eq|].
  rewrite lookup_insert_ne by congruence.
  case_decide as E2; [injection E2 as ->; by rewrite lookup_singleton_eq|].
  by rewrite lookup_singleton_ne by congruence.
Qed.

Lemma create_tx_refines t new dir name uid gid c_time bits target dev :
  create_ok t uid gid c_time bits target dev -> is_u64 new -> is_u64 dir ->
  refines
    (create_tx (D := D) new dir name uid gid c_time (Z.lor (type_bits t) bits) target dev)
    (fun s => match t_create t new dir name uid gid c_time bits target dev s with
              | Ok (n, s') =>
                  Ok ((n_nlink n, n_size n,
                       if bool_decide (t = Directory \/ t = RegularFile) then None else dev,
                       n_mode n, n_gid n), s')
              | Err e => Err e
              | Panic => Panic
              end).
Proof.
  intros Hco Hnew Hdir d s Hr. pose proof Hco as (Hu & Hg & Hc & Hb & Htg & Hdv & Hz).
  unfold create_tx, t_create. change ACCESS_W_OK with 2.
  destruct (f_nodes s !! dir) as [p|] eqn:Ep; [|by eapply agree_missing].
  do 4 ag. eapply agree_guard; rewrite checkout_access_low_bits by lia.
  2: { by intros ->. }
  intros ->. cbn [negb]. do 5 ag. fuse dir (enter name new c_time).
  eapply agree_create; [eassumption|done| |]; rewrite upd_lookup.
  2: { rewrite fmap_is_Some. intros Hs. by rewrite bool_decide_eq_true_2. }
  rewrite fmap_None. intros Hnone ? ?. assert (Hne : new <> dir) by congruence. fill. eapply agree_bind_ok; [by apply create_kind_ok|].
  cbv beta iota.
  rewrite (bool_decide_eq_false_2 (is_Some _)) by (rewrite Hnone; by intros [? [=]]).
  rewrite !contains_type_bits by first [exact Hb | by_eval].
  set (mode := create_mode _ _ _) in *. set (cgid := creation_gid _ _ _).
  set (n := new_node _ _ _ _ _ _ _ _ _).
  assert (Hn : node_ok n).
  { eapply new_node_ok; [exact Hco| |done|done| |].
    - unfold cgid, creation_gid. destruct (Perm.contains _ _); [|done].
      apply (ok_gid _ (rep_ok _ _ _ _ Hr Ep)).
    - apply create_mode_u16. by apply type_bits_u16.
    - unfold mode. rewrite file_type_create_mode. by apply file_type_type_bits. }
  subst n.
  assert (Hn2 : f_nodes (upd dir (enter name new c_time) s) !! new = None).
  { by rewrite upd_lookup_ne. }
  destruct t; cbn [type_bits].
  all: match goal with |- context [tx_when (Perm.contains ?a ?b)] =>
    let v := eval vm_compute in (Perm.contains a b) in change (Perm.contains a b) with v end.
  all: repeat match goal with |- context [Perm.contains ?a ?b] =>
    let v := eval vm_compute in (Perm.contains a b) in change (Perm.contains a b) with v end.
  all: unfold tx_when; cbv iota.
  all: try (destruct Htg as [tgt ->]; [done|]).
  all: repeat first [ fill | simple eapply agree_assoc | eapply agree_bind_ok; [reflexivity|] ].
  all: repeat match goal with |- context [bool_decide ?P] =>
    let v := eval vm_compute in (bool_decide P) in change (bool_decide P) with v end.
  all: cbv iota; try destruct dev as [z|].
  all: repeat first [ fill | eapply agree_bind_ok; [reflexivity|] ].
  all: split; [done|]; eapply rep_filled;
    [eassumption|done|done|exact Hn|eassumption|intros []; try done].
  all: symmetry; apply dot_entries_vals; by_eval.
Qed.

(** ** Entry points *)

Context `{!Reliable D}.

(** The attributes [dbfs_common_create] returns: those of the new node,
    except for the block size and count, which are constants. *)
Definition created_attr (new : Z) (t : DbfsFileType) (c_time : DbfsTimeSpec) (n : node) :
  DbfsAttr :=
  {| a_ino := new; a_size := n_size n; a_blocks := 0;
     a_atime := c_time; a_mtime := c_time; a_ctime := c_time;
     a_crtime := time_default; a_kind := t; a_perm := n_mode n;
     a_nlink := n_nlink n; a_uid := n_uid n; a_gid := n_gid n;
     a_rdev := default 0 (n_dev n); a_blksize := 512; a_padding := 0; a_flags := 0 |}.

Lemma t_create_inv t new dir name uid gid c_time bits target dev s n s' :
  t_create t new dir name uid gid c_time bits target dev s = Ok (n, s') ->
  exists p, f_nodes s !! dir = Some p /\ f_nodes s !! new = None /\
    checkout_access (n_uid p) (n_gid p) (n_mode p) uid gid ACCESS_W_OK = true /\
    n = new_node t new dir (create_mode (Z.lor (type_bits t) bits) uid (n_mode p)) uid
          (creation_gid (n_gid p) (Z.lor (type_bits t) bits) gid) c_time target dev /\
    s' = add_node new n (upd dir (enter name new c_time) s).
Proof.
  unfold t_create. destruct (f_nodes s !! dir) as [p|]; [|done].
  destruct (checkout_access _ _ _ _ _ _) eqn:Ec; [|done]. cbn [negb].
  case_bool_decide as Hs; [done|]. intros [= <- <-]. exists p.
  split_and!; try done. by apply eq_None_not_Some.
Qed.

Lemma create_runs w s t dir name uid gid c_time bits target dev :
  represents (w_db w) s -> create_ok t uid gid c_time bits target dev ->
  is_u64 (w_next w) -> is_u64 dir ->
  match t_create t (w_next w) dir name uid gid c_time bits target dev s with
  | Ok (n, s') =>
      exists d', represents d' s' /\
      dbfs_common_create dir name uid gid c_time (Z.lor (type_bits t) bits) target dev w =
      (Ok (created_attr (w_next w) t c_time n),
       set_db (set_next w (w64 (w_next w + 1))) d')
  | Err e =>
      dbfs_common_create dir name uid gid c_time (Z.lor (type_bits t) bits) target dev w =
      (Err e, set_next w (w64 (w_next w + 1)))
  | Panic => False
  end.
Proof.
  intros Hr Hco Hnew Hdir. pose proof Hco as (_ & _ & _ & Hb & _).
  pose proof (create_tx_refines t (w_next w) dir name uid gid c_time bits target dev
    Hco Hnew Hdir) as Href.
  apply (implements_write Question Question) in Href.
  specialize (Href (set_next w (w64 (w_next w + 1))) s Hr). cbv beta in Href.
  unfold dbfs_common_create.
  destruct (t_create _ _ _ _ _ _ _ _ _ _ s) as [[n s']|e|] eqn:Et.
  - destruct Href as (d' & Hw & Hr'). exists d'. split; [done|].
    erewrite op_bind_ok by done. erewrite op_bind_ok by exact Hw. cbv beta iota.
    erewrite op_bind_ok.
    2: { unfold op_unwrap, op_lift. by rewrite file_type_type_bits. }
    apply t_create_inv in Et as (p & _ & _ & _ & -> & _). done.
  - erewrite op_bind_ok by done. by erewrite op_bind_err by exact Href.
  - unfold t_create in Et. repeat case_match; done.
Qed.

Lemma attr_runs w s ino :
  represents (w_db w) s -> is_u64 ino ->
  dbfs_common_attr ino w = (t_attr ino s, w).
Proof. intros Hr Hi. apply read_runs; [by apply attr_tx_refines|done]. Qed.

Lemma lookup_runs w s dir name :
  represents (w_db w) s -> is_u64 dir ->
  dbfs_common_lookup dir name w = (ino ← t_lookup dir name s; t_attr ino s, w).
Proof.
  intros Hr Hi. unfold dbfs_common_lookup.
  pose proof (read_runs Question _ _ w s (lookup_tx_refines dir name Hi) Hr) as Ha.
  destruct (t_lookup dir name s) as [ino|e|] eqn:El.
  - erewrite op_bind_ok by exact Ha. cbv beta. apply attr_runs; [done|].
    unfold t_lookup in El. destruct (f_nodes s !! dir) as [p|] eqn:Ep; [|done].
    destruct (n_entries p !! name) eqn:En; [|done]. injection El as <-.
    by apply (ok_entries _ (rep_ok _ _ _ _ Hr Ep) name).
  - by erewrite op_bind_err by exact Ha.
  - by erewrite op_bind_panic by exact Ha.
Qed.

(** ** Creation in a well-formed tree *)

Definition may_create (s : fs) (w : world D) (t : DbfsFileType) (dir : Z) (name : bytes)
    (uid gid : Z) (c_time : DbfsTimeSpec) (bits : Z) (target : option bytes)
    (dev : option Z) : Prop :=
  create_ok t uid gid c_time bits target dev /\
  is_u64 (w_next w) /\ f_nodes s !! w_next w = None /\
  entry s dir name = None /\ ~ dot name /\
  exists p, f_nodes s !! dir = Some p /\ node_is_dir p = true /\ n_size p + 1 < 2 ^ 64 /\
    checkout_access (n_uid p) (n_gid p) (n_mode p) uid gid ACCESS_W_OK = true.

Lemma new_node_shape t new dir mode uid gid c_time target dev :
  t ∉ [BlockDevice; Socket] -> file_type_of_perm mode = Some t ->
  let n := new_node t new dir mode uid gid c_time target dev in
  if node_is_dir n
  then n_entries n = <[bs ".." := dir]> {[bs "." := new]} /\ n_size n = 2
  else n_entries n = ∅ /\ n_nlink n = 1.
Proof.
  intros Ht Hm n. unfold node_is_dir. subst n. cbn [new_node n_mode]. rewrite Hm.
  destruct t; try done; by destruct Ht; by_eval.
Qed.

Lemma create_tree w s t dir name uid gid c_time bits target dev :
  represents (w_db w) s -> wf s -> t ∉ [BlockDevice; Socket] ->
  may_create s w t dir name uid gid c_time bits target dev ->
  exists n s', t_create t (w_next w) dir name uid gid c_time bits target dev s = Ok (n, s') /\
    wf s' /\ f_nodes s' !! w_next w = Some n /\ entry s' dir name = Some (w_next w) /\
    file_type_of_perm (n_mode n) = Some t.
Proof.
  intros Hr Hwf Ht (Hco & Hnew & Hnone & Hfree & Hdot & p & Hp & Hpd & Hsz & Hacc).
  pose proof Hco as (_ & _ & _ & Hb & _).
  pose proof (ok_size _ (rep_ok _ _ _ _ Hr Hp)) as Hps.
  assert (Hne : dir <> w_next w) by congruence.
  unfold t_create. rewrite Hp, Hacc, bool_decide_eq_false_2 by (rewrite Hnone; by intros []).
  cbn [negb]. eexists _, _. split; [done|].
  set (n := new_node _ _ _ _ _ _ _ _ _).
  assert (Hft : file_type_of_perm (n_mode n) = Some t).
  { cbn. rewrite file_type_create_mode. by apply file_type_type_bits. }
  assert (Hw : n_size (enter name (w_next w) c_time p) = n_size p + 1).
  { cbn. apply w64_small. unfold is_u64 in *. lia. }
  split_and!; [|cbn; apply lookup_insert_eq| |done].
  - eapply (wf_create s (w_next w) dir p n name); try done.
    by apply new_node_shape.
  - rewrite entry_add, decide_False, entry_upd, decide_True, Hp by done. cbn.
    apply lookup_insert_eq.
Qed.

(** C5: Creation does exactly one thing, or fails for one of three reasons. For
    arguments of their width, [dbfs_common_create] draws the next inode number
    in every case; it returns [NoData] when the directory does not exist,
    [AccessError] when the caller may not write it and [FileExists] when the
    number drawn is in use, and then the database is as before. Otherwise it
    succeeds and the database stands for the old tree with the node
    [new_node] under the number and the entry for it in the directory, whose
    size, change and modification times move ([enter]); no other node
    changes, and the attributes of the new node are returned. When the old tree was
    well formed, the name free and no dot name, the directory had room, and
    the type is not one whose bits contain those of directories (block
    devices and sockets), the new tree is well formed. *)
Theorem create_keeps_tree w s t dir name uid gid c_time bits target dev :
  represents (w_db w) s -> create_ok t uid gid c_time bits target dev ->
  is_u64 (w_next w) -> is_u64 dir ->
  let new := w_next w in
  let w1 := set_next w (w64 (new + 1)) in
  let create := dbfs_common_create dir name uid gid c_time (Z.lor (type_bits t) bits) target dev in
  (f_nodes s !! dir = None -> create w = (Err NoData, w1)) /\
  forall p, f_nodes s !! dir = Some p ->
    let perm := Z.lor (type_bits t) bits in
    let n := new_node t new dir (create_mode perm uid (n_mode p)) uid
               (creation_gid (n_gid p) perm gid) c_time target dev in
    let s' := add_node new n (upd dir (enter name new c_time) s) in
    if negb (checkout_access (n_uid p) (n_gid p) (n_mode p) uid gid ACCESS_W_OK)
    then create w = (Err AccessError, w1)
    else if bool_decide (is_Some (f_nodes s !! new)) then create w = (Err FileExists, w1)
    else exists d', create w = (Ok (created_attr new t c_time n), set_db w1 d') /\
      represents d' s' /\ entry s' dir name = Some new /\ f_nodes s' !! new = Some n /\
      file_type_of_perm (n_mode n) = Some t /\
      (forall i, i <> new -> i <> dir -> f_nodes s' !! i = f_nodes s !! i) /\
      (forall k nm, k <> new -> (k, nm) <> (dir, name) -> entry s' k nm = entry s k nm) /\
      (wf s -> t ∉ [BlockDevice; Socket] -> entry s dir name = None -> ~ dot name ->
       node_is_dir p = true -> n_size p + 1 < 2 ^ 64 -> wf s').
Proof.
  intros Hr Hco Hnew Hdir new w1 create.
  pose proof (create_runs w s t dir name uid gid c_time bits target dev Hr Hco Hnew Hdir) as Hrun.
  fold new w1 in Hrun. fold create in Hrun. split.
  { intros Hp. unfold t_create in Hrun. by rewrite Hp in Hrun. }
  intros p Hp perm n s'. unfold t_create in Hrun. rewrite Hp in Hrun.
  destruct (checkout_access _ _ _ _ _ _) eqn:Hacc; cbn [negb] in Hrun |- *; [|done].
  case_bool_decide as Hsome; [done|]. destruct Hrun as (d' & Hr' & Hrun). exists d'.
  fold perm n s' in Hr', Hrun.
  assert (Hnone : f_nodes s !! new = None) by by apply eq_None_not_Some.
  assert (Hne : dir <> new) by congruence.
  assert (He : forall k nm, k <> new -> entry s' k nm =
    if decide (k = dir) then (<[name := new]> (n_entries p)) !! nm else entry s k nm).
  { intros k nm Hk. unfold s'. rewrite entry_add, decide_False, entry_upd, Hp by done. done. }
  split; [exact Hrun|]. split; [exact Hr'|]. split; [|split; [|split; [|split; [|split]]]].
  - by rewrite He, decide_True, lookup_insert_eq by done.
  - apply lookup_insert_eq.
  - cbn. rewrite file_type_create_mode. apply file_type_type_bits, Hco.
  - intros i Hi1 Hi2. unfold s'. cbn. by rewrite lookup_insert_ne, lookup_alter_ne by done.
  - intros k nm Hk Hkn. rewrite He by done. case_decide as E; [subst k|done].
    rewrite lookup_insert_ne by congruence. unfold entry. by rewrite Hp.
  - intros Hwf Ht Hfree Hdot Hpd Hsz.
    destruct (create_tree w s t dir name uid gid c_time bits target dev Hr Hwf Ht)
      as (n0 & s0 & E0 & Hwf' & _).
    { split_and!; [done|done|done|done|done|]. by exists p. }
    unfold t_create in E0. rewrite Hp, Hacc, bool_decide_eq_false_2 in E0 by done.
    cbn [negb] in E0. injection E0 as _ E0. by rewrite <- E0 in Hwf'.
Qed.

(** What is created can be looked up: after a successful
    [dbfs_common_create], [dbfs_common_lookup] of the name in the directory
    returns the attributes of the new inode: its number, type, mode, owner,
    size and link count are those the creation returned. *)
Theorem create_then_lookup w s t dir name uid gid c_time bits target dev :
  represents (w_db w) s -> wf s -> t ∉ [BlockDevice; Socket] ->
  may_create s w t dir name uid gid c_time bits target dev ->
  exists a b w',
    dbfs_common_create dir name uid gid c_time (Z.lor (type_bits t) bits) target dev w
      = (Ok a, w') /\
    dbfs_common_lookup dir name w' = (Ok b, w') /\
    a_ino b = a_ino a /\ a_kind b = a_kind a /\ a_perm b = a_perm a /\
    a_uid b = a_uid a /\ a_gid b = a_gid a /\ a_size b = a_size a /\
    a_nlink b = a_nlink a /\ a_mtime b = c_time.
Proof.
  intros Hr Hwf Ht Hmc.
  destruct (create_tree w s t dir name uid gid c_time bits target dev Hr Hwf Ht Hmc)
    as (n & s' & Et & Hwf' & Hn & He & Hft).
  destruct Hmc as (Hco & Hnew & Hnone & _ & _ & p & Hp & _).
  pose proof (rep_ino _ _ _ _ Hr Hp) as Hdir.
  pose proof (create_runs w s t dir name uid gid c_time bits target dev Hr Hco Hnew
    Hdir) as Hrun.
  rewrite Et in Hrun. destruct Hrun as (d' & Hr' & Hrun). rewrite Hrun.
  eexists _, _, _. split; [done|]. split.
  - rewrite (lookup_runs _ s') by done. unfold t_lookup. unfold entry in He.
    destruct (f_nodes s' !! dir) as [p'|]; [|done]. cbn in He. rewrite He.
    cbn. unfold t_attr. rewrite Hn, Hft. done.
  - apply t_create_inv in Et as (p' & _ & _ & _ & -> & _). done.
Qed.

(** ** Reading attributes *)

(** [dbfs_common_attr] and [dbfs_common_lookup] report the tree. The
    first returns the fields of the node under the number ([NoData] when
    there is none), the block count being the size in blocks rounded up and
    the device number that of a special file; the second returns the
    attributes of the entry's node, [NotFound] for a name without an entry
    and [NoData] for a directory that does not exist. Neither changes the
    world. *)
Theorem attr_and_lookup_report w s ino dir name :
  represents (w_db w) s -> is_u64 ino -> is_u64 dir ->
  dbfs_common_attr ino w =
    (match f_nodes s !! ino with
     | Some n => match file_type_of_perm (n_mode n) with
                 | Some t => Ok (attr_of ino n t) | None => Panic end
     | None => Err NoData end, w) /\
  (is_Some (f_nodes s !! ino) -> (dbfs_common_attr ino w).1 <> Panic) /\
  dbfs_common_lookup dir name w =
    match f_nodes s !! dir, entry s dir name with
    | Some _, Some j => dbfs_common_attr j w
    | Some _, None => (Err NotFound, w)
    | None, _ => (Err NoData, w)
    end.
Proof.
  intros Hr Hi Hd. rewrite (attr_runs w s) by done. split_and!.
  - unfold t_attr. done.
  - intros [n Hn]. unfold t_attr. rewrite Hn.
    destruct (ok_type _ (rep_ok _ _ _ _ Hr Hn)) as [t ->]. done.
  - rewrite (lookup_runs w s) by done. unfold t_lookup, entry.
    destruct (f_nodes s !! dir) as [p|] eqn:Ep; [|done]. cbn [mbind option_bind].
    destruct (n_entries p !! name) as [j|] eqn:Ej; [|done].
    rewrite (attr_runs w s); [done|done|]. by apply (ok_entries _ (rep_ok _ _ _ _ Hr Ep) name).
Qed.

Lemma access_runs w s p_uid p_gid ino mask :
  represents (w_db w) s -> is_u64 ino ->
  dbfs_common_access p_uid p_gid ino mask w =
  (match f_nodes s !! ino with
   | Some n => Ok (checkout_access p_uid p_gid (n_mode n) (n_uid n) (n_gid n) (w16 mask))
   | None => Err NoData end, w).
Proof.
  intros Hr Hi. unfold dbfs_common_access.
  apply (read_runs Question _ (fun s => match f_nodes s !! ino with
    | Some n => Ok (checkout_access p_uid p_gid (n_mode n) (n_uid n) (n_gid n) (w16 mask))
    | None => Err NoData end)); [|done].
  clear w s Hr. intros d s Hr. unfold reading.
  destruct (f_nodes s !! ino) as [n|] eqn:En; [|by eapply agree_missing].
  do 4 ag. done.
Qed.

(** [dbfs_common_access] gives the ids of the caller and of the owner to
    [checkout_access] in the wrong order, so the superuser's privilege goes
    to the files of the superuser: for a file of user 0 the call grants
    read and write to every caller, whatever the mode, where the rule
    (and [dbfs_common_open]) refuses. *)
Theorem access_swapped w s p_uid p_gid ino n :
  represents (w_db w) s -> f_nodes s !! ino = Some n ->
  n_uid n = 0 -> n_mode n = 0x8180 -> p_uid <> 0 -> p_gid <> n_gid n ->
  is_u32 p_uid ->
  dbfs_common_access p_uid p_gid ino (Z.lor ACCESS_R_OK ACCESS_W_OK) w = (Ok true, w) /\
  dbfs_common_open ino p_uid p_gid (Z.lor ACCESS_R_OK ACCESS_W_OK) w = (Err AccessError, w).
Proof.
  intros Hr Hn Hu Hm Hp Hg Hpu. pose proof (rep_ino _ _ _ _ Hr Hn) as Hi. split.
  - rewrite (access_runs w s), Hn, Hu by done. done.
  - unfold dbfs_common_open. erewrite op_bind_ok.
    2: { apply op_map_err_ok. rewrite (attr_runs w s) by done. unfold t_attr.
         by rewrite Hn, Hm. }
    cbn [a_uid a_gid a_perm attr_of]. rewrite Hm, Hu.
    assert (E : checkout_access 0 (n_gid n) 0x8180 p_uid p_gid
      (Z.lor ACCESS_R_OK ACCESS_W_OK) = false); [|by rewrite E].
    unfold checkout_access. rewrite (Zeqb_ne p_uid 0), (Zeqb_ne 0 p_uid) by lia.
    by rewrite (Zeqb_ne (n_gid n) p_gid) by lia.
Qed.

(** The type bits of symbolic links contain those of character devices, and
    [dbfs_common_create] tests the latter first: a symbolic link is created
    with size 0, not with the length of its target, although the target is
    stored. *)
Theorem create_symlink_size w s dir name uid gid c_time bits target :
  represents (w_db w) s -> wf s ->
  may_create s w Symlink dir name uid gid c_time bits (Some target) None ->
  exists a w' s' n,
    dbfs_common_create dir name uid gid c_time (Z.lor (type_bits Symlink) bits)
      (Some target) None w = (Ok a, w') /\
    represents (w_db w') s' /\ f_nodes s' !! a_ino a = Some n /\
    a_size a = 0 /\ n_size n = 0 /\ n_target n = Some target.
Proof.
  intros Hr Hwf Hmc.
  destruct (create_tree w s Symlink dir name uid gid c_time bits (Some target) None Hr Hwf
    ltac:(by_eval) Hmc) as (n & s' & Et & _ & Hn & _ & _).
  destruct Hmc as (Hco & Hnew & Hnone & _ & _ & p & Hp & _).
  pose proof (create_runs w s Symlink dir name uid gid c_time bits (Some target) None Hr
    Hco Hnew (rep_ino _ _ _ _ Hr Hp)) as Hrun.
  rewrite Et in Hrun. destruct Hrun as (d' & Hr' & Hrun). rewrite Hrun.
  apply t_create_inv in Et as (p' & _ & _ & _ & -> & _).
  eexists _, _, s', _. split_and!; [done|done|exact Hn|done..].
Qed.
End facts.

(** ** Witnesses *)

(** A world with the root only, and one where root's file [s] is private. *)
Definition root_world : world mapdb := World (image root_fs) 2 ∅.

Definition secret_fs : fs := add_node 5 (with_uid 0 (with_mode 0x8180 (file_node 0 ∅))) root_fs.
Definition secret_world : world mapdb := World (image secret_fs) 6 ∅.

Lemma root_may_create t dev target :
  t <> CharDevice -> t <> BlockDevice -> (t = Symlink -> is_Some target) ->
  dev = None ->
  may_create root_fs root_world t 1 (bs "a") 1000 1000 sample_time 0x1A4 target dev.
Proof.
  intros H1 H2 H3 ->. split_and!; try done.
  - split_and!; try done. by intros [].
  - by intros [].
  - exists (dir_node 1 {[bs "." := 1]}). by split_and!.
Qed.

Lemma secret_fs_ok : fs_ok secret_fs.
Proof.
  apply fs_ok_add; [apply root_fs_ok|done|].
  apply ok_with_uid; [done|]. apply ok_with_mode; [done|done|]. by apply file_node_ok.
Qed.

Lemma create_keeps_tree_witness :
  (exists d' n s', dbfs_common_create (D := mapdb) 1 (bs "a") 1000 1000 sample_time
      (Z.lor (type_bits RegularFile) 0x1A4) None None root_world =
      (Ok (created_attr 2 RegularFile sample_time n), World d' 3 ∅) /\
    represents d' s' /\ wf s' /\ entry s' 1 (bs "a") = Some 2 /\ f_nodes s' !! 2 = Some n) /\
  dbfs_common_create (D := mapdb) 9 (bs "a") 1000 1000 sample_time
    (Z.lor (type_bits RegularFile) 0x1A4) None None root_world = (Err NoData, World (image root_fs) 3 ∅).
Proof.
  assert (Hco : create_ok RegularFile 1000 1000 sample_time 0x1A4 None None).
  { split_and!; try done. by intros []. }
  split.
  - destruct (proj2 (create_keeps_tree root_world root_fs RegularFile 1 (bs "a") 1000 1000 sample_time
      0x1A4 None None (image_represents _ root_fs_ok) Hco ltac:(by_eval) ltac:(by_eval))
      (dir_node 1 {[bs "." := 1]}) eq_refl) as (d' & E & Hr & He & Hn & _ & _ & _ & Hwf).
    eexists d', _, _. split; [exact E|]. split; [exact Hr|].
    split; [|split; [exact He|exact Hn]]. apply Hwf.
    + apply root_fs_wf.
    + by_eval.
    + by_eval.
    + by intros [].
    + by_eval.
    + by_eval.
  - exact (proj1 (create_keeps_tree root_world root_fs RegularFile 9 (bs "a") 1000 1000 sample_time
      0x1A4 None None (image_represents _ root_fs_ok) Hco ltac:(by_eval) ltac:(by_eval)) eq_refl).
Defined.

Lemma create_then_lookup_witness :
  exists a b w',
    dbfs_common_create (D := mapdb) 1 (bs "a") 1000 1000 sample_time
      (Z.lor (type_bits Directory) 0x1A4) None None root_world = (Ok a, w') /\
    dbfs_common_lookup 1 (bs "a") w' = (Ok b, w') /\
    a_ino b = a_ino a /\ a_kind b = a_kind a /\ a_perm b = a_perm a /\
    a_uid b = a_uid a /\ a_gid b = a_gid a /\ a_size b = a_size a /\
    a_nlink b = a_nlink a /\ a_mtime b = sample_time.
Proof.
  apply (create_then_lookup root_world root_fs).
  - apply image_represents, root_fs_ok.
  - apply root_fs_wf.
  - by_eval.
  - by apply root_may_create.
Defined.

Lemma attr_and_lookup_report_witness :
  dbfs_common_attr 1 root_world =
    (Ok (attr_of 1 (dir_node 1 {[bs "." := 1]}) Directory), root_world) /\
  dbfs_common_lookup 1 (bs "x") root_world = (Err NotFound, root_world).
Proof.
  destruct (attr_and_lookup_report root_world root_fs 1 1 (bs "x")) as (H1 & _ & H3);
    [apply image_represents, root_fs_ok|done|done|].
  split; [exact H1|exact H3].
Defined.

Lemma access_swapped_witness :
  dbfs_common_access 1001 1001 5 6 secret_world = (Ok true, secret_world) /\
  dbfs_common_open 5 1001 1001 6 secret_world = (Err AccessError, secret_world).
Proof.
  refine (access_swapped secret_world secret_fs 1001 1001 5
    (with_uid 0 (with_mode 0x8180 (file_node 0 ∅))) _ _ _ _ _ _ _); try done.
  - apply image_represents, secret_fs_ok.
Defined.

Lemma create_symlink_size_witness :
  exists a w' s' n,
    dbfs_common_create (D := mapdb) 1 (bs "a") 1000 1000 sample_time
      (Z.lor (type_bits Symlink) 0x1A4) (Some (bs "target")) None root_world = (Ok a, w') /\
    represents (w_db w') s' /\ f_nodes s' !! a_ino a = Some n /\
    a_size a = 0 /\ n_size n = 0 /\ n_target n = Some (bs "target").
Proof.
  apply (create_symlink_size root_world root_fs).
  - apply image_represents, root_fs_ok.
  - apply root_fs_wf.
  - by apply root_may_create.
Defined.
