(* ===== verification/Dir.v ===== *)
(** * Directories: link, unlink, rmdir and rename

    [dbfs_common_link], [dbfs_common_rmdir] and [dbfs_common_rename] of
    src/src/inode.rs, [dbfs_common_unlink] and [dbfs_common_readlink] of
    src/src/link.rs. The entries of a directory are a map from names to
    inode numbers; the theorems say what each operation does to that map, to
    the size of the directory and to the link count of the target. *)

From S2P Require Import Prelude Bytes Common Store MapDb Access Tree Layout Image Inode.

Section ops.
Context {D : Type} `{JammDb D}.

(** ** link *)

Definition link_tx (ino new_ino : Z) (name : bytes) (ctime : DbfsTimeSpec) : Tx D unit :=
  bucket ← get_bucket (usize_be new_ino);
  put bucket (generate_data_key name) (usize_to_string ino);;
  size ← read_usize bucket (bs "size");
  put bucket (bs "size") (usize_be (w64 (size + 1)));;
  put bucket (bs "ctime") (time_to_be_bytes ctime);;
  put bucket (bs "mtime") (time_to_be_bytes ctime);;
  old_bucket ← get_bucket (usize_be ino);
  hard_links ← read_u32 old_bucket (bs "hard_links");
  put old_bucket (bs "hard_links") (u32_be (w32 (hard_links + 1)));;
  put old_bucket (bs "ctime") (time_to_be_bytes ctime).

Definition dbfs_common_link (uid gid ino new_ino : Z) (name : bytes)
    (ctime : DbfsTimeSpec) : Op D DbfsAttr :=
  attr ← op_map_err NotFound (dbfs_common_attr new_ino);
  if negb (checkout_access (a_uid attr) (a_gid attr) (Z.land (a_perm attr) 0x1FF)
             uid gid 2)
  then op_fail AccessError
  else
    write_tx Question Question (link_tx ino new_ino name ctime);;
    op_map_err NotFound (dbfs_common_attr ino).

(** ** unlink and readlink *)

(** The sticky-bit rule: in a sticky directory only the superuser, its
    owner and the owner of the entry may remove the entry. *)
Definition sticky_denies (p_perm uid p_uid ino_uid : Z) : bool :=
  Perm.contains (Perm.from_bits_truncate p_perm) Perm.S_ISVTX
  && negb (uid =? 0) && negb (uid =? p_uid) && negb (uid =? ino_uid).

(** The inode an entry refers to: the caller's number when given, else the
    stored one. *)
Definition unlink_target (ino : option Z) (value : bytes) : Tx D (bytes * Z) :=
  match ino with
  | Some ino => bucket ← get_bucket (usize_be ino); mret (bucket, ino)
  | None =>
      ino ← tx_unwrap (parse_usize value);
      bucket ← tx_map_err NotFound (get_bucket (usize_be ino));
      mret (bucket, ino)
  end.

Definition unlink_tx (uid gid dir : Z) (name : bytes) (ino : option Z)
    (c_time : DbfsTimeSpec) : Tx D unit :=
  p_bucket ← get_bucket (usize_be dir);
  kv ← get_kv p_bucket (generate_data_key name);
  value ← tx_unwrap kv;
  p_uid ← read_u32 p_bucket (bs "uid");
  p_gid ← read_u32 p_bucket (bs "gid");
  p_perm ← read_u16 p_bucket (bs "mode");
  tx_guard (checkout_access p_uid p_gid (Z.land p_perm 0x1FF) uid gid ACCESS_W_OK)
    AccessError;;
  '(bucket, ino) ← unlink_target ino value;
  ino_uid ← read_u32 bucket (bs "uid");
  tx_guard (negb (sticky_denies p_perm uid p_uid ino_uid)) AccessError;;
  delete p_bucket (generate_data_key name);;
  size ← read_usize p_bucket (bs "size");
  put p_bucket (bs "size") (usize_be (w64 (size - 1)));;
  put p_bucket (bs "ctime") (time_to_be_bytes c_time);;
  put p_bucket (bs "mtime") (time_to_be_bytes c_time);;
  h_link ← read_u32 bucket (bs "hard_links");
  if h_link =? 1 then delete_bucket (usize_be ino)
  else
    put bucket (bs "hard_links") (u32_be (w32 (h_link - 1)));;
    put bucket (bs "ctime") (time_to_be_bytes c_time).

Definition dbfs_common_unlink (uid gid dir : Z) (name : bytes) (ino : option Z)
    (c_time : DbfsTimeSpec) : Op D unit :=
  write_tx Question Question (unlink_tx uid gid dir name ino c_time).

(** The buffer after the call and the number of bytes written. *)
Definition dbfs_common_readlink (ino : Z) (buf : bytes) : Op D (Z * bytes) :=
  read_tx Question (
    bucket ← get_bucket (usize_be ino);
    value ← get_kv bucket (bs "data");
    value ← tx_unwrap value;
    let len := Z.min (zlen value) (zlen buf) in
    buf ← tx_unwrap (copy_into buf 0 len (take (Z.to_nat len) value));
    mret (len, buf)).

(** ** rmdir *)

Definition rmdir_tx (r_uid r_gid p_ino : Z) (name : bytes) (c_time : DbfsTimeSpec) :
  Tx D unit :=
  p_bucket ← get_bucket (usize_be p_ino);
  kv ← get_kv p_bucket (generate_data_key name);
  v_value ← tx_unwrap kv;
  number ← tx_unwrap (parse_usize v_value);
  bucket ← tx_expect (get_bucket (usize_be number));
  size ← read_usize bucket (bs "size");
  tx_guard (negb (2 <? size)) NotEmpty;;
  p_uid ← read_u32 p_bucket (bs "uid");
  p_gid ← read_u32 p_bucket (bs "gid");
  p_mode ← read_u16 p_bucket (bs "mode");
  p_size ← read_usize p_bucket (bs "size");
  tx_guard (checkout_access p_uid p_gid (Z.land p_mode 0x1FF) r_uid r_gid ACCESS_W_OK)
    AccessError;;
  uid ← read_u32 bucket (bs "uid");
  tx_guard (negb (sticky_denies p_mode r_uid p_uid uid)) AccessError;;
  put p_bucket (bs "mtime") (time_to_be_bytes c_time);;
  put p_bucket (bs "ctime") (time_to_be_bytes c_time);;
  delete p_bucket (generate_data_key name);;
  put p_bucket (bs "size") (usize_be (w64 (p_size - 1)));;
  delete_bucket (usize_be number).

Definition dbfs_common_rmdir (r_uid r_gid p_ino : Z) (name : bytes)
    (c_time : DbfsTimeSpec) : Op D unit :=
  write_tx Question Question (rmdir_tx r_uid r_gid p_ino name c_time).

(** ** rename *)

(** The source: its key, number, owner, group and mode. *)
Definition rename_old_tx (r_uid r_gid old_dir : Z) (old_name : bytes) :
  Tx D (bytes * Z * Z * Z * Z) :=
  old_dir_bucket ← get_bucket (usize_be old_dir);
  let key := generate_data_key old_name in
  value ← get_kv old_dir_bucket key;
  match value with
  | None => tx_fail NotFound
  | Some v_value =>
      old_dir_uid ← read_u32 old_dir_bucket (bs "uid");
      old_dir_gid ← read_u32 old_dir_bucket (bs "gid");
      old_dir_perm ← read_u16 old_dir_bucket (bs "mode");
      tx_guard (checkout_access old_dir_uid old_dir_gid (Z.land old_dir_perm 0x1FF)
                  r_uid r_gid ACCESS_W_OK) AccessError;;
      number ← tx_unwrap (parse_usize v_value);
      bucket ← tx_expect (get_bucket (usize_be number));
      old_uid ← read_u32 bucket (bs "uid");
      tx_guard (negb (sticky_denies old_dir_perm r_uid old_dir_uid old_uid)) AccessError;;
      old_gid ← read_u32 bucket (bs "gid");
      old_perm ← read_u16 bucket (bs "mode");
      mret (key, number, old_uid, old_gid, old_perm)
  end.

(** The target: it is looked at only when the new directory is sticky. *)
Definition rename_new_tx (r_uid r_gid new_dir : Z) (new_name : bytes) :
  Tx D (bytes * option Z * Z * Z) :=
  new_dir_bucket ← get_bucket (usize_be new_dir);
  new_dir_uid ← read_u32 new_dir_bucket (bs "uid");
  new_dir_gid ← read_u32 new_dir_bucket (bs "gid");
  new_dir_perm ← read_u16 new_dir_bucket (bs "mode");
  tx_guard (checkout_access new_dir_uid new_dir_gid (Z.land new_dir_perm 0x1FF)
              r_uid r_gid ACCESS_W_OK) AccessError;;
  let new_dir_mode := Perm.from_bits_truncate new_dir_perm in
  let key := generate_data_key new_name in
  value ← get_kv new_dir_bucket key;
  match value with
  | Some v_value =>
      if Perm.contains new_dir_mode Perm.S_ISVTX then
        number ← tx_unwrap (parse_usize v_value);
        bucket ← tx_expect (get_bucket (usize_be number));
        new_uid ← read_u32 bucket (bs "uid");
        tx_guard (negb (negb (r_uid =? 0) && negb (r_uid =? new_dir_uid)
                        && negb (r_uid =? new_uid))) AccessError;;
        new_perm ← read_u16 bucket (bs "mode");
        new_size ← read_usize bucket (bs "size");
        mret (key, Some number, new_perm, new_size)
      else mret ([], None, 0, 0)
  | None => mret ([], None, 0, 0)
  end.

Definition is_dir_mode (perm : Z) : bool :=
  Perm.contains (Perm.from_bits_truncate perm) Perm.S_IFDIR.

Definition rename_exchange_tx (old_dir new_dir : Z) (old_key new_key : bytes)
    (old_number new_number old_perm new_perm : Z) (ctime : DbfsTimeSpec) : Tx D unit :=
  old_dir_bucket ← get_bucket (usize_be old_dir);
  new_dir_bucket ← get_bucket (usize_be new_dir);
  put new_dir_bucket new_key (usize_to_string old_number);;
  put old_dir_bucket old_key (usize_to_string new_number);;
  put old_dir_bucket (bs "ctime") (time_to_be_bytes ctime);;
  put old_dir_bucket (bs "mtime") (time_to_be_bytes ctime);;
  put new_dir_bucket (bs "ctime") (time_to_be_bytes ctime);;
  put new_dir_bucket (bs "mtime") (time_to_be_bytes ctime);;
  old_bucket ← get_bucket (usize_be old_number);
  put old_bucket (bs "ctime") (time_to_be_bytes ctime);;
  new_bucket ← get_bucket (usize_be new_number);
  put new_bucket (bs "ctime") (time_to_be_bytes ctime);;
  tx_when (is_dir_mode old_perm)
    (put old_bucket (generate_data_key (bs ".")) (usize_to_string new_dir));;
  tx_when (is_dir_mode new_perm)
    (put new_bucket (generate_data_key (bs "..")) (usize_to_string old_dir)).

(** Dropping the inode the target named; the link count is read with the
    macro for eight bytes. *)
Definition rename_overwrite_tx (new_dir_bucket new_key : bytes)
    (new_number new_perm : Z) (ctime : DbfsTimeSpec) : Tx D unit :=
  delete new_dir_bucket new_key;;
  if is_dir_mode new_perm then delete_bucket (usize_be new_number)
  else
    bucket ← get_bucket (usize_be new_number);
    hardlink ← read_usize bucket (bs "hard_links");
    let hardlink := w64 (hardlink - 1) in
    if hardlink =? 0 then delete_bucket (usize_be new_number)
    else
      put bucket (bs "hard_links") (usize_be hardlink);;
      put bucket (bs "ctime") (time_to_be_bytes ctime).

(** The entry is moved (steps 3 to 7); [new_dir_size] is what was read of the
    size of the new directory, less the target dropped. *)
Definition rename_enter_tx (old_dir new_dir : Z) (old_key key : bytes)
    (old_number old_perm new_dir_size : Z) (ctime : DbfsTimeSpec) : Tx D unit :=
  let old_dir_bucket := usize_be old_dir in
  let new_dir_bucket := usize_be new_dir in
  delete old_dir_bucket old_key;;
  old_dir_size ← read_usize old_dir_bucket (bs "size");
  put old_dir_bucket (bs "size") (usize_be (w64 (old_dir_size - 1)));;
  put new_dir_bucket key (usize_to_string old_number);;
  let new_dir_size := if old_dir =? new_dir then new_dir_size
                      else w64 (new_dir_size + 1) in
  put new_dir_bucket (bs "size") (usize_be new_dir_size);;
  put old_dir_bucket (bs "ctime") (time_to_be_bytes ctime);;
  put old_dir_bucket (bs "mtime") (time_to_be_bytes ctime);;
  put new_dir_bucket (bs "ctime") (time_to_be_bytes ctime);;
  put new_dir_bucket (bs "mtime") (time_to_be_bytes ctime);;
  old_bucket ← get_bucket (usize_be old_number);
  put old_bucket (bs "ctime") (time_to_be_bytes ctime);;
  tx_when (is_dir_mode old_perm)
    (put old_bucket (generate_data_key (bs "..")) (usize_to_string new_dir)).

(** With [old_dir = new_dir] both handles are the same bucket. *)
Definition rename_move_tx (old_dir new_dir : Z) (new_name old_key new_key : bytes)
    (old_number : Z) (new_number : option Z) (old_perm new_perm : Z)
    (ctime : DbfsTimeSpec) : Tx D unit :=
  old_dir_bucket ← get_bucket (usize_be old_dir);
  new_dir_bucket ← get_bucket (usize_be new_dir);
  new_dir_size ← read_usize new_dir_bucket (bs "size");
  new_dir_size ←
    match new_number with
    | Some new_number =>
        rename_overwrite_tx new_dir_bucket new_key new_number new_perm ctime;;
        mret (w64 (new_dir_size - 1))
    | None => mret new_dir_size
    end;
  rename_enter_tx old_dir new_dir old_key
    (match new_number with Some _ => new_key | None => generate_data_key new_name end)
    old_number old_perm new_dir_size ctime.

Definition dbfs_common_rename (r_uid r_gid old_dir : Z) (old_name : bytes)
    (new_dir : Z) (new_name : bytes) (flags : Z) (ctime : DbfsTimeSpec) : Op D unit :=
  '(old_key, old_number, old_uid, old_gid, old_perm) ←
    read_tx Question (rename_old_tx r_uid r_gid old_dir old_name);
  '(new_key, new_number, new_perm, new_size) ←
    read_tx Question (rename_new_tx r_uid r_gid new_dir new_name);
  if negb (Z.land flags RENAME_EXCHANGE =? 0) then
    match new_number with
    | None => op_fail NotFound
    | Some new_number =>
        write_tx Question Question
          (rename_exchange_tx old_dir new_dir old_key new_key old_number new_number
             old_perm new_perm ctime)
    end
  else if bool_decide (is_Some new_number) && is_dir_mode new_perm && (2 <? new_size)
  then op_fail NotEmpty
  else if is_dir_mode old_perm && negb (old_dir =? new_dir)
          && negb (checkout_access old_uid old_gid (Z.land old_perm 0x1FF)
                     r_uid r_gid ACCESS_W_OK)
  then op_fail AccessError
  else
    write_tx Question Question
      (rename_move_tx old_dir new_dir new_name old_key new_key old_number new_number
         old_perm new_perm ctime).
End ops.

(** ** What the operations promise *)

(** The inode [n] gains or loses a link. *)
Definition relink (z : Z) (t : DbfsTimeSpec) (n : node) : node :=
  with_ctime t (with_nlink z n).

(** The directory [p] loses the entry [name]. *)
Definition leave (name : bytes) (t : DbfsTimeSpec) (p : node) : node :=
  touch t (with_size (w64 (n_size p - 1)) (with_entries (base.delete name) p)).

Definition t_link (ino dir : Z) (name : bytes) (t : DbfsTimeSpec) (s : fs) : fs :=
  upd ino (fun n => relink (w32 (n_nlink n + 1)) t n) (upd dir (enter name ino t) s).

Definition t_unlink (ino dir : Z) (name : bytes) (t : DbfsTimeSpec) (n : node) (s : fs) : fs :=
  if n_nlink n =? 1 then remove_node ino (upd dir (leave name t) s)
  else upd ino (fun n => relink (w32 (n_nlink n - 1)) t n) (upd dir (leave name t) s).

(** [dbfs_common_unlink] on every branch; [ino] is the number the caller
    gives, when it gives one. *)
Definition t_unlink_op (uid gid dir : Z) (name : bytes) (ino : option Z)
    (t : DbfsTimeSpec) (s : fs) : outcome (unit * fs) :=
  match f_nodes s !! dir with
  | None => Err NoData
  | Some p =>
      match n_entries p !! name with
      | None => Panic
      | Some j =>
          if negb (checkout_access (n_uid p) (n_gid p) (n_mode p) uid gid ACCESS_W_OK)
          then Err AccessError
          else match f_nodes s !! default j ino with
          | None => Err (match ino with Some _ => NoData | None => NotFound end)
          | Some n =>
              if sticky_denies (n_mode p) uid (n_uid p) (n_uid n) then Err AccessError
              else Ok (tt, t_unlink (default j ino) dir name t n s)
          end
      end
  end.

(** [dbfs_common_rmdir] on every branch. *)
Definition t_rmdir_op (uid gid dir : Z) (name : bytes) (t : DbfsTimeSpec) (s : fs) :
  outcome (unit * fs) :=
  match f_nodes s !! dir with
  | None => Err NoData
  | Some p =>
      match n_entries p !! name with
      | None => Panic
      | Some j =>
          match f_nodes s !! j with
          | None => Panic
          | Some n =>
              if 2 <? n_size n then Err NotEmpty
              else if negb (checkout_access (n_uid p) (n_gid p) (n_mode p) uid gid ACCESS_W_OK)
              then Err AccessError
              else if sticky_denies (n_mode p) uid (n_uid p) (n_uid n) then Err AccessError
              else Ok (tt, remove_node j (upd dir (leave name t) s))
          end
      end
  end.

Section facts.
Context {D : Type} `{JammDb D, !JammDbLaws D, !Reliable D}.
Implicit Types (d : D) (w : world D) (s : fs) (p n : node).

Lemma link_tx_agree d s ino dir name t p n :
  represents d s -> f_nodes s !! dir = Some p -> f_nodes s !! ino = Some n ->
  ino <> dir -> time_ok t ->
  agree (link_tx ino dir name t d) (Ok (tt, t_link ino dir name t s)).
Proof.
  intros Hr Hp Hn Hne Ht. pose proof (rep_ino _ _ _ _ Hr Hn) as Hi.
  unfold link_tx. do 6 ag. fuse dir (enter name ino t).
  do 3 ag. apply agree_last. ag.
  fuse ino (fun n => relink (w32 (n_nlink n + 1)) t n). done.
Qed.

Lemma unlink_tx_refines uid gid dir name ino t :
  is_u64 dir -> time_ok t -> (forall j, ino = Some j -> is_u64 j /\ j <> dir) ->
  forall d s, represents d s -> entry s dir name <> Some dir ->
  agree (unlink_tx uid gid dir name ino t d) (t_unlink_op uid gid dir name ino t s).
Proof.
  intros Hdir Ht Hino d s Hr Hself. unfold unlink_tx, t_unlink_op.
  destruct (f_nodes s !! dir) as [p|] eqn:Ep; [|by eapply agree_missing].
  do 2 ag. destruct (n_entries p !! name) as [j|] eqn:Ej; [|done].
  cbn [fmap option_fmap option_map]. eapply agree_unwrap; [done|]. do 3 ag.
  eapply agree_guard; rewrite checkout_access_low_bits by done; [|by intros ->].
  intros ->. cbn [negb].
  pose proof (ok_entries _ (rep_ok _ _ _ _ Hr Ep) _ _ Ej) as Hj.
  assert (Hti : is_u64 (default j ino) /\ default j ino <> dir).
  { destruct ino as [i|]; cbn; [by apply Hino|]. split; [done|]. intros ->.
    apply Hself. unfold entry. by rewrite Ep. }
  destruct Hti as [Hti Hne]. unfold unlink_target.
  destruct (f_nodes s !! default j ino) as [n|] eqn:En.
  2: { pose proof (rep_none _ _ Hr _ Hti En) as Hb. apply get_bucket_missing in Hb.
    destruct ino as [i|]; cbn in Hb.
    - eapply agree_bind_err; [by rewrite (tx_bind_err _ _ _ _ Hb)|done].
    - eapply agree_bind_err; [|done].
      rewrite (tx_bind_ok _ _ d j d) by (by rewrite parse_usize_to_string).
      erewrite tx_bind_err; [done|]. unfold tx_map_err. by rewrite Hb. }
  eapply (agree_bind_ok _ _ _ (usize_be (default j ino), default j ino)).
  { pose proof (rep_has _ _ _ _ Hr En) as Hb. destruct ino as [i|]; cbn in Hb.
    - by rewrite (tx_bind_ok _ _ _ _ _ (get_bucket_ok _ _ Hb)).
    - rewrite (tx_bind_ok _ _ d j d) by (by rewrite parse_usize_to_string).
      erewrite tx_bind_ok; [done|]. unfold tx_map_err. by rewrite (get_bucket_ok _ _ Hb). }
  cbv beta iota. ag. eapply agree_guard.
  2: { intros Hs%negb_false_iff. by rewrite Hs. }
  intros Hs%negb_true_iff. rewrite Hs.
  eapply agree_del_entry; [done|done|done|intros d1 Hr1].
  do 4 ag. fuse dir (leave name t). ag. unfold t_unlink.
  destruct (Z.eqb_spec (n_nlink n) 1) as [E1|E1].
  - eapply agree_drop; [eassumption|look|done].
  - ag. apply agree_last. ag.
    fuse (default j ino) (fun n => relink (w32 (n_nlink n - 1)) t n). done.
Qed.

Lemma rmdir_tx_refines uid gid dir name t :
  is_u64 dir -> time_ok t ->
  forall d s, represents d s ->
  (forall p, f_nodes s !! dir = Some p -> entry s dir name = Some dir -> 2 < n_size p) ->
  agree (rmdir_tx uid gid dir name t d) (t_rmdir_op uid gid dir name t s).
Proof.
  intros Hdir Ht d s Hr Hself. unfold rmdir_tx, t_rmdir_op.
  destruct (f_nodes s !! dir) as [p|] eqn:Ep; [|by eapply agree_missing].
  do 2 ag. destruct (n_entries p !! name) as [j|] eqn:Ej; [|done].
  cbn [fmap option_fmap option_map]. eapply agree_unwrap; [done|].
  pose proof (ok_entries _ (rep_ok _ _ _ _ Hr Ep) _ _ Ej) as Hj.
  eapply agree_unwrap; [by apply parse_usize_to_string|].
  destruct (f_nodes s !! j) as [n|] eqn:En.
  2: { eapply agree_bind_panic; [|done]. unfold tx_expect.
    by rewrite (get_bucket_missing _ _ (rep_none _ _ Hr _ Hj En)). }
  eapply agree_bind_ok.
  { apply tx_expect_ok, get_bucket_ok. by eapply rep_has. }
  ag. eapply agree_guard; [|by intros ->%negb_false_iff].
  intros Hsz%negb_true_iff. rewrite Hsz.
  assert (Hne : j <> dir).
  { intros ->. rewrite Ep in En. injection En as <-. zbool.
    assert (2 < n_size p); [|lia]. apply Hself; [done|]. unfold entry. by rewrite Ep. }
  do 4 ag.
  eapply agree_guard; rewrite checkout_access_low_bits by done; [|by intros ->].
  intros ->. cbn [negb]. ag.
  eapply agree_guard; [|by intros ->%negb_false_iff].
  intros ->%negb_true_iff. do 2 ag.
  eapply agree_del_entry; [eassumption|look|done|intros d1 Hr1].
  ag. fuse dir (leave name t). eapply agree_drop; [eassumption|look|done].
Qed.

(** The size of a directory with an entry can be decremented. *)
Lemma dir_size_pos s dir p name ino :
  wf s -> f_nodes s !! dir = Some p -> entry s dir name = Some ino -> 0 < n_size p.
Proof.
  intros Hwf Hp He. destruct (entry_is_dir _ _ _ _ Hwf He) as (p' & Hp' & Hd).
  rewrite Hp in Hp'. injection Hp' as <-. rewrite (wf_size _ Hwf _ _ Hp Hd).
  unfold entry in He. rewrite Hp in He. cbn in He.
  assert (size (n_entries p) <> 0%nat); [|lia].
  intros E%map_size_empty_inv. rewrite E in He. by rewrite lookup_empty in He.
Qed.

Lemma leave_size s dir p name name' ino t :
  wf s -> node_ok p -> f_nodes s !! dir = Some p -> entry s dir name' = Some ino ->
  n_size (leave name t p) = n_size p - 1.
Proof.
  intros Hwf Hok Hp He. pose proof (dir_size_pos _ _ _ _ _ Hwf Hp He).
  pose proof (ok_size _ Hok). cbn. apply w64_small. unfold is_u64 in *. lia.
Qed.

Lemma t_unlink_wf s dir ino name p n t :
  wf s -> node_ok p -> node_ok n -> f_nodes s !! dir = Some p -> f_nodes s !! ino = Some n ->
  entry s dir name = Some ino -> ~ dot name -> node_is_dir n = false ->
  wf (t_unlink ino dir name t n s).
Proof.
  intros Hwf Hpo Hno Hp Hn He Hdot Hnd.
  destruct (entry_is_dir _ _ _ _ Hwf He) as (p' & Hp' & Hpd).
  rewrite Hp in Hp'. injection Hp' as <-.
  pose proof (leave_size s dir p name name ino t Hwf Hpo Hp He) as Hls.
  unfold t_unlink. destruct (Z.eqb_spec (n_nlink n) 1) as [E1|E1].
  - by eapply (wf_unlink_last s dir ino p n name (leave name t)).
  - eapply (wf_unlink s dir ino p n name (leave name t)
      (fun n => relink (w32 (n_nlink n - 1)) t n)); try done.
    cbn. apply w32_small. pose proof (ok_nlink _ Hno).
    destruct (wf_nlink _ Hwf _ _ Hn Hnd) as [? _]. unfold is_u32 in *. lia.
Qed.

Lemma t_unlink_entry s dir ino name p n t :
  wf s -> f_nodes s !! dir = Some p -> f_nodes s !! ino = Some n ->
  entry s dir name = Some ino -> ~ dot name -> node_is_dir n = false ->
  entry (t_unlink ino dir name t n s) dir name = None.
Proof.
  intros Hwf Hp Hn He Hdot Hnd.
  destruct (entry_is_dir _ _ _ _ Hwf He) as (p' & Hp' & Hpd).
  assert (Hne : dir <> ino) by congruence.
  unfold t_unlink. destruct (n_nlink n =? 1).
  - rewrite entry_remove, decide_False by done. rewrite entry_upd, decide_True, Hp by done.
    apply lookup_delete_eq.
  - rewrite entry_upd, decide_False by done. rewrite entry_upd, decide_True, Hp by done.
    apply lookup_delete_eq.
Qed.

Lemma unlink_runs w s uid gid dir name ino t :
  represents (w_db w) s -> is_u64 dir -> time_ok t ->
  (forall j, ino = Some j -> is_u64 j /\ j <> dir) -> entry s dir name <> Some dir ->
  match t_unlink_op uid gid dir name ino t s with
  | Ok (u, s') => exists d', dbfs_common_unlink uid gid dir name ino t w = (Ok u, set_db w d')
                    /\ represents d' s'
  | Err e => dbfs_common_unlink uid gid dir name ino t w = (Err e, w)
  | Panic => dbfs_common_unlink uid gid dir name ino t w = (Panic, w)
  end.
Proof. intros. by apply write_runs, unlink_tx_refines. Qed.

Lemma rmdir_runs w s uid gid dir name t :
  represents (w_db w) s -> is_u64 dir -> time_ok t ->
  (forall p, f_nodes s !! dir = Some p -> entry s dir name = Some dir -> 2 < n_size p) ->
  match t_rmdir_op uid gid dir name t s with
  | Ok (u, s') => exists d', dbfs_common_rmdir uid gid dir name t w = (Ok u, set_db w d')
                    /\ represents d' s'
  | Err e => dbfs_common_rmdir uid gid dir name t w = (Err e, w)
  | Panic => dbfs_common_rmdir uid gid dir name t w = (Panic, w)
  end.
Proof. intros. by apply write_runs, rmdir_tx_refines. Qed.

(** ** Links in a well-formed tree *)

Lemma attr_of_node w s ino n :
  represents (w_db w) s -> f_nodes s !! ino = Some n ->
  exists t, file_type_of_perm (n_mode n) = Some t /\
    op_map_err NotFound (dbfs_common_attr ino) w = (Ok (attr_of ino n t), w).
Proof.
  intros Hr Hn. destruct (ok_type _ (rep_ok _ _ _ _ Hr Hn)) as [t Ht]. exists t.
  split; [done|]. apply op_map_err_ok. rewrite (attr_runs w s); [|done|by eapply rep_ino].
  unfold t_attr. by rewrite Hn, Ht.
Qed.

Lemma link_tx_missing d s ino dir name t p :
  represents d s -> f_nodes s !! dir = Some p -> f_nodes s !! ino = None ->
  is_u64 ino -> time_ok t -> link_tx ino dir name t d = Err NoData.
Proof.
  intros Hr Hp Hn Hi Ht. assert (ino <> dir) by congruence.
  assert (Ha : agree (link_tx ino dir name t d) (Err NoData)).
  { unfold link_tx. do 6 ag. fuse dir (enter name ino t).
    eapply agree_missing; [eassumption|done| |done]. by rewrite upd_lookup_ne. }
  unfold agree in Ha. destruct (link_tx ino dir name t d) as [[??]|e|]; try done. by subst.
Qed.

Lemma link_runs w s uid gid ino dir name t p n :
  represents (w_db w) s -> time_ok t -> ino <> dir ->
  f_nodes s !! dir = Some p -> f_nodes s !! ino = Some n ->
  checkout_access (n_uid p) (n_gid p) (n_mode p) uid gid ACCESS_W_OK = true ->
  exists d' tn, represents d' (t_link ino dir name t s) /\
    file_type_of_perm (n_mode n) = Some tn /\
    dbfs_common_link uid gid ino dir name t w =
    (Ok (attr_of ino (relink (w32 (n_nlink n + 1)) t n) tn), set_db w d').
Proof.
  intros Hr Ht Hne Hp Hn Hw. unfold dbfs_common_link.
  destruct (attr_of_node w s dir p Hr Hp) as (tp & _ & Ha).
  erewrite op_bind_ok by exact Ha. cbn [a_uid a_gid a_perm attr_of].
  rewrite checkout_access_low_bits by done.
  change ACCESS_W_OK with 2 in Hw. rewrite Hw. cbn [negb].
  pose proof (link_tx_agree _ s ino dir name t p n Hr Hp Hn Hne Ht) as Hag.
  apply (write_runs Question Question) in Hag as (d' & Hw' & Hr').
  erewrite op_bind_ok by exact Hw'.
  assert (Hn' : f_nodes (t_link ino dir name t s) !! ino =
    Some (relink (w32 (n_nlink n + 1)) t n)).
  { unfold t_link. rewrite upd_lookup, upd_lookup_ne, Hn by done. cbn.
    by rewrite decide_True. }
  destruct (attr_of_node (set_db w d') _ _ _ Hr' Hn') as (tn & Htn & Ha').
  by exists d', tn.
Qed.

Lemma t_link_wf s ino dir name t p n :
  wf s -> node_ok p -> node_ok n -> f_nodes s !! dir = Some p -> f_nodes s !! ino = Some n ->
  node_is_dir p = true -> node_is_dir n = false -> entry s dir name = None -> ~ dot name ->
  n_size p + 1 < 2 ^ 64 -> n_nlink n + 1 < 2 ^ 32 ->
  wf (t_link ino dir name t s) /\ entry (t_link ino dir name t s) dir name = Some ino.
Proof.
  intros Hwf Hpo Hno Hp Hn Hpd Hnd Hfree Hdot Hsz Hnl.
  pose proof (ok_size _ Hpo). pose proof (ok_nlink _ Hno). split.
  - eapply (wf_link s dir ino p n name (enter name ino t)
      (fun n => relink (w32 (n_nlink n + 1)) t n)); try done.
    + cbn. apply w64_small. unfold is_u64 in *. lia.
    + cbn. apply w32_small. unfold is_u32 in *. lia.
  - assert (dir <> ino) by congruence.
    unfold t_link. rewrite entry_upd, decide_False by done.
    rewrite entry_upd, decide_True, Hp by done. apply lookup_insert_eq.
Qed.

(** The caller may change the directory [p]. *)
Definition may_write (p : node) (uid gid : Z) : Prop :=
  checkout_access (n_uid p) (n_gid p) (n_mode p) uid gid ACCESS_W_OK = true.

Lemma link_denied w s uid gid ino dir name t p :
  represents (w_db w) s -> f_nodes s !! dir = Some p -> ~ may_write p uid gid ->
  dbfs_common_link uid gid ino dir name t w = (Err AccessError, w).
Proof.
  intros Hr Hp Hw. unfold dbfs_common_link.
  destruct (attr_of_node w s dir p Hr Hp) as (tp & _ & Ha).
  erewrite op_bind_ok by exact Ha. cbn [a_uid a_gid a_perm attr_of].
  rewrite checkout_access_low_bits by done. unfold may_write in Hw.
  change ACCESS_W_OK with 2 in Hw. by destruct (checkout_access _ _ _ _ _ _).
Qed.

(** C18: A hard link keeps the tree well formed. For a file [ino] and an unused
    name in a directory the caller may write, [dbfs_common_link] succeeds;
    the database then stands for a well-formed tree in which the name leads
    to the file, whose link count is one more; the attributes returned are
    those of the file. Without write permission it fails with
    [AccessError], for a missing directory with [NotFound] and for a
    missing file with [NoData], and then the world is as before. *)
Theorem link_keeps_tree w s uid gid ino dir name t p :
  represents (w_db w) s -> wf s -> is_u64 ino -> is_u64 dir -> time_ok t -> ino <> dir ->
  (f_nodes s !! dir = None ->
    dbfs_common_link uid gid ino dir name t w = (Err NotFound, w)) /\
  (f_nodes s !! dir = Some p -> ~ may_write p uid gid ->
    dbfs_common_link uid gid ino dir name t w = (Err AccessError, w)) /\
  (f_nodes s !! dir = Some p -> may_write p uid gid -> f_nodes s !! ino = None ->
    dbfs_common_link uid gid ino dir name t w = (Err NoData, w)) /\
  (forall n, f_nodes s !! dir = Some p -> may_write p uid gid -> f_nodes s !! ino = Some n ->
    node_is_dir p = true -> node_is_dir n = false -> entry s dir name = None -> ~ dot name ->
    n_size p + 1 < 2 ^ 64 -> n_nlink n + 1 < 2 ^ 32 ->
    exists a d' s',
      dbfs_common_link uid gid ino dir name t w = (Ok a, set_db w d') /\
      represents d' s' /\ wf s' /\ entry s' dir name = Some ino /\
      a_ino a = ino /\ a_nlink a = n_nlink n + 1 /\ a_size a = n_size n /\
      a_perm a = n_mode n /\ a_ctime a = t).
Proof.
  intros Hr Hwf Hi Hd Ht Hne. split_and!.
  - intros Hp. unfold dbfs_common_link. erewrite op_bind_err; [done|]. unfold op_map_err.
    rewrite (attr_runs w s) by done. unfold t_attr. by rewrite Hp.
  - intros Hp Hw. by eapply link_denied.
  - intros Hp Hw Hn. unfold dbfs_common_link.
    destruct (attr_of_node w s dir p Hr Hp) as (tp & _ & Ha).
    erewrite op_bind_ok by exact Ha. cbn [a_uid a_gid a_perm attr_of].
    rewrite checkout_access_low_bits by done. unfold may_write in Hw.
    change ACCESS_W_OK with 2 in Hw. rewrite Hw. cbn [negb].
    erewrite op_bind_err; [done|]. apply write_tx_err. by eapply link_tx_missing.
  - intros n Hp Hw Hn Hpd Hnd Hfree Hdot Hsz Hnl.
    destruct (link_runs w s uid gid ino dir name t p n Hr Ht Hne Hp Hn Hw)
      as (d' & tn & Hr' & _ & Hrun).
    destruct (t_link_wf s ino dir name t p n) as [Hwf' He]; try done;
      [exact (rep_ok _ _ _ _ Hr Hp)|exact (rep_ok _ _ _ _ Hr Hn)|].
    eexists _, d', _. split_and!; [exact Hrun|exact Hr'|..]; try done.
    cbn. apply w32_small. pose proof (ok_nlink _ (rep_ok _ _ _ _ Hr Hn)).
    unfold is_u32 in *. lia.
Qed.

(** C6: Unlinking keeps the tree well formed and drops an inode exactly with its
    last name. When the name of a file is in a directory the caller may
    write (and the sticky bit does not protect it), [dbfs_common_unlink]
    succeeds; the new tree is well formed, the name is gone, and the file
    is there, with one link less, exactly when it had another name. The
    number may be given by the caller or read from the entry. *)
Theorem unlink_keeps_tree w s uid gid dir name ino given t p n :
  represents (w_db w) s -> wf s -> time_ok t ->
  f_nodes s !! dir = Some p -> entry s dir name = Some ino -> ~ dot name ->
  f_nodes s !! ino = Some n -> node_is_dir n = false ->
  given = None \/ given = Some ino ->
  may_write p uid gid -> sticky_denies (n_mode p) uid (n_uid p) (n_uid n) = false ->
  exists d' s',
    dbfs_common_unlink uid gid dir name given t w = (Ok tt, set_db w d') /\
    represents d' s' /\ wf s' /\ entry s' dir name = None /\
    (n_nlink n = 1 -> f_nodes s' !! ino = None) /\
    (n_nlink n <> 1 -> exists n', f_nodes s' !! ino = Some n' /\
      n_nlink n' = n_nlink n - 1 /\ n_size n' = n_size n /\ n_slices n' = n_slices n).
Proof.
  intros Hr Hwf Ht Hp He Hdot Hn Hnd Hg Hw Hst.
  destruct (entry_is_dir _ _ _ _ Hwf He) as (p' & Hp' & Hpd).
  assert (Hne : ino <> dir) by congruence.
  pose proof (rep_ok _ _ _ _ Hr Hp) as Hpo. pose proof (rep_ok _ _ _ _ Hr Hn) as Hno.
  pose proof (unlink_runs w s uid gid dir name given t Hr (rep_ino _ _ _ _ Hr Hp) Ht) as Hrun.
  assert (Hd : default ino given = ino) by (by destruct Hg; subst).
  unfold t_unlink_op in Hrun. rewrite Hp in Hrun.
  pose proof (entry_some _ _ _ _ _ Hp He) as Hpe. rewrite Hpe in Hrun.
  unfold may_write in Hw. rewrite Hw, Hd, Hn, Hst in Hrun. cbn [negb] in Hrun.
  destruct Hrun as (d' & Hrun & Hr').
  { intros j ->. destruct Hg as [|[= ->]]; [done|]. split; [by eapply rep_ino|done]. }
  { congruence. }
  exists d', (t_unlink ino dir name t n s). split_and!; [done|done| | | |].
  - by apply (t_unlink_wf s dir ino name p).
  - by apply (t_unlink_entry s dir ino name p).
  - intros E. unfold t_unlink. rewrite E. cbn. apply lookup_delete_eq.
  - intros E. unfold t_unlink. rewrite (Zeqb_ne _ _ E).
    rewrite upd_lookup, upd_lookup_ne, Hn by done. cbn. rewrite decide_True by done.
    eexists. split; [done|]. split; [|done]. cbn. apply w32_small.
    pose proof (ok_nlink _ Hno). destruct (wf_nlink _ Hwf _ _ Hn Hnd) as [? _].
    unfold is_u32 in *. lia.
Qed.

(** C10: Removing a directory keeps the tree well formed and never loses entries.
    When the caller may change the parent (and the sticky bit does not
    protect the entry), [dbfs_common_rmdir] of a directory that has more
    than its two dot entries fails with [NotEmpty] and changes nothing; of
    any other it succeeds, the name and the inode are gone and the tree is
    well formed: nothing refers to the removed inode. *)
Theorem rmdir_keeps_tree w s uid gid dir name ino t p n :
  represents (w_db w) s -> wf s -> time_ok t ->
  f_nodes s !! dir = Some p -> entry s dir name = Some ino -> ~ dot name ->
  f_nodes s !! ino = Some n -> node_is_dir n = true ->
  may_write p uid gid -> sticky_denies (n_mode p) uid (n_uid p) (n_uid n) = false ->
  ((2 < size (n_entries n))%nat ->
    dbfs_common_rmdir uid gid dir name t w = (Err NotEmpty, w)) /\
  ((size (n_entries n) <= 2)%nat -> exists d' s',
    dbfs_common_rmdir uid gid dir name t w = (Ok tt, set_db w d') /\
    represents d' s' /\ wf s' /\ f_nodes s' !! ino = None /\
    (forall dir' nm, entry s' dir' nm <> Some ino) /\ entry s' dir name = None).
Proof.
  intros Hr Hwf Ht Hp He Hdot Hn Hnd Hw Hst.
  pose proof (wf_size _ Hwf _ _ Hn Hnd) as Hsz.
  pose proof (rep_ok _ _ _ _ Hr Hp) as Hpo.
  pose proof (entry_some _ _ _ _ _ Hp He) as Hpe.
  pose proof (rmdir_runs w s uid gid dir name t Hr (rep_ino _ _ _ _ Hr Hp) Ht) as Hrun.
  unfold t_rmdir_op in Hrun. rewrite Hp, Hpe, Hn in Hrun.
  unfold may_write in Hw. rewrite Hw, Hst in Hrun. cbn [negb] in Hrun.
  split; intros Hs.
  - rewrite Zltb_t in Hrun by lia. apply Hrun. intros p' [= <-] Hself.
    rewrite He in Hself. injection Hself as ->. rewrite Hp in Hn. injection Hn as <-. lia.
  - rewrite Zltb_f in Hrun by lia.
    assert (Hne : dir <> ino) by (by eapply (rmdir_ne s dir ino n name); [..|lia| |]).
    destruct Hrun as (d' & Hrun & Hr').
    { intros p' _ Hself. congruence. }
    exists d', (remove_node ino (upd dir (leave name t) s)).
    pose proof (leave_size s dir p name name ino t Hwf Hpo Hp He) as Hls.
    split_and!; [done|done| |by apply lookup_delete_eq| |].
    + eapply (wf_rmdir s dir ino p n name (leave name t)); try done. lia.
    + intros d nm E. eapply (rmdir_entry_old s dir ino p n name (leave name t)) in E;
        try done; [|lia]. by destruct E as (_ & _ & []).
    + rewrite entry_remove, decide_False by done.
      rewrite entry_upd, decide_True, Hp by done. apply lookup_delete_eq.
Qed.

(** ** The sticky bit *)

Lemma rename_old_runs w s uid gid dir name p j n :
  represents (w_db w) s -> f_nodes s !! dir = Some p -> n_entries p !! name = Some j ->
  f_nodes s !! j = Some n ->
  read_tx Question (rename_old_tx uid gid dir name) w =
  (if negb (checkout_access (n_uid p) (n_gid p) (n_mode p) uid gid ACCESS_W_OK)
   then Err AccessError
   else if sticky_denies (n_mode p) uid (n_uid p) (n_uid n) then Err AccessError
   else Ok (generate_data_key name, j, n_uid n, n_gid n, n_mode n), w).
Proof.
  intros Hr Hp Hj Hn.
  set (r := if negb _ then _ else _).
  assert (Ha : agree (rename_old_tx uid gid dir name (w_db w))
    (match r with Ok a => Ok (a, s) | Err e => Err e | Panic => Panic end)).
  { unfold rename_old_tx. do 2 ag. rewrite Hj. cbn [fmap option_fmap option_map]. do 3 ag.
    subst r. eapply agree_guard; rewrite checkout_access_low_bits by done; [|by intros ->].
    intros ->. cbn [negb].
    pose proof (ok_entries _ (rep_ok _ _ _ _ Hr Hp) _ _ Hj) as Hju.
    eapply agree_unwrap; [by apply parse_usize_to_string|].
    eapply agree_bind_ok.
    { apply tx_expect_ok, get_bucket_ok. by eapply rep_has. }
    ag. eapply agree_guard; [|by intros ->%negb_false_iff].
    intros ->%negb_true_iff. do 2 ag. done. }
  unfold read_tx, dropped_tx. rewrite begin_ok. unfold agree in Ha.
  destruct r as [a|e|], (rename_old_tx uid gid dir name (w_db w)) as [[a' d']|e'|]; try done.
  - by destruct Ha as [-> _].
  - by subst.
Qed.

(** C37: The sticky bit protects entries. In a directory with the sticky bit,
    a caller who is neither the superuser nor the owner of the directory
    nor of the entry's inode cannot unlink the entry, remove it as a
    directory or rename it: each fails and the world is as before. *)
Theorem sticky_protects w s uid gid dir name new_dir new_name flags t p ino n :
  represents (w_db w) s -> time_ok t ->
  f_nodes s !! dir = Some p -> entry s dir name = Some ino -> f_nodes s !! ino = Some n ->
  ino <> dir -> Z.testbit (n_mode p) 9 = true ->
  uid <> 0 -> uid <> n_uid p -> uid <> n_uid n ->
  dbfs_common_unlink uid gid dir name None t w = (Err AccessError, w) /\
  dbfs_common_rmdir uid gid dir name t w =
    (Err (if 2 <? n_size n then NotEmpty else AccessError), w) /\
  dbfs_common_rename uid gid dir name new_dir new_name flags t w = (Err AccessError, w).
Proof.
  intros Hr Ht Hp He Hn Hne Hst H0 H1 H2.
  pose proof (rep_ok _ _ _ _ Hr Hp) as Hpo. pose proof (rep_ino _ _ _ _ Hr Hp) as Hd.
  assert (Hs : sticky_denies (n_mode p) uid (n_uid p) (n_uid n) = true).
  { unfold sticky_denies. rewrite Perm.from_bits_truncate_u16 by apply (ok_mode _ Hpo).
    change Perm.S_ISVTX with (2 ^ 9). rewrite contains_pow2, Hst by done.
    by rewrite (Zeqb_ne uid 0), (Zeqb_ne uid (n_uid p)), (Zeqb_ne uid (n_uid n)). }
  pose proof (entry_some _ _ _ _ _ Hp He) as Hpe. split_and!.
  - pose proof (unlink_runs w s uid gid dir name None t Hr Hd Ht) as Hrun.
    unfold t_unlink_op in Hrun. rewrite Hp, Hpe in Hrun. unfold default in Hrun.
    rewrite Hn, Hs in Hrun.
    destruct (checkout_access _ _ _ _ _ _); apply Hrun; try done; rewrite He; congruence.
  - pose proof (rmdir_runs w s uid gid dir name t Hr Hd Ht) as Hrun.
    unfold t_rmdir_op in Hrun. rewrite Hp, Hpe, Hn, Hs in Hrun.
    destruct (2 <? n_size n); [|destruct (checkout_access _ _ _ _ _ _)];
      apply Hrun; rewrite He; intros ? _ [= ?]; congruence.
  - unfold dbfs_common_rename. erewrite op_bind_err; [done|].
    rewrite (rename_old_runs w s uid gid dir name p ino n Hr Hp Hpe Hn), Hs.
    by destruct (checkout_access _ _ _ _ _ _).
Qed.

(** Removing a name that is not there panics: [dbfs_common_unlink] and
    [dbfs_common_rmdir] unwrap the missing pair, where renaming and looking
    up a missing name fail with [NotFound]. The world is as before. *)
Theorem remove_missing_panics w s uid gid dir name ino new_dir new_name flags t p :
  represents (w_db w) s -> time_ok t ->
  f_nodes s !! dir = Some p -> entry s dir name = None ->
  dbfs_common_unlink uid gid dir name ino t w = (Panic, w) /\
  dbfs_common_rmdir uid gid dir name t w = (Panic, w) /\
  dbfs_common_rename uid gid dir name new_dir new_name flags t w = (Err NotFound, w) /\
  dbfs_common_lookup dir name w = (Err NotFound, w).
Proof.
  intros Hr Ht Hp He. pose proof (rep_ino _ _ _ _ Hr Hp) as Hd.
  pose proof (rep_has _ _ _ _ Hr Hp) as Hb.
  assert (Hk : db_get (w_db w) (usize_be dir) (generate_data_key name) = None).
  { pose proof (rep_get _ _ _ _ (KEntry name) Hr Hp I) as Hk. cbn in Hk. rewrite Hk.
    unfold entry in He. rewrite Hp in He. cbn in He. by rewrite He. }
  split_and!.
  - apply write_tx_panic. unfold unlink_tx. erewrite tx_bind_ok by (by apply get_bucket_ok).
    erewrite tx_bind_ok by done. by rewrite Hk.
  - apply write_tx_panic. unfold rmdir_tx. erewrite tx_bind_ok by (by apply get_bucket_ok).
    erewrite tx_bind_ok by done. by rewrite Hk.
  - unfold dbfs_common_rename. erewrite op_bind_err; [done|]. apply dropped_tx_err.
    unfold rename_old_tx. erewrite tx_bind_ok by (by apply get_bucket_ok).
    erewrite tx_bind_ok by done. by rewrite Hk.
  - unfold dbfs_common_lookup. erewrite op_bind_err; [done|]. apply dropped_tx_err.
    unfold lookup_tx. erewrite tx_bind_ok by (by apply get_bucket_ok).
    erewrite tx_bind_ok by done. by rewrite Hk.
Qed.
End facts.

(** ** Witnesses *)

(** The root with the file [a]; with the directory [d] as well; and with a
    sticky root. *)
Definition file_world : world mapdb := World (image file_fs) 3 ∅.
Definition tree_world : world mapdb := World (image tree_fs) 4 ∅.

Definition sticky_root : node := with_mode 0x43FF (enter_sample (bs "a") 2 (dir_node 1 {[bs "." := 1]})).
Definition sticky_fs : fs := add_node 1 sticky_root file_fs.
Definition sticky_world : world mapdb := World (image sticky_fs) 3 ∅.

Lemma sticky_fs_ok : fs_ok sticky_fs.
Proof.
  apply fs_ok_add; [apply file_fs_ok|done|].
  apply ok_with_mode; [done|done|]. unfold enter_sample. apply ok_with_size; [done|].
  apply ok_with_entry; [done|]. apply dir_node_ok; [done|].
  by intros nm i [_ <-]%lookup_singleton_Some.
Qed.

Lemma link_keeps_tree_witness :
  exists a d' s',
    dbfs_common_link 1000 1000 2 1 (bs "b") sample_time file_world = (Ok a, set_db file_world d') /\
    represents d' s' /\ wf s' /\ entry s' 1 (bs "b") = Some 2 /\
    a_ino a = 2 /\ a_nlink a = 2 /\ a_size a = 0 /\ a_perm a = 0x81ED /\ a_ctime a = sample_time.
Proof.
  destruct (link_keeps_tree file_world file_fs 1000 1000 2 1 (bs "b") sample_time
    (enter_sample (bs "a") 2 (dir_node 1 {[bs "." := 1]}))) as (_ & _ & _ & H4); try done.
  - apply image_represents, file_fs_ok.
  - apply file_fs_wf.
  - apply (H4 (file_node 0 ∅)); try done. by intros [].
Defined.

Lemma unlink_keeps_tree_witness :
  exists d' s',
    dbfs_common_unlink 1000 1000 1 (bs "a") None sample_time tree_world =
      (Ok tt, set_db tree_world d') /\
    represents d' s' /\ wf s' /\ entry s' 1 (bs "a") = None /\ f_nodes s' !! 2 = None.
Proof.
  destruct (unlink_keeps_tree tree_world tree_fs 1000 1000 1 (bs "a") 2 None sample_time
    (enter_sample (bs "d") 3 (enter_sample (bs "a") 2 (dir_node 1 {[bs "." := 1]})))
    (file_node 0 ∅)) as (d' & s' & H1 & H2 & H3 & H4 & H5 & _);
    [apply image_represents, tree_fs_ok|apply tree_fs_wf|done|reflexivity|reflexivity
    |by intros []|reflexivity|reflexivity|by left|reflexivity|reflexivity|].
  exists d', s'. split_and!; [assumption..|]. apply H5. reflexivity.
Defined.

Lemma rmdir_keeps_tree_witness :
  exists d' s',
    dbfs_common_rmdir 1000 1000 1 (bs "d") sample_time tree_world =
      (Ok tt, set_db tree_world d') /\
    represents d' s' /\ wf s' /\ f_nodes s' !! 3 = None /\
    (forall dir' nm, entry s' dir' nm <> Some 3) /\ entry s' 1 (bs "d") = None.
Proof.
  refine (proj2 (rmdir_keeps_tree tree_world tree_fs 1000 1000 1 (bs "d") 3 sample_time
    (enter_sample (bs "d") 3 (enter_sample (bs "a") 2 (dir_node 1 {[bs "." := 1]})))
    (dir_node 2 (<[bs ".." := 1]> {[bs "." := 3]})) _ _ _ _ _ _ _ _ _ _) _); try done.
  - apply image_represents, tree_fs_ok.
  - apply tree_fs_wf.
  - by intros [].
Defined.

Lemma sticky_protects_witness :
  dbfs_common_unlink 7 7 1 (bs "a") None sample_time sticky_world =
    (Err AccessError, sticky_world) /\
  dbfs_common_rmdir 7 7 1 (bs "a") sample_time sticky_world = (Err AccessError, sticky_world) /\
  dbfs_common_rename 7 7 1 (bs "a") 1 (bs "b") 0 sample_time sticky_world =
    (Err AccessError, sticky_world).
Proof.
  apply (sticky_protects sticky_world sticky_fs 7 7 1 (bs "a") 1 (bs "b") 0 sample_time
    sticky_root 2 (file_node 0 ∅)); try done.
  apply image_represents, sticky_fs_ok.
Defined.

Lemma remove_missing_panics_witness :
  dbfs_common_unlink 0 0 1 (bs "x") None sample_time root_world = (Panic, root_world) /\
  dbfs_common_rmdir 0 0 1 (bs "x") sample_time root_world = (Panic, root_world) /\
  dbfs_common_rename 0 0 1 (bs "x") 1 (bs "y") 0 sample_time root_world =
    (Err NotFound, root_world) /\
  dbfs_common_lookup 1 (bs "x") root_world = (Err NotFound, root_world).
Proof.
  apply (remove_missing_panics root_world root_fs 0 0 1 (bs "x") None 1 (bs "y") 0 sample_time
    (dir_node 1 {[bs "." := 1]})); try done.
  apply image_represents, root_fs_ok.
Defined.
