(* ===== verification/Attr.v ===== *)
(** * Attributes and extended attributes: src/src/attr.rs

    Mode, owner and time stamps, and the named extended attributes, which are
    stored as pairs of the inode's bucket under their own names. *)

From S2P Require Import Prelude Bytes Common Store MapDb Access Tree Layout Image Inode.

Section ops.
Context {D : Type} `{JammDb D}.

(** The owner, the group and the permission bits, which every operation on
    extended attributes reads first. *)
Definition xattr_owner (bucket : bytes) : Tx D (Z * Z * Z) :=
  uid ← read_u32 bucket (bs "uid");
  gid ← read_u32 bucket (bs "gid");
  mode ← read_u16 bucket (bs "mode");
  mret (uid, gid, Z.land mode 0x1FF).

(** A pure computation inside a transaction, as [xattr_access_check(..)?]. *)
Definition tx_check {A} (r : outcome A) : Tx D A := fun d =>
  match r with Ok a => Ok (a, d) | Err e => Err e | Panic => Panic end.

(** The access mask is [ACCESS_R_OK] although the attribute is written. *)
Definition setxattr_tx (r_uid r_gid ino : Z) (key value : bytes) (ctime : DbfsTimeSpec) :
  Tx D unit :=
  bucket ← get_bucket (usize_be ino);
  '(uid, gid, mode) ← xattr_owner bucket;
  tx_check (xattr_access_check key ACCESS_R_OK r_uid r_gid uid gid mode);;
  put bucket key value;;
  put bucket (bs "ctime") (time_to_be_bytes ctime).

Definition dbfs_common_setxattr (r_uid r_gid ino : Z) (key value : bytes)
    (ctime : DbfsTimeSpec) : Op D unit :=
  write_tx Unwrap Question (setxattr_tx r_uid r_gid ino key value ctime).

(** The length, and the buffer after the call. *)
Definition dbfs_common_getxattr (r_uid r_gid ino : Z) (key buf : bytes) :
  Op D (Z * bytes) :=
  read_tx Unwrap (
    bucket ← get_bucket (usize_be ino);
    '(uid, gid, mode) ← xattr_owner bucket;
    tx_check (xattr_access_check key ACCESS_R_OK r_uid r_gid uid gid mode);;
    value ← get_kv bucket key;
    match value with
    | None => tx_fail NoData
    | Some value =>
        if zlen buf =? 0 then mret (zlen value, buf)
        else
          let val_len := zlen value in
          if zlen buf <? val_len then tx_fail RangeError
          else
            buf ← tx_unwrap (copy_into buf 0 val_len value);
            mret (val_len, buf)
    end).

(** The loop over the pairs: the names that fit, each followed by a zero. *)
Fixpoint listxattr_loop (pairs : list (bytes * bytes)) (size : Z) (buf : bytes) :
  outcome (Z * bytes) :=
  match pairs with
  | [] => Ok (size, buf)
  | (key, _) :: rest =>
      if starts_with key (bs "user.") || starts_with key (bs "system.")
         || starts_with key (bs "trusted.") || starts_with key (bs "security.")
      then
        let tmp := size in
        let size := size + zlen key + 1 in
        if size <=? zlen buf then
          buf ← unwrap (copy_into buf tmp (size - 1) key);
          buf ← unwrap (copy_into buf (size - 1) size [Byte.x00]);
          listxattr_loop rest size buf
        else listxattr_loop rest tmp buf
      else listxattr_loop rest size buf
  end.

Definition dbfs_common_listxattr (ino : Z) (buf : bytes) : Op D (Z * bytes) :=
  read_tx Unwrap (
    bucket ← get_bucket (usize_be ino);
    pairs ← kv_pairs bucket;
    tx_check (listxattr_loop pairs 0 buf)).

Definition removexattr_tx (r_uid r_gid ino : Z) (key : bytes) (ctime : DbfsTimeSpec) :
  Tx D unit :=
  bucket ← get_bucket (usize_be ino);
  '(uid, gid, mode) ← xattr_owner bucket;
  tx_check (xattr_access_check key ACCESS_W_OK r_uid r_gid uid gid mode);;
  delete bucket key;;
  put bucket (bs "ctime") (time_to_be_bytes ctime).

(** There is no commit: the writable transaction is dropped. *)
Definition dbfs_common_removexattr (r_uid r_gid ino : Z) (key : bytes)
    (ctime : DbfsTimeSpec) : Op D unit :=
  dropped_tx true Unwrap (removexattr_tx r_uid r_gid ino key ctime).

(** ** chmod, chown, utimens *)

Definition attr_with_mode (mode : Z) (t : DbfsTimeSpec) (a : DbfsAttr) : DbfsAttr :=
  Attr (a_ino a) (a_size a) (a_blocks a) (a_atime a) (a_mtime a) t (a_crtime a)
    (a_kind a) mode (a_nlink a) (a_uid a) (a_gid a) (a_rdev a) (a_blksize a)
    (a_padding a) (a_flags a).

Definition dbfs_common_chmod (r_uid r_gid ino mode : Z) (ctime : DbfsTimeSpec) :
  Op D DbfsAttr :=
  attr ← op_map_err Other (dbfs_common_attr ino);
  if negb (r_uid =? 0) && negb (r_uid =? a_uid attr) then op_fail PermissionDenied
  else if negb (r_uid =? 0) && negb (r_gid =? a_gid attr) then op_fail PermissionDenied
  else
    let i_mode := Z.lor (Z.land (a_perm attr) 0xF000) (Z.land mode 0x1FF) in
    if negb (i_mode =? a_perm attr) then
      write_tx Unwrap Question (
        bucket ← get_bucket (usize_be ino);
        put bucket (bs "mode") (u16_be i_mode);;
        put bucket (bs "ctime") (time_to_be_bytes ctime));;
      mret (attr_with_mode i_mode ctime attr)
    else mret attr.

(** The mode after a change of owner. *)
Definition chown_mode (perm : Z) (uid gid : option Z) : Z :=
  let perm := Perm.from_bits_truncate perm in
  let perm :=
    if Perm.contains perm Perm.S_IXUSR || Perm.contains perm Perm.S_IXGRP
       || Perm.contains perm Perm.S_IXOTH
    then clear_suid_sgid perm else perm in
  let perm := match uid with Some _ => Perm.remove perm Perm.S_ISUID | None => perm end in
  match gid with Some _ => Perm.remove perm Perm.S_ISGID | None => perm end.

Definition chown_denied (attr : DbfsAttr) (r_uid r_gid : Z) (uid gid : option Z) : bool :=
  match gid with Some gid => negb (r_uid =? 0) && negb (r_gid =? gid) | None => false end
  || match uid with
     | Some uid => negb (r_uid =? 0) && negb ((uid =? a_uid attr) && (r_uid =? a_uid attr))
     | None => false end
  || (bool_decide (is_Some gid) && negb (r_uid =? 0) && negb (r_uid =? a_uid attr)).

Definition dbfs_common_chown (r_uid r_gid ino : Z) (uid gid : option Z)
    (c_time : DbfsTimeSpec) : Op D DbfsAttr :=
  attr ← op_map_err Other (dbfs_common_attr ino);
  if chown_denied attr r_uid r_gid uid gid then op_fail PermissionDenied
  else
    let perm := chown_mode (a_perm attr) uid gid in
    let n_uid := default (a_uid attr) uid in
    let n_gid := default (a_gid attr) gid in
    write_tx Unwrap Question (
      bucket ← get_bucket (usize_be ino);
      put bucket (bs "uid") (u32_be n_uid);;
      put bucket (bs "gid") (u32_be n_gid);;
      put bucket (bs "mode") (u16_be perm);;
      put bucket (bs "ctime") (time_to_be_bytes c_time));;
    mret (Attr (a_ino attr) (a_size attr) (a_blocks attr) (a_atime attr) (a_mtime attr)
            c_time (a_crtime attr) (a_kind attr) perm (a_nlink attr) n_uid n_gid
            (a_rdev attr) (a_blksize attr) (a_padding attr) (a_flags attr)).

(** The first test compares the owner of the file, not the caller, with the
    superuser. *)
Definition dbfs_common_utimens (r_uid r_gid ino : Z) (atime mtime : option DbfsTimeSpec)
    (c_time : DbfsTimeSpec) : Op D DbfsAttr :=
  attr ← dbfs_common_attr ino;
  if negb (a_uid attr =? r_uid) && negb (a_uid attr =? 0) then op_fail PermissionDenied
  else if negb (a_uid attr =? r_uid)
          && negb (checkout_access (a_uid attr) (a_gid attr) (Z.land (a_perm attr) 0x1FF)
                     r_uid r_gid ACCESS_W_OK)
  then op_fail AccessError
  else
    write_tx Unwrap Question (
      bucket ← get_bucket (usize_be ino);
      match atime with
      | Some t => put bucket (bs "atime") (time_to_be_bytes t)
      | None => mret tt
      end;;
      match mtime with
      | Some t => put bucket (bs "mtime") (time_to_be_bytes t)
      | None => mret tt
      end;;
      put bucket (bs "ctime") (time_to_be_bytes c_time));;
    mret (Attr (a_ino attr) (a_size attr) (a_blocks attr) (default (a_atime attr) atime)
            (default (a_mtime attr) mtime) c_time (a_crtime attr) (a_kind attr)
            (a_perm attr) (a_nlink attr) (a_uid attr) (a_gid attr) (a_rdev attr)
            (a_blksize attr) (a_padding attr) (a_flags attr)).
End ops.

(** ** What the operations promise *)

Lemma xattr_check_key key mask r_uid r_gid uid gid mode :
  xattr_access_check key mask r_uid r_gid uid gid mode = Ok tt -> is_xattr_key key = true.
Proof.
  unfold xattr_access_check, is_xattr_key. by destruct (parse_xattr_namespace key).
Qed.

Lemma xattr_check_unit key mask r_uid r_gid uid gid mode u :
  xattr_access_check key mask r_uid r_gid uid gid mode = Ok u ->
  xattr_access_check key mask r_uid r_gid uid gid mode = Ok tt.
Proof. by destruct u. Qed.

(** The permission check of a node. *)
Definition node_check (key : bytes) (mask r_uid r_gid : Z) (n : node) : outcome unit :=
  xattr_access_check key mask r_uid r_gid (n_uid n) (n_gid n) (Z.land (n_mode n) 0x1FF).

Definition t_setxattr (r_uid r_gid ino : Z) (key value : bytes) (t : DbfsTimeSpec) (s : fs) :
  outcome (unit * fs) :=
  match f_nodes s !! ino with
  | None => Err NoData
  | Some n =>
      node_check key ACCESS_R_OK r_uid r_gid n;;
      Ok (tt, upd ino (fun n => with_ctime t (with_xattrs <[key := value]> n)) s)
  end.

Definition t_getxattr (r_uid r_gid ino : Z) (key buf : bytes) (s : fs) :
  outcome (Z * bytes) :=
  match f_nodes s !! ino with
  | None => Err NoData
  | Some n =>
      node_check key ACCESS_R_OK r_uid r_gid n;;
      match n_xattrs n !! key with
      | None => Err NoData
      | Some value =>
          if zlen buf =? 0 then Ok (zlen value, buf)
          else if zlen buf <? zlen value then Err RangeError
          else Ok (zlen value, value ++ drop (length value) buf)
      end
  end.

Section facts.
Context {D : Type} `{JammDb D, !JammDbLaws D, !Reliable D}.
Implicit Types (d : D) (w : world D) (s : fs) (n : node).

Lemma agree_owner {B} (f : Z * Z * Z -> Tx D B) d s ino n (R : outcome (B * fs)) :
  represents d s -> f_nodes s !! ino = Some n ->
  agree (f (n_uid n, n_gid n, Z.land (n_mode n) 0x1FF) d) R ->
  agree ((xattr_owner (usize_be ino) ≫= f) d) R.
Proof.
  intros Hr Hn Hf. unfold xattr_owner. do 3 (apply agree_assoc; ag). done.
Qed.

Lemma agree_check {A B} (o : outcome A) (f : A -> Tx D B) d (R : outcome (B * fs)) :
  (forall a, o = Ok a -> agree (f a d) R) ->
  (forall e, o = Err e -> R = Err e) -> (o = Panic -> R = Panic) ->
  agree ((tx_check o ≫= f) d) R.
Proof.
  intros H1 H2 H3. destruct o as [a|e|].
  - by apply H1.
  - by rewrite (H2 e).
  - by rewrite H3.
Qed.

Lemma setxattr_tx_refines r_uid r_gid ino key value t :
  is_u64 ino -> time_ok t ->
  refines (setxattr_tx (D := D) r_uid r_gid ino key value t)
    (t_setxattr r_uid r_gid ino key value t).
Proof.
  intros Hi Ht d s Hr. unfold setxattr_tx, t_setxattr, node_check.
  destruct (f_nodes s !! ino) as [n|] eqn:En; [|by eapply agree_missing].
  ag. eapply agree_owner; [done|done|]. cbv beta iota.
  apply agree_check; [|by intros e ->|by intros ->].
  intros [] Hc. rewrite Hc. cbn [mbind outcome_bind].
  pose proof (xattr_check_key _ _ _ _ _ _ _ Hc) as Hk.
  eapply agree_put_xattr; [done|done|done|intros d1 Hr1]. apply agree_last. ag.
  fuse ino (fun n => with_ctime t (with_xattrs <[key := value]> n)). done.
Qed.

Lemma setxattr_runs w s r_uid r_gid ino key value t :
  represents (w_db w) s -> is_u64 ino -> time_ok t ->
  match t_setxattr r_uid r_gid ino key value t s with
  | Ok (u, s') => exists d',
      dbfs_common_setxattr r_uid r_gid ino key value t w = (Ok u, set_db w d') /\
      represents d' s'
  | Err e => dbfs_common_setxattr r_uid r_gid ino key value t w = (Err e, w)
  | Panic => dbfs_common_setxattr r_uid r_gid ino key value t w = (Panic, w)
  end.
Proof. intros. by apply write_runs, setxattr_tx_refines. Qed.

Lemma getxattr_runs w s r_uid r_gid ino key buf :
  represents (w_db w) s -> is_u64 ino ->
  dbfs_common_getxattr r_uid r_gid ino key buf w =
  (t_getxattr r_uid r_gid ino key buf s, w).
Proof.
  intros Hr Hi. apply read_runs; [|done]. clear w s Hr. intros d s Hr.
  unfold t_getxattr, node_check, reading.
  destruct (f_nodes s !! ino) as [n|] eqn:En; [|by eapply agree_missing].
  ag. eapply agree_owner; [done|done|]. cbv beta iota.
  apply agree_check; [|by intros e ->|by intros ->].
  intros [] Hc. rewrite Hc. cbn [mbind outcome_bind].
  pose proof (xattr_check_key _ _ _ _ _ _ _ Hc) as Hk.
  eapply agree_get_xattr; [done..|].
  destruct (n_xattrs n !! key) as [v|]; [|done].
  destruct (zlen buf =? 0); [done|]. destruct (Z.ltb_spec (zlen buf) (zlen v)); [done|].
  eapply agree_unwrap; [apply copy_into_ok; [done|lia|done]|].
  unfold splice. by rewrite Z2Nat.inj_0.
Qed.

Lemma setxattr_ok s r_uid r_gid ino key value t n :
  f_nodes s !! ino = Some n -> node_check key ACCESS_R_OK r_uid r_gid n = Ok tt ->
  t_setxattr r_uid r_gid ino key value t s =
  Ok (tt, upd ino (fun n => with_ctime t (with_xattrs <[key := value]> n)) s).
Proof. intros Hn Hc. unfold t_setxattr. by rewrite Hn, Hc. Qed.

(** C20: An extended attribute that is set can be read back. For a caller
    the check admits, [dbfs_common_setxattr] succeeds and keeps the tree
    well formed; then [dbfs_common_getxattr] of the same name returns the
    value at the front of any buffer that is large enough, its length for
    an empty buffer and [RangeError] for a smaller one, and every other
    name reads as before. *)
Theorem xattr_roundtrip w s r_uid r_gid ino key value t n buf :
  represents (w_db w) s -> wf s -> time_ok t -> f_nodes s !! ino = Some n ->
  node_check key ACCESS_R_OK r_uid r_gid n = Ok tt ->
  exists w' s',
    dbfs_common_setxattr r_uid r_gid ino key value t w = (Ok tt, w') /\
    represents (w_db w') s' /\ wf s' /\
    dbfs_common_getxattr r_uid r_gid ino key buf w' =
      (if zlen buf =? 0 then Ok (zlen value, buf)
       else if zlen buf <? zlen value then Err RangeError
       else Ok (zlen value, value ++ drop (length value) buf), w') /\
    (forall key' buf', key' <> key ->
      dbfs_common_getxattr r_uid r_gid ino key' buf' w' =
      ((dbfs_common_getxattr r_uid r_gid ino key' buf' w).1, w')).
Proof.
  intros Hr Hwf Ht Hn Hc. pose proof (rep_ino _ _ _ _ Hr Hn) as Hi.
  pose proof (setxattr_runs w s r_uid r_gid ino key value t Hr Hi Ht) as Hrun.
  rewrite (setxattr_ok s r_uid r_gid ino key value t n Hn Hc) in Hrun.
  destruct Hrun as (d' & Hrun & Hr'). exists (set_db w d').
  set (s' := upd _ _ s) in *. exists s'.
  assert (Hn' : f_nodes s' !! ino = Some (with_ctime t (with_xattrs <[key := value]> n))).
  { subst s'. by rewrite (upd_lookup_eq s ino _ n Hn). }
  split_and!; [done|done| | |].
  - apply wf_upd_attr; [done|]. by intros m _.
  - rewrite (getxattr_runs _ s') by done. unfold t_getxattr. rewrite Hn'.
    unfold node_check in *. cbn [with_ctime with_xattrs n_uid n_gid n_mode n_xattrs].
    rewrite Hc. cbn [mbind outcome_bind]. by rewrite lookup_insert_eq.
  - intros key' buf' Hk. rewrite (getxattr_runs _ s'), (getxattr_runs w s) by done. cbn [fst].
    unfold t_getxattr. rewrite Hn', Hn.
    unfold node_check. cbn [with_ctime with_xattrs n_uid n_gid n_mode n_xattrs].
    by rewrite lookup_insert_ne.
Qed.

(** [dbfs_common_removexattr] never removes anything: its transaction
    is not committed, so the world is as before whatever it returns; in
    particular an attribute it reported as removed can still be read. *)
Theorem removexattr_lost w s r_uid r_gid ino key t n value :
  represents (w_db w) s -> time_ok t -> f_nodes s !! ino = Some n ->
  node_check key ACCESS_W_OK r_uid r_gid n = Ok tt ->
  n_xattrs n !! key = Some value ->
  dbfs_common_removexattr r_uid r_gid ino key t w = (Ok tt, w).
Proof.
  intros Hr Ht Hn Hc Hv.
  assert (Ha : agree (removexattr_tx r_uid r_gid ino key t (w_db w))
    (Ok (tt, upd ino (fun n => with_ctime t (with_xattrs (base.delete key) n)) s))).
  { unfold removexattr_tx. ag. eapply agree_owner; [done|done|]. cbv beta iota.
    unfold node_check in Hc. rewrite Hc. apply agree_check; [|done|done]. intros [] _.
    pose proof (xattr_check_key _ _ _ _ _ _ _ Hc) as Hk.
    eapply (agree_delete _ _ s ino n (with_xattrs (base.delete key)) (KXattr key));
      [done|done|done| | |intros d1 Hr1].
    - split; [done|]. intros []; try done. edits_map.
    - intros []. split; cbn; try done. intros k v [_ E]%lookup_delete_Some; eauto.
    - apply agree_last. ag.
      by fuse ino (fun n => with_ctime t (with_xattrs (base.delete key) n)). }
  unfold agree in Ha.
  destruct (removexattr_tx r_uid r_gid ino key t (w_db w)) as [[[] d']|e|] eqn:E; try done.
  by apply (dropped_tx_ok _ _ _ _ _ d').
Qed.

(** ** chmod *)

(** The mode [dbfs_common_chmod] stores: the type bits of the old mode and
    the permission bits of the new one. *)
Definition chmod_mode (old new : Z) : Z := Z.lor (Z.land old 0xF000) (Z.land new 0x1FF).

Lemma chmod_mode_bits old new i :
  is_u16 old -> 0 <= i ->
  Z.testbit (chmod_mode old new) i =
  if i <? 9 then Z.testbit new i else if i <? 12 then false else Z.testbit old i.
Proof.
  intros Ho Hi. unfold chmod_mode. rewrite Z.lor_spec, !Z.land_spec.
  change 0xF000 with (15 * 2 ^ 12). change 0x1FF with (Z.ones 9).
  rewrite Z.mul_pow2_bits by lia. change 15 with (Z.ones 4).
  destruct (Z.ltb_spec i 9); [|destruct (Z.ltb_spec i 12)].
  - rewrite (Z.ones_spec_low 9) by lia. rewrite (Z.testbit_neg_r _ (i - 12)) by lia.
    by rewrite andb_false_r, andb_true_r.
  - rewrite (Z.ones_spec_high 9) by lia. rewrite (Z.testbit_neg_r _ (i - 12)) by lia.
    by rewrite !andb_false_r.
  - rewrite (Z.ones_spec_high 9) by lia. rewrite andb_false_r, orb_false_r.
    destruct (Z_lt_ge_dec i 16).
    + by rewrite (Z.ones_spec_low 4), andb_true_r by lia.
    + rewrite (Z.bits_above_log2 old i); [done|by apply Ho|].
      destruct (decide (old = 0)) as [->|Hne]; [cbn; lia|].
      assert (Hl : Z.log2 old < 16); [|lia].
      destruct Ho as [Ho1 Ho2]. apply Z.log2_lt_pow2; [lia|done].
Qed.

Lemma chmod_mode_u16 old new : is_u16 old -> is_u16 new -> is_u16 (chmod_mode old new).
Proof.
  intros Ho Hn. apply Perm.union_u16; by apply Perm.land_u16.
Qed.

Lemma chmod_mode_type old new :
  is_u16 old -> file_type_of_perm (chmod_mode old new) = file_type_of_perm old.
Proof.
  intros Ho. apply file_type_ext. intros i Hi.
  rewrite chmod_mode_bits by (done || lia). by rewrite !Zltb_f by lia.
Qed.

(** Writing the mode and the change time of a node. *)
Lemma set_mode_runs w s ino n mode t :
  represents (w_db w) s -> f_nodes s !! ino = Some n -> is_u16 mode -> time_ok t ->
  file_type_of_perm mode = file_type_of_perm (n_mode n) ->
  exists d', write_tx Unwrap Question (
      bucket ← get_bucket (usize_be ino);
      put bucket (bs "mode") (u16_be mode);;
      put bucket (bs "ctime") (time_to_be_bytes t)) w = (Ok tt, set_db w d') /\
    represents d' (upd ino (fun n => with_ctime t (with_mode mode n)) s).
Proof.
  intros Hr Hn Hm Ht Hty.
  apply (write_runs Unwrap Question _ w
    (Ok (tt, upd ino (fun n => with_ctime t (with_mode mode n)) s))).
  ag. eapply agree_put_mode; [done|done|done|done|intros d1 Hr1]. apply agree_last. ag.
  by fuse ino (fun n => with_ctime t (with_mode mode n)).
Qed.

(** [dbfs_common_chmod] changes the permission bits and nothing else of
    the mode. It fails with [Other] for a missing inode and with
    [PermissionDenied] unless the caller is the superuser or owns the file
    and is in its group, the world being as before; else it succeeds, keeps
    the tree well formed, and the mode then has the nine permission bits of
    the argument, the type bits of the old mode, and the set-user-ID,
    set-group-ID and sticky bits clear. *)
Theorem chmod_permission_bits w s r_uid r_gid ino mode t :
  represents (w_db w) s -> wf s -> is_u64 ino -> is_u16 mode -> time_ok t ->
  (f_nodes s !! ino = None ->
    dbfs_common_chmod r_uid r_gid ino mode t w = (Err Other, w)) /\
  (forall n, f_nodes s !! ino = Some n ->
    r_uid <> 0 /\ (r_uid <> n_uid n \/ r_gid <> n_gid n) ->
    dbfs_common_chmod r_uid r_gid ino mode t w = (Err PermissionDenied, w)) /\
  (forall n, f_nodes s !! ino = Some n ->
    r_uid = 0 \/ (r_uid = n_uid n /\ r_gid = n_gid n) ->
    exists a w' s' n',
      dbfs_common_chmod r_uid r_gid ino mode t w = (Ok a, w') /\
      represents (w_db w') s' /\ wf s' /\ f_nodes s' !! ino = Some n' /\
      a_perm a = n_mode n' /\ file_type_of_perm (n_mode n') = file_type_of_perm (n_mode n) /\
      (forall i, 0 <= i < 9 -> Z.testbit (n_mode n') i = Z.testbit mode i) /\
      (forall i, 9 <= i < 12 -> Z.testbit (n_mode n') i = false)).
Proof.
  intros Hr Hwf Hi Hm Ht. unfold dbfs_common_chmod. split_and!.
  { intros En. erewrite op_bind_err; [done|]. unfold op_map_err. rewrite (attr_runs w s) by done.
    unfold t_attr. by rewrite En. }
  { intros n En [H0 Hne]. destruct (ok_type _ (rep_ok _ _ _ _ Hr En)) as [ty Hty].
    erewrite op_bind_ok.
    2: { apply op_map_err_ok. rewrite (attr_runs w s) by done. unfold t_attr. by rewrite En, Hty. }
    cbn [a_uid a_gid a_perm attr_of]. rewrite (Zeqb_ne _ _ H0). cbn [negb andb].
    destruct (Z.eqb_spec r_uid (n_uid n)), (Z.eqb_spec r_gid (n_gid n)); try done.
    by destruct Hne. }
  intros n En Hown.
  pose proof (rep_ok _ _ _ _ Hr En) as Hok. pose proof (ok_mode _ Hok) as Hm16.
  destruct (ok_type _ Hok) as [ty Hty].
  assert (Ha : op_map_err Other (dbfs_common_attr ino) w = (Ok (attr_of ino n ty), w)).
  { apply op_map_err_ok. rewrite (attr_runs w s) by done. unfold t_attr. by rewrite En, Hty. }
  erewrite op_bind_ok by exact Ha. cbv beta. cbn [a_uid a_gid a_perm attr_of].
  rewrite (proj2 (andb_false_iff _ _)), (proj2 (andb_false_iff _ _)).
  2,3: destruct Hown as [->|[-> ->]]; [by left|right; by rewrite Z.eqb_refl].
  fold (chmod_mode (n_mode n) mode). destruct (Z.eqb_spec (chmod_mode (n_mode n) mode) (n_mode n)) as [E|E].
  - cbn [negb]. exists (attr_of ino n ty), w, s, n. split_and!; try done.
    + intros i Hib. rewrite <- E, chmod_mode_bits by (done || lia). by rewrite Zltb_t by lia.
    + intros i Hib. rewrite <- E, chmod_mode_bits by (done || lia).
        by rewrite Zltb_f, Zltb_t by lia.
  - cbn [negb].
      destruct (set_mode_runs w s ino n (chmod_mode (n_mode n) mode) t) as (d' & Hw & Hr');
        [done|done|by apply chmod_mode_u16|done|by apply chmod_mode_type|].
      erewrite op_bind_ok by exact Hw.
      eexists _, (set_db w d'), _, _. split; [done|]. split; [exact Hr'|].
      split. { apply wf_upd_attr; [done|]. intros m Hm'. rewrite En in Hm'. injection Hm' as <-.
        split_and!; try done. unfold node_is_dir. cbn. by rewrite chmod_mode_type. }
      split; [by apply upd_lookup_eq|]. cbn [attr_with_mode a_perm with_ctime with_mode n_mode].
      split_and!; [done|by apply chmod_mode_type| |].
    + intros i Hib. rewrite chmod_mode_bits by (done || lia). by rewrite Zltb_t by lia.
    + intros i Hib. rewrite chmod_mode_bits by (done || lia). by rewrite Zltb_f, Zltb_t by lia.
Qed.

(** ** chown *)

(** The bits of the mode after a change of owner: only the set-user-ID and
    set-group-ID bits can change, and only from set to clear. *)
Lemma chown_mode_bits perm uid gid i :
  is_u16 perm -> 0 <= i ->
  Z.testbit (chown_mode perm uid gid) i =
  Z.testbit perm i &&
  negb ((i =? 11) && (bool_decide (is_Some uid) || Z.testbit perm 6 || Z.testbit perm 3
                      || Z.testbit perm 0)) &&
  negb ((i =? 10) && (bool_decide (is_Some gid) || Z.testbit perm 3)).
Proof.
  intros Hp Hi. unfold chown_mode. rewrite Perm.from_bits_truncate_u16 by done. cbv zeta.
  change Perm.S_IXUSR with (2 ^ 6). change Perm.S_IXGRP with (2 ^ 3).
  change Perm.S_IXOTH with (2 ^ 0). change Perm.S_ISUID with (2 ^ 11).
  change Perm.S_ISGID with (2 ^ 10). rewrite !contains_pow2 by lia.
  set (x := Z.testbit perm 6 || Z.testbit perm 3 || Z.testbit perm 0).
  assert (HB : Z.testbit (if x then clear_suid_sgid perm else perm) i =
    Z.testbit perm i && negb ((i =? 11) && x) && negb ((i =? 10) && Z.testbit perm 3)).
  { destruct x eqn:Ex.
    - rewrite clear_suid_sgid_spec by done. by rewrite andb_true_r.
    - subst x. apply orb_false_iff in Ex as [[_ E3]%orb_false_iff _].
      by rewrite E3, !andb_false_r, !andb_true_r. }
  destruct uid as [u|], gid as [g|]; rewrite ?remove_pow2_spec by lia; rewrite HB;
    subst x; cbn [bool_decide]; rewrite ?(bool_decide_eq_true_2 (is_Some (Some _))) by (by eexists);
    rewrite ?(bool_decide_eq_false_2 (is_Some None)) by (by intros []);
    destruct (Z.testbit perm i), (i =? 11), (i =? 10), (Z.testbit perm 6),
      (Z.testbit perm 3), (Z.testbit perm 0); reflexivity.
Qed.

Lemma chown_mode_u16 perm uid gid : is_u16 perm -> is_u16 (chown_mode perm uid gid).
Proof.
  intros Hp. unfold chown_mode. rewrite Perm.from_bits_truncate_u16 by done. cbv zeta.
  destruct uid, gid, (_ || _); auto with fs.
Qed.

Lemma chown_mode_type perm uid gid :
  is_u16 perm -> file_type_of_perm (chown_mode perm uid gid) = file_type_of_perm perm.
Proof.
  intros Hp. apply file_type_ext. intros i Hi. rewrite chown_mode_bits by (done || lia).
  rewrite (Zeqb_ne i 11), (Zeqb_ne i 10) by lia. cbn. by rewrite !andb_true_r.
Qed.

Lemma chown_write_runs w s ino n u g mode t :
  represents (w_db w) s -> f_nodes s !! ino = Some n -> is_u32 u -> is_u32 g ->
  is_u16 mode -> time_ok t -> file_type_of_perm mode = file_type_of_perm (n_mode n) ->
  exists d', write_tx Unwrap Question (
      bucket ← get_bucket (usize_be ino);
      put bucket (bs "uid") (u32_be u);;
      put bucket (bs "gid") (u32_be g);;
      put bucket (bs "mode") (u16_be mode);;
      put bucket (bs "ctime") (time_to_be_bytes t)) w = (Ok tt, set_db w d') /\
    represents d' (upd ino (fun n => with_ctime t (with_mode mode (with_gid g (with_uid u n)))) s).
Proof.
  intros Hr Hn Hu Hg Hm Ht Hty.
  apply (write_runs Unwrap Question _ w
    (Ok (tt, upd ino (fun n => with_ctime t (with_mode mode (with_gid g (with_uid u n)))) s))).
  do 3 ag. eapply agree_put_mode; [eassumption|look|done|done|intros d1 Hr1].
  apply agree_last. ag.
  by fuse ino (fun n => with_ctime t (with_mode mode (with_gid g (with_uid u n)))).
Qed.

(** ** utimens *)

(** The times of a node after [dbfs_common_utimens]. *)
Definition retimed (atime mtime : option DbfsTimeSpec) (c_time : DbfsTimeSpec) (n : node) : node :=
  with_ctime c_time (from_option with_mtime id mtime (from_option with_atime id atime n)).

Lemma agree_skip {B} (f : unit -> Tx D B) d (R : outcome (B * fs)) :
  agree (f tt d) R -> agree ((mret tt ≫= f) d) R.
Proof. done. Qed.

Lemma set_times_runs w s ino n atime mtime t :
  represents (w_db w) s -> f_nodes s !! ino = Some n -> time_ok t ->
  (forall t, atime = Some t -> time_ok t) -> (forall t, mtime = Some t -> time_ok t) ->
  exists d', write_tx Unwrap Question (
      bucket ← get_bucket (usize_be ino);
      match atime with
      | Some t => put bucket (bs "atime") (time_to_be_bytes t)
      | None => mret tt
      end;;
      match mtime with
      | Some t => put bucket (bs "mtime") (time_to_be_bytes t)
      | None => mret tt
      end;;
      put bucket (bs "ctime") (time_to_be_bytes t)) w = (Ok tt, set_db w d') /\
    represents d' (upd ino (retimed atime mtime t) s).
Proof.
  intros Hr Hn Ht Ha Hm.
  apply (write_runs Unwrap Question _ w (Ok (tt, upd ino (retimed atime mtime t) s))).
  ag. destruct atime as [a|], mtime as [m|]; cbn beta iota.
  - specialize (Ha a eq_refl). specialize (Hm m eq_refl). do 2 ag. apply agree_last. ag.
    by fuse ino (retimed (Some a) (Some m) t).
  - specialize (Ha a eq_refl). ag. apply agree_skip. apply agree_last. ag.
    by fuse ino (retimed (Some a) None t).
  - specialize (Hm m eq_refl). apply agree_skip. ag. apply agree_last. ag.
    by fuse ino (retimed None (Some m) t).
  - do 2 apply agree_skip. apply agree_last. ag. by fuse ino (retimed None None t).
Qed.


(** ** utimens *)

(** [dbfs_common_utimens] tests the owner of the file where it means the
    caller: the superuser cannot change the time stamps of another user's
    file (the call fails with [PermissionDenied]), and only of files of
    user 0 are the permission bits asked at all. *)
Theorem utimens_root_denied w s r_gid ino atime mtime t n :
  represents (w_db w) s -> f_nodes s !! ino = Some n -> n_uid n <> 0 ->
  dbfs_common_utimens 0 r_gid ino atime mtime t w = (Err PermissionDenied, w).
Proof.
  intros Hr Hn Hu. pose proof (rep_ino _ _ _ _ Hr Hn) as Hi.
  destruct (ok_type _ (rep_ok _ _ _ _ Hr Hn)) as [ty Hty].
  unfold dbfs_common_utimens. erewrite op_bind_ok.
  2: { rewrite (attr_runs w s) by done. unfold t_attr. by rewrite Hn, Hty. }
  cbn [a_uid attr_of]. by rewrite (Zeqb_ne _ _ Hu).
Qed.
End facts.

(** ** Witnesses *)

Definition plain_node : node := file_node 0 ∅.

(** The file [a] of [file_world], with an extended attribute. *)
Definition tagged_fs : fs := upd 2 (with_xattrs <[bs "user.k" := bs "v"]>) file_fs.
Definition tagged_world : world mapdb := World (image tagged_fs) 3 ∅.
Definition attr_world : world mapdb := World (image file_fs) 3 ∅.

Lemma tagged_fs_ok : fs_ok tagged_fs.
Proof. apply fs_ok_upd; [apply file_fs_ok|]. intros n _ Hn. by apply ok_with_xattr. Qed.

Lemma xattr_roundtrip_witness :
  exists w' s',
    dbfs_common_setxattr 1000 1000 2 (bs "user.k") (bs "hello") sample_time attr_world
      = (Ok tt, w') /\
    represents (w_db w') s' /\ wf s' /\
    dbfs_common_getxattr 1000 1000 2 (bs "user.k") (bs "........") w' =
      (Ok (5, bs "hello..."), w').
Proof.
  destruct (xattr_roundtrip attr_world file_fs 1000 1000 2 (bs "user.k") (bs "hello") sample_time
    plain_node (bs "........")) as (w' & s' & H1 & H2 & H3 & H4 & _);
    [apply image_represents, file_fs_ok|apply file_fs_wf|done|reflexivity|reflexivity|].
  exists w', s'. split_and!; [exact H1|exact H2|exact H3|exact H4].
Defined.

Lemma removexattr_lost_witness :
  dbfs_common_removexattr 1000 1000 2 (bs "user.k") sample_time tagged_world
    = (Ok tt, tagged_world).
Proof.
  apply (removexattr_lost tagged_world tagged_fs 1000 1000 2 (bs "user.k") sample_time
    (with_xattrs <[bs "user.k" := bs "v"]> plain_node) (bs "v"));
    [apply image_represents, tagged_fs_ok|done|reflexivity|reflexivity|reflexivity].
Defined.

Lemma chmod_permission_bits_witness :
  exists a w' s' n',
    dbfs_common_chmod 1000 1000 2 0x1A4 sample_time attr_world = (Ok a, w') /\
    represents (w_db w') s' /\ wf s' /\ f_nodes s' !! 2 = Some n' /\
    a_perm a = n_mode n' /\ file_type_of_perm (n_mode n') = file_type_of_perm (n_mode plain_node) /\
    (forall i, 0 <= i < 9 -> Z.testbit (n_mode n') i = Z.testbit 0x1A4 i) /\
    (forall i, 9 <= i < 12 -> Z.testbit (n_mode n') i = false).
Proof.
  refine (proj2 (proj2 (chmod_permission_bits attr_world file_fs 1000 1000 2 0x1A4 sample_time
    (image_represents _ file_fs_ok) file_fs_wf _ _ _)) plain_node _ _);
    [done|done|done|reflexivity|right; split; reflexivity].
Defined.


Lemma utimens_root_denied_witness :
  dbfs_common_utimens 0 0 2 (Some sample_time) None sample_time attr_world
    = (Err PermissionDenied, attr_world).
Proof.
  apply (utimens_root_denied attr_world file_fs 0 2 (Some sample_time) None sample_time plain_node);
    [apply image_represents, file_fs_ok|reflexivity|done].
Defined.
