(* ===== verification/Truncate.v ===== *)
(** * File sizes: truncate and fallocate

    [dbfs_common_truncate] and [dbfs_common_fallocate] of src/src/inode.rs. A
    file's data is in slices of [SLICE_SIZE] bytes under the keys
    [zdata:<number>]; a slice that is missing reads as zeros. The super block
    counts the free space. *)

From S2P Require Import Prelude Bytes Common Store MapDb Access Tree Layout Image Inode.

Section ops.
Context `{SliceConfig} {D : Type} `{JammDb D}.

(** [for i in first..]: delete the slices that exist, [k] of them. *)
Fixpoint free_slices (bucket : bytes) (k : nat) (i : Z) : Tx D unit :=
  match k with
  | O => mret tt
  | S k =>
      let key := generate_data_key_with_number (w32 i) in
      kv ← get_kv bucket key;
      match kv with
      | Some _ => delete bucket key
      | None => mret tt
      end;;
      free_slices bucket k (i + 1)
  end.

(** [for i in offset..SLICE_SIZE { value[i] = 0; }]: [k] bytes from [i]; an
    index out of range panics. *)
Fixpoint zero_bytes (k : nat) (i : Z) (value : bytes) : option bytes :=
  match k with
  | O => Some value
  | S k =>
      if i <? zlen value then zero_bytes k (i + 1) (<[Z.to_nat i := Byte.x00]> value)
      else None
  end.

(** The free space of the super block. *)
Definition read_disk_size : Tx D (bytes * Z) :=
  sb_blk ← tx_expect (get_bucket (bs "super_blk"));
  disk_size ← read_u64 sb_blk (bs "disk_size");
  mret (sb_blk, disk_size).

(** Claiming the space from [current_size] to [f_size]. *)
Definition claim_space (f_size current_size : Z) : Tx D unit :=
  '(sb_blk, disk_size) ← read_disk_size;
  let gap := sat_sub f_size current_size in
  tx_guard (negb (disk_size <? gap)) NoSpace;;
  put sb_blk (bs "disk_size") (u64_be (disk_size - gap)).

(** Freeing the slices after [start], clearing the rest of that slice, and
    giving the space back. *)
Definition shrink_slices (bucket : bytes) (start offset current_block : Z) : Tx D unit :=
  free_slices bucket (Z.to_nat (current_block - start)) (start + 1);;
  let start_key := generate_data_key_with_number (w32 start) in
  value ← get_kv bucket start_key;
  match value with
  | Some value =>
      value ← tx_unwrap (zero_bytes (Z.to_nat (SLICE_SIZE - offset)) offset value);
      put bucket start_key value
  | None => mret tt
  end;;
  '(sb_blk, disk_size) ← read_disk_size;
  let additional_size := (current_block - start) * SLICE_SIZE in
  put sb_blk (bs "disk_size") (u64_be (w64 (disk_size + additional_size))).

Definition truncate_tx (attr : DbfsAttr) (ino : Z) (ctime : DbfsTimeSpec) (f_size : Z) :
  Tx D Z :=
  bucket ← tx_expect (get_bucket (usize_be ino));
  let start := f_size / SLICE_SIZE in
  let offset := f_size mod SLICE_SIZE in
  let current_size := a_size attr in
  let current_block := current_size / SLICE_SIZE in
  (if current_block <? start then claim_space f_size current_size
   else shrink_slices bucket start offset current_block);;
  put bucket (bs "size") (usize_be f_size);;
  put bucket (bs "ctime") (time_to_be_bytes ctime);;
  put bucket (bs "mtime") (time_to_be_bytes ctime);;
  let new_perm := clear_suid_sgid (Perm.from_bits_truncate (a_perm attr)) in
  put bucket (bs "mode") (u16_be new_perm);;
  mret new_perm.

Definition dbfs_common_truncate (r_uid r_gid ino : Z) (ctime : DbfsTimeSpec) (f_size : Z) :
  Op D DbfsAttr :=
  attr ← op_map_err NotFound (dbfs_common_attr ino);
  if negb (checkout_access (a_uid attr) (a_gid attr) (a_perm attr) r_uid r_gid ACCESS_W_OK)
  then op_fail AccessError
  else
    new_perm ← write_tx Question Question (truncate_tx attr ino ctime f_size);
    mret (Attr (a_ino attr) f_size (a_blocks attr) (a_atime attr) ctime ctime
            (a_crtime attr) (a_kind attr) new_perm (a_nlink attr) (a_uid attr)
            (a_gid attr) (a_rdev attr) (a_blksize attr) (a_padding attr) (a_flags attr)).

Definition FALLOC_FL_KEEP_SIZE : Z := 0x01.

Definition fallocate_tx (r_uid r_gid ino offset size mode : Z) (ctime : DbfsTimeSpec) :
  Tx D unit :=
  bucket ← tx_expect (get_bucket (usize_be ino));
  uid ← read_u32 bucket (bs "uid");
  gid ← read_u32 bucket (bs "gid");
  perm ← read_u16 bucket (bs "mode");
  i_size ← read_usize bucket (bs "size");
  tx_guard (checkout_access uid gid perm r_uid r_gid ACCESS_W_OK) AccessError;;
  let f_size := w64 (offset + size) in
  let start := f_size / SLICE_SIZE in
  let current_block := i_size / SLICE_SIZE in
  tx_when (current_block <? start) (claim_space f_size i_size);;
  tx_when (Z.land mode FALLOC_FL_KEEP_SIZE =? 0)
    (put bucket (bs "ctime") (time_to_be_bytes ctime);;
     put bucket (bs "mtime") (time_to_be_bytes ctime);;
     tx_when (i_size <? f_size) (put bucket (bs "size") (usize_be f_size))).

Definition dbfs_common_fallocate (r_uid r_gid ino offset size mode : Z)
    (ctime : DbfsTimeSpec) : Op D unit :=
  write_tx Question Question (fallocate_tx r_uid r_gid ino offset size mode ctime).
End ops.

(** ** The contents of a file *)

(** The byte of a node at a position: a missing slice is zeros. *)
Definition byte_at `{SliceConfig} (n : node) (pos : Z) : Byte.byte :=
  match n_slices n !! (pos / SLICE_SIZE) with
  | Some v => default Byte.x00 (v !! Z.to_nat (pos mod SLICE_SIZE))
  | None => Byte.x00
  end.

(** Every slice is whole. *)
Definition slices_ok `{SliceConfig} (n : node) : Prop :=
  forall i v, n_slices n !! i = Some v -> zlen v = SLICE_SIZE.

(** The slices after a truncation to the offset [offset] in the slice
    [start]. *)
Definition cut_slices `{SliceConfig} (start offset current_block : Z) (m : gmap Z bytes) :
  gmap Z bytes :=
  map_imap (fun i v =>
    if (start <? i) && (i <=? current_block) then None
    else if i =? start then Some (take (Z.to_nat offset) v ++
                                  replicate (Z.to_nat (SLICE_SIZE - offset)) Byte.x00)
    else Some v) m.

Section slices.
Context `{SliceConfig}.

Lemma zero_bytes_ok (k : nat) i v :
  0 <= i -> i + Z.of_nat k = zlen v ->
  zero_bytes k i v = Some (take (Z.to_nat i) v ++ replicate k Byte.x00).
Proof.
  revert i v. induction k as [|k IH]; intros i v Hi Hl; cbn [zero_bytes].
  - cbn. rewrite app_nil_r, take_ge; [done|]. unfold zlen in *. lia.
  - rewrite Zltb_t by lia. rewrite IH; [|lia|unfold zlen in *; rewrite length_insert; lia].
    f_equal. replace (Z.to_nat (i + 1)) with (S (Z.to_nat i)) by lia.
    assert (Hlt : (Z.to_nat i < length v)%nat) by (unfold zlen in *; lia).
    rewrite (take_S_r _ _ Byte.x00) by (by rewrite list_lookup_insert_eq).
    rewrite take_insert_ge by lia. by rewrite <- app_assoc.
Qed.

Lemma slice_pos pos : 0 <= pos mod SLICE_SIZE < SLICE_SIZE.
Proof. pose proof slice_range. apply Z.mod_pos_bound. lia. Qed.

Lemma slice_div pos : pos = SLICE_SIZE * (pos / SLICE_SIZE) + pos mod SLICE_SIZE.
Proof. pose proof slice_range. apply Z.div_mod. lia. Qed.

Lemma cut_slices_ok n start offset cur :
  0 <= offset < SLICE_SIZE -> slices_ok n ->
  forall i v, cut_slices start offset cur (n_slices n) !! i = Some v -> zlen v = SLICE_SIZE.
Proof.
  intros Ho Hn i v. unfold cut_slices. rewrite map_lookup_imap.
  destruct (n_slices n !! i) as [w|] eqn:E; cbn; [|done].
  destruct (_ && _); [done|]. pose proof (Hn i w E) as Hw. destruct (i =? start).
  - intros [= <-]. unfold zlen in *. lens.
  - by intros [= <-].
Qed.
End slices.

(** ** Running the loops beside the tree *)

(** The slices outside [i .. i+k]. *)
Definition drop_range (i : Z) (k : nat) (m : gmap Z bytes) : gmap Z bytes :=
  filter (fun kv => ~ (i <= kv.1 < i + Z.of_nat k)) m.

Lemma drop_range_lookup i k m j :
  drop_range i k m !! j = if (i <=? j) && (j <? i + Z.of_nat k) then None else m !! j.
Proof.
  unfold drop_range. destruct (m !! j) as [v|] eqn:E.
  - destruct ((i <=? j) && (j <? i + Z.of_nat k)) eqn:B.
    + apply map_lookup_filter_None. right. intros v' _ Hn. apply Hn. zbool. cbn. lia.
    + apply map_lookup_filter_Some. split; [done|]. cbn. intros [H1 H2].
      rewrite Zleb_t, Zltb_t in B by lia. done.
  - destruct (_ && _); apply map_lookup_filter_None; by left.
Qed.

Lemma drop_range_S i k m :
  drop_range (i + 1) k (base.delete i m) = drop_range i (S k) m.
Proof.
  apply map_eq. intros j. rewrite !drop_range_lookup. destruct (decide (j = i)) as [->|Hne].
  - rewrite lookup_delete_eq, (Zleb_t i i), (Zltb_t i (i + Z.of_nat (S k))) by lia.
    by destruct (_ && _).
  - rewrite lookup_delete_ne by done.
    replace (i <=? j) with (i + 1 <=? j).
    2: { destruct (Z.leb_spec (i + 1) j), (Z.leb_spec i j); try done; lia. }
    by replace (i + 1 + Z.of_nat k) with (i + Z.of_nat (S k)) by lia.
Qed.

Lemma cut_slices_eq `{SliceConfig} start offset cur m :
  start <= cur ->
  (match m !! start with
   | Some v => <[start := take (Z.to_nat offset) v ++
                          replicate (Z.to_nat (SLICE_SIZE - offset)) Byte.x00]>
   | None => id end) (drop_range (start + 1) (Z.to_nat (cur - start)) m) =
  cut_slices start offset cur m.
Proof.
  intros Hle. apply map_eq. intros j. unfold cut_slices. rewrite map_lookup_imap.
  assert (HD : drop_range (start + 1) (Z.to_nat (cur - start)) m !! j =
    if (start <? j) && (j <=? cur) then None else m !! j).
  { rewrite drop_range_lookup.
    replace ((start + 1 <=? j) && (j <? start + 1 + Z.of_nat (Z.to_nat (cur - start))))
      with ((start <? j) && (j <=? cur)); [done|].
    destruct (Z.ltb_spec start j), (Z.leb_spec j cur), (Z.leb_spec (start + 1) j),
      (Z.ltb_spec j (start + 1 + Z.of_nat (Z.to_nat (cur - start)))); try done; lia. }
  destruct (decide (j = start)) as [->|Hne].
  - rewrite Zltb_f in * by lia. cbn [andb] in *. rewrite Z.eqb_refl.
    destruct (m !! start) as [v|] eqn:E; cbn [mbind option_bind id].
    + by rewrite lookup_insert_eq.
    + by rewrite HD.
  - rewrite (Zeqb_ne _ _ Hne).
    destruct (m !! start) as [v|]; cbn [id]; [rewrite lookup_insert_ne by done|];
      rewrite HD; destruct (_ && _), (m !! j); done.
Qed.

Section agree.
Context `{SliceConfig} {D : Type} `{JammDb D, !JammDbLaws D}.
Implicit Types (d : D) (s : fs) (n : node).

Lemma rep_upd_same d s ino g n :
  represents d s -> f_nodes s !! ino = Some n -> g n = n -> represents d (upd ino g s).
Proof.
  intros Hr Hn Hg. replace (upd ino g s) with s; [done|]. destruct s as [m f].
  unfold upd. f_equal. apply map_eq. intros j. cbn. destruct (decide (j = ino)) as [->|].
  - rewrite lookup_alter_eq. cbn in Hn. rewrite Hn. cbn. by rewrite Hg.
  - by rewrite lookup_alter_ne.
Qed.

Lemma with_slices_same f n : f (n_slices n) = n_slices n -> with_slices f n = n.
Proof. destruct n. unfold with_slices. cbn. by intros ->. Qed.

Lemma agree_free_slices {B} (f : unit -> Tx D B) k d s ino n i (R : outcome (B * fs)) :
  represents d s -> f_nodes s !! ino = Some n -> 0 <= i -> i + Z.of_nat k <= 2 ^ 32 ->
  (forall d', represents d' (upd ino (with_slices (drop_range i k)) s) -> agree (f tt d') R) ->
  agree ((free_slices (usize_be ino) k i ≫= f) d) R.
Proof.
  revert d s n i. induction k as [|k IH]; intros d s n i Hr Hn Hi Hk Hf; cbn [free_slices].
  - eapply agree_bind_ok; [done|]. apply Hf. eapply rep_upd_same; [done..|].
    apply with_slices_same. apply map_eq. intros j. rewrite drop_range_lookup.
    destruct (Z.leb_spec i j), (Z.ltb_spec j (i + Z.of_nat 0)); try done; lia.
  - rewrite w32_small by (unfold is_u32; lia). apply agree_assoc.
    eapply agree_get_slice; [done|done|unfold is_u32; lia|].
    destruct (n_slices n !! i) as [v|] eqn:E.
    + apply agree_assoc. eapply agree_del_slice; [done|done|unfold is_u32; lia|done|intros d1 Hr1].
      eapply IH; [done|by apply upd_lookup_eq|lia|lia|]. intros d2 Hr2. apply Hf.
      rewrite upd_upd in Hr2. erewrite upd_ext; [exact Hr2|]. intros m _.
      unfold with_slices. cbn. by rewrite drop_range_S.
    + apply agree_assoc. eapply agree_bind_ok; [done|]. cbv beta.
      eapply (IH d s n (i + 1)); [done|done|lia|lia|]. intros d2 Hr2. apply Hf.
      erewrite upd_ext; [exact Hr2|]. intros m Hm. rewrite Hn in Hm. injection Hm as <-.
      unfold with_slices. f_equal. by rewrite <- drop_range_S, delete_id.
Qed.

Lemma agree_disk_size {B} (f : bytes * Z -> Tx D B) d s (R : outcome (B * fs)) :
  represents d s -> agree (f (bs "super_blk", f_free s) d) R ->
  agree ((read_disk_size ≫= f) d) R.
Proof.
  intros Hr Hf. destruct (rep_free _ _ Hr) as [Hg Hu]. unfold read_disk_size.
  apply agree_assoc. eapply agree_bind_ok.
  { apply tx_expect_ok, get_bucket_ok. by apply (db_has_some _ _ _ _ Hg). }
  apply agree_assoc. eapply agree_bind_ok; [|exact Hf].
  eapply read_field_ok; [exact Hg|by apply u64_of_be].
Qed.

Lemma agree_put_free {B} (f : unit -> Tx D B) d s z (R : outcome (B * fs)) :
  represents d s -> is_u64 z ->
  (forall d', represents d' (set_free z s) -> agree (f tt d') R) ->
  agree ((put (bs "super_blk") (bs "disk_size") (u64_be z) ≫= f) d) R.
Proof.
  intros Hr Hz Hf. eapply agree_bind_ok; [done|]. apply Hf. by apply rep_set_free.
Qed.

(** Claiming space and giving it back. *)
Lemma agree_claim {B} (f : unit -> Tx D B) d s f_size cur (R : outcome (B * fs)) :
  represents d s ->
  (f_free s < sat_sub f_size cur -> R = Err NoSpace) ->
  (sat_sub f_size cur <= f_free s -> forall d',
    represents d' (set_free (f_free s - sat_sub f_size cur) s) -> agree (f tt d') R) ->
  agree ((claim_space f_size cur ≫= f) d) R.
Proof.
  intros Hr H1 H2. unfold claim_space. apply agree_assoc.
  eapply agree_disk_size; [done|]. cbv beta iota. apply agree_assoc.
  apply agree_guard.
  - intros Hc%negb_true_iff. zbool. eapply agree_put_free; [done| |by apply H2].
    pose proof (rep_free _ _ Hr) as [_ Hu]. unfold is_u64, sat_sub in *. lia.
  - intros Hc%negb_false_iff. zbool. by apply H1.
Qed.

Lemma agree_shrink {B} (f : unit -> Tx D B) d s ino n start offset cur (R : outcome (B * fs)) :
  represents d s -> f_nodes s !! ino = Some n -> slices_ok n ->
  0 <= start <= cur -> is_u32 cur -> 0 <= offset < SLICE_SIZE ->
  (forall d', represents d' (upd ino (with_slices (cut_slices start offset cur))
                (set_free (w64 (f_free s + (cur - start) * SLICE_SIZE)) s)) ->
    agree (f tt d') R) ->
  agree ((shrink_slices (usize_be ino) start offset cur ≫= f) d) R.
Proof.
  intros Hr Hn Hs Hst Hcur Hoff Hf. unfold is_u32 in *. unfold shrink_slices.
  apply agree_assoc. eapply agree_free_slices; [done|done|lia|lia|intros d1 Hr1].
  rewrite w32_small by (unfold is_u32; lia). apply agree_assoc.
  eapply agree_get_slice; [done|by apply upd_lookup_eq|unfold is_u32; lia|].
  cbn [with_slices n_slices]. rewrite drop_range_lookup, Zleb_f by lia. cbn [andb].
  assert (HC : forall d2, represents d2 (upd ino (with_slices (cut_slices start offset cur)) s) ->
    agree ((x ← read_disk_size; (let '(sb_blk, disk_size) := x in
      let additional_size := (cur - start) * SLICE_SIZE in
      put sb_blk (bs "disk_size") (u64_be (w64 (disk_size + additional_size)))) ≫= f) d2) R).
  { intros d2 Hr2. eapply agree_disk_size; [done|]. cbv beta iota.
    eapply agree_put_free; [done|apply w64_range|exact Hf]. }
  destruct (n_slices n !! start) as [v|] eqn:E.
  - apply agree_assoc, agree_assoc. eapply agree_unwrap.
    { apply zero_bytes_ok; [lia|]. rewrite (Hs _ _ E). lia. }
    eapply agree_put_slice; [done|by apply upd_lookup_eq|unfold is_u32; lia|intros d2 Hr2].
    apply agree_assoc. apply HC. rewrite upd_upd in Hr2. erewrite upd_ext; [exact Hr2|].
    intros m Hm. rewrite Hn in Hm. injection Hm as <-. unfold with_slices. cbn. f_equal.
    rewrite <- cut_slices_eq by lia. by rewrite E.
  - apply agree_assoc. eapply agree_bind_ok; [done|]. apply agree_assoc. apply HC.
    erewrite upd_ext; [exact Hr1|]. intros m Hm. rewrite Hn in Hm. injection Hm as <-.
    unfold with_slices. f_equal. rewrite <- cut_slices_eq by lia. by rewrite E.
Qed.
End agree.

(** ** What the operations promise *)

(** The fields of a truncated node. *)
Definition resized (f_size : Z) (t : DbfsTimeSpec) (n : node) : node :=
  with_mode (clear_suid_sgid (n_mode n)) (with_mtime t (with_ctime t (with_size f_size n))).

Definition t_truncate `{SliceConfig} (ino : Z) (t : DbfsTimeSpec) (f_size : Z) (n : node)
    (s : fs) : outcome fs :=
  let start := f_size / SLICE_SIZE in
  let cur := n_size n / SLICE_SIZE in
  if cur <? start then
    let gap := sat_sub f_size (n_size n) in
    if f_free s <? gap then Err NoSpace
    else Ok (upd ino (resized f_size t) (set_free (f_free s - gap) s))
  else
    Ok (upd ino (fun n => resized f_size t
          (with_slices (cut_slices start (f_size mod SLICE_SIZE) cur) n))
        (set_free (w64 (f_free s + (cur - start) * SLICE_SIZE)) s)).

Section facts.
Context `{SliceConfig} {D : Type} `{JammDb D, !JammDbLaws D, !Reliable D}.
Implicit Types (d : D) (w : world D) (s : fs) (n : node).

Lemma truncate_tx_agree d s ino t f_size n ty :
  represents d s -> f_nodes s !! ino = Some n -> slices_ok n -> time_ok t -> is_u64 f_size ->
  is_u32 (n_size n / SLICE_SIZE) ->
  agree (truncate_tx (attr_of ino n ty) ino t f_size d)
    (s' ← t_truncate ino t f_size n s; Ok (clear_suid_sgid (n_mode n), s')).
Proof.
  intros Hr Hn Hsl Ht Hf Hcur. pose proof slice_range as HS.
  pose proof (rep_ok _ _ _ _ Hr Hn) as Hok. pose proof (slice_pos f_size) as Hpos.
  assert (Hst : 0 <= f_size / SLICE_SIZE) by (apply Z.div_pos; unfold is_u64 in Hf; lia).
  unfold truncate_tx, t_truncate. cbn [a_size a_perm attr_of].
  rewrite Perm.from_bits_truncate_u16 by apply (ok_mode _ Hok).
  eapply agree_bind_ok.
  { apply tx_expect_ok, get_bucket_ok. by eapply rep_has. }
  cbv beta zeta.
  pose proof (clear_suid_sgid_u16 _ (ok_mode _ Hok)) as Hm16.
  destruct (Z.ltb_spec (n_size n / SLICE_SIZE) (f_size / SLICE_SIZE)).
  - eapply agree_claim; [done|by intros Hlt; rewrite Zltb_t|].
    intros Hge d1 Hr1. rewrite Zltb_f by lia. cbn [mbind outcome_bind].
    assert (Hn1 : f_nodes (set_free (f_free s - sat_sub f_size (n_size n)) s) !! ino = Some n)
      by done.
    do 3 ag.
    eapply agree_put_mode; [eassumption|look|done|apply file_type_clear_suid|intros d2 Hr2].
    by fuse ino (resized f_size t).
  - eapply agree_shrink; [done|done|done|lia|done|done|]. intros d1 Hr1.
    cbn [mbind outcome_bind].
    assert (Hn1 : f_nodes (set_free (w64 (f_free s +
      (n_size n / SLICE_SIZE - f_size / SLICE_SIZE) * SLICE_SIZE)) s) !! ino = Some n) by done.
    do 3 ag.
    eapply agree_put_mode; [eassumption|look|done|apply file_type_clear_suid|intros d2 Hr2].
    by fuse ino (fun m => resized f_size t
        (with_slices (cut_slices (f_size / SLICE_SIZE) (f_size mod SLICE_SIZE)
           (n_size n / SLICE_SIZE)) m)).
Qed.

(** ** The bytes of a truncated file *)

Lemma cut_byte_keep n n' start offset cur pos :
  n_slices n' = cut_slices start offset cur (n_slices n) -> slices_ok n ->
  0 <= offset < SLICE_SIZE -> 0 <= pos < start * SLICE_SIZE + offset ->
  byte_at n' pos = byte_at n pos.
Proof.
  intros Hs Hok Hoff Hpos. unfold byte_at. rewrite Hs. unfold cut_slices.
  rewrite map_lookup_imap. pose proof (slice_pos pos) as Hm.
  pose proof (slice_div pos) as Hdm.
  assert (Hle : pos / SLICE_SIZE < start + 1) by (apply Z.div_lt_upper_bound; nia).
  rewrite Zltb_f by lia. cbn [andb].
  destruct (n_slices n !! (pos / SLICE_SIZE)) as [v|] eqn:E; cbn; [|done].
  destruct (Z.eqb_spec (pos / SLICE_SIZE) start) as [Es|Es]; [|done].
  assert (pos mod SLICE_SIZE < offset) by nia.
  pose proof (Hok _ _ E) as Hv. unfold zlen in Hv.
  rewrite lookup_app_l by lens. by rewrite lookup_take_lt by lia.
Qed.

Lemma cut_byte_zero n n' start offset cur pos :
  n_slices n' = cut_slices start offset cur (n_slices n) -> slices_ok n ->
  0 <= offset < SLICE_SIZE -> 0 <= start <= cur ->
  start * SLICE_SIZE + offset <= pos < (cur + 1) * SLICE_SIZE ->
  byte_at n' pos = Byte.x00.
Proof.
  intros Hs Hok Hoff Hst Hpos. unfold byte_at. rewrite Hs. unfold cut_slices.
  rewrite map_lookup_imap. pose proof (slice_pos pos) as Hm.
  pose proof (slice_div pos) as Hdm.
  assert (Hle : start <= pos / SLICE_SIZE) by (apply Z.div_le_lower_bound; nia).
  assert (Hcu : pos / SLICE_SIZE <= cur) by nia.
  destruct (n_slices n !! (pos / SLICE_SIZE)) as [v|] eqn:E; cbn; [|done].
  destruct (Z.eqb_spec (pos / SLICE_SIZE) start) as [Es|Es].
  - rewrite Zltb_f by lia. cbn [andb].
    assert (offset <= pos mod SLICE_SIZE) by nia.
    pose proof (Hok _ _ E) as Hv. unfold zlen in Hv.
    rewrite lookup_app_r by lens. by rewrite lookup_replicate_2 by lens.
  - by rewrite Zltb_t, Zleb_t by lia.
Qed.

Lemma t_truncate_node s ino t f_size n s' :
  f_nodes s !! ino = Some n -> t_truncate ino t f_size n s = Ok s' ->
  f_nodes s' !! ino = Some (resized f_size t
    (if n_size n / SLICE_SIZE <? f_size / SLICE_SIZE then n
     else with_slices (cut_slices (f_size / SLICE_SIZE) (f_size mod SLICE_SIZE)
            (n_size n / SLICE_SIZE)) n)) /\
  (node_is_dir n = false -> wf s -> wf s').
Proof.
  intros Hn. unfold t_truncate. cbv zeta.
  assert (Hw : forall s0 g, f_nodes s0 = f_nodes s -> wf s ->
    (forall m, n_entries (g m) = n_entries m /\ n_nlink (g m) = n_nlink m /\
       node_is_dir (g m) = node_is_dir m) -> node_is_dir n = false -> wf (upd ino g s0)).
  { intros s0 g E Hwf Hg Hd. destruct s0 as [m z]. cbn in E. subst m.
    apply wf_upd_attr.
    - destruct s as [m z']. by destruct Hwf.
    - intros m Hm. cbn in Hm. rewrite Hn in Hm. injection Hm as <-.
      destruct (Hg n) as (?&?&?). split_and!; [done..|]. congruence. }
  assert (Hg : forall m, node_is_dir (resized f_size t m) = node_is_dir m).
  { intros m. unfold node_is_dir, resized. cbn. by rewrite file_type_clear_suid. }
  destruct (_ <? _).
  - destruct (_ <? _); [done|]. intros [= <-]. split; [by apply upd_lookup_eq|].
    intros Hd Hwf. apply Hw; try done; intros m; split_and!; try done; apply Hg.
  - intros [= <-]. split.
    + cbn. rewrite lookup_alter_eq, Hn. done.
    + intros Hd Hwf. apply Hw; try done; intros m; split_and!; try done; by rewrite Hg.
Qed.

(** The file after a truncation, as seen by its readers. *)
Lemma truncated_bytes s ino t f_size n s' :
  f_nodes s !! ino = Some n -> slices_ok n -> 0 <= f_size -> 0 <= n_size n ->
  t_truncate ino t f_size n s = Ok s' ->
  exists n', f_nodes s' !! ino = Some n' /\ n_size n' = f_size /\ slices_ok n' /\
    n_mode n' = clear_suid_sgid (n_mode n) /\
    (forall pos, 0 <= pos < f_size -> byte_at n' pos = byte_at n pos) /\
    (f_size <= n_size n -> forall pos, f_size <= pos < n_size n -> byte_at n' pos = Byte.x00).
Proof.
  intros Hn Hsl Hf Hz Ht. pose proof slice_range as HS. pose proof (slice_pos f_size) as Ho.
  destruct (t_truncate_node s ino t f_size n s' Hn Ht) as [Hn' _].
  pose proof (slice_div f_size) as Hdf.
  pose proof (slice_div (n_size n)) as Hdn.
  pose proof (slice_pos (n_size n)) as Hon.
  destruct (Z.ltb_spec (n_size n / SLICE_SIZE) (f_size / SLICE_SIZE)) as [Hlt|Hge].
  - eexists. split; [exact Hn'|]. split_and!; try done. intros Hle. exfalso. nia.
  - eexists. split; [exact Hn'|]. split_and!; [done| |done| |].
    + intros i v. apply cut_slices_ok; done.
    + intros pos Hpos. eapply cut_byte_keep; [done|done|done|lia].
    + intros Hle pos Hpos. eapply cut_byte_zero; [done|done|done| |].
      * split; [by apply Z.div_pos; lia|lia].
      * lia.
Qed.

Lemma truncate_runs w s r_uid r_gid ino t f_size n :
  represents (w_db w) s -> f_nodes s !! ino = Some n -> slices_ok n -> time_ok t ->
  is_u64 f_size -> is_u32 (n_size n / SLICE_SIZE) ->
  if checkout_access (n_uid n) (n_gid n) (n_mode n) r_uid r_gid ACCESS_W_OK then
    match t_truncate ino t f_size n s with
    | Ok s' => exists d' a, dbfs_common_truncate r_uid r_gid ino t f_size w = (Ok a, set_db w d')
        /\ represents d' s' /\ a_size a = f_size /\ a_perm a = clear_suid_sgid (n_mode n)
    | Err e => dbfs_common_truncate r_uid r_gid ino t f_size w = (Err e, w)
    | Panic => False
    end
  else dbfs_common_truncate r_uid r_gid ino t f_size w = (Err AccessError, w).
Proof.
  intros Hr Hn Hsl Ht Hf Hcur. pose proof (rep_ino _ _ _ _ Hr Hn) as Hi.
  destruct (ok_type _ (rep_ok _ _ _ _ Hr Hn)) as [ty Hty].
  assert (Ha : op_map_err NotFound (dbfs_common_attr ino) w = (Ok (attr_of ino n ty), w)).
  { apply op_map_err_ok. rewrite (attr_runs w s) by done. unfold t_attr. by rewrite Hn, Hty. }
  unfold dbfs_common_truncate.
  destruct (checkout_access _ _ _ _ _ _) eqn:Ec; erewrite op_bind_ok by exact Ha; cbv beta;
    cbn [a_uid a_gid a_perm attr_of]; rewrite Ec; cbn [negb]; [|done].
  pose proof (write_runs Question Question _ w _
    (truncate_tx_agree _ s ino t f_size n ty Hr Hn Hsl Ht Hf Hcur)) as Hw.
  destruct (t_truncate ino t f_size n s) as [s'|e|] eqn:Et; cbn [mbind outcome_bind] in Hw.
  - destruct Hw as (d' & Hw & Hr'). exists d'. eexists.
    erewrite op_bind_ok by exact Hw. split; [done|]. by split_and!.
  - by erewrite op_bind_err by exact Hw.
  - unfold t_truncate in Et. repeat case_match; done.
Qed.

Lemma t_truncate_err s ino t f_size n e :
  is_u64 (f_free s) -> t_truncate ino t f_size n s = Err e ->
  e = NoSpace /\ f_free s < f_size - n_size n.
Proof.
  intros Hf. unfold t_truncate. destruct (_ <? _); [|done].
  destruct (Z.ltb_spec (f_free s) (sat_sub f_size (n_size n))); [|done].
  intros [= <-]. split; [done|]. unfold sat_sub, is_u64 in *. lia.
Qed.


(** The free space of the super block drifts: growing a file to a new
    block claims the bytes it grows by, shrinking it gives back whole
    slices only. Growing an empty file to one byte less than two slices and
    truncating it to nothing again loses all but one of the bytes of the
    last slice. *)
Theorem truncate_leaks_space w s r_uid r_gid ino t n :
  represents (w_db w) s -> wf s -> f_nodes s !! ino = Some n -> n_slices n = ∅ ->
  n_size n = 0 -> time_ok t -> n_mode n = clear_suid_sgid (n_mode n) ->
  checkout_access (n_uid n) (n_gid n) (n_mode n) r_uid r_gid ACCESS_W_OK = true ->
  2 * SLICE_SIZE - 1 <= f_free s ->
  exists a1 w1 a2 w2 s2,
    dbfs_common_truncate r_uid r_gid ino t (2 * SLICE_SIZE - 1) w = (Ok a1, w1) /\
    dbfs_common_truncate r_uid r_gid ino t 0 w1 = (Ok a2, w2) /\
    represents (w_db w2) s2 /\ f_free s2 = f_free s - (SLICE_SIZE - 1) /\
    a_size a2 = 0.
Proof.
  intros Hr Hwf Hn Hsl Hz Ht Hm Hc Hfree. pose proof slice_range as HS.
  pose proof (rep_free _ _ Hr) as [_ Hfu].
  assert (Hd1 : (2 * SLICE_SIZE - 1) / SLICE_SIZE = 1).
  { symmetry. apply (Z.div_unique _ _ _ (SLICE_SIZE - 1)); lia. }
  assert (Hd0 : 0 / SLICE_SIZE = 0) by (apply Z.div_0_l; lia).
  pose proof (truncate_runs w s r_uid r_gid ino t (2 * SLICE_SIZE - 1) n Hr Hn) as Hrun.
  rewrite Hc in Hrun. unfold t_truncate in Hrun. rewrite Hz, Hd1, Hd0 in Hrun.
  cbn [Z.ltb Z.compare] in Hrun. unfold sat_sub in Hrun.
  rewrite Zltb_f in Hrun by lia.
  destruct Hrun as (d1 & a1 & Hrun & Hr1 & Hs1 & _); [|done|unfold is_u64; lia|done|].
  { intros i v. by rewrite Hsl, lookup_empty. }
  exists a1, (set_db w d1).
  set (s1 := upd ino _ _) in Hr1.
  assert (Hn1 : f_nodes s1 !! ino = Some (resized (2 * SLICE_SIZE - 1) t n)).
  { by apply upd_lookup_eq. }
  pose proof (truncate_runs (set_db w d1) s1 r_uid r_gid ino t 0 _ Hr1 Hn1) as Hrun2.
  cbn [resized with_mode with_mtime with_ctime with_size n_uid n_gid n_mode n_size] in Hrun2.
  rewrite <- Hm, Hc in Hrun2. unfold t_truncate in Hrun2.
  cbn [resized with_mode with_mtime with_ctime with_size n_size] in Hrun2.
  rewrite Hd1, Hd0 in Hrun2. cbn [Z.ltb Z.compare] in Hrun2.
  destruct Hrun2 as (d2 & a2 & Hrun2 & Hr2 & Hs2 & _); [|done|done|done|].
  { intros i v. cbn. by rewrite Hsl, lookup_empty. }
  eexists a2, _, _. split; [exact Hrun|]. split; [exact Hrun2|].
  split; [exact Hr2|]. split; [|done]. cbn [upd set_free f_free s1]. rewrite w64_small; [lia|].
  unfold is_u64 in *. cbn. lia.
Qed.
End facts.

(** ** Witnesses *)

(** A file of 600 bytes in two slices of 512, with the set-user-ID bit, and an
    empty file; the caller is the owner. *)
Definition long_node : node :=
  with_mode 0x89ED (file_node 600 (<[1 := replicate 512 (Byte.x62)]> {[0 := replicate 512 (Byte.x61)]})).

Definition long_fs : fs := upd 2 (fun _ => long_node) file_fs.
Definition long_world : world mapdb := World (image long_fs) 3 ∅.
Definition empty_world : world mapdb := World (image file_fs) 3 ∅.

Lemma long_fs_ok : fs_ok long_fs.
Proof.
  apply fs_ok_upd; [apply file_fs_ok|]. intros n _ _. apply ok_with_mode; [done|done|].
  apply file_node_ok; [done|].
  by intros i v [[<- _]|[_ [<- _]%lookup_singleton_Some]]%lookup_insert_Some.
Qed.

Lemma long_fs_wf : wf long_fs.
Proof.
  apply wf_upd_attr; [apply file_fs_wf|]. intros n Hn. injection Hn as <-. by split_and!.
Qed.

Lemma long_slices_ok : slices_ok long_node.
Proof.
  intros i v. unfold long_node, file_node. cbn [with_mode n_slices].
  rewrite lookup_insert_Some, lookup_singleton_Some. by intros [[_ <-]|[_ [_ <-]]].
Qed.


Lemma truncate_leaks_space_witness :
  exists a1 w1 a2 w2 s2,
    dbfs_common_truncate 1000 1000 2 sample_time (2 * SLICE_SIZE - 1) empty_world = (Ok a1, w1) /\
    dbfs_common_truncate 1000 1000 2 sample_time 0 w1 = (Ok a2, w2) /\
    represents (w_db w2) s2 /\ f_free s2 = f_free file_fs - (SLICE_SIZE - 1) /\ a_size a2 = 0.
Proof.
  refine (truncate_leaks_space empty_world file_fs 1000 1000 2 sample_time (file_node 0 ∅)
    (image_represents _ file_fs_ok) file_fs_wf _ _ _ _ _ _ _);
    [reflexivity|reflexivity|reflexivity|done|reflexivity|reflexivity|done].
Defined.
