(* ===== verification/File.v ===== *)
(** * File contents: read, write and copy

    [dbfs_common_read], [dbfs_common_write] and [dbfs_common_copy_file_range]
    of src/src/file.rs. The contents of a file are slices of [SLICE_SIZE] bytes
    under the keys [zdata:<number>]. [dbfs_common_read] walks the slices of a
    range of keys; [dbfs_common_write] stores whole slices, one at a time,
    through buffers of the buddy allocator. *)

From S2P Require Import Prelude Bytes Common Store MapDb Access Tree Layout Image Inode Truncate.

(** The memory the write path works in: where the caller's buffer, the stored
    values and the allocated slices lie, and what a fresh slice of the buddy
    allocator holds (it is not cleared). *)
Class Memory `{SliceConfig} := {
  buf_ptr : Z;
  value_ptr : Z -> Z;
  slice_ptr : Z -> Z;
  uninit : Z -> bytes;
  uninit_len : forall num, zlen (uninit num) = SLICE_SIZE }.

Section ops.
Context `{SliceConfig} {D : Type} `{JammDb D}.

(** ** copy_data *)

(** The width of the units [copy_data] copies: the widest of 16, 8, 4, 2 and
    1 bytes that both addresses and the length are multiples of. *)
Definition copy_unit (src dest len : Z) : Z :=
  if (src mod 16 =? 0) && (dest mod 16 =? 0) && (len mod 16 =? 0) then 16
  else if (src mod 8 =? 0) && (dest mod 8 =? 0) && (len mod 8 =? 0) then 8
  else if (src mod 4 =? 0) && (dest mod 4 =? 0) && (len mod 4 =? 0) then 4
  else if (src mod 2 =? 0) && (dest mod 2 =? 0) && (len mod 2 =? 0) then 2
  else 1.

(** [copy_data(src, dest, len)]: [len / unit] units from position [from] of
    [value] to position [at_] of [target]. Raw memory: an access outside either
    buffer is undefined behaviour, which the model reports as [None]. *)
Definition copy_data (src dest : Z) (value : bytes) (from : Z) (target : bytes) (at_ len : Z) :
  option bytes :=
  let unit := copy_unit src dest len in
  let n := unit * (len / unit) in
  chunk ← slice value from (from + n);
  copy_into target at_ (at_ + n) chunk.

(** ** read *)

(** [key.splitn(2, ':').nth(1)]: what follows the first colon. *)
Fixpoint after_colon (key : bytes) : option bytes :=
  match key with
  | [] => None
  | c :: key => if bool_decide (c = Byte.x3a) then Some key else after_colon key
  end.

(** Copying the part of the slice [index] into the buffer: [value] is the
    stored slice or the array of zeros. *)
Definition read_piece (value : bytes) (index size offset : Z) (buf : bytes) (buf_offset : Z) :
  option (bytes * Z) :=
  let current_size := index * SLICE_SIZE in
  let value_offset := sat_sub offset current_size in
  let real_size := Z.min (w64 (size - current_size)) SLICE_SIZE in
  let len := Z.min (zlen buf - buf_offset) (sat_sub real_size value_offset) in
  chunk ← slice value value_offset (value_offset + len);
  buf ← copy_into buf buf_offset (buf_offset + len) chunk;
  Some (buf, buf_offset + len).

(** [let tmp = [0u8; SLICE_SIZE]]. *)
Definition tmp_slice : bytes := replicate (Z.to_nat SLICE_SIZE) Byte.x00.

(** [for i in start_num as u32..index]: [k] missing slices from [i]. *)
Fixpoint hole_loop (k : nat) (i size offset : Z) (buf : bytes) (buf_offset : Z) :
  option (bytes * Z) :=
  match k with
  | O => Some (buf, buf_offset)
  | S k =>
      '(buf, buf_offset) ← read_piece tmp_slice i size offset buf buf_offset;
      hole_loop k (i + 1) size offset buf buf_offset
  end.

(** [for data in iter]. *)
Fixpoint read_loop (pairs : list (bytes * bytes)) (size offset start_num : Z)
    (buf : bytes) (buf_offset : Z) : option (bytes * Z) :=
  match pairs with
  | [] => Some (buf, buf_offset)
  | (key, value) :: pairs =>
      index ← after_colon key;
      index ← u32_of index;
      '(start_num, buf, buf_offset) ←
        (if index =? start_num then Some (start_num, buf, buf_offset)
         else
           '(buf, buf_offset) ←
             hole_loop (Z.to_nat (index - w32 start_num)) (w32 start_num) size offset
               buf buf_offset;
           Some (index + 1, buf, buf_offset));
      '(buf, buf_offset) ← read_piece value index size offset buf buf_offset;
      if buf_offset =? zlen buf then Some (buf, buf_offset)
      else read_loop pairs size offset (start_num + 1) buf buf_offset
  end.

Definition read_bytes_tx (number : Z) (buf : bytes) (offset : Z) : Tx D (Z * bytes) :=
  bucket ← get_bucket (usize_be number);
  size ← read_usize bucket (bs "size");
  if size <=? offset then mret (0, buf)
  else
    let start_num := offset / SLICE_SIZE in
    let end_num := w64 (offset + zlen buf) / SLICE_SIZE + 1 in
    let offset := offset mod SLICE_SIZE in
    let f_end_num := size / SLICE_SIZE + 1 in
    let end_num := Z.min end_num f_end_num in
    pairs ← kv_range bucket (generate_data_key_with_number (w32 start_num))
              (generate_data_key_with_number (w32 end_num));
    '(buf, buf_offset) ← tx_unwrap (read_loop pairs size offset start_num buf 0);
    mret (buf_offset, buf).

(** The number of bytes read and the buffer after the call. *)
Definition dbfs_common_read (number : Z) (buf : bytes) (offset : Z) : Op D (Z * bytes) :=
  read_tx Question (read_bytes_tx number buf offset).

(** ** write *)

(** The slice stored for the piece [count..count+len] of [buf] at [offset]
    of the slice [num], whose old contents are [kv]. *)
Definition write_slice `{!Memory} (buf : bytes) (kv : option bytes) (num offset count len : Z) :
  option bytes :=
  match kv with
  | None =>
      copy_data (buf_ptr + count) (slice_ptr num + offset) buf count (uninit num) offset len
  | Some value =>
      ptr ← copy_data (value_ptr num) (slice_ptr num) value 0 (uninit num) 0 offset;
      ptr ← copy_data (buf_ptr + count) (slice_ptr num + offset) buf count ptr offset len;
      copy_data (value_ptr num + (offset + len)) (slice_ptr num + (offset + len)) value
        (offset + len) ptr (offset + len) (SLICE_SIZE - offset - len)
  end.

(** The [loop]: [fuel] bounds the number of slices. *)
Fixpoint write_loop `{!Memory} (fuel : nat) (bucket : bytes) (buf : bytes)
    (num offset count : Z) : Tx D Z :=
  match fuel with
  | O => tx_unwrap None
  | S fuel =>
      let key := generate_data_key_with_number (w32 num) in
      let len := Z.min (zlen buf - count) (SLICE_SIZE - offset) in
      data ←
        (if (len =? SLICE_SIZE) && (offset =? 0)
         then tx_unwrap (slice buf count (count + SLICE_SIZE))
         else kv ← get_kv bucket key; tx_unwrap (write_slice buf kv num offset count len));
      put bucket key data;;
      let count := count + len in
      if count =? zlen buf then mret count
      else write_loop fuel bucket buf (num + 1) ((offset + len) mod SLICE_SIZE) count
  end.

(** Slices of at least one byte: one round for each byte and one more is
    enough. *)
Definition write_fuel (buf : bytes) : nat := S (length buf).

Definition write_bytes_tx `{!Memory} (number : Z) (buf : bytes) (offset : Z) : Tx D Z :=
  bucket ← get_bucket (usize_be number);
  size ← read_usize bucket (bs "size");
  count ← write_loop (write_fuel buf) bucket buf (offset / SLICE_SIZE) (offset mod SLICE_SIZE) 0;
  let new_size := Z.max size (w64 (offset + count)) in
  tx_when (size <? new_size) (put bucket (bs "size") (usize_be new_size));;
  mret count.

Definition dbfs_common_write `{!Memory} (number : Z) (buf : bytes) (offset : Z) : Op D Z :=
  write_tx Question Question (write_bytes_tx number buf offset).

(** ** copy_file_range *)

Definition dbfs_common_copy_file_range `{!Memory} (uid gid src offset_src dest offset_dest len : Z)
    (ctime : DbfsTimeSpec) : Op D Z :=
  src_size ← read_tx Question
    (bucket ← get_bucket (usize_be src); read_usize bucket (bs "size"));
  let read_size := Z.min (sat_sub src_size offset_src) len in
  let buf := replicate (Z.to_nat read_size) Byte.x00 in
  '(read_size, buf) ← dbfs_common_read src buf offset_src;
  data ← op_unwrap (slice buf 0 read_size);
  write_size ← dbfs_common_write dest data offset_dest;
  write_tx Question Question
    (bucket ← get_bucket (usize_be dest);
     put bucket (bs "ctime") (time_to_be_bytes ctime);;
     put bucket (bs "mtime") (time_to_be_bytes ctime));;
  mret write_size.
End ops.

(** ** copy_data copies *)

Lemma copy_unit_divides src dest len :
  0 < copy_unit src dest len /\ len mod copy_unit src dest len = 0.
Proof.
  unfold copy_unit.
  repeat match goal with
  | |- context [if ?c then _ else _] => destruct c eqn:?
  end; zbool; split; try done. apply Z.mod_1_r.
Qed.

(** Whatever unit the addresses select, exactly [len] bytes are copied. *)
Lemma copy_data_ok src dest value from target at_ len :
  0 <= from -> 0 <= len -> from + len <= zlen value -> 0 <= at_ -> at_ + len <= zlen target ->
  copy_data src dest value from target at_ len =
  Some (splice target at_ (take (Z.to_nat len) (drop (Z.to_nat from) value))).
Proof.
  intros. unfold copy_data. destruct (copy_unit_divides src dest len) as [Hu Hm].
  set (u := copy_unit src dest len) in *. cbv zeta.
  assert (E : u * (len / u) = len) by (pose proof (Z.div_mod len u); lia).
  rewrite E, slice_ok by lia. cbn [mbind option_bind].
  replace (from + len - from) with len by lia.
  apply copy_into_ok; [done| |lia]. unfold zlen in *. lens.
Qed.

(** ** Buffers *)

(** The bytes of a node from [pos], [len] of them. *)
Definition file_bytes `{SliceConfig} (n : node) (pos len : Z) : bytes :=
  byte_at n <$> seqZ pos len.

Section bytes.
Context `{SliceConfig}.

Lemma zlen_file_bytes n pos len : 0 <= len -> zlen (file_bytes n pos len) = len.
Proof. intros. unfold file_bytes, zlen. rewrite length_fmap, length_seqZ. lia. Qed.

Lemma file_bytes_nil n pos : file_bytes n pos 0 = [].
Proof. done. Qed.

Lemma file_bytes_app n pos a b :
  0 <= a -> 0 <= b -> file_bytes n pos a ++ file_bytes n (pos + a) b = file_bytes n pos (a + b).
Proof. intros. unfold file_bytes. by rewrite <- fmap_app, <- seqZ_app. Qed.

Lemma file_bytes_lookup n pos len (i : nat) :
  Z.of_nat i < len -> file_bytes n pos len !! i = Some (byte_at n (pos + Z.of_nat i)).
Proof. intros. unfold file_bytes. by rewrite list_lookup_fmap, lookup_seqZ_lt. Qed.

Lemma slice_index i x : 0 <= x < SLICE_SIZE ->
  (i * SLICE_SIZE + x) / SLICE_SIZE = i /\ (i * SLICE_SIZE + x) mod SLICE_SIZE = x.
Proof.
  intros Hx. pose proof slice_range. split.
  - rewrite Z.div_add_l by lia. rewrite Z.div_small; lia.
  - rewrite Z.add_comm, Z.mod_add by lia. by apply Z.mod_small.
Qed.

(** A piece of a stored slice is the file's bytes there, and so is a piece of
    the zeros where no slice is stored. *)
Lemma slice_file_bytes n i v x len :
  n_slices n !! i = Some v -> zlen v = SLICE_SIZE ->
  0 <= x -> 0 <= len -> x + len <= SLICE_SIZE ->
  take (Z.to_nat len) (drop (Z.to_nat x) v) = file_bytes n (i * SLICE_SIZE + x) len.
Proof.
  intros Hi Hv Hx Hl Hs. apply list_eq. intros j. unfold zlen in *.
  destruct (decide (Z.of_nat j < len)).
  - rewrite file_bytes_lookup by done. rewrite lookup_take_lt, lookup_drop by lia.
    unfold byte_at.
    destruct (slice_index i (x + Z.of_nat j)) as [E1 E2]; [lia|].
    rewrite <- Z.add_assoc, E1, E2, Hi.
    replace (Z.to_nat x + j)%nat with (Z.to_nat (x + Z.of_nat j)) by lia.
    destruct (lookup_lt_is_Some_2 v (Z.to_nat (x + Z.of_nat j))) as [b Hb]; [lia|].
    by rewrite Hb.
  - rewrite !lookup_ge_None_2; [done| |lens].
    unfold file_bytes. lens.
Qed.

Lemma zero_file_bytes n i x len :
  n_slices n !! i = None -> 0 <= x -> 0 <= len -> x + len <= SLICE_SIZE ->
  take (Z.to_nat len) (drop (Z.to_nat x) tmp_slice) = file_bytes n (i * SLICE_SIZE + x) len.
Proof.
  intros Hi Hx Hl Hs. apply list_eq. intros j. unfold tmp_slice.
  destruct (decide (Z.of_nat j < len)).
  - rewrite file_bytes_lookup by done. rewrite lookup_take_lt, lookup_drop by lia.
    rewrite lookup_replicate_2 by lia. unfold byte_at.
    destruct (slice_index i (x + Z.of_nat j)) as [E1 _]; [lia|].
    by rewrite <- Z.add_assoc, E1, Hi.
  - rewrite !lookup_ge_None_2; [done| |lens].
    unfold file_bytes. lens.
Qed.

(** ** The range of slices *)

(** The stored slices among [lo .. lo+k], in order. *)
Definition slice_run (m : gmap Z bytes) (lo k : Z) : list (Z * bytes) :=
  omap (fun i => (i,.) <$> m !! i) (seqZ lo k).

Lemma slice_run_elem m lo k i v :
  (i, v) ∈ slice_run m lo k <-> lo <= i < lo + k /\ m !! i = Some v.
Proof.
  unfold slice_run. rewrite list_elem_of_omap. split.
  - intros (j & Hj%elem_of_seqZ & E). destruct (m !! j) as [w|] eqn:Ej; [|done].
    cbn in E. by simplify_eq.
  - intros [Hi E]. exists i. rewrite elem_of_seqZ, E. done.
Qed.

Lemma slice_run_app m lo a b :
  0 <= a -> 0 <= b -> slice_run m lo (a + b) = slice_run m lo a ++ slice_run m (lo + a) b.
Proof. intros. unfold slice_run. by rewrite seqZ_app, omap_app. Qed.

Lemma slice_run_none m lo k :
  (forall i, lo <= i < lo + k -> m !! i = None) -> slice_run m lo k = [].
Proof.
  intros Hn. destruct (slice_run m lo k) as [|[i v] l] eqn:E; [done|].
  assert (Hin : (i, v) ∈ slice_run m lo k) by (rewrite E; left).
  apply slice_run_elem in Hin as [Hi Hv]. by rewrite Hn in Hv.
Qed.

Lemma slice_run_cons m lo k v :
  0 < k -> m !! lo = Some v -> slice_run m lo k = (lo, v) :: slice_run m (lo + 1) (k - 1).
Proof.
  intros Hk Hv. unfold slice_run. rewrite seqZ_cons by done. cbn. rewrite Hv. cbn.
  by replace (Z.succ lo) with (lo + 1) by lia; replace (Z.pred k) with (k - 1) by lia.
Qed.

Lemma slice_run_lt m lo k : StronglySorted Z.lt (slice_run m lo k).*1.
Proof.
  destruct (decide (0 <= k)) as [Hk|].
  2: { unfold slice_run. by rewrite seqZ_nil by lia; constructor. }
  revert lo. pattern k. apply natlike_ind; [| |done].
  - intros lo. constructor.
  - clear k Hk. intros k Hk IH lo. unfold slice_run. rewrite seqZ_cons by lia.
    cbn. rewrite Z.pred_succ.
    change (omap _ (seqZ (Z.succ lo) k)) with (slice_run m (Z.succ lo) k).
    destruct (m !! lo) as [v|]; cbn; [|apply IH]. constructor; [apply IH|].
    apply Forall_forall. intros i ([j w] & -> & Hj)%list_elem_of_fmap.
    apply slice_run_elem in Hj. cbn. lia.
Qed.
End bytes.

Section range.
Context {D : Type} `{JammDbLaws D}.
Implicit Types (d : D) (s : fs) (n : node).

(** Two lists of pairs with the same elements and ascending keys are equal. *)
Lemma sorted_pairs_eq (l1 l2 : list (bytes * bytes)) :
  StronglySorted key_lt l1.*1 -> StronglySorted key_lt l2.*1 ->
  (forall x, x ∈ l1 <-> x ∈ l2) -> l1 = l2.
Proof.
  intros H1 H2 He.
  assert (Hirr : forall k, ~ key_lt k k) by (intros k; unfold key_lt; by rewrite blt_irrefl).
  assert (HS : forall l : list (bytes * bytes), StronglySorted key_lt l.*1 ->
    StronglySorted (fun x y => key_lt x.1 y.1) l /\ NoDup l).
  { clear -Hirr. intros l. induction l as [|x l IH]; cbn; intros Hs.
    - split; constructor.
    - apply StronglySorted_inv in Hs as [Hs Hx]. destruct (IH Hs) as [I1 I2].
      rewrite Forall_fmap in Hx. split; [by constructor|]. constructor; [|done].
      intros Hin. rewrite Forall_forall in Hx. by apply (Hirr x.1), (Hx x). }
  destruct (HS _ H1) as [S1 N1], (HS _ H2) as [S2 N2].
  apply (StronglySorted_unique_strong (fun x y => key_lt x.1 y.1));
    [|done|done|by apply NoDup_Permutation].
  intros x y _ _ Hxy Hyx. destruct (Hirr x.1). by apply (blt_trans _ _ _ Hxy).
Qed.

Lemma slice_keys_sorted (l : list (Z * bytes)) :
  Forall (fun kv => is_u32 kv.1) l -> StronglySorted Z.lt l.*1 ->
  StronglySorted key_lt (prod_map generate_data_key_with_number id <$> l).*1.
Proof.
  induction l as [|x l IH]; cbn; intros Hu Hs; [constructor|].
  apply Forall_cons in Hu as [Hx Hu]. apply StronglySorted_inv in Hs as [Hs Hlt].
  constructor; [by apply IH|]. rewrite !Forall_fmap in *. rewrite Forall_forall in *.
  intros y Hy.
  change (blt (generate_data_key_with_number x.1) (generate_data_key_with_number y.1) = true).
  rewrite slice_key_blt; [|done|by apply Hu].
  by apply Z.ltb_lt, Hlt.
Qed.

(** What lies between two slice keys in the bucket of a node: its slices. *)
Lemma slice_key_between lo hi k :
  ble (generate_data_key_with_number lo) k = true ->
  blt k (generate_data_key_with_number hi) = true ->
  forall n v, node_val n (parse_key k) = Some v -> exists i, parse_key k = KSlice i.
Proof.
  intros H1 H2 n v. unfold generate_data_key_with_number in *.
  destruct (ble_blt_prefix _ _ _ _ H1 H2) as [c ->]. unfold parse_key.
  rewrite list_find_key_None.
  - rewrite starts_with_app. change (starts_with _ (bs "data:")) with false.
    cbn [andb]. destruct (_ =? _)%nat; [by eexists|]. done.
  - intros κ Hκ. unfold fixed_keys in Hκ. set_unfold in Hκ.
    by destruct_or! Hκ; subst.
Qed.

Lemma range_pairs d s ino n lo hi :
  represents d s -> f_nodes s !! ino = Some n -> is_u32 lo -> is_u32 hi ->
  db_range d (usize_be ino) (generate_data_key_with_number lo) (generate_data_key_with_number hi) =
  prod_map generate_data_key_with_number id <$> slice_run (n_slices n) lo (hi - lo).
Proof.
  intros Hr Hn Hlo Hhi. pose proof (rep_ok _ _ _ _ Hr Hn) as Hok.
  pose proof (rep_node _ _ Hr _ _ Hn) as (_ & [_ Hat] & _).
  assert (Hu : forall i v, (i, v) ∈ slice_run (n_slices n) lo (hi - lo) -> is_u32 i).
  { intros i v [_ Hi]%slice_run_elem. by eapply ok_slices. }
  apply sorted_pairs_eq.
  - rewrite db_range_spec. pose proof (db_pairs_sorted d (usize_be ino)) as Hs.
    induction (db_pairs d (usize_be ino)) as [|x l IH]; [constructor|].
    cbn in Hs. apply StronglySorted_inv in Hs as [Hs Hx].
    rewrite filter_cons. case_decide; [|by apply IH]. cbn. constructor; [by apply IH|].
    rewrite Forall_fmap in Hx |- *. rewrite Forall_forall in Hx |- *.
    intros y Hy. apply Hx. by apply list_elem_of_filter in Hy as [_ ?].
  - apply slice_keys_sorted; [|apply slice_run_lt].
    apply Forall_forall. intros [i v]. apply Hu.
  - intros [k v]. rewrite db_range_spec, list_elem_of_filter, db_pairs_elem, Hat, list_elem_of_fmap.
    cbn. split.
    + intros [[H1 H2] Hv]. destruct (slice_key_between _ _ _ H1 H2 _ _ Hv) as [i Hi].
      rewrite Hi in Hv. cbn in Hv. pose proof (ok_slices _ Hok _ _ Hv) as Hui.
      apply parse_key_iff in Hi; [|done]. subst k. cbn [key_bytes] in *.
      exists (i, v). split; [done|]. apply slice_run_elem. unfold ble in H1.
      rewrite slice_key_blt in H1, H2 by done. zbool. split; [lia|done].
    + intros ([i w] & [= -> ->] & Hin). pose proof (Hu _ _ Hin) as Hui.
      apply slice_run_elem in Hin as [Hi Hv]. unfold ble. rewrite !slice_key_blt by done.
      rewrite (Zltb_t i hi), (Zltb_f i lo) by lia.
      split; [done|]. change (generate_data_key_with_number i) with (key_bytes (KSlice i)).
      by rewrite parse_key_bytes.
Qed.
End range.

(** ** The read loop *)

Section read.
Context `{SliceConfig}.
Variables (n : node) (size o i0 : Z) (buf : bytes).
Hypothesis Hslices : slices_ok n.
Hypothesis Hsize : is_u64 size.
Hypothesis Ho : 0 <= o < SLICE_SIZE.
Hypothesis Hi0 : 0 <= i0.

(** The position of the first byte read: the offset within a slice is used in
    the slice [0] only. *)
Definition read_base : Z := i0 * SLICE_SIZE + sat_sub o (i0 * SLICE_SIZE).

Hypothesis Hbase : read_base <= size.

(** How many bytes have been read when the slices before [i] have been
    walked, and the buffer then. *)
Definition read_upto (i : Z) : Z :=
  Z.max 0 (Z.min (zlen buf) (Z.min size (i * SLICE_SIZE) - read_base)).
Definition read_buf (i : Z) : bytes := splice buf 0 (file_bytes n read_base (read_upto i)).

Lemma read_upto_range i : 0 <= read_upto i <= zlen buf.
Proof. unfold read_upto. pose proof (zlen_nonneg buf). lia. Qed.

Lemma zlen_read_buf i : zlen (read_buf i) = zlen buf.
Proof.
  pose proof (read_upto_range i). unfold read_buf.
  apply splice_len; [done|]. rewrite zlen_file_bytes; lia.
Qed.

Lemma read_upto_first : read_upto i0 = 0.
Proof.
  unfold read_upto, read_base, sat_sub. pose proof (zlen_nonneg buf). lia.
Qed.

Lemma read_buf_first : read_buf i0 = buf.
Proof. unfold read_buf. rewrite read_upto_first, file_bytes_nil. apply splice_nil. Qed.

(** A slice whose bytes are those of the file. *)
Definition slice_shows (v : bytes) (i : Z) : Prop :=
  zlen v = SLICE_SIZE /\
  forall x len, 0 <= x -> 0 <= len -> x + len <= SLICE_SIZE ->
    take (Z.to_nat len) (drop (Z.to_nat x) v) = file_bytes n (i * SLICE_SIZE + x) len.

Lemma stored_shows v i : n_slices n !! i = Some v -> slice_shows v i.
Proof.
  intros Hv. pose proof (Hslices _ _ Hv). split; [done|]. intros. by apply slice_file_bytes.
Qed.

Lemma hole_shows i : n_slices n !! i = None -> slice_shows tmp_slice i.
Proof.
  intros Hv. split.
  - pose proof slice_range. unfold tmp_slice, zlen. lens.
  - intros. by apply zero_file_bytes.
Qed.

Lemma read_piece_step v i :
  slice_shows v i -> i0 <= i -> i * SLICE_SIZE <= size ->
  read_piece v i size o (read_buf i) (read_upto i) = Some (read_buf (i + 1), read_upto (i + 1)).
Proof.
  intros [Hv Hsh] Hi His. unfold read_piece. rewrite zlen_read_buf.
  pose proof slice_range as HS. pose proof (zlen_nonneg buf) as HL. unfold is_u64 in Hsize.
  assert (Hik : 0 <= i * SLICE_SIZE) by nia.
  rewrite w64_small by (unfold is_u64; lia).
  assert (Hpos : i * SLICE_SIZE + sat_sub o (i * SLICE_SIZE) = Z.max read_base (i * SLICE_SIZE)).
  { unfold read_base, sat_sub. destruct (Z.eq_dec i i0) as [->|Hne]; [lia|]. nia. }
  set (voff := sat_sub o (i * SLICE_SIZE)) in *.
  assert (Hvoff : 0 <= voff <= o) by (unfold voff, sat_sub; lia).
  set (len := Z.min (zlen buf - read_upto i) _).
  assert (Hlen : 0 <= len /\ voff + len <= SLICE_SIZE /\ read_upto i + len = read_upto (i + 1) /\
    (0 < len -> read_base + read_upto i = i * SLICE_SIZE + voff)).
  { subst len. unfold sat_sub, read_upto.
    replace ((i + 1) * SLICE_SIZE) with (i * SLICE_SIZE + SLICE_SIZE) by lia. lia. }
  destruct Hlen as (H0 & Hfit & Hsum & Hat). pose proof (read_upto_range i).
  pose proof (read_upto_range (i + 1)).
  rewrite slice_ok by lia. cbn [mbind option_bind].
  replace (voff + len - voff) with len by lia. rewrite Hsh by lia.
  rewrite copy_into_ok; [|lia|by rewrite zlen_file_bytes by lia|rewrite zlen_read_buf; lia].
  cbn [mbind option_bind]. rewrite Hsum. do 2 f_equal. unfold read_buf.
  rewrite splice_app; [|done|by rewrite zlen_file_bytes by lia|rewrite zlen_file_bytes; lia].
  f_equal. rewrite <- Hsum, <- file_bytes_app by lia. f_equal.
  destruct (Z.eq_dec len 0) as [->|]; [done|]. by rewrite Hat by lia.
Qed.

Lemma hole_loop_step k i :
  (forall j, i <= j < i + Z.of_nat k -> n_slices n !! j = None) -> i0 <= i ->
  (i + Z.of_nat k) * SLICE_SIZE <= size + SLICE_SIZE ->
  hole_loop k i size o (read_buf i) (read_upto i) =
  Some (read_buf (i + Z.of_nat k), read_upto (i + Z.of_nat k)).
Proof.
  pose proof slice_range. revert i. induction k as [|k IH]; intros i Hn Hi Hk.
  { cbn [hole_loop]. by rewrite Z.add_0_r. }
  cbn [hole_loop]. rewrite read_piece_step; [|apply hole_shows, Hn; lia|done|nia].
  cbn [mbind option_bind]. rewrite IH; [|intros; apply Hn; lia|lia|nia].
  by replace (i + 1 + Z.of_nat k) with (i + Z.of_nat (S k)) by lia.
Qed.

(** One round of the loop over a stored slice [i] that follows [start_num]. *)
Lemma read_loop_cons v i start_num pairs :
  n_slices n !! i = Some v -> is_u32 i -> is_u32 start_num -> i0 <= i -> i * SLICE_SIZE <= size ->
  (start_num = i + 1 \/ i0 <= start_num <= i /\
    forall j, start_num <= j < i -> n_slices n !! j = None) ->
  let st := if start_num =? i + 1 then i else start_num in
  read_loop ((generate_data_key_with_number i, v) :: pairs) size o start_num (read_buf st) (read_upto st) =
  if read_upto (i + 1) =? zlen buf then Some (read_buf (i + 1), read_upto (i + 1))
  else read_loop pairs size o (if start_num =? i then i + 1 else i + 2)
         (read_buf (i + 1)) (read_upto (i + 1)).
Proof.
  intros Hv Hi Hst Hi0i His Hcase st. pose proof slice_range. unfold is_u32 in *.
  cbn [read_loop]. change (after_colon _) with (Some (u32_be i)). cbn [mbind option_bind].
  rewrite u32_of_be by done. cbn [mbind option_bind].
  assert (Hgo : forall num,
    (if read_upto (i + 1) =? zlen (read_buf (i + 1))
     then Some (read_buf (i + 1), read_upto (i + 1))
     else read_loop pairs size o num (read_buf (i + 1)) (read_upto (i + 1))) =
    (if read_upto (i + 1) =? zlen buf then Some (read_buf (i + 1), read_upto (i + 1))
     else read_loop pairs size o num (read_buf (i + 1)) (read_upto (i + 1)))).
  { intros num. by rewrite zlen_read_buf. }
  pose proof (read_piece_step v i (stored_shows _ _ Hv) Hi0i His) as Hp.
  rewrite (Z.eqb_sym i start_num). destruct (Z.eqb_spec start_num i) as [->|Hne].
  - subst st. rewrite Zeqb_ne by lia. cbn [mbind option_bind]. rewrite Hp. cbn [option_bind].
    apply Hgo.
  - rewrite w32_small by done. subst st. destruct (Z.eqb_spec start_num (i + 1)) as [->|Hne2].
    + replace (Z.to_nat (i - (i + 1))) with 0%nat by lia. cbn [hole_loop mbind option_bind].
      rewrite Hp. cbn [mbind option_bind]. rewrite <- Z.add_assoc. apply Hgo.
    + destruct Hcase as [|[Hle Hnone]]; [done|].
      rewrite hole_loop_step; [|intros j Hj; apply Hnone; lia|lia|nia]. cbn [mbind option_bind].
      replace (start_num + Z.of_nat (Z.to_nat (i - start_num))) with i by lia.
      rewrite Hp. cbn [mbind option_bind]. rewrite <- Z.add_assoc. apply Hgo.
Qed.

(** Stored slices [i .. i+k], none of them missing. *)
Lemma read_loop_run k i start_num :
  (forall j, i <= j < i + Z.of_nat (S k) -> is_Some (n_slices n !! j)) ->
  0 <= i -> i + Z.of_nat (S k) < 2 ^ 32 -> 0 <= start_num -> i0 <= i ->
  (i + Z.of_nat k) * SLICE_SIZE <= size ->
  (start_num = i + 1 \/ i0 <= start_num <= i /\
    forall j, start_num <= j < i -> n_slices n !! j = None) ->
  let st := if start_num =? i + 1 then i else start_num in
  read_loop (prod_map generate_data_key_with_number id <$>
      slice_run (n_slices n) i (Z.of_nat (S k))) size o start_num (read_buf st) (read_upto st) =
  Some (read_buf (i + Z.of_nat (S k)), read_upto (i + Z.of_nat (S k))).
Proof.
  pose proof slice_range as HS. revert i start_num. induction k as [|k IH];
    intros i start_num Hsome Hi Hu Hst Hi0i Hk Hcase st.
  all: destruct (Hsome i ltac:(lia)) as [v Hv]; rewrite (slice_run_cons _ _ _ v) by (done || lia).
  all: rewrite fmap_cons; cbn [prod_map id fst snd].
  all: unfold st; rewrite read_loop_cons;
    [|done|unfold is_u32; lia|unfold is_u32; lia|done|nia|done].
  - rewrite slice_run_none by lia. cbn [fmap list_fmap read_loop].
    change (Z.of_nat 1) with 1. by destruct (_ =? zlen buf).
  - replace (Z.of_nat (S (S k)) - 1) with (Z.of_nat (S k)) by lia.
    destruct (Z.eqb_spec (read_upto (i + 1)) (zlen buf)) as [Hfull|Hpart].
    + assert (Hsame : read_upto (i + Z.of_nat (S (S k))) = read_upto (i + 1)).
      { pose proof (read_upto_range (i + Z.of_nat (S (S k)))). rewrite Hfull.
        assert ((i + 1) * SLICE_SIZE <= (i + Z.of_nat (S (S k))) * SLICE_SIZE) by nia.
        unfold read_upto in *. lia. }
      unfold read_buf. by rewrite Hsame.
    + assert (Hnext : forall num, num = i + 1 \/ num = i + 2 ->
        read_loop (prod_map generate_data_key_with_number id <$>
          slice_run (n_slices n) (i + 1) (Z.of_nat (S k))) size o num
          (read_buf (i + 1)) (read_upto (i + 1)) =
        Some (read_buf (i + Z.of_nat (S (S k))), read_upto (i + Z.of_nat (S (S k))))).
      { intros num Hnum. pose proof (IH (i + 1) num) as HIH. cbv zeta in HIH.
        replace (if num =? i + 1 + 1 then i + 1 else num) with (i + 1) in HIH
          by (destruct (Z.eqb_spec num (i + 1 + 1)); lia).
        rewrite HIH; [by replace (i + 1 + Z.of_nat (S k)) with (i + Z.of_nat (S (S k))) by lia|
          intros j Hj; apply Hsome; lia|lia..|].
        destruct Hnum as [->| ->]; [|left; lia]. right. split; [lia|]. intros j Hj. lia. }
      destruct (Z.eqb_spec start_num i) as [->|Hne]; apply Hnext; lia.
Qed.

(** The loop stops when the buffer is full. *)
Lemma read_loop_app l1 l2 sz off num b k b' :
  l1 <> [] -> read_loop l1 sz off num b k = Some (b', zlen b') ->
  read_loop (l1 ++ l2) sz off num b k = Some (b', zlen b').
Proof.
  revert num b k. induction l1 as [|[key value] l1 IH]; intros num b k; [done|]. intros _.
  cbn [app read_loop]. destruct (after_colon key) as [idx|]; [|done]. cbn [mbind option_bind].
  destruct (u32_of idx) as [index|]; [|done]. cbn [mbind option_bind].
  destruct (if index =? num then _ else _) as [[[num' b1] k1]|]; [|done]. cbn [mbind option_bind].
  destruct (read_piece _ _ _ _ b1 k1) as [[b2 k2]|]; [|done]. cbn [mbind option_bind].
  destruct (Z.eqb_spec k2 (zlen b2)) as [->|Hne]; [done|].
  destruct l1 as [|x l1]; [|by apply IH].
  cbn [read_loop]. intros [= -> ->]. done.
Qed.
End read.

Section facts.
Context `{SliceConfig} {D : Type} `{JammDb D, !JammDbLaws D, !Reliable D}.
Implicit Types (d : D) (w : world D) (s : fs) (n : node).

(** Where a read at [offset] starts. *)
Definition read_start (offset : Z) : Z := read_base (offset mod SLICE_SIZE) (offset / SLICE_SIZE).

Lemma read_start_le offset : 0 <= offset -> 0 <= read_start offset <= offset.
Proof.
  intros Ho. pose proof slice_range. unfold read_start, read_base, sat_sub.
  pose proof (slice_div offset). pose proof (slice_pos offset).
  assert (0 <= offset / SLICE_SIZE) by (apply Z.div_pos; lia). nia.
Qed.

(** In the first slice and at the boundaries of slices the two agree. *)
Lemma read_start_ok offset :
  0 <= offset -> offset < SLICE_SIZE \/ offset mod SLICE_SIZE = 0 -> read_start offset = offset.
Proof.
  intros Ho Hc. pose proof slice_range. unfold read_start, read_base, sat_sub.
  pose proof (slice_div offset). pose proof (slice_pos offset). destruct Hc as [Hc|Hc].
  - rewrite Z.div_small, Z.mod_small by lia. lia.
  - assert (0 <= offset / SLICE_SIZE) by (apply Z.div_pos; lia). nia.
Qed.

Lemma read_start_unaligned offset :
  SLICE_SIZE <= offset -> read_start offset = offset / SLICE_SIZE * SLICE_SIZE.
Proof.
  intros Ho. pose proof slice_range. unfold read_start, read_base, sat_sub.
  pose proof (slice_pos offset).
  assert (1 <= offset / SLICE_SIZE) by (apply Z.div_le_lower_bound; lia). nia.
Qed.

(** The slices a read of [len] bytes at [offset] needs: those before [h] may
    be missing, the others hold all the bytes there are. *)
Definition readable (n : node) (offset len h : Z) : Prop :=
  offset / SLICE_SIZE <= h /\
  h * SLICE_SIZE < Z.min (n_size n) (read_start offset + len) /\
  (forall i, offset / SLICE_SIZE <= i < h -> n_slices n !! i = None) /\
  (forall i, h <= i -> i * SLICE_SIZE < Z.min (n_size n) (read_start offset + len) ->
    is_Some (n_slices n !! i)).

Lemma ceil_spec a : 0 < a ->
  let j := (a - 1) / SLICE_SIZE + 1 in
  a <= j * SLICE_SIZE /\ (forall i, i < j <-> i * SLICE_SIZE < a).
Proof.
  intros Ha j. pose proof slice_range. pose proof (slice_div (a - 1)).
  pose proof (slice_pos (a - 1)). subst j. split; [nia|]. intros i. split; nia.
Qed.

End facts.

(** The loop over the whole range of keys. *)
Section window.
Context `{SliceConfig}.
Variables (n : node) (offset : Z) (buf : bytes) (h end_num : Z).
Hypothesis Hslices : slices_ok n.
Hypothesis Hsize : is_u64 (n_size n).
Hypothesis Hoffset : 0 <= offset < n_size n.
Hypothesis Hreadable : readable n offset (zlen buf) h.
Hypothesis Hend :
  end_num = Z.min ((offset + zlen buf) / SLICE_SIZE + 1) (n_size n / SLICE_SIZE + 1).
Hypothesis Hend32 : end_num < 2 ^ 32.

Let o := offset mod SLICE_SIZE.
Let i0 := offset / SLICE_SIZE.
Let lim := Z.min (n_size n) (read_start offset + zlen buf).
Let len := Z.min (zlen buf) (n_size n - read_start offset).
Let j := (lim - 1) / SLICE_SIZE + 1.

Lemma window_start : 0 <= i0 <= h /\ 0 <= read_start offset <= offset /\ 0 <= len.
Proof.
  destruct Hreadable as (Hh & _). pose proof slice_range. pose proof (zlen_nonneg buf).
  pose proof (read_start_le offset).
  assert (0 <= i0) by (apply Z.div_pos; lia). unfold len. lia.
Qed.

(** [j] slices hold the bytes there are. *)
Lemma window_slices :
  lim <= j * SLICE_SIZE /\ (forall i, i < j <-> i * SLICE_SIZE < lim) /\ h < j.
Proof.
  destruct Hreadable as (Hh & Hlt & _). pose proof window_start. pose proof slice_range.
  assert (0 <= h * SLICE_SIZE) by nia.
  destruct (ceil_spec lim) as [Hc1 Hc2]; [unfold lim; lia|]. split; [done|]. split; [done|].
  by apply Hc2.
Qed.

Lemma window_end : j <= end_num /\ (end_num - 1) * SLICE_SIZE <= n_size n.
Proof.
  destruct window_slices as (_ & Hj & _). pose proof window_start. pose proof slice_range.
  pose proof (zlen_nonneg buf) as HL.
  assert (Hdiv : forall x, 0 <= x -> x / SLICE_SIZE * SLICE_SIZE <= x < (x / SLICE_SIZE + 1) * SLICE_SIZE).
  { intros x Hx. pose proof (slice_div x). pose proof (slice_pos x). nia. }
  pose proof (Hdiv (offset + zlen buf)) as He1. pose proof (Hdiv (n_size n)) as He2.
  split; [|nia]. assert (HX : ~ end_num < j); [|lia]. rewrite Hj, Hend. unfold lim.
  destruct (Z.min_spec ((offset + zlen buf) / SLICE_SIZE + 1) (n_size n / SLICE_SIZE + 1))
    as [[_ ->]|[_ ->]]; lia.
Qed.

Lemma window_base : read_base o i0 <= n_size n.
Proof. change (read_start offset <= n_size n). pose proof window_start. lia. Qed.

(** From slice [j] on, all the bytes there are have been read. *)
Lemma window_done k :
  j <= k -> read_upto (n_size n) o i0 buf k = len /\
  read_buf n (n_size n) o i0 buf k = splice buf 0 (file_bytes n (read_start offset) len).
Proof.
  intros Hk. destruct window_slices as (Hlim & _). pose proof window_start. pose proof slice_range.
  assert (HU : read_upto (n_size n) o i0 buf k = len).
  { unfold read_upto. change (read_base o i0) with (read_start offset).
    assert (lim <= k * SLICE_SIZE) by nia. unfold lim, len in *. lia. }
  split; [done|]. unfold read_buf. by rewrite HU.
Qed.

(** The stored slices from [h] to [k], none missing. *)
Lemma window_run k :
  j <= k -> (forall i, h <= i < k -> is_Some (n_slices n !! i)) ->
  k < 2 ^ 32 -> (k - 1) * SLICE_SIZE <= n_size n ->
  read_loop (prod_map generate_data_key_with_number id <$> slice_run (n_slices n) h (k - h))
    (n_size n) o i0 buf 0 = Some (splice buf 0 (file_bytes n (read_start offset) len), len).
Proof.
  intros Hk Hs Hk32 Hks. destruct Hreadable as (Hh & _ & Hnone & _).
  destruct window_slices as (_ & _ & Hhj). pose proof window_start as (Hi0 & _).
  pose proof (read_loop_run n (n_size n) o i0 buf Hslices Hsize (slice_pos offset)
    (proj1 Hi0) window_base (Z.to_nat (k - h - 1)) h i0) as HR. cbv zeta in HR.
  replace (Z.of_nat (S (Z.to_nat (k - h - 1)))) with (k - h) in HR by lia.
  destruct (window_done k Hk) as [HU HB].
  rewrite (Zeqb_ne i0 (h + 1)), read_upto_first, read_buf_first in HR by (done || lia).
  replace (h + (k - h)) with k in HR by lia. rewrite HU, HB in HR.
  apply HR; [intros i Hi; apply Hs; lia|lia..| |].
  - by replace (h + Z.of_nat (Z.to_nat (k - h - 1))) with (k - 1) by lia.
  - right. split; [lia|]. intros i Hi. apply Hnone. unfold i0 in *. lia.
Qed.

Lemma read_range :
  read_loop (prod_map generate_data_key_with_number id <$> slice_run (n_slices n) i0 (end_num - i0))
    (n_size n) o i0 buf 0 = Some (splice buf 0 (file_bytes n (read_start offset) len), len).
Proof.
  destruct Hreadable as (Hh & _ & Hnone & Hsome). destruct window_slices as (Hlim & Hj & Hhj).
  destruct window_end as [Hje Hes]. pose proof window_start as (Hi0 & Hrs & Hlen).
  pose proof slice_range. fold i0 in Hnone, Hh.
  assert (Hupto : forall i, h <= i < j -> is_Some (n_slices n !! i)).
  { intros i Hi. apply Hsome; [lia|]. apply Hj. lia. }
  assert (Hj1 : (j - 1) * SLICE_SIZE < lim) by (apply Hj; lia).
  assert (Hln : lim <= n_size n) by (unfold lim; lia).
  replace (end_num - i0) with ((h - i0) + ((j - h) + (end_num - j))) by lia.
  rewrite slice_run_app by lia. rewrite slice_run_none by (intros i Hi; apply Hnone; lia).
  cbn [app]. replace (i0 + (h - i0)) with h by lia.
  destruct (Z.eq_dec len (zlen buf)) as [Hfull|Hshort].
  - rewrite slice_run_app, fmap_app by lia.
    set (res := splice buf 0 (file_bytes n (read_start offset) len)) in *.
    assert (Hz : zlen res = len).
    { unfold res. rewrite splice_len; [done|lia|rewrite zlen_file_bytes; lia]. }
    replace (Some (res, len)) with (Some (res, zlen res)) by (by rewrite Hz).
    apply read_loop_app; [|rewrite Hz; apply window_run; [lia|done|lia|lia]].
    destruct (Hupto h) as [v Hv]; [lia|]. by rewrite (slice_run_cons _ _ _ v) by (done || lia).
  - (* the file ends inside the buffer: at most the slice [j] is left, at its end *)
    assert (Hl : lim = n_size n) by (unfold lim, len in *; lia).
    destruct (Z.eq_dec end_num j) as [Ee|Hmore].
    { rewrite Ee, Z.sub_diag, Z.add_0_r. apply window_run; [lia|done|lia|lia]. }
    assert (Hej : end_num = j + 1) by nia. rewrite Hej.
    destruct (n_slices n !! j) as [v|] eqn:Ev.
    + replace (j - h + (j + 1 - j)) with (j + 1 - h) by lia.
      apply window_run; [lia| |lia|lia]. intros i Hi.
      destruct (Z.eq_dec i j) as [->|]; [by eexists|]. apply Hupto. lia.
    + rewrite slice_run_app by lia. rewrite (slice_run_none _ (h + (j - h))).
      2: { intros i Hi. by replace i with j by lia. }
      rewrite app_nil_r. apply window_run; [lia|done|lia|lia].
Qed.
End window.

Section read_facts.
Context `{SliceConfig} {D : Type} `{JammDb D, !JammDbLaws D, !Reliable D}.
Implicit Types (d : D) (w : world D) (s : fs) (n : node).

(** What a read sees of the database. *)
Lemma read_bytes_tx_runs d s ino n buf offset :
  represents d s -> f_nodes s !! ino = Some n -> is_u64 (offset + zlen buf) -> 0 <= offset ->
  n_size n / SLICE_SIZE + 1 < 2 ^ 32 ->
  read_bytes_tx ino buf offset d =
  if n_size n <=? offset then Ok ((0, buf), d)
  else
    let end_num := Z.min ((offset + zlen buf) / SLICE_SIZE + 1) (n_size n / SLICE_SIZE + 1) in
    match read_loop (prod_map generate_data_key_with_number id <$>
              slice_run (n_slices n) (offset / SLICE_SIZE) (end_num - offset / SLICE_SIZE))
            (n_size n) (offset mod SLICE_SIZE) (offset / SLICE_SIZE) buf 0 with
    | Some (buf', k) => Ok ((k, buf'), d)
    | None => Panic
    end.
Proof.
  intros Hr Hn Hu Ho Hs. pose proof (rep_ok _ _ _ _ Hr Hn) as Hok.
  pose proof slice_range. unfold read_bytes_tx. erewrite tx_bind_ok by (apply get_bucket_ok; by eapply rep_has).
  cbv beta. erewrite tx_bind_ok.
  2: { eapply read_field_ok; [exact (rep_get _ _ _ _ KSize Hr Hn I)|].
       apply usize_of_be, (ok_size _ Hok). }
  cbv beta. destruct (Z.leb_spec (n_size n) offset) as [|Hlt]; [done|].
  rewrite (w64_small (offset + zlen buf)) by done. cbv zeta.
  set (end_num := Z.min _ _). pose proof (zlen_nonneg buf).
  assert (0 <= offset / SLICE_SIZE <= n_size n / SLICE_SIZE).
  { split; [apply Z.div_pos; lia|apply Z.div_le_mono; lia]. }
  assert (0 <= (offset + zlen buf) / SLICE_SIZE) by (apply Z.div_pos; lia).
  rewrite !w32_small by (unfold is_u32; lia).
  erewrite tx_bind_ok by reflexivity. cbv beta.
  erewrite range_pairs by (done || unfold is_u32; lia).
  unfold mbind, tx_bind, tx_unwrap. by destruct (read_loop _ _ _ _ _ _) as [[??]|].
Qed.

Lemma read_runs_tx w ino buf offset x :
  read_bytes_tx ino buf offset (w_db w) = Ok (x, w_db w) ->
  dbfs_common_read ino buf offset w = (Ok x, w).
Proof. apply read_tx_ok. Qed.

(** What is read of a readable window. *)
Lemma read_window w s ino n buf offset h :
  represents (w_db w) s -> f_nodes s !! ino = Some n -> slices_ok n ->
  is_u64 (offset + zlen buf) -> 0 <= offset < n_size n -> n_size n / SLICE_SIZE + 1 < 2 ^ 32 ->
  readable n offset (zlen buf) h ->
  let len := Z.min (zlen buf) (n_size n - read_start offset) in
  dbfs_common_read ino buf offset w =
  (Ok (len, splice buf 0 (file_bytes n (read_start offset) len)), w).
Proof.
  intros Hr Hn Hsl Hu Ho Hs Hrd len. apply read_runs_tx.
  rewrite (read_bytes_tx_runs _ s _ n) by (done || lia). rewrite Zleb_f by lia. cbv zeta.
  by erewrite read_range by (done || apply (ok_size _ (rep_ok _ _ _ _ Hr Hn)) || lia).
Qed.

Lemma read_past_end w s ino n buf offset :
  represents (w_db w) s -> f_nodes s !! ino = Some n -> is_u64 (offset + zlen buf) ->
  n_size n <= offset -> n_size n / SLICE_SIZE + 1 < 2 ^ 32 ->
  dbfs_common_read ino buf offset w = (Ok (0, buf), w).
Proof.
  intros Hr Hn Hu Ho Hs. pose proof (ok_size _ (rep_ok _ _ _ _ Hr Hn)) as [? _].
  apply read_runs_tx. rewrite (read_bytes_tx_runs _ s _ n) by (done || lia).
  by rewrite Zleb_t by lia.
Qed.

(** A hole that reaches to the end of the window. *)
Lemma read_hole w s ino n buf offset :
  represents (w_db w) s -> f_nodes s !! ino = Some n ->
  is_u64 (offset + zlen buf) -> 0 <= offset < n_size n -> n_size n / SLICE_SIZE + 1 < 2 ^ 32 ->
  (forall i, offset <= (i + 1) * SLICE_SIZE -> i * SLICE_SIZE <= offset + zlen buf ->
    n_slices n !! i = None) ->
  dbfs_common_read ino buf offset w = (Ok (0, buf), w).
Proof.
  intros Hr Hn Hu Ho Hs Hnone. pose proof slice_range. apply read_runs_tx.
  rewrite (read_bytes_tx_runs _ s _ n) by (done || lia). rewrite Zleb_f by lia. cbv zeta.
  rewrite slice_run_none; [done|]. intros i Hi. apply Hnone.
  - pose proof (slice_div offset). pose proof (slice_pos offset). nia.
  - pose proof (slice_div (offset + zlen buf)). pose proof (slice_pos (offset + zlen buf)). nia.
Qed.

(** C8: What a read returns, whatever the offset. With the slices of the window
    stored (or missing from its start only), [dbfs_common_read] fills the
    buffer with the bytes of the file from [read_start offset] on, as many as
    the buffer and the file have, returns their number and leaves the rest of
    the buffer and the world alone. [read_start offset] is the offset itself
    when it lies in the first slice or at the start of a slice, and else the
    start of the slice it lies in: the bytes are then not those asked for. At
    or past the end of the file nothing is read, and neither where no slice of
    the window is stored. *)
Theorem read_contents w s ino n buf offset :
  represents (w_db w) s -> f_nodes s !! ino = Some n -> slices_ok n ->
  is_u64 (offset + zlen buf) -> 0 <= offset -> n_size n / SLICE_SIZE + 1 < 2 ^ 32 ->
  (n_size n <= offset -> dbfs_common_read ino buf offset w = (Ok (0, buf), w)) /\
  (forall h, offset < n_size n -> readable n offset (zlen buf) h ->
    exists len buf', len = Z.min (zlen buf) (n_size n - read_start offset) /\
      dbfs_common_read ino buf offset w = (Ok (len, buf'), w) /\ zlen buf' = zlen buf /\
      (forall i : nat, Z.of_nat i < len ->
        buf' !! i = Some (byte_at n (read_start offset + Z.of_nat i))) /\
      (forall i : nat, len <= Z.of_nat i -> buf' !! i = buf !! i)) /\
  (offset < n_size n ->
    (forall i, offset <= (i + 1) * SLICE_SIZE -> i * SLICE_SIZE <= offset + zlen buf ->
      n_slices n !! i = None) ->
    dbfs_common_read ino buf offset w = (Ok (0, buf), w)) /\
  (offset < SLICE_SIZE \/ offset mod SLICE_SIZE = 0 -> read_start offset = offset) /\
  (SLICE_SIZE <= offset -> read_start offset = offset - offset mod SLICE_SIZE).
Proof.
  intros Hr Hn Hsl Hu Ho Hs. pose proof (zlen_nonneg buf). split_and!.
  - intros. by eapply read_past_end.
  - intros h Hlt Hrd. pose proof (read_start_le offset Ho).
    pose proof (read_window w s ino n buf offset h Hr Hn Hsl Hu ltac:(lia) Hs Hrd) as HW.
    cbv zeta in HW. set (st := read_start offset) in *.
    set (len := Z.min (zlen buf) (n_size n - st)) in *.
    assert (Hlen : zlen (file_bytes n st len) = len) by (apply zlen_file_bytes; lia).
    exists len, (splice buf 0 (file_bytes n st len)).
    split; [done|]. split; [done|]. split; [apply splice_len; lia|]. split; intros i Hi.
    + rewrite splice_lookup_new; [|lia|lia|lia|unfold zlen in *; lia].
      rewrite Nat.sub_0_r. by apply file_bytes_lookup.
    + rewrite splice_lookup_old; [done|lia|lia|]. right. unfold zlen in Hlen. lia.
  - intros Hlt Hnone. eapply read_hole; [done|done|done|lia|done|done].
  - by apply read_start_ok.
  - intros. rewrite read_start_unaligned by done. pose proof (slice_div offset). lia.
Qed.

End read_facts.

(** ** The write loop *)

Section write.
Context `{SliceConfig} `{!Memory}.
Implicit Types (m : gmap Z bytes).

(** The slice [i] after [buf] has been written at [pos]: the part of the
    buffer that falls into it, over its old contents or over what the
    allocator returned. *)
Definition slice_after (buf : bytes) (pos : Z) (m : gmap Z bytes) (i : Z) : bytes :=
  let o := sat_sub pos (i * SLICE_SIZE) in
  let c := sat_sub (i * SLICE_SIZE) pos in
  splice (default (uninit i) (m !! i)) o (take (Z.to_nat (SLICE_SIZE - o)) (drop (Z.to_nat c) buf)).

(** Whether the write stores the slice [i]. *)
Definition touches (buf : bytes) (pos i : Z) : bool :=
  (pos / SLICE_SIZE <=? i) && ((i =? pos / SLICE_SIZE) || (i * SLICE_SIZE <? pos + zlen buf)).

Lemma touches_iff buf pos i :
  touches buf pos i = true <->
  pos / SLICE_SIZE <= i /\ (i = pos / SLICE_SIZE \/ i * SLICE_SIZE < pos + zlen buf).
Proof.
  unfold touches. by rewrite andb_true_iff, Z.leb_le, orb_true_iff, Z.eqb_eq, Z.ltb_lt.
Qed.

Lemma write_slice_ok buf kv num o c :
  (forall v, kv = Some v -> zlen v = SLICE_SIZE) -> 0 <= o < SLICE_SIZE -> 0 <= c <= zlen buf ->
  write_slice buf kv num o c (Z.min (zlen buf - c) (SLICE_SIZE - o)) =
  Some (splice (default (uninit num) kv) o
          (take (Z.to_nat (SLICE_SIZE - o)) (drop (Z.to_nat c) buf))).
Proof.
  intros Hkv Ho Hc. pose proof (uninit_len num) as Hun. pose proof slice_range as HS.
  set (len := Z.min _ _). assert (Hlen : 0 <= len /\ o + len <= SLICE_SIZE /\ c + len <= zlen buf) by lia.
  assert (Hpiece : take (Z.to_nat len) (drop (Z.to_nat c) buf) =
    take (Z.to_nat (SLICE_SIZE - o)) (drop (Z.to_nat c) buf)).
  { unfold zlen in *. destruct (Z.le_gt_cases (zlen buf - c) (SLICE_SIZE - o)); unfold zlen in *.
    - rewrite !take_ge by lens. done.
    - subst len. by rewrite Z.min_r by lia. }
  rewrite <- Hpiece. set (piece := take (Z.to_nat len) _) in *.
  assert (Hp : zlen piece = len) by (subst piece; unfold zlen in *; lens).
  unfold write_slice. destruct kv as [v|]; cbn [default from_option id].
  - pose proof (Hkv _ eq_refl) as Hv.
    rewrite copy_data_ok by lia. cbn [mbind option_bind].
    set (p1 := splice (uninit num) 0 _).
    assert (Hp1 : zlen p1 = SLICE_SIZE).
    { subst p1. rewrite splice_len; [done|lia|]. unfold zlen in *. lens. }
    rewrite copy_data_ok by lia. cbn [mbind option_bind]. fold piece.
    set (p2 := splice p1 o piece).
    assert (Hp2 : zlen p2 = SLICE_SIZE) by (subst p2; rewrite splice_len; lia).
    rewrite copy_data_ok by lia. f_equal. subst p1 p2. cbn [Z.to_nat drop].
    rewrite (splice_app (uninit num)) by (unfold zlen in *; lens).
    rewrite splice_app by (unfold zlen in *; lens).
    unfold splice. change (Z.to_nat 0) with 0%nat. rewrite take_0, !drop_0. cbn [app].
    rewrite (drop_ge (uninit num)) by (unfold zlen in *; lens).
    rewrite app_nil_r, <- app_assoc. apply (f_equal (app _)), (f_equal (app _)).
    rewrite take_ge by (unfold zlen in *; lens). f_equal. unfold zlen in *. lia.
  - rewrite copy_data_ok by lia. done.
Qed.

(** A slice the buffer covers whole is that part of the buffer. *)
Lemma whole_slice (buf old : bytes) c :
  zlen old = SLICE_SIZE -> 0 <= c -> c + SLICE_SIZE <= zlen buf ->
  slice buf c (c + SLICE_SIZE) =
  Some (splice old 0 (take (Z.to_nat (SLICE_SIZE - 0)) (drop (Z.to_nat c) buf))).
Proof.
  intros Hold Hc Hl. pose proof slice_range. rewrite slice_ok by lia. f_equal. unfold splice.
  change (Z.to_nat 0) with 0%nat. rewrite take_0. cbn [app].
  rewrite (drop_ge old) by (unfold zlen in *; lens). rewrite app_nil_r. f_equal. lia.
Qed.

Lemma zlen_slice_after buf pos m i :
  (forall v, m !! i = Some v -> zlen v = SLICE_SIZE) -> pos < (i + 1) * SLICE_SIZE ->
  0 <= pos -> zlen (slice_after buf pos m i) = SLICE_SIZE.
Proof.
  intros Hm Hp Hp0. pose proof slice_range. unfold slice_after.
  assert (Hd : zlen (default (uninit i) (m !! i)) = SLICE_SIZE).
  { destruct (m !! i) eqn:E; cbn; [by apply Hm|apply uninit_len]. }
  rewrite splice_len; [done|unfold sat_sub; lia|]. rewrite Hd. unfold sat_sub, zlen in *. lens.
Qed.

(** The slice a round of the loop stores, whether it takes the buffer's
    memory or goes through the allocator. *)
Lemma write_round buf pos m num :
  (forall v, m !! num = Some v -> zlen v = SLICE_SIZE) -> 0 <= pos ->
  touches buf pos num = true ->
  let o := sat_sub pos (num * SLICE_SIZE) in
  let c := sat_sub (num * SLICE_SIZE) pos in
  let len := Z.min (zlen buf - c) (SLICE_SIZE - o) in
  0 <= o < SLICE_SIZE /\ 0 <= c <= zlen buf /\
  (if (len =? SLICE_SIZE) && (o =? 0) then slice buf c (c + SLICE_SIZE)
   else write_slice buf (m !! num) num o c len) = Some (slice_after buf pos m num).
Proof.
  intros Hm Hp Ht o c len. pose proof slice_range as HS. pose proof (zlen_nonneg buf).
  pose proof (slice_div pos). pose proof (slice_pos pos).
  assert (Hoc : 0 <= o < SLICE_SIZE /\ 0 <= c <= zlen buf).
  { apply touches_iff in Ht as [Ht1 Ht2]. unfold o, c, sat_sub.
    destruct Ht2 as [->|Ht2]; nia. }
  destruct Hoc as [Ho Hc]. split; [done|]. split; [done|].
  destruct (_ && _) eqn:E.
  - zbool. unfold slice_after. fold o c. rewrite (whole_slice buf (default (uninit num) (m !! num)));
      [by replace o with 0 by lia| |lia|unfold len in *; lia].
    destruct (m !! num) eqn:Em; cbn; [by apply Hm|apply uninit_len].
  - apply write_slice_ok; [exact Hm|done|done].
Qed.

Lemma touches_next buf pos num :
  0 <= pos -> pos / SLICE_SIZE <= num -> touches buf pos num = true ->
  let o := sat_sub pos (num * SLICE_SIZE) in
  let c := sat_sub (num * SLICE_SIZE) pos in
  let len := Z.min (zlen buf - c) (SLICE_SIZE - o) in
  (c + len = zlen buf -> forall i, touches buf pos i = true -> i <= num) /\
  (c + len <> zlen buf -> touches buf pos (num + 1) = true /\
    (o + len) mod SLICE_SIZE = sat_sub pos ((num + 1) * SLICE_SIZE) /\
    c + len = sat_sub ((num + 1) * SLICE_SIZE) pos /\ 0 < len).
Proof.
  intros Hp Hf Ht o c len. pose proof slice_range as HS. pose proof (zlen_nonneg buf).
  pose proof (slice_div pos). pose proof (slice_pos pos). split.
  - intros He i Hi. apply touches_iff in Hi as [Hi1 [->|Hi2]]; [done|].
    unfold len, o, c, sat_sub in He. nia.
  - intros Hne. assert (Hl : len = SLICE_SIZE - o).
    { unfold len in *. lia. }
    assert (Hoo : 0 <= o < SLICE_SIZE).
    { unfold o, sat_sub. nia. }
    split.
    + apply touches_iff. split; [lia|]. right. unfold len, o, c, sat_sub in *. nia.
    + rewrite Hl. replace (o + (SLICE_SIZE - o)) with SLICE_SIZE by lia.
      rewrite Z.mod_same by lia. unfold o, c, sat_sub. nia.
Qed.
End write.

Section write_agree.
Context `{SliceConfig} `{!Memory} {D : Type} `{JammDb D, !JammDbLaws D}.
Implicit Types (d : D) (s : fs) (n : node).

(** [m'] is [m] after a write of [buf] at [pos]. *)
Definition written (buf : bytes) (pos : Z) (m m' : gmap Z bytes) : Prop :=
  forall i, m' !! i = if touches buf pos i then Some (slice_after buf pos m i) else m !! i.

(** The slices after the write. *)
Definition written_slices (buf : bytes) (pos : Z) (m : gmap Z bytes) : gmap Z bytes :=
  list_to_map ((fun i => (i, slice_after buf pos m i)) <$>
    seqZ (pos / SLICE_SIZE)
      (Z.max 1 ((pos + zlen buf - 1) / SLICE_SIZE - pos / SLICE_SIZE + 1))) ∪ m.

Lemma written_slices_ok buf pos m : 0 <= pos -> written buf pos m (written_slices buf pos m).
Proof.
  intros Hp i. pose proof slice_range. pose proof (zlen_nonneg buf). unfold written_slices.
  set (l := seqZ _ _). rewrite lookup_union.
  assert (Hl : i ∈ l <-> touches buf pos i = true).
  { unfold l. rewrite elem_of_seqZ, touches_iff.
    pose proof (slice_div pos). pose proof (slice_pos pos).
    pose proof (slice_div (pos + zlen buf - 1)). pose proof (slice_pos (pos + zlen buf - 1)).
    split; intros [Hi1 Hi2]; (split; [done|]).
    - destruct (Z.eq_dec i (pos / SLICE_SIZE)); [by left|right; nia].
    - destruct Hi2 as [->|Hi2]; [lia|].
      assert (i <= (pos + zlen buf - 1) / SLICE_SIZE) by (apply Z.div_le_lower_bound; lia). lia. }
  destruct (touches buf pos i) eqn:Et.
  - rewrite (elem_of_list_to_map_1 _ i (slice_after buf pos m i)).
    + by destruct (m !! i).
    + rewrite <- list_fmap_compose. apply (NoDup_fmap_2 _), NoDup_seqZ.
    + apply list_elem_of_fmap. exists i. split; [done|]. by apply Hl.
  - rewrite not_elem_of_list_to_map_1; [by destruct (m !! i)|].
    rewrite <- list_fmap_compose. intros (j & Hj & Hin)%list_elem_of_fmap. cbn in Hj. subst j.
    apply Hl in Hin. done.
Qed.

Lemma written_unique buf pos m m1 m2 : written buf pos m m1 -> written buf pos m m2 -> m1 = m2.
Proof. intros Hm1 Hm2. apply map_eq. intros i. by rewrite Hm1, Hm2. Qed.

Lemma agree_write_loop {B} (f : Z -> Tx D B) fuel d s ino n m0 buf pos num (R : outcome (B * fs)) :
  represents d s -> f_nodes s !! ino = Some n ->
  (forall i v, m0 !! i = Some v -> zlen v = SLICE_SIZE) ->
  0 <= pos -> pos + zlen buf < 2 ^ 32 * SLICE_SIZE -> touches buf pos num = true ->
  (forall i, n_slices n !! i =
     if (touches buf pos i) && (i <? num) then Some (slice_after buf pos m0 i) else m0 !! i) ->
  zlen buf - sat_sub (num * SLICE_SIZE) pos < Z.of_nat fuel ->
  (forall d' m', written buf pos m0 m' -> represents d' (upd ino (with_slices (fun _ => m')) s) ->
     agree (f (zlen buf) d') R) ->
  agree ((write_loop fuel (usize_be ino) buf num (sat_sub pos (num * SLICE_SIZE))
            (sat_sub (num * SLICE_SIZE) pos) ≫= f) d) R.
Proof.
  revert d s n num. induction fuel as [|fuel IH];
    intros d s n num Hr Hn Hm Hp Hbig Ht Hinv Hfuel Hf.
  { exfalso. destruct (write_round buf pos m0 num (Hm num) Hp Ht) as (_ & ? & _). lia. }
  pose proof slice_range as HS. pose proof (zlen_nonneg buf) as HL.
  destruct (write_round buf pos m0 num (Hm num) Hp Ht) as (Ho & Hc & Hround).
  assert (Hfirst : pos / SLICE_SIZE <= num) by (by apply touches_iff in Ht as [? _]).
  assert (Hu : is_u32 num).
  { pose proof (slice_div pos). pose proof (slice_pos pos).
    assert (0 <= pos / SLICE_SIZE) by (apply Z.div_pos; lia).
    unfold is_u32. unfold sat_sub in Hc. nia. }
  destruct (touches_next buf pos num Hp Hfirst Ht) as [Hlast Hmore].
  cbn [write_loop]. rewrite (w32_small num) by done.
  set (o := sat_sub pos _) in *. set (c := sat_sub _ pos) in *.
  set (len := Z.min (zlen buf - c) (SLICE_SIZE - o)) in *.
  assert (Hnum : n_slices n !! num = m0 !! num).
  { rewrite Hinv. by rewrite Z.ltb_irrefl, andb_false_r. }
  assert (Hdata : forall (g : bytes -> Tx D B),
    agree (g (slice_after buf pos m0 num) d) R ->
    agree (((if (len =? SLICE_SIZE) && (o =? 0) then tx_unwrap (slice buf c (c + SLICE_SIZE))
             else kv ← get_kv (usize_be ino) (generate_data_key_with_number num);
                  tx_unwrap (write_slice buf kv num o c len)) ≫= g) d) R).
  { intros g Hg. destruct (_ && _).
    - by eapply agree_unwrap.
    - apply agree_assoc. eapply agree_get_slice; [done|done|done|]. rewrite Hnum.
      by eapply agree_unwrap. }
  apply agree_assoc, Hdata. cbv beta. apply agree_assoc.
  eapply agree_put_slice; [done|done|done|intros d1 Hr1].
  assert (Hinv1 : forall i, <[num := slice_after buf pos m0 num]> (n_slices n) !! i =
    if touches buf pos i && (i <? num + 1) then Some (slice_after buf pos m0 i) else m0 !! i).
  { intros i. destruct (Z.eq_dec i num) as [->|Hne].
    - by rewrite lookup_insert_eq, Ht, Zltb_t by lia.
    - rewrite lookup_insert_ne by done. rewrite Hinv.
      replace (i <? num + 1) with (i <? num); [done|].
      destruct (Z.ltb_spec i num), (Z.ltb_spec i (num + 1)); try done; lia. }
  cbv zeta. destruct (Z.eqb_spec (c + len) (zlen buf)) as [Hend|Hgo].
  - eapply agree_bind_ok; [done|]. rewrite Hend.
    apply (Hf d1 (<[num := slice_after buf pos m0 num]> (n_slices n))).
    + intros i. rewrite Hinv1. destruct (touches buf pos i) eqn:Ei; [|done].
      by rewrite Zltb_t by (specialize (Hlast Hend i Ei); lia).
    + erewrite upd_ext; [exact Hr1|]. intros m Hm'. rewrite Hn in Hm'. by injection Hm' as <-.
  - destruct (Hmore Hgo) as (Ht1 & Ho1 & Hc1 & Hl1). rewrite Ho1, Hc1.
    eapply (IH d1 _ _ (num + 1)); [done|by apply upd_lookup_eq|done|done|done|done| | |].
    + exact Hinv1.
    + rewrite <- Hc1. lia.
    + intros d2 m' Hw Hr2. apply (Hf d2 m' Hw). rewrite upd_upd in Hr2. exact Hr2.
Qed.
End write_agree.

Section write_facts.
Context `{SliceConfig} `{!Memory} {D : Type} `{JammDb D, !JammDbLaws D, !Reliable D}.
Implicit Types (d : D) (w : world D) (s : fs) (n : node).

(** ** The bytes after a write *)

Lemma written_ok buf pos n n' :
  written buf pos (n_slices n) (n_slices n') -> slices_ok n -> 0 <= pos -> slices_ok n'.
Proof.
  intros Hw Hok Hp i v. rewrite Hw. destruct (touches buf pos i) eqn:Et; [|apply Hok].
  intros [= <-]. pose proof slice_range. pose proof (slice_div pos). pose proof (slice_pos pos).
  apply touches_iff in Et as [Et _].
  apply zlen_slice_after; [intros v; apply Hok|nia|done].
Qed.

Lemma written_new buf pos n n' p :
  written buf pos (n_slices n) (n_slices n') -> slices_ok n -> 0 <= pos ->
  pos <= p < pos + zlen buf -> Some (byte_at n' p) = buf !! Z.to_nat (p - pos).
Proof.
  intros Hw Hok Hp Hin. pose proof slice_range. pose proof (slice_div p).
  pose proof (slice_pos p). pose proof (slice_div pos). pose proof (slice_pos pos).
  set (i := p / SLICE_SIZE) in *. set (x := p mod SLICE_SIZE) in *.
  assert (Ht : touches buf pos i = true).
  { apply touches_iff. assert (pos / SLICE_SIZE <= i) by (apply Z.div_le_mono; lia).
    split; [done|]. right. lia. }
  unfold byte_at. fold i x. rewrite Hw, Ht. unfold slice_after.
  set (o := sat_sub pos _). set (c := sat_sub _ pos).
  assert (Hd : zlen (default (uninit i) (n_slices n !! i)) = SLICE_SIZE).
  { destruct (n_slices n !! i) eqn:E; cbn; [by apply (Hok i)|apply uninit_len]. }
  assert (Hoc : 0 <= o <= x /\ 0 <= c /\ p - pos = c + (x - o)) by (unfold o, c, sat_sub; lia).
  destruct Hoc as (Ho & Hc & Hpos).
  set (piece := take _ (drop _ buf)).
  assert (Hpl : zlen piece = Z.min (SLICE_SIZE - o) (zlen buf - c)).
  { unfold piece, zlen in *. lens. }
  rewrite splice_lookup_new; [|lia|lia|lia|unfold zlen in *; lia].
  assert (Hlk : piece !! (Z.to_nat x - Z.to_nat o)%nat = buf !! Z.to_nat (p - pos)).
  { unfold piece. rewrite lookup_take_lt by lia. rewrite lookup_drop. f_equal. lia. }
  rewrite Hlk. destruct (lookup_lt_is_Some_2 buf (Z.to_nat (p - pos))) as [b ->]; [|done].
  unfold zlen in Hin. lia.
Qed.

(** Outside the buffer a stored slice keeps its bytes, and a new one shows
    what the allocator returned. *)
Lemma written_old buf pos n n' p :
  written buf pos (n_slices n) (n_slices n') -> slices_ok n -> 0 <= pos -> 0 <= p ->
  p < pos \/ pos + zlen buf <= p ->
  byte_at n' p =
  if touches buf pos (p / SLICE_SIZE)
  then match n_slices n !! (p / SLICE_SIZE) with
       | Some _ => byte_at n p
       | None => default Byte.x00 (uninit (p / SLICE_SIZE) !! Z.to_nat (p mod SLICE_SIZE))
       end
  else byte_at n p.
Proof.
  intros Hw Hok Hp Hp0 Hout. pose proof slice_range. pose proof (slice_div p).
  pose proof (slice_pos p). set (i := p / SLICE_SIZE) in *. set (x := p mod SLICE_SIZE) in *.
  unfold byte_at. fold i x. rewrite Hw. destruct (touches buf pos i) eqn:Et; [|done].
  pose proof (slice_div pos). pose proof (slice_pos pos). pose proof (zlen_nonneg buf).
  apply touches_iff in Et as [Et1 Et2].
  unfold slice_after. set (o := sat_sub pos _). set (c := sat_sub _ pos).
  assert (Hd : zlen (default (uninit i) (n_slices n !! i)) = SLICE_SIZE).
  { destruct (n_slices n !! i) eqn:E; cbn; [by apply (Hok i)|apply uninit_len]. }
  set (piece := take _ (drop _ buf)).
  assert (Hoc : 0 <= o < SLICE_SIZE /\ 0 <= c <= zlen buf).
  { unfold o, c, sat_sub. destruct Et2 as [->|Et2]; nia. }
  destruct Hoc as [Ho Hc].
  assert (Hpl : zlen piece = Z.min (SLICE_SIZE - o) (zlen buf - c)).
  { unfold piece, zlen in *. lens. }
  assert (Hx : x < o \/ o + zlen piece <= x) by (unfold o, c, sat_sub in *; lia).
  rewrite splice_lookup_old; [|lia|lia|unfold zlen in Hx; lia].
  by destruct (n_slices n !! i).
Qed.

(** ** The entry point *)

(** The file after the write. *)
Definition t_write (buf : bytes) (offset : Z) (n : node) : node :=
  with_size (Z.max (n_size n) (offset + zlen buf))
    (with_slices (written_slices buf offset) n).

Lemma write_tx_agree d s ino n buf offset :
  represents d s -> f_nodes s !! ino = Some n -> slices_ok n -> 0 <= offset ->
  offset + zlen buf < 2 ^ 32 * SLICE_SIZE ->
  agree (write_bytes_tx ino buf offset d) (Ok (zlen buf, upd ino (t_write buf offset) s)).
Proof.
  intros Hr Hn Hok Ho Hbig. pose proof slice_range. pose proof (slice_div offset).
  pose proof (slice_pos offset). pose proof (zlen_nonneg buf) as HL.
  assert (Hu : is_u64 (offset + zlen buf)) by (unfold is_u64; nia).
  assert (Hfirst : 0 <= offset / SLICE_SIZE) by (apply Z.div_pos; lia).
  unfold write_bytes_tx. do 2 ag.
  replace (offset mod SLICE_SIZE) with (sat_sub offset (offset / SLICE_SIZE * SLICE_SIZE))
    by (unfold sat_sub; lia).
  replace (write_loop _ _ _ _ _ 0) with (write_loop (write_fuel buf) (usize_be ino) buf
    (offset / SLICE_SIZE) (sat_sub offset (offset / SLICE_SIZE * SLICE_SIZE))
    (sat_sub (offset / SLICE_SIZE * SLICE_SIZE) offset)) by (f_equal; unfold sat_sub; lia).
  eapply (agree_write_loop _ _ d s ino n (n_slices n)); [done|done|apply Hok|done|done| | | |].
  - apply touches_iff. split; [lia|by left].
  - intros i. destruct (touches buf offset i) eqn:Ei; [|done].
    apply touches_iff in Ei as [Ei _]. by rewrite Zltb_f.
  - unfold write_fuel, sat_sub. unfold zlen in *. lia.
  - intros d1 m' Hw Hr1. cbv beta. rewrite w64_small by done.
    rewrite (written_unique _ _ _ _ _ Hw (written_slices_ok _ _ _ Ho)) in Hr1.
    pose proof (ok_size _ (rep_ok _ _ _ _ Hr Hn)) as Hsz. cbv zeta.
    destruct (Z.ltb_spec (n_size n) (Z.max (n_size n) (offset + zlen buf))) as [Hlt|Hge];
      cbn [tx_when].
    + eapply agree_put_size; [exact Hr1|by apply upd_lookup_eq|unfold is_u64 in *; lia|].
      intros d2 Hr2. split; [done|]. rewrite upd_upd in Hr2. erewrite upd_ext; [exact Hr2|].
      intros m Hm. rewrite Hn in Hm. by injection Hm as <-.
    + eapply agree_bind_ok; [done|]. split; [done|].
      erewrite upd_ext; [exact Hr1|]. intros m Hm. rewrite Hn in Hm. injection Hm as <-.
      unfold t_write. replace (Z.max (n_size n) (offset + zlen buf)) with (n_size n) by lia.
      by destruct n.
Qed.

Lemma write_runs_ok w s ino n buf offset :
  represents (w_db w) s -> f_nodes s !! ino = Some n -> slices_ok n -> 0 <= offset ->
  offset + zlen buf < 2 ^ 32 * SLICE_SIZE ->
  exists d', dbfs_common_write ino buf offset w = (Ok (zlen buf), set_db w d') /\
    represents d' (upd ino (t_write buf offset) s).
Proof.
  intros Hr Hn Hok Ho Hbig.
  apply (write_runs Question Question _ w _ (write_tx_agree (w_db w) s ino n buf offset Hr Hn Hok Ho Hbig)).
Qed.

Lemma t_write_wf s ino n buf offset :
  wf s -> f_nodes s !! ino = Some n -> node_is_dir n = false ->
  wf (upd ino (t_write buf offset) s).
Proof.
  intros Hwf Hn Hd. apply wf_upd_attr; [done|]. intros m Hm. rewrite Hn in Hm.
  injection Hm as <-. split_and!; try done. intros Hd'. congruence.
Qed.

(** C7: The file after a write, byte by byte. On a file whose slices are
    whole, and below the 2^32nd slice, [dbfs_common_write] returns the number
    of bytes of the buffer; afterwards the bytes from the offset on are those
    of the buffer; a byte outside them is as before, except in a slice that the
    write stores for the first time, where it is whatever the memory of the
    allocated slice held, and not zero; the size is the larger of the old one
    and the end of the write, the slices are whole, no other node changes and
    the tree is well formed. The loop always ends: its fuel is one round more
    than the buffer has bytes. *)
Theorem write_contents w s ino n buf offset :
  represents (w_db w) s -> wf s -> f_nodes s !! ino = Some n -> node_is_dir n = false ->
  slices_ok n -> 0 <= offset -> offset + zlen buf < 2 ^ 32 * SLICE_SIZE ->
  exists w' s' n', dbfs_common_write ino buf offset w = (Ok (zlen buf), w') /\
    represents (w_db w') s' /\ wf s' /\ s' = upd ino (fun _ => n') s /\
    n_size n' = Z.max (n_size n) (offset + zlen buf) /\ slices_ok n' /\
    (forall i : nat, (i < length buf)%nat ->
      buf !! i = Some (byte_at n' (offset + Z.of_nat i))) /\
    (forall p, 0 <= p -> p < offset \/ offset + zlen buf <= p ->
      let i := p / SLICE_SIZE in
      byte_at n' p =
        if touches buf offset i && bool_decide (n_slices n !! i = None)
        then default Byte.x00 (uninit i !! Z.to_nat (p mod SLICE_SIZE))
        else byte_at n p).
Proof.
  intros Hr Hwf Hn Hd Hok Ho Hbig.
  destruct (write_runs_ok w s ino n buf offset Hr Hn Hok Ho Hbig) as (d' & Hrun & Hr').
  pose proof (written_slices_ok buf offset (n_slices n) Ho) as Hw.
  exists (set_db w d'), (upd ino (t_write buf offset) s), (t_write buf offset n).
  split; [done|]. split; [done|]. split; [by eapply t_write_wf|]. split.
  { apply upd_ext. intros m Hm. rewrite Hn in Hm. by injection Hm as <-. }
  split; [done|]. split; [by apply (written_ok buf offset n)|]. split.
  - intros i Hi. rewrite (written_new buf offset n) by (done || unfold zlen; lia).
    f_equal. lia.
  - intros p Hp Hout i. rewrite (written_old buf offset n) by done. fold i.
    destruct (touches buf offset i); [|done]. by destruct (n_slices n !! i).
Qed.

(** What is written is read back. A write at an offset in the first
    slice or at the start of a slice, followed by a read of as many bytes at
    the same offset, returns the bytes written, whatever the file held. *)
Theorem write_then_read w s ino n buf out offset :
  represents (w_db w) s -> f_nodes s !! ino = Some n -> slices_ok n -> 0 <= offset -> offset < SLICE_SIZE \/ offset mod SLICE_SIZE = 0 ->
  Z.max (n_size n) (offset + zlen buf) / SLICE_SIZE + 1 < 2 ^ 32 ->
  zlen out = zlen buf -> 0 < zlen buf ->
  exists w', dbfs_common_write ino buf offset w = (Ok (zlen buf), w') /\
    dbfs_common_read ino out offset w' = (Ok (zlen buf, buf), w').
Proof.
  intros Hr Hn Hok Ho Ha Hbig Hout Hpos. pose proof slice_range as HS.
  set (size' := Z.max (n_size n) (offset + zlen buf)) in *.
  pose proof (slice_div size'). pose proof (slice_pos size').
  assert (Hlim : offset + zlen buf < 2 ^ 32 * SLICE_SIZE) by nia.
  destruct (write_runs_ok w s ino n buf offset Hr Hn Hok Ho Hlim) as (d' & Hrun & Hr').
  pose proof (written_slices_ok buf offset (n_slices n) Ho) as Hw.
  set (n' := t_write buf offset n).
  assert (Hw' : written buf offset (n_slices n) (n_slices n')) by done.
  assert (Hn' : f_nodes (upd ino (t_write buf offset) s) !! ino = Some n')
    by (by apply upd_lookup_eq).
  assert (Hbytes : file_bytes n' offset (zlen buf) = buf).
  { apply list_eq. intros i. destruct (decide (Z.of_nat i < zlen buf)).
    - rewrite file_bytes_lookup by done.
      rewrite (written_new buf offset n) by (done || lia). f_equal. lia.
    - rewrite !lookup_ge_None_2; [done|unfold zlen in *; lia|].
      unfold file_bytes, zlen in *. lens. }
  exists (set_db w d'). split; [done|].
  rewrite (read_window (set_db w d') _ ino n' out offset (offset / SLICE_SIZE) Hr' Hn');
    [|by apply (written_ok buf offset n)|unfold is_u64; lia|cbn; lia|done|].
  - rewrite (read_start_ok offset) by done. cbn [n_size n' t_write with_size].
    fold size'. replace (Z.min (zlen out) (size' - offset)) with (zlen buf) by lia.
    rewrite Hbytes. do 3 f_equal. unfold splice. change (Z.to_nat 0) with 0%nat.
    rewrite take_0. cbn [app]. rewrite drop_ge by (unfold zlen in *; lens). apply app_nil_r.
  - unfold readable. rewrite (read_start_ok offset) by done. rewrite Hout.
    cbn [n_size n' t_write with_size]. fold size'.
    pose proof (slice_div offset). pose proof (slice_pos offset).
    split; [done|]. split; [lia|]. split; [intros i Hi; lia|]. intros i Hi Hilt.
    cbn [n_slices n' t_write with_size with_slices]. rewrite Hw.
    rewrite (proj2 (touches_iff buf offset i)); [by eexists|]. split; [done|]. right. lia.
Qed.

(** A write into a slice that is not stored takes a slice of the
    allocator as it is: the bytes of that slice before and after the buffer
    are whatever its memory held, and those before the offset are inside the
    file. *)
Theorem write_exposes_memory w s ino n buf offset p :
  represents (w_db w) s -> f_nodes s !! ino = Some n -> slices_ok n ->
  0 <= p < offset -> p / SLICE_SIZE = offset / SLICE_SIZE ->
  n_slices n !! (p / SLICE_SIZE) = None -> offset + zlen buf < 2 ^ 32 * SLICE_SIZE ->
  exists w' s' n', dbfs_common_write ino buf offset w = (Ok (zlen buf), w') /\
    represents (w_db w') s' /\ f_nodes s' !! ino = Some n' /\ p < n_size n' /\
    Some (byte_at n' p) = uninit (p / SLICE_SIZE) !! Z.to_nat (p mod SLICE_SIZE).
Proof.
  intros Hr Hn Hok Hp Hsame Hnone Hbig.
  assert (Ho : 0 <= offset) by lia. pose proof (zlen_nonneg buf).
  destruct (write_runs_ok w s ino n buf offset Hr Hn Hok Ho Hbig) as (d' & Hrun & Hr').
  pose proof (written_slices_ok buf offset (n_slices n) Ho) as Hw.
  exists (set_db w d'), (upd ino (t_write buf offset) s), (t_write buf offset n).
  split; [done|]. split; [done|]. split; [by apply upd_lookup_eq|]. split; [cbn; lia|].
  rewrite (written_old buf offset n) by (done || lia).
  rewrite (proj2 (touches_iff buf offset _)) by lia. rewrite Hnone.
  pose proof (uninit_len (p / SLICE_SIZE)) as Hu. pose proof (slice_pos p).
  destruct (lookup_lt_is_Some_2 (uninit (p / SLICE_SIZE)) (Z.to_nat (p mod SLICE_SIZE)))
    as [b Hb]; [unfold zlen in Hu; lia|]. by rewrite Hb.
Qed.
End write_facts.

(** ** Witnesses *)

(** Memory in which every allocated slice is full of the byte [0xAA]. *)
Definition sample_memory : Memory.
Proof.
  refine {| buf_ptr := 4096; value_ptr := fun i => 65536 + 513 * i;
    slice_ptr := fun i => 8192 + 512 * i; uninit := fun _ => replicate 512 Byte.xaa |}.
  reflexivity.
Defined.

(** A buffer of 20 bytes, and a file of 1100 bytes in three slices. *)
Definition sample_buf : bytes := replicate 20 Byte.x2e.

Definition three_slices : gmap Z bytes :=
  <[2 := replicate 512 Byte.x63]> (<[1 := replicate 512 (Byte.x62)]> {[0 := replicate 512 (Byte.x61)]}).
Definition three_node : node := file_node 1100 three_slices.
Definition three_fs : fs := upd 2 (fun _ => three_node) file_fs.
Definition three_world : world mapdb := World (image three_fs) 3 ∅.

(** An empty file that [truncate] has made 600 bytes long. *)
Definition sparse_fs : fs := upd 2 (with_size 600) file_fs.
Definition sparse_world : world mapdb := World (image sparse_fs) 3 ∅.

Lemma three_slices_inv i v :
  three_slices !! i = Some v -> (i = 0 \/ i = 1 \/ i = 2) /\ zlen v = 512.
Proof.
  unfold three_slices. rewrite !lookup_insert_Some, lookup_singleton_Some.
  intros [[<- <-]|[_ [[<- <-]|[_ [<- <-]]]]]; (split; [lia|done]).
Qed.

Lemma three_fs_ok : fs_ok three_fs.
Proof.
  apply fs_ok_upd; [apply file_fs_ok|]. intros n _ _.
  apply file_node_ok; [done|]. intros i v [Hi _]%three_slices_inv. unfold is_u32. lia.
Qed.

Lemma three_fs_wf : wf three_fs.
Proof.
  apply wf_upd_attr; [apply file_fs_wf|]. intros n Hn. injection Hn as <-. by split_and!.
Qed.

Lemma three_slices_ok : slices_ok three_node.
Proof. intros i v [_ Hv]%three_slices_inv. done. Qed.

Lemma three_readable offset len :
  0 <= offset -> offset / SLICE_SIZE * SLICE_SIZE < Z.min 1100 (read_start offset + len) ->
  readable three_node offset len (offset / SLICE_SIZE).
Proof.
  intros Ho Hlt. split; [done|]. split; [done|]. split; [intros i Hi; lia|].
  intros i Hi Hs. change (is_Some (three_slices !! i)).
  assert (0 <= offset / SLICE_SIZE) by (by apply Z.div_pos).
  cbn [n_size three_node file_node SLICE_SIZE sli512] in *.
  assert (H3 : i = 0 \/ i = 1 \/ i = 2) by lia. destruct H3 as [->|[->| ->]]; by eexists.
Qed.

Lemma sparse_fs_ok : fs_ok sparse_fs.
Proof.
  apply fs_ok_upd; [apply file_fs_ok|]. intros n Hn Hok. by apply ok_with_size.
Qed.

Lemma read_contents_witness :
  (exists len buf', len = Z.min (zlen sample_buf) (n_size three_node - 1024) /\
    dbfs_common_read 2 sample_buf 1024 three_world = (Ok (len, buf'), three_world) /\
    (forall i : nat, Z.of_nat i < len ->
      buf' !! i = Some (byte_at three_node (1024 + Z.of_nat i)))) /\
  (exists len buf', dbfs_common_read 2 sample_buf 600 three_world = (Ok (len, buf'), three_world) /\
    0 < len /\ forall i : nat, Z.of_nat i < len ->
      buf' !! i = Some (byte_at three_node (512 + Z.of_nat i))) /\
  dbfs_common_read 2 sample_buf 0 sparse_world = (Ok (0, sample_buf), sparse_world).
Proof.
  assert (HR : forall offset h, 0 <= offset < 1100 -> readable three_node offset (zlen sample_buf) h ->
    exists len buf', len = Z.min (zlen sample_buf) (n_size three_node - read_start offset) /\
      dbfs_common_read 2 sample_buf offset three_world = (Ok (len, buf'), three_world) /\
      zlen buf' = zlen sample_buf /\
      (forall i : nat, Z.of_nat i < len ->
        buf' !! i = Some (byte_at three_node (read_start offset + Z.of_nat i))) /\
      (forall i : nat, len <= Z.of_nat i -> buf' !! i = sample_buf !! i)).
  { intros offset h Ho Hrd.
    refine (proj1 (proj2 (read_contents three_world three_fs 2 three_node sample_buf offset
      (image_represents _ three_fs_ok) _ three_slices_ok _ _ _)) h _ Hrd).
    - reflexivity.
    - change (zlen sample_buf) with 20. unfold is_u64. lia.
    - lia.
    - by_eval.
    - exact (proj2 Ho). }
  split; [|split].
  - destruct (HR 1024 2) as (len & buf' & H1 & H2 & _ & H3 & _);
      [lia|apply (three_readable 1024); [done|by_eval]|].
    exists len, buf'. split; [exact H1|]. split; [exact H2|exact H3].
  - destruct (HR 600 1) as (len & buf' & H1 & H2 & _ & H3 & _);
      [lia|apply (three_readable 600); [done|by_eval]|].
    exists len, buf'. split; [exact H2|]. split; [rewrite H1; by_eval|exact H3].
  - refine (proj1 (proj2 (proj2 (read_contents sparse_world sparse_fs 2
      (with_size 600 (file_node 0 ∅)) sample_buf 0 (image_represents _ sparse_fs_ok) _ _ _ _ _))) _ _).
    + reflexivity.
    + intros i v Hi. discriminate Hi.
    + by_eval.
    + by_eval.
    + by_eval.
    + by_eval.
    + intros i _ _. reflexivity.
Defined.

Lemma write_contents_witness :
  exists w' s' n', @dbfs_common_write _ _ _ sample_memory 2 sample_buf 500 three_world =
      (Ok (zlen sample_buf), w') /\
    represents (w_db w') s' /\ wf s' /\ s' = upd 2 (fun _ => n') three_fs /\
    n_size n' = Z.max (n_size three_node) (500 + zlen sample_buf) /\ slices_ok n' /\
    (forall i : nat, (i < length sample_buf)%nat ->
      sample_buf !! i = Some (byte_at n' (500 + Z.of_nat i))) /\
    (forall p, 0 <= p -> p < 500 \/ 500 + zlen sample_buf <= p ->
      let i := p / SLICE_SIZE in
      byte_at n' p =
        if touches sample_buf 500 i && bool_decide (n_slices three_node !! i = None)
        then default Byte.x00 (@uninit _ sample_memory i !! Z.to_nat (p mod SLICE_SIZE))
        else byte_at three_node p).
Proof.
  refine (@write_contents _ sample_memory _ _ _ _ three_world three_fs 2 three_node sample_buf 500
    (image_represents _ three_fs_ok) three_fs_wf _ _ three_slices_ok _ _).
  - reflexivity.
  - reflexivity.
  - done.
  - by_eval.
Defined.

Lemma write_then_read_witness :
  exists w', @dbfs_common_write _ _ _ sample_memory 2 sample_buf 512 three_world =
      (Ok (zlen sample_buf), w') /\
    dbfs_common_read 2 (replicate 20 Byte.x00) 512 w' = (Ok (zlen sample_buf, sample_buf), w').
Proof.
  refine (@write_then_read _ sample_memory _ _ _ _ three_world three_fs 2 three_node sample_buf
    (replicate 20 Byte.x00) 512 (image_represents _ three_fs_ok) _ three_slices_ok _ _ _ _ _).
  - reflexivity.
  - done.
  - by right.
  - by_eval.
  - reflexivity.
  - by_eval.
Defined.

Lemma write_exposes_memory_witness :
  exists w' s' n', @dbfs_common_write _ _ _ sample_memory 2 sample_buf 100 sparse_world =
      (Ok (zlen sample_buf), w') /\
    represents (w_db w') s' /\ f_nodes s' !! 2 = Some n' /\ 7 < n_size n' /\
    Some (byte_at n' 7) = @uninit _ sample_memory (7 / SLICE_SIZE) !! Z.to_nat (7 mod SLICE_SIZE).
Proof.
  refine (@write_exposes_memory _ sample_memory _ _ _ _ sparse_world sparse_fs 2
    (with_size 600 (file_node 0 ∅)) sample_buf 100 7 (image_represents _ sparse_fs_ok) _ _ _ _ _ _).
  - reflexivity.
  - intros i v Hi. discriminate Hi.
  - by_eval.
  - reflexivity.
  - reflexivity.
  - by_eval.
Defined.
