(* ===== verification/Readdir.v ===== *)
(** * Directory listings

    [dbfs_common_readdir] and the kernel's [dbfs_readdir] of src/src/file.rs,
    with the table [GLOBAL_READDIR_TABLE] of src/src/common.rs that keeps the
    place of an interrupted listing. A listing walks all pairs of the
    directory's bucket with a cursor and keeps those whose key starts with
    [data:]. *)

From S2P Require Import Prelude Bytes Common Store MapDb Access Tree Layout Image Inode File.

(** [DirentType] of the [rvfs] crate, as far as the conversion uses it. *)
Inductive DirentType := DT_UNKNOWN | DT_DIR | DT_REG | DT_LNK | DT_EMPTY.

#[export] Instance DirentType_eq_dec : EqDecision DirentType.
Proof. solve_decision. Defined.

(** [impl Into<DirentType> for DbfsFileType]. *)
Definition dirent_type (t : DbfsFileType) : DirentType :=
  match t with
  | NamedPipe => DT_UNKNOWN
  | CharDevice => DT_UNKNOWN
  | BlockDevice => DT_UNKNOWN
  | Directory => DT_DIR
  | RegularFile => DT_REG
  | Symlink => DT_LNK
  | Socket => DT_UNKNOWN
  end.

(** A [Dirent64] written into the caller's buffer. *)
Record Dirent64 := MkDirent { de_name : bytes; de_ino : Z; de_off : Z; de_type : DirentType }.

Section ops.
Context {D : Type} `{JammDb D}.

(** [dbfs_common_attr(n).unwrap()] inside a transaction: it begins a
    read-only transaction of its own. *)
Definition nested_attr (ino : Z) : Tx D DbfsAttr := fun d =>
  match db_begin d false with
  | Some _ => Panic
  | None =>
      match attr_tx ino d with
      | Ok (a, _) => Ok (a, d)
      | _ => Panic
      end
  end.

(** The entry of one pair whose key starts with [data:]. *)
Definition readdir_entry (name value : bytes) (offset : Z) (plus : bool) : Tx D DbfsDirEntry :=
  inode_number ← tx_unwrap (parse_usize value);
  if plus then
    attr ← nested_attr inode_number;
    mret (DirEntry inode_number offset (a_kind attr) name (Some attr))
  else
    inode ← tx_expect (get_bucket (usize_be inode_number));
    mode ← read_u16 inode (bs "mode");
    kind ← tx_unwrap (file_type_of_perm (Perm.from_bits_truncate mode));
    mret (DirEntry inode_number offset kind name None).

(** [cursor.for_each(..)]. The closure's [return] leaves the closure only, so
    the test of the buffer's length (which [clear] has made 0) ends
    nothing. *)
Fixpoint readdir_loop (pairs : list (bytes * bytes)) (offset : Z) (plus : bool)
    (buf : list DbfsDirEntry) : Tx D (list DbfsDirEntry) :=
  match pairs with
  | [] => mret buf
  | (key, value) :: pairs =>
      if starts_with key (bs "data:") then
        name ← tx_unwrap (after_colon key);
        entry ← readdir_entry name value offset plus;
        readdir_loop pairs (w64 (offset + 1)) plus (buf ++ [entry])
      else readdir_loop pairs offset plus buf
  end.

(** [cursor.seek(key)], which must find the key, and one [next]. *)
Definition seek_after (bucket key : bytes) : Tx D (list (bytes * bytes)) := fun d =>
  let '(found, rest) := db_seek d bucket key in
  match found, rest with
  | true, _ :: rest => Ok (rest, d)
  | _, _ => Panic
  end.

(** The cursor: from the start, or after the entry the table names. *)
Definition readdir_cursor (bucket : bytes) (info : option ReadDirInfo) (offset : Z) :
  Tx D (list (bytes * bytes)) :=
  match info with
  | None => kv_pairs bucket
  | Some info =>
      _ ← tx_unwrap (if offset =? w64 (rd_offset info + 1) then Some tt else None);
      seek_after bucket (generate_data_key (rd_key info))
  end.

Definition readdir_tx (ino offset : Z) (plus : bool) (info : option ReadDirInfo) :
  Tx D (list DbfsDirEntry) :=
  bucket ← get_bucket (usize_be ino);
  pairs ← readdir_cursor bucket info offset;
  readdir_loop pairs offset plus [].

(** The buffer after the call; the result is its length. *)
Definition dbfs_common_readdir (ino offset : Z) (plus : bool) : Op D (list DbfsDirEntry) :=
  fun w => read_tx Question (readdir_tx ino offset plus (get_readdir_table ino (w_dirs w))) w.

(** ** dbfs_readdir *)

(** [Dirent64::len] of the [rvfs] crate, a function of the name. *)
Variable dirent_len : bytes -> Z.

(** [str.rsplitn(2, ':')], the first part: what follows the last colon. *)
Fixpoint after_last_colon (key : bytes) : bytes :=
  match after_colon key with
  | None => key
  | Some _ =>
      match key with
      | [] => []
      | _ :: key => after_last_colon key
      end
  end.

(** With an empty buffer: the room the entries need. *)
Definition readdir_room (numer : Z) : Tx D Z :=
  bucket ← tx_expect (get_bucket (usize_be numer));
  pairs ← kv_pairs bucket;
  mret (foldr (fun kv total =>
    (if starts_with kv.1 (bs "data:") then dirent_len (after_last_colon kv.1) else 0) + total)
    0 pairs).

(** The entries that fit: those written, the bytes they take, the next
    offset, and whether all fitted. *)
Fixpoint fill_dirents (entries : list DbfsDirEntry) (count offset buf_len : Z)
    (out : list Dirent64) : list Dirent64 * Z * Z * bool :=
  match entries with
  | [] => (out, count, offset, true)
  | x :: entries =>
      let offset := d_offset x + 1 in
      if count + dirent_len (d_name x) <=? buf_len then
        fill_dirents entries (count + dirent_len (d_name x)) offset buf_len
          (out ++ [MkDirent (d_name x) (d_ino x) (d_offset x) (dirent_type (d_kind x))])
      else (out, count, offset, false)
  end.

(** A change of the global table. *)
Definition set_readdir_table (g : readdir_table -> readdir_table) : Op D unit := fun w =>
  (Ok tt, set_dirs w (g (w_dirs w))).

(** The [loop]; [fuel] bounds its rounds. *)
Fixpoint readdir_rounds (fuel : nat) (numer offset buf_len count : Z) (out : list Dirent64) :
  Op D (Z * list Dirent64) :=
  match fuel with
  | O => op_unwrap None
  | S fuel =>
      entries ← dbfs_common_readdir numer offset false;
      match last entries with
      | None => mret (count, out)
      | Some x =>
          let '(out, count, offset, fitted) := fill_dirents entries count offset buf_len out in
          if negb fitted then mret (count, out)
          else if zlen entries <? 16 then mret (count, out)
          else
            set_readdir_table (push_readdir_table numer (ReadDir (d_offset x) (d_name x)));;
            readdir_rounds fuel numer offset buf_len count out
      end
  end.

(** Three rounds are enough: the first lists every entry. *)
Definition readdir_fuel : nat := 3.

(** [dbfs_readdir(file, dirents)] for a buffer of [buf_len] bytes. An error of
    the listing is the only error string. *)
Definition dbfs_readdir (numer buf_len : Z) : Op D (Z * list Dirent64) :=
  if buf_len =? 0 then
    room ← read_tx Unwrap (readdir_room numer); mret (room, [])
  else
    read_tx Unwrap (tx_expect (get_bucket (usize_be numer)));;
    set_readdir_table (fun t => (pop_readdir_table numer t).2);;
    readdir_rounds readdir_fuel numer 0 buf_len 0 [].
End ops.

(** ** What a listing returns *)

Definition kind_of (n : node) : DbfsFileType := default RegularFile (file_type_of_perm (n_mode n)).

(** The entry for [name] and [ino] at [offset]. *)
Definition dir_entry (s : fs) (plus : bool) (offset : Z) (x : bytes * Z) : DbfsDirEntry :=
  let kind := default RegularFile (kind_of <$> f_nodes s !! x.2) in
  DirEntry x.2 offset kind x.1
    (if plus then (fun n => attr_of x.2 n kind) <$> f_nodes s !! x.2 else None).

Definition listing (s : fs) (plus : bool) (offset : Z) (names : list (bytes * Z)) :
  list DbfsDirEntry := imap (fun i x => dir_entry s plus (offset + Z.of_nat i) x) names.

(** The entry a pair of the bucket holds. *)
Definition entry_pair (n : node) (kv : bytes * bytes) : option (bytes * Z) :=
  match parse_key kv.1 with
  | KEntry name => (name,.) <$> n_entries n !! name
  | _ => None
  end.

Section facts.
Context {D : Type} `{JammDb D, !JammDbLaws D, !Reliable D}.
Implicit Types (d : D) (w : world D) (s : fs) (n : node).

Lemma after_data_colon name : after_colon (generate_data_key name) = Some name.
Proof. done. Qed.

(** The keys a listing keeps are those of the entries. *)
Lemma starts_with_data k :
  starts_with k (bs "data:") = true <-> exists name, parse_key k = KEntry name.
Proof.
  split.
  - intros Hk. pose proof (starts_with_inv _ _ Hk) as E. eexists.
    apply parse_key_iff; [|exact E]. exact I.
  - intros [name Hn]. apply parse_key_iff in Hn; [|exact I]. subst k. apply starts_with_app.
Qed.

Lemma kind_of_perm s ino n d :
  represents d s -> f_nodes s !! ino = Some n ->
  file_type_of_perm (Perm.from_bits_truncate (n_mode n)) = Some (kind_of n).
Proof.
  intros Hr Hn. pose proof (rep_ok _ _ _ _ Hr Hn) as Hok. unfold kind_of.
  rewrite Perm.from_bits_truncate_u16 by apply (ok_mode _ Hok).
  by destruct (ok_type _ Hok) as [t ->].
Qed.

Lemma readdir_entry_runs d s name ino n offset plus :
  represents d s -> f_nodes s !! ino = Some n ->
  readdir_entry name (usize_to_string ino) offset plus d =
  Ok (dir_entry s plus offset (name, ino), d).
Proof.
  intros Hr Hn. pose proof (rep_ino _ _ _ _ Hr Hn) as Hi.
  pose proof (rep_ok _ _ _ _ Hr Hn) as Hok. unfold readdir_entry, dir_entry.
  rewrite (parse_usize_to_string _ Hi). erewrite tx_bind_ok by reflexivity. cbn [fst snd].
  rewrite Hn. cbn [fmap option_fmap option_map default from_option]. destruct plus.
  - rewrite (tx_bind_ok _ _ _ (attr_of ino n (kind_of n)) d); [done|].
    unfold nested_attr. rewrite begin_ok.
    pose proof (attr_tx_refines ino Hi d s Hr) as HA. unfold agree, reading, t_attr in HA.
    rewrite Hn in HA.
    destruct (ok_type _ Hok) as [t Ht]. unfold kind_of. rewrite Ht in *. cbn in HA.
    destruct (attr_tx ino d) as [[a d']|e|]; [|done|done]. by destruct HA as [-> _].
  - erewrite tx_bind_ok by (apply tx_expect_ok, get_bucket_ok; by eapply rep_has).
    erewrite tx_bind_ok.
    2: { eapply read_field_ok; [exact (rep_get _ _ _ _ KMode Hr Hn I)|].
         apply u16_of_be, (ok_mode _ Hok). }
    rewrite (tx_bind_ok _ _ _ (kind_of n) d); [done|]. by rewrite (kind_of_perm s ino n d).
Qed.

Lemma readdir_loop_runs d s ino n plus l offset buf :
  represents d s -> f_nodes s !! ino = Some n ->
  (forall name i, n_entries n !! name = Some i -> is_Some (f_nodes s !! i)) ->
  (forall kv, kv ∈ l -> node_val n (parse_key kv.1) = Some kv.2) ->
  0 <= offset -> offset + zlen l < 2 ^ 64 ->
  readdir_loop l offset plus buf d =
  Ok (buf ++ listing s plus offset (omap (entry_pair n) l), d).
Proof.
  intros Hr Hn Hcl. revert offset buf. induction l as [|[k v] l IH]; intros offset buf Hl Ho Hb.
  { cbn. by rewrite app_nil_r. }
  pose proof (Hl (k, v) ltac:(left)) as Hkv. cbn in Hkv.
  assert (Hl' : forall kv, kv ∈ l -> node_val n (parse_key kv.1) = Some kv.2)
    by (intros; apply Hl; by right).
  assert (Hlen : zlen ((k, v) :: l) = 1 + zlen l) by (unfold zlen; cbn [length]; lia).
  pose proof (zlen_nonneg l).
  cbn [readdir_loop omap list_omap]. destruct (starts_with k (bs "data:")) eqn:Ek.
  - apply starts_with_data in Ek as [name Ek]. rewrite Ek in Hkv. cbn in Hkv.
    apply fmap_Some in Hkv as (i & Hi & ->). destruct (Hcl _ _ Hi) as [m Hm].
    assert (E : entry_pair n (k, usize_to_string i) = Some (name, i))
      by (unfold entry_pair; cbn [fst]; by rewrite Ek, Hi).
    cbn [omap list_omap]. rewrite E.
    apply parse_key_iff in Ek; [|exact I]. subst k. cbn [key_bytes].
    rewrite after_data_colon. erewrite tx_bind_ok by reflexivity.
    erewrite tx_bind_ok by (by eapply readdir_entry_runs).
    rewrite w64_small by (unfold is_u64; lia). rewrite IH by (done || lia).
    rewrite <- app_assoc. do 2 f_equal. unfold listing. cbn [imap app].
    rewrite Z.add_0_r. do 2 f_equal. apply imap_ext. intros j x _. cbn. f_equal. lia.
  - assert (E : entry_pair n (k, v) = None).
    { unfold entry_pair. cbn [fst]. destruct (parse_key k) eqn:Ep; try done.
      assert (starts_with k (bs "data:") = true) by (apply starts_with_data; by eexists).
      congruence. }
    rewrite E. rewrite IH by (done || lia). done.
Qed.

(** The entries of a directory, in the order of their names. *)
Definition dir_names (names : list (bytes * Z)) (n : node) : Prop :=
  StronglySorted key_lt names.*1 /\
  forall name ino, (name, ino) ∈ names <-> n_entries n !! name = Some ino.

Lemma omap_entries_sorted n (l : list (bytes * bytes)) :
  StronglySorted key_lt l.*1 -> StronglySorted key_lt (omap (entry_pair n) l).*1.
Proof.
  assert (HK : forall kv x, entry_pair n kv = Some x -> kv.1 = generate_data_key x.1).
  { intros kv x. unfold entry_pair. destruct (parse_key kv.1) eqn:E; try done.
    destruct (n_entries n !! name); [|done]. cbn. intros [= <-].
    by apply parse_key_iff in E. }
  induction l as [|kv l IH]; intros Hs; [constructor|].
  cbn in Hs. apply StronglySorted_inv in Hs as [Hs Hlt]. specialize (IH Hs).
  cbn [omap list_omap]. destruct (entry_pair n kv) as [x|] eqn:E; [|done].
  cbn. constructor; [done|]. rewrite Forall_fmap, Forall_forall.
  intros y (kv' & Hin & E')%list_elem_of_omap.
  rewrite Forall_fmap, Forall_forall in Hlt. specialize (Hlt _ Hin). cbn in Hlt |- *.
  unfold key_lt in Hlt. rewrite (HK _ _ E), (HK _ _ E') in Hlt.
  unfold generate_data_key in Hlt. by rewrite blt_app_prefix in Hlt.
Qed.

Lemma dir_names_pairs d s ino n :
  represents d s -> f_nodes s !! ino = Some n ->
  dir_names (omap (entry_pair n) (db_pairs d (usize_be ino))) n.
Proof.
  intros Hr Hn. split; [apply omap_entries_sorted, db_pairs_sorted|].
  intros name i. rewrite list_elem_of_omap. split.
  - intros ([k v] & _ & E). unfold entry_pair in E. cbn [fst] in E.
    destruct (parse_key k) as [| | | | | | | | | | |nm| | |] eqn:Ep; try done.
    destruct (n_entries n !! nm) eqn:El; [|done]. cbn in E. by simplify_eq.
  - intros Hi. exists (generate_data_key name, usize_to_string i). split.
    + apply db_pairs_elem. change (generate_data_key name) with (key_bytes (KEntry name)).
      rewrite (rep_get _ _ _ _ (KEntry name) Hr Hn I). cbn. by rewrite Hi.
    + unfold entry_pair. cbn [fst]. change (generate_data_key name) with (key_bytes (KEntry name)).
      by rewrite parse_key_bytes, Hi.
Qed.

(** The listing of a directory whose cursor has been placed. *)
Lemma readdir_runs w s ino n plus offset names pairs :
  represents (w_db w) s -> f_nodes s !! ino = Some n ->
  (forall name i, n_entries n !! name = Some i -> is_Some (f_nodes s !! i)) ->
  readdir_cursor (usize_be ino) (get_readdir_table ino (w_dirs w)) offset (w_db w) =
    Ok (pairs, w_db w) ->
  (forall kv, kv ∈ pairs -> node_val n (parse_key kv.1) = Some kv.2) ->
  names = omap (entry_pair n) pairs -> 0 <= offset -> offset + zlen pairs < 2 ^ 64 ->
  dbfs_common_readdir ino offset plus w = (Ok (listing s plus offset names), w).
Proof.
  intros Hr Hn Hcl Hc Hp -> Ho Hb. unfold dbfs_common_readdir. eapply read_tx_ok.
  unfold readdir_tx. erewrite tx_bind_ok by (apply get_bucket_ok; by eapply rep_has).
  erewrite tx_bind_ok by exact Hc. by erewrite readdir_loop_runs by done.
Qed.

Lemma db_pairs_val d s ino n kv :
  represents d s -> f_nodes s !! ino = Some n -> kv ∈ db_pairs d (usize_be ino) ->
  node_val n (parse_key kv.1) = Some kv.2.
Proof.
  intros Hr Hn Hin. destruct kv as [k v]. apply db_pairs_elem in Hin.
  destruct (rep_node _ _ Hr _ _ Hn) as (_ & [_ Hat] & _). by rewrite <- Hat.
Qed.

(** C27: Listing a directory that no interrupted listing is recorded for
    returns every entry of it once, in the ascending order of the names, with
    consecutive offsets, the number and the type of its inode and, for
    [readdirplus], its attributes; the world is as before. *)
Theorem readdir_lists_entries w s ino n plus offset :
  represents (w_db w) s -> wf s -> f_nodes s !! ino = Some n -> w_dirs w !! ino = None ->
  0 <= offset -> offset + zlen (db_pairs (w_db w) (usize_be ino)) < 2 ^ 64 ->
  exists names, dir_names names n /\
    dbfs_common_readdir ino offset plus w = (Ok (listing s plus offset names), w).
Proof.
  intros Hr Hwf Hn Hno Ho Hb.
  exists (omap (entry_pair n) (db_pairs (w_db w) (usize_be ino))).
  split; [by eapply dir_names_pairs|].
  apply (readdir_runs _ _ _ n _ _ _ (db_pairs (w_db w) (usize_be ino)));
    [done|done| | |by intros kv; eapply db_pairs_val|done|done|done].
  - intros name i Hi. apply (wf_closed _ Hwf ino name). unfold entry. by rewrite Hn.
  - unfold get_readdir_table. by rewrite Hno.
Qed.

(** A cursor at a key of a sorted list of pairs: what it walks. *)
Lemma seek_pairs (l : list (bytes * bytes)) k v :
  StronglySorted key_lt l.*1 -> (k, v) ∈ l ->
  exists l1 l2, l = l1 ++ (k, v) :: l2 /\ filter (fun kv => ble k kv.1 = true) l = (k, v) :: l2.
Proof.
  intros Hs (l1 & l2 & ->)%list_elem_of_split. exists l1, l2. split; [done|].
  rewrite fmap_app, fmap_cons in Hs. cbn in Hs.
  assert (Hb : forall kv, kv ∈ l1 -> key_lt kv.1 k).
  { intros kv Hin. induction l1 as [|x l1 IH]; [by apply not_elem_of_nil in Hin|].
    cbn in Hs. apply StronglySorted_inv in Hs as [Hs Hx].
    apply elem_of_cons in Hin as [->|Hin]; [|by apply IH].
    rewrite Forall_forall in Hx. apply Hx, elem_of_app. right. left. }
  assert (Ha : forall kv, kv ∈ l2 -> key_lt k kv.1).
  { intros kv Hin. clear Hb. induction l1 as [|x l1 IH].
    - cbn in Hs. apply StronglySorted_inv in Hs as [_ Hx]. rewrite Forall_forall in Hx.
      apply Hx, list_elem_of_fmap. by exists kv.
    - cbn in Hs. apply StronglySorted_inv in Hs as [Hs _]. by apply IH. }
  rewrite filter_app, filter_cons. cbn [fst].
  rewrite decide_True by (unfold ble; by rewrite blt_irrefl).
  replace (filter _ l1) with (@nil (bytes * bytes)).
  2: { symmetry. apply filter_none. intros kv Hin. unfold ble.
       specialize (Hb _ Hin). unfold key_lt in Hb. by rewrite Hb. }
  cbn [app]. f_equal. apply filter_all. intros kv Hin. specialize (Ha _ Hin).
  unfold ble. destruct (blt kv.1 k) eqn:E; [|done].
  unfold key_lt in Ha. pose proof (blt_trans _ _ _ Ha E) as Hbad. by rewrite blt_irrefl in Hbad.
Qed.

(** A strictly sorted list splits at a key in one way. *)
Lemma sorted_split (l1 l2 l1' l2' : list (bytes * Z)) x i :
  StronglySorted key_lt (l1 ++ (x, i) :: l2).*1 ->
  l1 ++ (x, i) :: l2 = l1' ++ (x, i) :: l2' -> l1' = l1 /\ l2' = l2.
Proof.
  revert l1'. induction l1 as [|y l1 IH]; intros [|y' l1'] Hs E; cbn in *.
  - by simplify_eq.
  - exfalso. injection E as <- E. apply StronglySorted_inv in Hs as [_ Hx].
    rewrite E, fmap_app in Hx. apply Forall_app in Hx as [_ Hx]. apply Forall_cons in Hx as [Hx _].
    unfold key_lt in Hx. cbn in Hx. by rewrite blt_irrefl in Hx.
  - exfalso. injection E as -> E. apply StronglySorted_inv in Hs as [_ Hx].
    rewrite fmap_app in Hx. apply Forall_app in Hx as [_ Hx]. apply Forall_cons in Hx as [Hx _].
    unfold key_lt in Hx. cbn in Hx. by rewrite blt_irrefl in Hx.
  - injection E as <- E. apply StronglySorted_inv in Hs as [Hs _].
    by destruct (IH _ Hs E) as [-> ->].
Qed.

Lemma resume_runs w s ino n plus offset key i before after :
  represents (w_db w) s -> wf s -> f_nodes s !! ino = Some n ->
  w_dirs w !! ino = Some (ReadDir offset key) ->
  omap (entry_pair n) (db_pairs (w_db w) (usize_be ino)) = before ++ (key, i) :: after ->
  0 <= offset -> offset + 1 + zlen (db_pairs (w_db w) (usize_be ino)) < 2 ^ 64 ->
  dbfs_common_readdir ino (offset + 1) plus w = (Ok (listing s plus (offset + 1) after), w).
Proof.
  intros Hr Hwf Hn Htab Hom Ho Hb. pose proof (zlen_nonneg (db_pairs (w_db w) (usize_be ino))).
  pose proof (dir_names_pairs _ _ _ _ Hr Hn) as [HS HE].
  set (l := db_pairs (w_db w) (usize_be ino)) in *.
  assert (Hkey : n_entries n !! key = Some i).
  { apply HE. rewrite Hom. apply elem_of_app. right. left. }
  assert (Hin : (generate_data_key key, usize_to_string i) ∈ l).
  { apply db_pairs_elem. change (generate_data_key key) with (key_bytes (KEntry key)).
    rewrite (rep_get _ _ _ _ (KEntry key) Hr Hn I). cbn. by rewrite Hkey. }
  destruct (seek_pairs l _ _ (db_pairs_sorted _ _) Hin) as (l1 & l2 & Hl & Hf).
  assert (Hlen : zlen l2 <= zlen l).
  { rewrite Hl. unfold zlen. rewrite length_app. cbn [length]. lia. }
  assert (Hafter : after = omap (entry_pair n) l2).
  { rewrite Hl, omap_app in Hom, HS. cbn [omap list_omap] in Hom, HS.
    replace (entry_pair n (generate_data_key key, usize_to_string i)) with (Some (key, i)) in *.
    2: { unfold entry_pair. cbn [fst].
         change (generate_data_key key) with (key_bytes (KEntry key)).
         by rewrite parse_key_bytes, Hkey. }
    by destruct (sorted_split _ _ _ _ _ _ HS Hom) as [_ ->]. }
  apply (readdir_runs _ _ _ n _ _ _ l2); [done|done| | | |done|lia|lia].
  - intros nm j Hj. apply (wf_closed _ Hwf ino nm). unfold entry. by rewrite Hn.
  - unfold get_readdir_table. rewrite Htab. unfold readdir_cursor. cbn [rd_offset rd_key].
    rewrite w64_small by (unfold is_u64; lia). rewrite Z.eqb_refl.
    erewrite tx_bind_ok by reflexivity. unfold seek_after. rewrite db_seek_spec. fold l.
    rewrite Hf. rewrite bool_decide_eq_true_2; [done|].
    apply db_pairs_elem in Hin. by eexists.
  - intros kv Hkv. eapply db_pairs_val; [done..|]. fold l. rewrite Hl.
    apply elem_of_app. right. by right.
Qed.

(** A listing that was interrupted resumes after the entry recorded in the
    table: of the entries in order, exactly those behind the recorded one are
    returned, none twice and none skipped. *)
Theorem readdir_resumes w s ino n plus offset key i :
  represents (w_db w) s -> wf s -> f_nodes s !! ino = Some n ->
  w_dirs w !! ino = Some (ReadDir offset key) -> n_entries n !! key = Some i ->
  0 <= offset -> offset + 1 + zlen (db_pairs (w_db w) (usize_be ino)) < 2 ^ 64 ->
  exists before after, dir_names (before ++ (key, i) :: after) n /\
    dbfs_common_readdir ino (offset + 1) plus w = (Ok (listing s plus (offset + 1) after), w).
Proof.
  intros Hr Hwf Hn Htab Hkey Ho Hb. pose proof (dir_names_pairs _ _ _ _ Hr Hn) as HD.
  assert (Hin : (key, i) ∈ omap (entry_pair n) (db_pairs (w_db w) (usize_be ino)))
    by (by apply HD).
  apply list_elem_of_split in Hin as (before & after & Hom). exists before, after.
  rewrite <- Hom. split; [done|]. by eapply resume_runs.
Qed.

End facts.

(** ** The kernel's listing *)

Section dirents.
Context {D : Type} `{JammDb D, !JammDbLaws D, !Reliable D}.
Variable dirent_len : bytes -> Z.
Implicit Types (w : world D) (s : fs) (n : node) (es : list DbfsDirEntry).

Definition to_dirent (x : DbfsDirEntry) : Dirent64 :=
  MkDirent (d_name x) (d_ino x) (d_offset x) (dirent_type (d_kind x)).

Definition dirents_len (es : list DbfsDirEntry) : Z :=
  foldr (fun x total => dirent_len (d_name x) + total) 0 es.

(** The entries written are the longest prefix that fits. *)
Lemma fill_dirents_ok es count offset buf_len out :
  count <= buf_len ->
  exists k off', (k <= length es)%nat /\
    fill_dirents dirent_len es count offset buf_len out =
      (out ++ (to_dirent <$> take k es), count + dirents_len (take k es), off',
       bool_decide (k = length es)) /\
    count + dirents_len (take k es) <= buf_len /\
    ((k < length es)%nat -> buf_len < count + dirents_len (take (S k) es)) /\
    (k = length es -> off' = default offset ((fun x => d_offset x + 1) <$> last es)).
Proof.
  revert count offset out. induction es as [|x es IH]; intros count offset out Hc.
  { exists 0%nat, offset. cbn. rewrite app_nil_r, Z.add_0_r. split_and!; try done; lia. }
  cbn [fill_dirents].
  change (MkDirent (d_name x) (d_ino x) (d_offset x) (dirent_type (d_kind x))) with (to_dirent x).
  destruct (Z.leb_spec (count + dirent_len (d_name x)) buf_len) as [Hle|Hgt].
  - destruct (IH (count + dirent_len (d_name x)) (d_offset x + 1)
      (out ++ [to_dirent x]) Hle) as (k & off' & Hk & -> & Hb & Hn & Hoff).
    exists (S k), off'. cbn [length take dirents_len foldr fmap list_fmap].
    change (foldr _ 0 (take k es)) with (dirents_len (take k es)).
    rewrite <- app_assoc. split; [lia|]. split.
    { rewrite Z.add_assoc. f_equal. apply bool_decide_ext. lia. }
    split; [lia|]. split.
    + intros Hlt. cbn [take] in Hn |- *. specialize (Hn ltac:(lia)). cbn [foldr].
      unfold dirents_len in *. lia.
    + intros E. rewrite Hoff by lia. rewrite last_cons. by destruct (last es).
  - exists 0%nat, (d_offset x + 1). cbn [take fmap list_fmap dirents_len foldr length].
    rewrite app_nil_r, Z.add_0_r. split; [lia|]. split; [done|]. split; [lia|]. split; [|lia].
    intros _. rewrite take_0. cbn [foldr]. lia.
Qed.

Lemma zlen_omap_le {A B} (f : A -> option B) l : zlen (omap f l) <= zlen l.
Proof.
  unfold zlen. induction l as [|x l IH]; [done|]. cbn. destruct (f x); cbn; lia.
Qed.

Lemma zlen_listing s plus offset names : zlen (listing s plus offset names) = zlen names.
Proof. unfold listing, zlen. by rewrite length_imap. Qed.

Lemma last_listing s plus offset names x i :
  last names = Some (x, i) ->
  last (listing s plus offset names) =
    Some (dir_entry s plus (offset + zlen names - 1) (x, i)).
Proof.
  intros Hl. apply last_Some in Hl as [l ->]. unfold listing. rewrite imap_app. cbn [imap].
  rewrite last_snoc. cbn. rewrite Nat.add_0_r. do 2 f_equal. unfold zlen. rewrite length_app.
  cbn [length]. lia.
Qed.

Lemma dbfs_readdir_start w s numer n buf_len :
  represents (w_db w) s -> f_nodes s !! numer = Some n -> buf_len <> 0 ->
  dbfs_readdir dirent_len numer buf_len w =
  readdir_rounds dirent_len readdir_fuel numer 0 buf_len 0 []
    (set_dirs w (pop_readdir_table numer (w_dirs w)).2).
Proof.
  intros Hr Hn Hb. unfold dbfs_readdir. rewrite Zeqb_ne by lia.
  erewrite op_bind_ok by (eapply read_tx_ok, tx_expect_ok, get_bucket_ok; by eapply rep_has).
  by erewrite op_bind_ok by reflexivity.
Qed.

(** C26: The kernel's listing fills its buffer and ends. For every directory
    and every buffer [dbfs_readdir] returns after at most two rounds; it has
    written the longest prefix of the entries, in the order of their names,
    that the buffer has room for, the number it returns is the room they
    take, and the database is as before. *)
Theorem dbfs_readdir_fills w s numer n buf_len :
  represents (w_db w) s -> wf s -> f_nodes s !! numer = Some n -> 0 < buf_len ->
  zlen (db_pairs (w_db w) (usize_be numer)) < 2 ^ 63 ->
  exists names k w', dir_names names n /\
    dbfs_readdir dirent_len numer buf_len w =
      (Ok (dirents_len (take k (listing s false 0 names)),
           to_dirent <$> take k (listing s false 0 names)), w') /\
    w_db w' = w_db w /\ dirents_len (take k (listing s false 0 names)) <= buf_len /\
    ((k < length names)%nat -> buf_len < dirents_len (take (S k) (listing s false 0 names))).
Proof.
  intros Hr Hwf Hn Hb Hbig. pose proof (dir_names_pairs _ _ _ _ Hr Hn) as HD.
  set (names := omap (entry_pair n) (db_pairs (w_db w) (usize_be numer))) in *.
  set (es := listing s false 0 names).
  destruct (fill_dirents_ok es 0 0 buf_len [] ltac:(lia)) as (k & off' & Hk & Hfill & Hle & Hnext & Hoff).
  cbn [app] in Hfill. rewrite Z.add_0_l in *.
  assert (Hln : length es = length names) by (unfold es, listing; apply length_imap).
  set (w1 := set_dirs w (pop_readdir_table numer (w_dirs w)).2).
  assert (Hpop : w_dirs w1 !! numer = None) by apply lookup_delete_eq.
  assert (Hcl : forall name i, n_entries n !! name = Some i -> is_Some (f_nodes s !! i)).
  { intros name i Hi. apply (wf_closed _ Hwf numer name). unfold entry. by rewrite Hn. }
  assert (Hround1 : dbfs_common_readdir numer 0 false w1 = (Ok es, w1)).
  { apply (readdir_runs _ _ _ n _ _ _ (db_pairs (w_db w1) (usize_be numer)));
      [done|done|done| |by intros kv; eapply db_pairs_val|done|done|change (w_db w1) with (w_db w); lia].
    unfold get_readdir_table. by rewrite Hpop. }
  rewrite (dbfs_readdir_start w s numer n buf_len Hr Hn ltac:(lia)). exists names, k.
  unfold readdir_fuel. cbn [readdir_rounds].
  erewrite op_bind_ok by exact Hround1. cbv beta. fold es.
  destruct (last names) as [[x i]|] eqn:Elast.
  2: { apply last_None in Elast. exists w1. split; [done|].
       assert (Hes : es = []) by (unfold es; by rewrite Elast).
       rewrite Hes in *. cbn in Hk. replace k with 0%nat by lia. rewrite Elast. cbn.
       split_and!; try done; lia. }
  pose proof (last_listing s false 0 _ _ _ Elast) as El. fold es in El. rewrite El.
  rewrite Hfill. cbv beta iota. rewrite <- Hln.
  destruct (bool_decide_reflect (k = length es)) as [->|Hpart]; cbn [negb].
  2: { exists w1. by split_and!. }
  destruct (zlen es <? 16); [exists w1; by split_and!|].
  erewrite op_bind_ok by reflexivity. cbn [readdir_rounds d_offset d_name dir_entry].
  apply last_Some in Elast as [before Elast].
  eset (w2 := set_dirs w1 _). exists w2.
  assert (Hpos : 1 <= zlen names) by (rewrite Elast, zlen_app; change (zlen [(x, i)]) with 1; pose proof (zlen_nonneg before); lia).
  assert (Hround2 : dbfs_common_readdir numer off' false w2 = (Ok (listing s false off' []), w2)).
  { rewrite Hoff, El by done. cbn [fmap option_fmap option_map default from_option d_offset dir_entry id].
    apply (resume_runs w2 s numer n false _ x i before []); try done.
    - apply lookup_insert_eq.
    - lia.
    - cbn. rewrite Z.add_0_l, Z.sub_add.
      pose proof (zlen_omap_le (entry_pair n) (db_pairs (w_db w) (usize_be numer))) as Hnl.
      change (zlen names <= zlen (db_pairs (w_db w) (usize_be numer))) in Hnl. lia. }
  erewrite op_bind_ok by exact Hround2. cbn. by split_and!.
Qed.
End dirents.

(** ** Witnesses *)

(** The root with the file [a] and the directory [d], and a listing of it
    that stopped at [a]. *)
Definition list_world : world mapdb := World (image tree_fs) 4 ∅.
Definition stopped_world : world mapdb :=
  World (image tree_fs) 4 {[1 := ReadDir 1 (bs "a")]}.
Definition tree_root : node :=
  enter_sample (bs "d") 3 (enter_sample (bs "a") 2 (dir_node 1 {[bs "." := 1]})).

Lemma readdir_lists_entries_witness :
  exists names, dir_names names tree_root /\
    dbfs_common_readdir 1 0 true list_world = (Ok (listing tree_fs true 0 names), list_world).
Proof.
  refine (readdir_lists_entries list_world tree_fs 1 tree_root true 0
    (image_represents _ tree_fs_ok) tree_fs_wf _ _ _ _).
  - reflexivity.
  - reflexivity.
  - done.
  - by_eval.
Defined.

Lemma readdir_resumes_witness :
  exists before after, dir_names (before ++ (bs "a", 2) :: after) tree_root /\
    dbfs_common_readdir 1 (1 + 1) false stopped_world =
      (Ok (listing tree_fs false (1 + 1) after), stopped_world).
Proof.
  refine (readdir_resumes stopped_world tree_fs 1 tree_root false 1 (bs "a") 2
    (image_represents _ tree_fs_ok) tree_fs_wf _ _ _ _ _).
  - reflexivity.
  - reflexivity.
  - reflexivity.
  - done.
  - by_eval.
Defined.

Lemma dbfs_readdir_fills_witness :
  exists names k w', dir_names names tree_root /\
    dbfs_readdir (fun name => 19 + zlen name) 1 30 list_world =
      (Ok (dirents_len (fun name => 19 + zlen name) (take k (listing tree_fs false 0 names)),
           to_dirent <$> take k (listing tree_fs false 0 names)), w') /\
    w_db w' = w_db list_world /\
    dirents_len (fun name => 19 + zlen name) (take k (listing tree_fs false 0 names)) <= 30 /\
    ((k < length names)%nat -> 30 <
      dirents_len (fun name => 19 + zlen name) (take (S k) (listing tree_fs false 0 names))).
Proof.
  refine (dbfs_readdir_fills (fun name => 19 + zlen name) list_world tree_fs 1 tree_root 30
    (image_represents _ tree_fs_ok) tree_fs_wf _ _ _).
  - reflexivity.
  - done.
  - by_eval.
Defined.
