(* ===== verification/Rename.v ===== *)
(** * Renaming

    What [dbfs_common_rename] of src/src/inode.rs, modelled in [Dir], does to
    the tree: it moves the entry of a file, within a directory or to another
    one, and keeps the tree well formed when the new name is free. An existing
    target is only noticed in a sticky directory; elsewhere its entry is
    overwritten and the tree breaks. *)

From S2P Require Import Prelude Bytes Common Store MapDb Access Tree Layout Image Inode Dir.

(** The directory after a rename within it. *)
Definition shift_entry (old_name new_name : bytes) (ino : Z) (t : DbfsTimeSpec) (p : node) : node :=
  touch t (with_entries (fun m => <[new_name := ino]> (base.delete old_name m)) p).

(** The node that was moved: the parent entry of a directory follows. *)
Definition moved (new_dir : Z) (t : DbfsTimeSpec) (n : node) : node :=
  with_ctime t (if is_dir_mode (n_mode n) then with_entries <[bs ".." := new_dir]> n else n).

(** The tree after the entry has been moved, before the inode is touched; and
    after that. *)
Definition t_shift (old_dir new_dir : Z) (old_name new_name : bytes) (ino : Z)
    (t : DbfsTimeSpec) (s : fs) : fs :=
  if decide (old_dir = new_dir) then upd new_dir (shift_entry old_name new_name ino t) s
  else upd new_dir (enter new_name ino t) (upd old_dir (leave old_name t) s).

Definition t_move (old_dir new_dir : Z) (old_name new_name : bytes) (ino : Z)
    (t : DbfsTimeSpec) (s : fs) : fs :=
  upd ino (moved new_dir t) (t_shift old_dir new_dir old_name new_name ino t s).

(** The tree after an empty directory that was in the way has been dropped. *)
Definition unname (name : bytes) (q : node) : node :=
  with_size (w64 (n_size q - 1)) (with_entries (base.delete name) q).

Definition t_drop (dir : Z) (name : bytes) (ino : Z) (s : fs) : fs :=
  remove_node ino (upd dir (unname name) s).

(** The tree after two entries have been exchanged: the entry [.] of the
    first inode, if it is a directory, is what changes, not its [..]. *)
Definition t_exchange (old_dir new_dir : Z) (old_name new_name : bytes) (ino target : Z)
    (n m : node) (t : DbfsTimeSpec) (s : fs) : fs :=
  let point (dir name : _) (j : Z) := upd dir (with_entries <[name := j]>) in
  let s := upd new_dir (touch t) (upd old_dir (touch t)
    (point old_dir old_name target (point new_dir new_name ino s))) in
  let s := upd target (with_ctime t) (upd ino (with_ctime t) s) in
  let s := if is_dir_mode (n_mode n) then point ino (bs ".") new_dir s else s in
  if is_dir_mode (n_mode m) then point target (bs "..") old_dir s else s.

(** The target that is noticed: there is one, and the directory is sticky. *)
Definition noticed (q : node) (name : bytes) : option Z :=
  if Perm.contains (Perm.from_bits_truncate (n_mode q)) Perm.S_ISVTX then n_entries q !! name else None.

Definition t_node (e : outcome node) (ino : Z) (s : fs) : outcome node :=
  match f_nodes s !! ino with Some n => Ok n | None => e end.
Definition t_guard (c : bool) (e : DbfsError) : outcome unit := if c then Ok tt else Err e.
Definition t_may_write (uid gid : Z) (n : node) : bool :=
  checkout_access (n_uid n) (n_gid n) (n_mode n) uid gid ACCESS_W_OK.

(** The inode to be renamed. *)
Definition t_rename_old (uid gid dir : Z) (name : bytes) (s : fs) : outcome (Z * node) :=
  p ← t_node (Err NoData) dir s;
  ino ← match n_entries p !! name with Some ino => Ok ino | None => Err NotFound end;
  t_guard (t_may_write uid gid p) AccessError;;
  n ← t_node Panic ino s;
  t_guard (negb (sticky_denies (n_mode p) uid (n_uid p) (n_uid n))) AccessError;;
  Ok (ino, n).

(** The target that is noticed. *)
Definition t_rename_new (uid gid dir : Z) (name : bytes) (s : fs) : outcome (option (Z * node)) :=
  q ← t_node (Err NoData) dir s;
  t_guard (t_may_write uid gid q) AccessError;;
  match noticed q name with
  | None => Ok None
  | Some target =>
      m ← t_node Panic target s;
      t_guard (negb (sticky_denies (n_mode q) uid (n_uid q) (n_uid m))) AccessError;;
      Ok (Some (target, m))
  end.

(** [dbfs_common_rename] on every branch. Dropping a target that is a file
    panics. *)
Definition t_rename (uid gid old_dir : Z) (old_name : bytes) (new_dir : Z) (new_name : bytes)
    (flags : Z) (t : DbfsTimeSpec) (s : fs) : outcome (unit * fs) :=
  '(ino, n) ← t_rename_old uid gid old_dir old_name s;
  found ← t_rename_new uid gid new_dir new_name s;
  let may_move := t_guard (negb (is_dir_mode (n_mode n) && negb (old_dir =? new_dir)
                                 && negb (t_may_write uid gid n))) AccessError in
  let move s := Ok (tt, t_move old_dir new_dir old_name new_name ino t s) in
  match found with
  | None =>
      t_guard (Z.land flags RENAME_EXCHANGE =? 0) NotFound;;
      may_move;; move s
  | Some (target, m) =>
      if negb (Z.land flags RENAME_EXCHANGE =? 0)
      then Ok (tt, t_exchange old_dir new_dir old_name new_name ino target n m t s)
      else
        t_guard (negb (is_dir_mode (n_mode m) && (2 <? n_size m))) NotEmpty;;
        may_move;;
        if is_dir_mode (n_mode m) then move (t_drop new_dir new_name target s) else Panic
  end.

Section move.
Context {D : Type} `{JammDb D, !JammDbLaws D, !Reliable D}.
Implicit Types (d : D) (w : world D) (s : fs) (p q n m : node).

(** The last steps of a move; [z] is what is taken for the size of the new
    directory. *)
Lemma enter_tx_agree d s old_dir new_dir old_name new_name ino t p q n z :
  represents d s -> time_ok t -> is_u64 z -> f_nodes s !! old_dir = Some p -> f_nodes s !! new_dir = Some q ->
  n_entries p !! old_name = Some ino -> f_nodes s !! ino = Some n ->
  ino <> old_dir -> ino <> new_dir ->
  agree (rename_enter_tx old_dir new_dir (generate_data_key old_name) (generate_data_key new_name)
           ino (n_mode n) z t d)
    (Ok (tt, t_move old_dir new_dir old_name new_name ino t (upd new_dir (with_size z) s))).
Proof.
  intros Hr Ht Hz Hp Hq He Hn Hno Hnn. unfold rename_enter_tx, t_move, t_shift. cbv zeta.
  pose proof (rep_ino _ _ _ _ Hr Hn) as Hi. pose proof (rep_ino _ _ _ _ Hr Hq) as Hnew.
  pose proof (ok_size _ (rep_ok _ _ _ _ Hr Hp)) as Hsp.
  pose proof (ok_size _ (rep_ok _ _ _ _ Hr Hq)) as Hsq.
  assert (Hlast : forall s0 d0, represents d0 (upd ino (with_ctime t) s0) ->
    f_nodes s0 !! ino = Some n ->
    agree (tx_when (is_dir_mode (n_mode n))
      (put (usize_be ino) (generate_data_key (bs "..")) (usize_to_string new_dir)) d0)
      (Ok (tt, upd ino (moved new_dir t) s0))).
  { intros s0 d0 Hr0 Hn0. destruct (is_dir_mode (n_mode n)) eqn:Ed; cbn [tx_when].
    - apply agree_last. eapply agree_put_entry; [exact Hr0|by apply upd_lookup_eq|done|intros d' Hr'].
      rewrite upd_upd in Hr'. split; [done|]. erewrite upd_ext; [exact Hr'|].
      intros x Hx. rewrite Hn0 in Hx. injection Hx as <-. unfold moved. by rewrite Ed.
    - replace (upd ino (moved new_dir t) s0) with (upd ino (with_ctime t) s0); [done|].
      apply upd_ext. intros x Hx. rewrite Hn0 in Hx. injection Hx as <-. unfold moved. by rewrite Ed. }
  eapply agree_del_entry; [done|done|done|intros d1 Hr1].
  destruct (decide (old_dir = new_dir)) as [<-|Hne].
  - rewrite Hp in Hq. injection Hq as <-. rewrite Z.eqb_refl.
    do 8 ag. rewrite upd_upd. fuse old_dir (fun p => shift_entry old_name new_name ino t (with_size z p)).
    do 2 ag. apply Hlast; [done|look].
  - rewrite (Zeqb_ne _ _ Hne).
    do 2 ag. fuse old_dir (unname old_name).
    do 2 ag. fuse new_dir (fun q => with_size (w64 (z + 1)) (with_entries <[new_name := ino]> q)).
    match goal with Hr' : represents _ _ |- _ => rewrite upd_comm in Hr' by done end.
    do 2 ag. fuse old_dir (leave old_name t).
    match goal with Hr' : represents _ _ |- _ => rewrite upd_comm in Hr' by done end.
    do 2 ag. rewrite (upd_comm _ old_dir new_dir), upd_upd by done.
    fuse new_dir (fun q => enter new_name ino t (with_size z q)).
    do 2 ag. apply Hlast; [done|look].
Qed.

Lemma t_node_ok e ino s n : f_nodes s !! ino = Some n -> t_node e ino s = Ok n.
Proof. unfold t_node. by intros ->. Qed.

Lemma rename_old_refines uid gid dir name :
  is_u64 dir ->
  refines (rename_old_tx (D := D) uid gid dir name)
    (reading (fun s => '(ino, n) ← t_rename_old uid gid dir name s;
       Ok (generate_data_key name, ino, n_uid n, n_gid n, n_mode n))).
Proof.
  intros Hdir d s Hr. unfold rename_old_tx, t_rename_old, t_node, t_may_write, reading.
  destruct (f_nodes s !! dir) as [p|] eqn:Hp; [|by eapply agree_missing].
  do 2 ag. cbn [mbind outcome_bind].
  destruct (n_entries p !! name) as [ino|] eqn:He; [|done]. cbn [fmap option_fmap option_map].
  do 3 ag. rewrite checkout_access_low_bits by done. unfold t_guard.
  apply agree_guard; [|by intros ->]. intros ->. cbn [mbind outcome_bind].
  eapply agree_unwrap; [apply parse_usize_to_string; by apply (ok_entries _ (rep_ok _ _ _ _ Hr Hp) name)|].
  pose proof (ok_entries _ (rep_ok _ _ _ _ Hr Hp) _ _ He) as Hi.
  destruct (f_nodes s !! ino) as [n|] eqn:Hn.
  2: { eapply agree_bind_panic; [|done]. unfold tx_expect.
    by rewrite (get_bucket_missing _ _ (rep_none _ _ Hr _ Hi Hn)). }
  eapply agree_bind_ok.
  { apply tx_expect_ok, get_bucket_ok. by eapply rep_has. }
  ag. cbn [mbind outcome_bind]. apply agree_guard; [|by intros ->].
  intros ->. do 2 ag. done.
Qed.

Lemma rename_new_refines uid gid dir name :
  is_u64 dir ->
  refines (rename_new_tx (D := D) uid gid dir name)
    (reading (fun s => found ← t_rename_new uid gid dir name s;
       Ok match found with
          | Some (target, m) => (generate_data_key name, Some target, n_mode m, n_size m)
          | None => ([], None, 0, 0)
          end)).
Proof.
  intros Hdir d s Hr. unfold rename_new_tx, t_rename_new, t_node, t_may_write, reading, noticed.
  destruct (f_nodes s !! dir) as [q|] eqn:Hq; [|by eapply agree_missing].
  do 4 ag. cbn [mbind outcome_bind]. rewrite checkout_access_low_bits by done. unfold t_guard.
  apply agree_guard; [|by intros ->]. intros ->. cbn [mbind outcome_bind]. ag.
  destruct (n_entries q !! name) as [j|] eqn:He; [|by destruct (Perm.contains _ _)].
  cbn [fmap option_fmap option_map]. destruct (Perm.contains _ _) eqn:Hst; [|done].
  pose proof (ok_entries _ (rep_ok _ _ _ _ Hr Hq) _ _ He) as Hj.
  eapply agree_unwrap; [by apply parse_usize_to_string|].
  destruct (f_nodes s !! j) as [m|] eqn:Hm.
  2: { eapply agree_bind_panic; [|done]. unfold tx_expect.
    by rewrite (get_bucket_missing _ _ (rep_none _ _ Hr _ Hj Hm)). }
  eapply agree_bind_ok.
  { apply tx_expect_ok, get_bucket_ok. by eapply rep_has. }
  ag. cbn [mbind outcome_bind]. unfold sticky_denies. rewrite Hst. cbn [andb].
  apply agree_guard; [|by intros ->].
  intros ->. do 2 ag. done.
Qed.

(** The targets the writes below are for. *)
Definition rename_apart (s : fs) (old_dir : Z) (old_name : bytes) (new_dir : Z) (new_name : bytes) : Prop :=
  forall ino, entry s old_dir old_name = Some ino ->
    ino <> old_dir /\ ino <> new_dir /\
    forall target, entry s new_dir new_name = Some target -> 
      forall q, f_nodes s !! new_dir = Some q -> noticed q new_name = Some target ->
      target <> old_dir /\ target <> new_dir /\ target <> ino.

Lemma t_rename_old_inv uid gid dir name s ino n :
  t_rename_old uid gid dir name s = Ok (ino, n) ->
  exists p, f_nodes s !! dir = Some p /\ n_entries p !! name = Some ino /\ f_nodes s !! ino = Some n.
Proof.
  unfold t_rename_old, t_node, t_guard. destruct (f_nodes s !! dir) as [p|]; [|done].
  cbn [mbind outcome_bind]. destruct (n_entries p !! name) as [j|] eqn:Hj; [|done].
  cbn [mbind outcome_bind]. destruct (t_may_write _ _ p); [|done]. cbn [mbind outcome_bind].
  destruct (f_nodes s !! j) as [m|] eqn:Hm; [|done]. cbn [mbind outcome_bind].
  destruct (negb _); [|done]. intros [= <- <-]. by exists p.
Qed.

Lemma t_rename_new_inv uid gid dir name s found :
  t_rename_new uid gid dir name s = Ok found ->
  exists q, f_nodes s !! dir = Some q /\ noticed q name = fst <$> found /\
    forall target m, found = Some (target, m) -> f_nodes s !! target = Some m /\ n_entries q !! name = Some target.
Proof.
  unfold t_rename_new, t_node, t_guard. destruct (f_nodes s !! dir) as [q|]; [|done].
  cbn [mbind outcome_bind]. destruct (t_may_write _ _ q); [|done]. cbn [mbind outcome_bind].
  destruct (noticed q name) as [j|] eqn:Hj.
  - destruct (f_nodes s !! j) as [m|] eqn:Hm; [|done]. cbn [mbind outcome_bind].
    destruct (negb _); [|done]. intros [= <-]. exists q. split; [done|]. split; [done|].
    intros target m' [= <- <-]. split; [done|]. unfold noticed in Hj. by destruct (Perm.contains _ _).
  - intros [= <-]. by exists q.
Qed.

Lemma upd_id s i g : (forall n, f_nodes s !! i = Some n -> g n = n) -> upd i g s = s.
Proof.
  intros Hg. transitivity (upd i (fun n => n) s); [by apply upd_ext|].
  destruct s as [f z]. unfold upd. f_equal. cbn. apply map_eq. intros j.
  destruct (decide (j = i)) as [->|]; [rewrite lookup_alter_eq|by rewrite lookup_alter_ne].
  by destruct (f !! i).
Qed.

Lemma with_size_same n : with_size (n_size n) n = n.
Proof. by destruct n. Qed.

Lemma upd_remove i j g s : i <> j -> upd i g (remove_node j s) = remove_node j (upd i g s).
Proof.
  intros Hne. unfold upd, remove_node. cbn. f_equal. apply map_eq. intros k.
  destruct (decide (k = i)) as [->|]; [|destruct (decide (k = j)) as [->|]].
  - by rewrite lookup_alter_eq, !lookup_delete_ne, lookup_alter_eq by done.
  - by rewrite lookup_alter_ne, !lookup_delete_eq by done.
  - by rewrite lookup_alter_ne, !lookup_delete_ne, lookup_alter_ne by done.
Qed.

Lemma agree_drop_next {B} (f : unit -> Tx D B) d s ino n (R : outcome (B * fs)) :
  represents d s -> f_nodes s !! ino = Some n ->
  (forall d', represents d' (remove_node ino s) -> agree (f tt d') R) ->
  agree ((delete_bucket (usize_be ino) ≫= f) d) R.
Proof.
  intros Hr Ei Hf. pose proof (rep_has _ _ _ _ Hr Ei) as Hh.
  destruct (db_drop_some d _ Hh) as [d' Hd].
  eapply (agree_bind_ok _ _ _ tt d'); [unfold delete_bucket; by rewrite Hd|].
  apply Hf. eapply rep_drop; [done| |done]. by eapply rep_ino.
Qed.

(** A move to a name that is free or not noticed. *)
Lemma move_tx_agree d s old_dir new_dir old_name new_name new_key ino t p q n :
  represents d s -> time_ok t -> f_nodes s !! old_dir = Some p -> f_nodes s !! new_dir = Some q ->
  n_entries p !! old_name = Some ino -> f_nodes s !! ino = Some n ->
  ino <> old_dir -> ino <> new_dir ->
  agree (rename_move_tx old_dir new_dir new_name (generate_data_key old_name) new_key ino None
           (n_mode n) 0 t d) (Ok (tt, t_move old_dir new_dir old_name new_name ino t s)).
Proof.
  intros Hr Ht Hp Hq He Hn Hno Hnn. unfold rename_move_tx.
  do 3 ag. eapply agree_bind_ok; [done|]. cbv beta iota.
  pose proof (enter_tx_agree d s old_dir new_dir old_name new_name ino t p q n (n_size q)
    Hr Ht (ok_size _ (rep_ok _ _ _ _ Hr Hq)) Hp Hq He Hn Hno Hnn) as Ha.
  rewrite (upd_id s new_dir) in Ha; [exact Ha|].
  intros x Hx. rewrite Hq in Hx. injection Hx as <-. apply with_size_same.
Qed.

(** A move onto a target that is noticed: a directory is dropped first, a
    file panics. *)
Lemma over_tx_agree d s old_dir new_dir old_name new_name ino target t p q n m :
  represents d s -> time_ok t -> f_nodes s !! old_dir = Some p -> f_nodes s !! new_dir = Some q ->
  n_entries p !! old_name = Some ino -> f_nodes s !! ino = Some n ->
  n_entries q !! new_name = Some target -> f_nodes s !! target = Some m ->
  ino <> old_dir -> ino <> new_dir -> target <> old_dir -> target <> new_dir -> target <> ino ->
  agree (rename_move_tx old_dir new_dir new_name (generate_data_key old_name) (generate_data_key new_name)
           ino (Some target) (n_mode n) (n_mode m) t d)
    (if is_dir_mode (n_mode m)
     then Ok (tt, t_move old_dir new_dir old_name new_name ino t (t_drop new_dir new_name target s))
     else Panic).
Proof.
  intros Hr Ht Hp Hq He Hn Htg Hm Hno Hnn Hto Htn Hti. unfold rename_move_tx, rename_overwrite_tx.
  do 3 ag. do 2 apply agree_assoc. eapply agree_del_entry; [done|done|done|intros d1 Hr1].
  destruct (is_dir_mode (n_mode m)).
  - eapply agree_drop_next; [exact Hr1|look|intros d2 Hr2]. eapply agree_bind_ok; [done|]. cbv beta iota.
    set (s2 := remove_node target (upd new_dir (with_entries (base.delete new_name)) s)) in *.
    assert (HL : forall i, i <> target -> i <> new_dir -> f_nodes s2 !! i = f_nodes s !! i).
    { intros i H1' H2'. unfold s2. cbn. by rewrite lookup_delete_ne, lookup_alter_ne. }
    assert (Hq2 : f_nodes s2 !! new_dir = Some (with_entries (base.delete new_name) q)).
    { unfold s2. cbn. by rewrite lookup_delete_ne, lookup_alter_eq, Hq. }
    assert (Hp2 : exists p2, f_nodes s2 !! old_dir = Some p2 /\ n_entries p2 !! old_name = Some ino).
    { destruct (decide (old_dir = new_dir)) as [->|Hne].
      - eexists. split; [exact Hq2|]. rewrite Hp in Hq. injection Hq as <-. cbn.
        rewrite lookup_delete_ne; [done|congruence].
      - exists p. by rewrite HL. }
    destruct Hp2 as (p2 & Hp2 & He2).
    pose proof (enter_tx_agree d2 s2 old_dir new_dir old_name new_name ino t p2 _ n (w64 (n_size q - 1))
      Hr2 Ht (w64_range _) Hp2 Hq2 He2 ltac:(by rewrite HL) Hno Hnn) as Ha.
    replace (t_drop new_dir new_name target s) with (upd new_dir (with_size (w64 (n_size q - 1))) s2); [exact Ha|].
    unfold s2, t_drop. rewrite upd_remove, upd_upd by by apply not_eq_sym. f_equal.
    apply upd_ext. intros x Hx. rewrite Hq in Hx. by injection Hx as <-.
  - apply agree_assoc. ag. eapply agree_bind_panic; [|done].
    assert (Hm1 : f_nodes (upd new_dir (with_entries (base.delete new_name)) s) !! target = Some m) by look.
    pose proof (rep_get _ _ _ _ KNlink Hr1 Hm1 I) as Hk.
    change (key_bytes KNlink) with (bs "hard_links") in Hk.
    unfold read_usize, read_field, mbind, tx_bind, get_kv. rewrite Hk. cbn. by rewrite usize_of_u32_be.
Qed.

(** An exchange. *)
Lemma exchange_tx_agree d s old_dir new_dir old_name new_name ino target t p q n m :
  represents d s -> time_ok t -> f_nodes s !! old_dir = Some p -> f_nodes s !! new_dir = Some q ->
  f_nodes s !! ino = Some n -> f_nodes s !! target = Some m ->
  ino <> old_dir -> ino <> new_dir -> target <> old_dir -> target <> new_dir -> target <> ino ->
  agree (rename_exchange_tx old_dir new_dir (generate_data_key old_name) (generate_data_key new_name)
           ino target (n_mode n) (n_mode m) t d)
    (Ok (tt, t_exchange old_dir new_dir old_name new_name ino target n m t s)).
Proof.
  intros Hr Ht Hp Hq Hn Hm Hno Hnn Hto Htn Hti. unfold rename_exchange_tx, t_exchange. cbv zeta.
  pose proof (rep_ino _ _ _ _ Hr Hn) as Hi. pose proof (rep_ino _ _ _ _ Hr Hm) as Hj.
  pose proof (rep_ino _ _ _ _ Hr Hp) as Ho. pose proof (rep_ino _ _ _ _ Hr Hq) as Hw.
  set (s1 := upd new_dir (touch t) (upd old_dir (touch t) (upd old_dir (with_entries <[old_name := target]>)
    (upd new_dir (with_entries <[new_name := ino]>) s)))).
  assert (Hlast : forall d1, represents d1 s1 -> agree
    ((old_bucket ← get_bucket (usize_be ino);
      put old_bucket (bs "ctime") (time_to_be_bytes t);;
      new_bucket ← get_bucket (usize_be target);
      put new_bucket (bs "ctime") (time_to_be_bytes t);;
      tx_when (is_dir_mode (n_mode n))
        (put old_bucket (generate_data_key (bs ".")) (usize_to_string new_dir));;
      tx_when (is_dir_mode (n_mode m))
        (put new_bucket (generate_data_key (bs "..")) (usize_to_string old_dir))) d1)
    (Ok (tt,
      let s2 := upd target (with_ctime t) (upd ino (with_ctime t) s1) in
      let s3 := if is_dir_mode (n_mode n) then upd ino (with_entries <[bs "." := new_dir]>) s2 else s2 in
      if is_dir_mode (n_mode m) then upd target (with_entries <[bs ".." := old_dir]>) s3 else s3))).
  { intros d1 Hr1. assert (Hn1 : f_nodes s1 !! ino = Some n) by (unfold s1; look).
    assert (Hm1 : f_nodes s1 !! target = Some m) by (unfold s1; look). clearbody s1.
    do 4 ag. cbv zeta. destruct (is_dir_mode (n_mode n)), (is_dir_mode (n_mode m)); cbn [tx_when].
    - ag. apply agree_last. by ag.
    - ag. done.
    - eapply agree_bind_ok; [done|]. apply agree_last. by ag.
    - by eapply agree_bind_ok. }
  do 2 ag. destruct (decide (old_dir = new_dir)) as [->|Hne].
  - do 6 ag. apply Hlast. unfold s1. by rewrite !upd_upd in *.
  - do 6 ag. apply Hlast. unfold s1. by rewrite !upd_upd in *.
Qed.

(** [dbfs_common_rename] does what [t_rename] says. *)
Lemma rename_runs w s uid gid old_dir old_name new_dir new_name flags t :
  represents (w_db w) s -> is_u64 old_dir -> is_u64 new_dir -> time_ok t ->
  rename_apart s old_dir old_name new_dir new_name ->
  match t_rename uid gid old_dir old_name new_dir new_name flags t s with
  | Ok (u, s') => exists d', dbfs_common_rename uid gid old_dir old_name new_dir new_name flags t w =
      (Ok u, set_db w d') /\ represents d' s'
  | Err e => dbfs_common_rename uid gid old_dir old_name new_dir new_name flags t w = (Err e, w)
  | Panic => dbfs_common_rename uid gid old_dir old_name new_dir new_name flags t w = (Panic, w)
  end.
Proof.
  intros Hr Ho Hnew Ht Hap. unfold dbfs_common_rename, t_rename.
  pose proof (read_runs Question _ _ w s (rename_old_refines uid gid old_dir old_name Ho) Hr) as Hold.
  pose proof (read_runs Question _ _ w s (rename_new_refines uid gid new_dir new_name Hnew) Hr) as Hfnd.
  cbv beta in Hold, Hfnd.
  destruct (t_rename_old uid gid old_dir old_name s) as [[ino n]|e|] eqn:Eo; rewrite ?Eo in Hold;
    cbn [mbind outcome_bind] in Hold |- *;
    [erewrite op_bind_ok by exact Hold|by erewrite op_bind_err by exact Hold|by erewrite op_bind_panic by exact Hold].
  cbv beta iota. destruct (t_rename_old_inv _ _ _ _ _ _ _ Eo) as (p & Hp & He & Hn).
  assert (Hoe : entry s old_dir old_name = Some ino) by (unfold entry; by rewrite Hp).
  destruct (Hap ino Hoe) as (Hno & Hnn & Htgt).
  destruct (t_rename_new uid gid new_dir new_name s) as [found|e|] eqn:En; rewrite ?En in Hfnd;
    cbn [mbind outcome_bind] in Hfnd |- *;
    [erewrite op_bind_ok by exact Hfnd|by erewrite op_bind_err by exact Hfnd|by erewrite op_bind_panic by exact Hfnd].
  destruct (t_rename_new_inv _ _ _ _ _ _ En) as (q & Hq & Hnot & Hfound).
  unfold t_guard, t_may_write. destruct found as [[target m]|]; cbv beta iota.
  - destruct (Hfound _ _ eq_refl) as [Hm Hqe].
    destruct (Htgt target ltac:(unfold entry; by rewrite Hq) q Hq Hnot) as (Hto & Htn & Hti).
    destruct (Z.land flags RENAME_EXCHANGE =? 0); cbn [negb].
    2: { exact (write_runs Question Question _ w _ (exchange_tx_agree _ s old_dir new_dir old_name
           new_name ino target t p q n m Hr Ht Hp Hq Hn Hm Hno Hnn Hto Htn Hti)). }
    rewrite (bool_decide_eq_true_2 (is_Some _)) by by eexists. cbn [andb].
    destruct (is_dir_mode (n_mode m) && (2 <? n_size m)); cbn [negb mbind outcome_bind]; [done|].
    rewrite checkout_access_low_bits by done.
    destruct (is_dir_mode (n_mode n) && _ && _); cbn [negb mbind outcome_bind]; [done|].
    pose proof (write_runs Question Question _ w _ (over_tx_agree _ s old_dir new_dir old_name new_name ino target t
      p q n m Hr Ht Hp Hq He Hn Hqe Hm Hno Hnn Hto Htn Hti)) as Hw.
    by destruct (is_dir_mode (n_mode m)).
  - destruct (Z.land flags RENAME_EXCHANGE =? 0); cbn [negb mbind outcome_bind]; [|done].
    rewrite (bool_decide_eq_false_2 (is_Some None)) by by intros []. cbn [andb].
    rewrite checkout_access_low_bits by done.
    destruct (is_dir_mode (n_mode n) && _ && _); cbn [negb mbind outcome_bind]; [done|].
    exact (write_runs Question Question _ w _ (move_tx_agree _ s old_dir new_dir old_name new_name [] ino t
      p q n Hr Ht Hp Hq He Hn Hno Hnn)).
Qed.

(** ** The tree after a move *)

(** A directory gets another name and parent. [s'] has the entries it should
    have, and its nodes are those of [s] but for the sizes, which are right. *)
Section move_dir.
Variables (s s' : fs) (old_dir new_dir ino : Z) (old_name new_name : bytes).
Hypothesis Hwf : wf s.
Hypothesis Hold : entry s old_dir old_name = Some ino.
Hypothesis Hfree : entry s new_dir new_name = None.
Hypothesis Hdo : ~ dot old_name.
Hypothesis Hdn : ~ dot new_name.
Hypothesis Hdir : is_dir s ino.
Hypothesis Hnew : is_dir s new_dir.
Hypothesis Hino : ino <> old_dir /\ ino <> new_dir.
Hypothesis Hentry : forall k nm, entry s' k nm =
  if decide (k = ino /\ nm = bs "..") then Some new_dir
  else if decide (k = new_dir /\ nm = new_name) then Some ino
  else if decide (k = old_dir /\ nm = old_name) then None else entry s k nm.
Hypothesis Hnode : forall j m', f_nodes s' !! j = Some m' ->
  exists m, f_nodes s !! j = Some m /\ node_is_dir m' = node_is_dir m /\ n_nlink m' = n_nlink m.
Hypothesis Hsome : forall j, is_Some (f_nodes s !! j) -> is_Some (f_nodes s' !! j).
Hypothesis Hsize : forall j m', f_nodes s' !! j = Some m' -> node_is_dir m' = true ->
  n_size m' = Z.of_nat (size (n_entries m')).

Lemma move_is_dir j : is_dir s' j -> is_dir s j.
Proof.
  intros (m' & Hj & Hd). destruct (Hnode j m' Hj) as (m & Hm & Hdm & _). exists m.
  split; [done|congruence].
Qed.

(** The entries of [s'] other than the two new ones are entries of [s]. *)
Lemma move_old_entry k nm j : entry s' k nm = Some j ->
  (k = ino /\ nm = bs ".." /\ j = new_dir) \/ (k = new_dir /\ nm = new_name /\ j = ino) \/
  ((k, nm) <> (old_dir, old_name) /\ (k, nm) <> (new_dir, new_name) /\ ~ (k = ino /\ nm = bs "..") /\
   entry s k nm = Some j).
Proof.
  rewrite Hentry. case_decide as E1; [intros [= <-]; left; tauto|].
  case_decide as E2; [intros [= <-]; right; left; tauto|].
  case_decide as E3; [done|]. intros E. right; right.
  split_and!; [intros [= -> ->]; tauto|intros [= -> ->]; tauto|done|done].
Qed.

Lemma move_kept k nm j : entry s k nm = Some j -> (k, nm) <> (old_dir, old_name) ->
  ~ (k = ino /\ nm = bs "..") -> entry s' k nm = Some j.
Proof.
  intros E H1 H2. rewrite Hentry, decide_False by done.
  rewrite decide_False by (intros [-> ->]; congruence).
  by rewrite decide_False by (intros [-> ->]; congruence).
Qed.

(** No other name leads to the directory that moves. *)
Lemma move_only k nm : entry s k nm = Some ino -> ~ dot nm -> (k, nm) = (old_dir, old_name).
Proof.
  intros E Hd. pose proof (wf_down _ Hwf _ _ _ E Hd Hdir) as H1.
  pose proof (wf_down _ Hwf _ _ _ Hold Hdo Hdir) as H2. rewrite H1 in H2. injection H2 as ->.
  by rewrite (wf_unique _ Hwf _ _ _ _ E Hold Hd Hdo Hdir).
Qed.

Lemma dotdot_dot : dot (bs "..").
Proof. by right. Qed.

Lemma wf_move_dir : wf s'.
Proof.
  pose proof dotdot_dot as Hdd. destruct Hnew as (q & Hq & _). destruct Hino as [Hi1 Hi2].
  assert (Hoi : is_Some (f_nodes s' !! ino)) by (apply Hsome; destruct Hdir as (n & -> & _); by eexists).
  split.
  - intros k nm j [(-> & -> & ->)|[(-> & -> & ->)|(_ & _ & _ & E)]]%move_old_entry; [|done|].
    + apply Hsome. by rewrite Hq.
    + apply Hsome. by apply (wf_closed _ Hwf k nm).
  - exact Hsize.
  - intros j m' Hj Hd. destruct (Hnode j m' Hj) as (m & Hm & Hdm & ->). rewrite Hd in Hdm.
    destruct (wf_nlink _ Hwf j m Hm (eq_sym Hdm)) as (Hpos & X & HX & Hc). split; [done|].
    exists X. split; [|done]. eapply links_ext; [|exact HX]. intros k nm.
    assert (Hnd : forall i, is_dir s i -> i <> j).
    { intros i (x & Hx & Hxd) ->. congruence. }
    split.
    + intros [(_ & _ & E)|[(_ & _ & E)|(_ & _ & _ & E)]]%move_old_entry; [| |done]; exfalso.
      * by apply (Hnd new_dir).
      * by apply (Hnd ino).
    + intros E. apply move_kept; [done| |].
      * intros [= -> ->]. rewrite Hold in E. injection E as ->. by apply (Hnd j).
      * intros [-> ->]. pose proof (wf_down _ Hwf _ _ _ Hold Hdo Hdir) as H2. rewrite E in H2.
        injection H2 as ->. destruct (entry_is_dir _ _ _ _ Hwf Hold) as (x & Hx).
        by apply (Hnd old_dir); [exists x|].
  - intros k m' Hd Hm. destruct (Hnode k m' Hd) as (m & Hm' & Hdm & _). rewrite Hm in Hdm.
    assert (Hnd : ~ is_dir s k) by (intros (x & Hx & Hxd); congruence).
    apply map_empty. intros nm. destruct (n_entries m' !! nm) as [j|] eqn:Ej; [|done]. exfalso.
    assert (E : entry s' k nm = Some j) by (unfold entry; by rewrite Hd).
    apply move_old_entry in E as [(-> & _)|[(-> & _)|(_ & _ & _ & E)]]; [done|done|].
    apply entry_is_dir in E; done.
  - intros k Hd%move_is_dir. apply move_kept; [by apply wf_self| |].
    + intros [= -> <-]. apply Hdo. by left.
    + by intros [_ ?].
  - intros k par [(-> & _ & ->)|[(-> & En & _)|(_ & _ & Hnot & E)]]%move_old_entry.
    + exists new_name. split; [done|]. rewrite Hentry, decide_False by (intros [? _]; done).
      by rewrite decide_True.
    + exfalso. apply Hdn. by rewrite <- En.
    + destruct (wf_up _ Hwf _ _ E) as (nm & Hnm & Enm). exists nm. split; [done|].
      apply move_kept; [done| |intros [_ ->]; done].
      intros [= -> ->]. rewrite Hold in Enm. injection Enm as ->. by apply Hnot.
  - intros k nm j E Hnm Hj%move_is_dir.
    apply move_old_entry in E as [(_ & -> & _)|[(-> & -> & ->)|(H1 & _ & _ & E)]]; [done| |].
    + by rewrite Hentry, decide_True.
    + pose proof (wf_down _ Hwf _ _ _ E Hnm Hj) as Hup. apply move_kept; [done| |].
      * intros [= -> <-]. by apply Hdo.
      * intros [-> _]. apply H1. by apply move_only.
  - intros k nm nm' j E E' Hnm Hnm' Hj%move_is_dir.
    apply move_old_entry in E as [(_ & -> & _)|[(-> & -> & ->)|(H1 & H1' & _ & E)]]; [done| |];
    apply move_old_entry in E' as [(_ & -> & _)|[(E0 & -> & E1)|(H2 & H2' & _ & E')]]; try done.
    + exfalso. apply H2. by apply move_only.
    + subst j. exfalso. apply H1. by apply move_only.
    + by apply (wf_unique _ Hwf k nm nm' j).
Qed.
End move_dir.

(** A move is a new link followed by the removal of the old one. *)
Lemma wf_move s old_dir new_dir p q old_name new_name ino n (g : node -> node) :
  wf s -> f_nodes s !! old_dir = Some p -> f_nodes s !! new_dir = Some q ->
  f_nodes s !! ino = Some n -> node_is_dir q = true -> node_is_dir n = false ->
  ~ dot old_name -> ~ dot new_name -> entry s old_dir old_name = Some ino ->
  entry s new_dir new_name = None ->
  let link := fun q => with_size (n_size q + 1) (with_entries <[new_name := ino]> q) in
  let cut := fun p => with_size (n_size p - 1) (with_entries (base.delete old_name) p) in
  wf (upd ino (fun n => n) (upd old_dir cut (upd new_dir link s))).
Proof.
  intros Hwf Hp Hq Hn Hqd Hnd Hdo Hdn He Hfree link cut.
  pose proof (wf_nlink _ Hwf _ _ Hn Hnd) as [Hpos _].
  set (up := fun n => with_nlink (n_nlink n + 1) n).
  set (down := fun n => with_nlink (n_nlink n - 1) n).
  assert (Hw1 : wf (upd ino up (upd new_dir link s))).
  { by eapply (wf_link s new_dir ino q n new_name link up). }
  destruct (entry_is_dir _ _ _ _ Hwf He) as (p' & Hp' & Hpd). rewrite Hp in Hp'. injection Hp' as <-.
  assert (Hno : ino <> old_dir) by congruence. assert (Hnn : ino <> new_dir) by congruence.
  set (s1 := upd ino up (upd new_dir link s)) in *.
  assert (Hp1 : exists p1, f_nodes s1 !! old_dir = Some p1 /\ node_is_dir p1 = true).
  { unfold s1. rewrite upd_lookup_ne by done. rewrite upd_lookup, Hp. cbn. eexists.
    split; [done|]. by case_decide. }
  destruct Hp1 as (p1 & Hp1 & Hpd1).
  assert (Hn1 : f_nodes s1 !! ino = Some (up n)).
  { apply upd_lookup_eq. by rewrite upd_lookup_ne. }
  assert (He1 : entry s1 old_dir old_name = Some ino).
  { unfold s1. rewrite entry_upd_same by done. rewrite entry_upd.
    case_decide as E; [|done]. subst. rewrite Hq. cbn.
    destruct (decide (old_name = new_name)) as [->|]; [by rewrite lookup_insert_eq|].
    rewrite lookup_insert_ne by done. unfold entry in He. by rewrite Hq in He. }
  assert (Hw2 : wf (upd ino down (upd old_dir cut s1))).
  { eapply (wf_unlink s1 old_dir ino p1 (up n) old_name cut down); try done; cbn; lia. }
  replace (upd ino (fun n => n) (upd old_dir cut (upd new_dir link s)))
    with (upd ino down (upd old_dir cut s1)); [done|].
  unfold s1. rewrite (upd_comm _ old_dir ino) by done. rewrite upd_upd.
  apply upd_ext. intros m _. unfold down, up. destruct m. unfold with_nlink. cbn. f_equal. lia.
Qed.
End move.

Section theorems.
Context {D : Type} `{JammDb D, !JammDbLaws D, !Reliable D}.
Implicit Types (d : D) (w : world D) (s : fs) (p q n : node).

Lemma wf_touch s i t : wf s -> wf (upd i (touch t) s).
Proof. intros Hwf. by apply wf_upd_attr. Qed.

Lemma wf_ctime s i t : wf s -> wf (upd i (with_ctime t) s).
Proof. intros Hwf. by apply wf_upd_attr. Qed.

Lemma t_shift_wf s old_dir new_dir p q old_name new_name ino n t :
  wf s -> node_ok p -> node_ok q -> f_nodes s !! old_dir = Some p -> f_nodes s !! new_dir = Some q ->
  f_nodes s !! ino = Some n -> node_is_dir q = true -> node_is_dir n = false ->
  ~ dot old_name -> ~ dot new_name -> entry s old_dir old_name = Some ino ->
  entry s new_dir new_name = None -> n_size q + 1 < 2 ^ 64 ->
  wf (t_shift old_dir new_dir old_name new_name ino t s).
Proof.
  intros Hwf Hpo Hqo Hp Hq Hn Hqd Hnd Hdo Hdn He Hfree Hsz.
  pose proof (wf_move s old_dir new_dir p q old_name new_name ino n (fun n => n) Hwf Hp Hq Hn Hqd
    Hnd Hdo Hdn He Hfree) as Hw. cbv zeta in Hw. rewrite upd_id in Hw by done.
  pose proof (dir_size_pos _ _ _ _ _ Hwf Hp He) as Hpos.
  pose proof (ok_size _ Hpo). pose proof (ok_size _ Hqo). unfold is_u64 in *.
  unfold t_shift. destruct (decide (old_dir = new_dir)) as [<-|Hne].
  - apply (wf_touch _ old_dir t) in Hw. rewrite !upd_upd in Hw.
    erewrite upd_ext; [exact Hw|]. intros m Hm. rewrite Hp in Hm. injection Hm as <-.
    assert (Hnames : old_name <> new_name) by congruence.
    unfold shift_entry. f_equal. destruct p. unfold with_entries, with_size. cbn. f_equal; [lia|].
    by rewrite delete_insert_ne.
  - apply (wf_touch _ old_dir t), (wf_touch _ new_dir t) in Hw.
    rewrite (upd_upd _ old_dir), (upd_comm _ old_dir new_dir), upd_upd in Hw by done.
    erewrite (upd_ext _ new_dir); [erewrite (upd_ext s old_dir); [exact Hw|]|].
    + intros m Hm. rewrite Hp in Hm. injection Hm as <-. unfold leave. f_equal.
      rewrite w64_small by (unfold is_u64; lia). done.
    + intros m Hm. rewrite upd_lookup_ne, Hq in Hm by (by apply not_eq_sym).
      injection Hm as <-. unfold enter. f_equal.
      rewrite w64_small by (unfold is_u64; lia). done.
Qed.

(** The entries after a move. *)
Lemma t_shift_entry s old_dir new_dir p q old_name new_name ino t :
  f_nodes s !! old_dir = Some p -> f_nodes s !! new_dir = Some q ->
  forall dir name, entry (t_shift old_dir new_dir old_name new_name ino t s) dir name =
    if decide (dir = new_dir /\ name = new_name) then Some ino
    else if decide (dir = old_dir /\ name = old_name) then None
    else entry s dir name.
Proof.
  intros Hp Hq dir name. unfold t_shift.
  destruct (decide (old_dir = new_dir)) as [<-|Hne].
  - rewrite entry_upd. destruct (decide (dir = old_dir)) as [->|].
    2: { by rewrite !decide_False by tauto. }
    rewrite Hp. cbn. destruct (decide (name = new_name)) as [->|].
    + by rewrite decide_True, lookup_insert_eq by done.
    + rewrite (decide_False (P := _ /\ name = new_name)), lookup_insert_ne by (done || tauto).
      destruct (decide (name = old_name)) as [->|].
      * by rewrite decide_True, lookup_delete_eq by done.
      * rewrite decide_False, lookup_delete_ne by (done || tauto). unfold entry. by rewrite Hp.
  - rewrite entry_upd. destruct (decide (dir = new_dir)) as [->|Hdn].
    + rewrite upd_lookup_ne, Hq by (by apply not_eq_sym). cbn.
      destruct (decide (name = new_name)) as [->|].
      * by rewrite decide_True, lookup_insert_eq by done.
      * rewrite !decide_False by (intros [? ?]; congruence). rewrite lookup_insert_ne by congruence.
        unfold entry. by rewrite Hq.
    + rewrite (decide_False (P := dir = new_dir /\ _)) by tauto. rewrite entry_upd.
      destruct (decide (dir = old_dir)) as [->|]; [|by rewrite decide_False by tauto].
      rewrite Hp. cbn. destruct (decide (name = old_name)) as [->|].
      * by rewrite decide_True, lookup_delete_eq by done.
      * rewrite decide_False, lookup_delete_ne by (done || tauto). unfold entry. by rewrite Hp.
Qed.

(** The nodes after a move: those of [s] but for the sizes and entries of the
    two directories and the inode itself. *)
Lemma t_shift_node s old_dir new_dir old_name new_name ino t j m' :
  f_nodes (t_shift old_dir new_dir old_name new_name ino t s) !! j = Some m' ->
  exists m, f_nodes s !! j = Some m /\ n_mode m' = n_mode m /\ n_nlink m' = n_nlink m /\
    n_slices m' = n_slices m /\ (j <> old_dir -> j <> new_dir -> m' = m).
Proof.
  unfold t_shift. destruct (decide (old_dir = new_dir)) as [<-|Hne].
  - rewrite upd_lookup. destruct (f_nodes s !! j) as [m|]; [|done]. intros [= <-]. exists m.
    by case_decide.
  - rewrite !upd_lookup. destruct (f_nodes s !! j) as [m|]; [|done]. intros [= <-]. exists m.
    by do 2 case_decide.
Qed.

Lemma t_shift_other s old_dir new_dir old_name new_name ino t j :
  j <> old_dir -> j <> new_dir ->
  f_nodes (t_shift old_dir new_dir old_name new_name ino t s) !! j = f_nodes s !! j.
Proof. intros H1 H2. unfold t_shift. case_decide; by rewrite !upd_lookup_ne. Qed.

Lemma t_shift_some s old_dir new_dir old_name new_name ino t j :
  is_Some (f_nodes s !! j) -> is_Some (f_nodes (t_shift old_dir new_dir old_name new_name ino t s) !! j).
Proof. intros [m Hm]. unfold t_shift. case_decide; rewrite !upd_lookup, Hm; by eexists. Qed.

(** The entries after a move. *)
Lemma t_move_entry s old_dir new_dir p q old_name new_name ino n t :
  f_nodes s !! old_dir = Some p -> f_nodes s !! new_dir = Some q -> f_nodes s !! ino = Some n ->
  ino <> old_dir -> ino <> new_dir ->
  forall dir name, entry (t_move old_dir new_dir old_name new_name ino t s) dir name =
    if decide (dir = ino /\ name = bs "..") then
      if is_dir_mode (n_mode n) then Some new_dir else n_entries n !! bs ".."
    else if decide (dir = new_dir /\ name = new_name) then Some ino
    else if decide (dir = old_dir /\ name = old_name) then None
    else entry s dir name.
Proof.
  intros Hp Hq Hn Hno Hnn dir name. unfold t_move. rewrite entry_upd.
  rewrite (t_shift_other s _ _ _ _ _ t ino), Hn by done. cbn [mbind option_bind].
  destruct (decide (dir = ino)) as [->|Hne].
  - rewrite (decide_False (P := ino = new_dir /\ _)), (decide_False (P := ino = old_dir /\ _)) by tauto.
    unfold moved, entry. rewrite Hn. destruct (is_dir_mode (n_mode n)); cbn.
    + destruct (decide (name = bs "..")) as [->|].
      * by rewrite decide_True, lookup_insert_eq.
      * rewrite decide_False by tauto. by rewrite lookup_insert_ne.
    + destruct (decide (name = bs "..")) as [->|]; [by rewrite decide_True|by rewrite decide_False by tauto].
  - rewrite decide_False by tauto. by apply (t_shift_entry s old_dir new_dir p q).
Qed.

Lemma dir_mode_dir n : node_ok n -> node_is_dir n = true -> is_dir_mode (n_mode n) = true.
Proof.
  intros Hok Hd%bool_decide_eq_true. unfold is_dir_mode.
  rewrite Perm.from_bits_truncate_u16 by apply (ok_mode _ Hok).
  unfold file_type_of_perm in Hd. by repeat case_match.
Qed.

Lemma moved_type t new_dir n : node_is_dir (moved new_dir t n) = node_is_dir n.
Proof. unfold moved. by destruct (is_dir_mode _). Qed.

Lemma moved_nlink t new_dir n : n_nlink (moved new_dir t n) = n_nlink n.
Proof. unfold moved. by destruct (is_dir_mode _). Qed.

Lemma moved_slices t new_dir n : n_slices (moved new_dir t n) = n_slices n.
Proof. unfold moved. by destruct (is_dir_mode _). Qed.

(** The sizes of the directories stay right. *)
Lemma t_move_sizes s old_dir new_dir p q old_name new_name ino n t j m' :
  wf s -> node_ok p -> node_ok q -> f_nodes s !! old_dir = Some p -> f_nodes s !! new_dir = Some q ->
  f_nodes s !! ino = Some n -> node_is_dir q = true -> node_is_dir n = true ->
  ino <> old_dir -> ino <> new_dir ->
  ~ dot old_name -> entry s old_dir old_name = Some ino -> entry s new_dir new_name = None ->
  n_size q + 1 < 2 ^ 64 ->
  f_nodes (t_move old_dir new_dir old_name new_name ino t s) !! j = Some m' -> node_is_dir m' = true ->
  n_size m' = Z.of_nat (size (n_entries m')).
Proof.
  intros Hwf Hpo Hqo Hp Hq Hn Hqd Hnd Hno Hnn Hdo He Hfree Hsz Hj Hm'.
  destruct (entry_is_dir _ _ _ _ Hwf He) as (p' & Hp' & Hpd). rewrite Hp in Hp'. injection Hp' as <-.
  pose proof (entry_some _ _ _ _ _ Hp He) as Hpe.
  assert (Hqe : n_entries q !! new_name = None) by (unfold entry in Hfree; by rewrite Hq in Hfree).
  pose proof (dir_size_pos _ _ _ _ _ Hwf Hp He) as Hpos.
  pose proof (ok_size _ Hpo). pose proof (ok_size _ Hqo). unfold is_u64 in *.
  pose proof (wf_size _ Hwf _ _ Hp Hpd) as Sp. pose proof (wf_size _ Hwf _ _ Hq Hqd) as Sq.
  assert (Hpz : size (n_entries p) <> 0%nat).
  { intros E%map_size_empty_inv. by rewrite E, lookup_empty in Hpe. }
  unfold t_move in Hj. rewrite upd_lookup in Hj.
  destruct (decide (j = ino)) as [->|Hji].
  { rewrite t_shift_other, Hn in Hj by done. cbn in Hj. injection Hj as <-. rewrite moved_type in Hm'.
    pose proof (wf_size _ Hwf _ _ Hn Hm') as Sn. unfold moved.
    destruct (is_dir_mode (n_mode n)); cbn; [|done]. rewrite Sn. f_equal.
    pose proof (wf_down _ Hwf _ _ _ He Hdo ltac:(by exists n)) as Hup. unfold entry in Hup. rewrite Hn in Hup.
    cbn in Hup. by rewrite map_size_insert_Some. }
  unfold t_shift in Hj. destruct (decide (old_dir = new_dir)) as [<-|Hne].
  - rewrite Hp in Hq. injection Hq as <-. rewrite upd_lookup in Hj.
    destruct (f_nodes s !! j) as [m|] eqn:Em; [|done]. cbn in Hj. injection Hj as <-.
    destruct (decide (j = old_dir)) as [->|]; [|by apply (wf_size _ Hwf j)].
    rewrite Hp in Em. injection Em as <-. cbn. rewrite map_size_insert_None.
    + rewrite map_size_delete, Hpe. cbn. lia.
    + rewrite lookup_delete_ne; [done|congruence].
  - rewrite !upd_lookup in Hj. destruct (f_nodes s !! j) as [m|] eqn:Em; [|done]. cbn in Hj. injection Hj as <-.
    destruct (decide (j = new_dir)) as [->|].
    + rewrite decide_False in Hm' |- * by by apply not_eq_sym.
      rewrite Hq in Em. injection Em as <-. cbn. rewrite map_size_insert_None by done.
      rewrite w64_small by (unfold is_u64; lia). lia.
    + destruct (decide (j = old_dir)) as [->|]; [|by apply (wf_size _ Hwf j)].
      rewrite Hp in Em. injection Em as <-. cbn. rewrite map_size_delete, Hpe. cbn.
      rewrite w64_small by (unfold is_u64; lia). lia.
Qed.

(** A move to a free name keeps the tree, of a file or of a directory. *)
Lemma t_move_wf s old_dir new_dir p q old_name new_name ino n t :
  wf s -> node_ok p -> node_ok q -> f_nodes s !! old_dir = Some p -> f_nodes s !! new_dir = Some q ->
  f_nodes s !! ino = Some n -> node_is_dir q = true -> is_dir_mode (n_mode n) = node_is_dir n ->
  ino <> old_dir -> ino <> new_dir ->
  ~ dot old_name -> ~ dot new_name -> entry s old_dir old_name = Some ino ->
  entry s new_dir new_name = None -> n_size q + 1 < 2 ^ 64 ->
  wf (t_move old_dir new_dir old_name new_name ino t s).
Proof.
  intros Hwf Hpo Hqo Hp Hq Hn Hqd Hplain Hno Hnn Hdo Hdn He Hfree Hsz.
  destruct (node_is_dir n) eqn:Hnd.
  - assert (Hdir : is_dir s ino) by by exists n.
    eapply (wf_move_dir s _ old_dir new_dir ino old_name new_name); try done.
    + by exists q.
    + intros dir name. rewrite (t_move_entry s old_dir new_dir p q _ _ ino n t), Hplain by done. done.
    + intros j m' Hj. unfold t_move in Hj. rewrite upd_lookup in Hj.
      destruct (f_nodes (t_shift _ _ _ _ _ _ s) !! j) as [m|] eqn:Em; [|done]. injection Hj as <-.
      destruct (t_shift_node _ _ _ _ _ _ _ _ _ Em) as (m0 & Hm0 & Hmode & Hnl & _).
      exists m0. split; [done|]. rewrite <- Hnl, <- (node_is_dir_mode _ _ Hmode).
      case_decide; [|done]. by rewrite moved_type, moved_nlink.
    + intros j Hj. unfold t_move. rewrite upd_lookup.
      destruct (t_shift_some s old_dir new_dir old_name new_name ino t j Hj) as [m ->]. by eexists.
    + intros j m' Hj Hd. by eapply (t_move_sizes s old_dir new_dir p q old_name new_name ino n t j).
  - pose proof (t_shift_wf s old_dir new_dir p q old_name new_name ino n t Hwf Hpo Hqo Hp Hq Hn Hqd Hnd
      Hdo Hdn He Hfree Hsz) as Hw.
    unfold t_move. erewrite upd_ext; [by apply (wf_ctime _ ino t)|].
    intros m Hm. rewrite t_shift_other, Hn in Hm by done. injection Hm as <-. unfold moved. by rewrite Hplain.
Qed.

(** When a rename is that move. *)
Lemma t_rename_moves uid gid old_dir old_name new_dir new_name flags t s p q ino n :
  f_nodes s !! old_dir = Some p -> f_nodes s !! new_dir = Some q -> n_entries p !! old_name = Some ino ->
  f_nodes s !! ino = Some n -> noticed q new_name = None -> Z.land flags RENAME_EXCHANGE = 0 ->
  may_write p uid gid -> may_write q uid gid ->
  sticky_denies (n_mode p) uid (n_uid p) (n_uid n) = false -> is_dir_mode (n_mode n) = false ->
  t_rename uid gid old_dir old_name new_dir new_name flags t s =
  Ok (tt, t_move old_dir new_dir old_name new_name ino t s).
Proof.
  unfold may_write. intros Hp Hq He Hn Hun Hfl Hwp Hwq Hst Hmode.
  unfold t_rename, t_rename_old, t_rename_new, t_node, t_guard, t_may_write.
  rewrite Hp. cbn [mbind outcome_bind]. rewrite He. cbn [mbind outcome_bind].
  rewrite Hwp. cbn [mbind outcome_bind]. rewrite Hn. cbn [mbind outcome_bind].
  rewrite Hst. cbn [negb mbind outcome_bind]. rewrite Hq. cbn [mbind outcome_bind].
  rewrite Hwq. cbn [mbind outcome_bind]. rewrite Hun, Hfl, Hmode. done.
Qed.

Lemma noticed_free q name : n_entries q !! name = None -> noticed q name = None.
Proof. unfold noticed. intros E. by destruct (Perm.contains _ _). Qed.

(** C12: Renaming moves the entry of a file and nothing else. When the caller
    may write both directories, the sticky bit does not protect the old name
    and the new name is free, [dbfs_common_rename] (without the exchange flag)
    succeeds, within one directory or between two; the new tree is well
    formed, the file is under the new name and no longer under the old one,
    every other entry is as before, and so are its links, size and
    contents. *)
Theorem rename_moves_file w s uid gid old_dir old_name new_dir new_name flags t p q ino n :
  represents (w_db w) s -> wf s -> time_ok t -> f_nodes s !! old_dir = Some p ->
  f_nodes s !! new_dir = Some q -> entry s old_dir old_name = Some ino ->
  f_nodes s !! ino = Some n -> node_is_dir q = true -> node_is_dir n = false ->
  is_dir_mode (n_mode n) = false -> ~ dot old_name -> ~ dot new_name ->
  entry s new_dir new_name = None -> Z.land flags RENAME_EXCHANGE = 0 ->
  may_write p uid gid -> may_write q uid gid ->
  sticky_denies (n_mode p) uid (n_uid p) (n_uid n) = false -> n_size q + 1 < 2 ^ 64 ->
  exists d' s', dbfs_common_rename uid gid old_dir old_name new_dir new_name flags t w =
      (Ok tt, set_db w d') /\ represents d' s' /\ wf s' /\
    (forall dir name, entry s' dir name =
      if decide (dir = new_dir /\ name = new_name) then Some ino
      else if decide (dir = old_dir /\ name = old_name) then None else entry s dir name) /\
    f_nodes s' !! ino = Some (with_ctime t n).
Proof.
  intros Hr Hwf Ht Hp Hq He Hn Hqd Hnd Hmode Hdo Hdn Hfree Hfl Hwp Hwq Hst Hsz.
  destruct (entry_is_dir _ _ _ _ Hwf He) as (p' & Hp' & Hpd). rewrite Hp in Hp'. injection Hp' as <-.
  assert (Hno : ino <> old_dir) by congruence. assert (Hnn : ino <> new_dir) by congruence.
  pose proof (entry_some _ _ _ _ _ Hp He) as Hpe.
  assert (Hqe : n_entries q !! new_name = None) by (unfold entry in Hfree; by rewrite Hq in Hfree).
  pose proof (rename_runs w s uid gid old_dir old_name new_dir new_name flags t Hr (rep_ino _ _ _ _ Hr Hp)
    (rep_ino _ _ _ _ Hr Hq) Ht) as Hrun.
  rewrite (t_rename_moves uid gid old_dir old_name new_dir new_name flags t s p q ino n) in Hrun
    by (done || by apply noticed_free).
  destruct Hrun as (d' & Hrun & Hr').
  { intros i Hi. rewrite He in Hi. injection Hi as <-. split; [done|]. split; [done|].
    intros j Hj. congruence. }
  exists d', (t_move old_dir new_dir old_name new_name ino t s).
  split; [done|]. split; [done|]. split; [|split].
  - eapply (t_move_wf s old_dir new_dir p q old_name new_name ino n t Hwf
      (rep_ok _ _ _ _ Hr Hp) (rep_ok _ _ _ _ Hr Hq)); try done. by rewrite Hmode, Hnd.
  - intros dir name. rewrite (t_move_entry s old_dir new_dir p q _ _ ino n t) by done.
    case_decide as E; [|done]. destruct E as [-> ->].
    rewrite decide_False, decide_False by (intros [? ?]; congruence).
    rewrite Hmode. unfold entry. by rewrite Hn.
  - unfold t_move. rewrite (upd_lookup_eq _ _ _ n) by by rewrite t_shift_other.
    unfold moved. by rewrite Hmode.
Qed.

(** C38: Renaming over an existing file breaks the tree unless the directory is
    sticky: the target is not noticed, so its entry is overwritten, its inode
    keeps its link count without a name, and the directory counts one entry
    too many. *)
Theorem rename_over_breaks_tree w s uid gid dir old_name new_name flags t p ino n target :
  represents (w_db w) s -> wf s -> time_ok t -> f_nodes s !! dir = Some p ->
  entry s dir old_name = Some ino -> entry s dir new_name = Some target -> old_name <> new_name ->
  f_nodes s !! ino = Some n -> node_is_dir n = false -> is_dir_mode (n_mode n) = false ->
  Z.testbit (n_mode p) 9 = false -> Z.land flags RENAME_EXCHANGE = 0 -> may_write p uid gid ->
  exists d' s', dbfs_common_rename uid gid dir old_name dir new_name flags t w =
      (Ok tt, set_db w d') /\ represents d' s' /\ entry s' dir new_name = Some ino /\ ~ wf s' /\
    (target <> ino -> target <> dir -> f_nodes s' !! target = f_nodes s !! target).
Proof.
  intros Hr Hwf Ht Hp He Htgt Hne Hn Hnd Hmode H9 Hfl Hwp.
  destruct (entry_is_dir _ _ _ _ Hwf He) as (p' & Hp' & Hpd). rewrite Hp in Hp'. injection Hp' as <-.
  assert (Hno : ino <> dir) by congruence.
  pose proof (entry_some _ _ _ _ _ Hp He) as Hpe. pose proof (entry_some _ _ _ _ _ Hp Htgt) as Hpt.
  pose proof (rep_ok _ _ _ _ Hr Hp) as Hpo.
  assert (Hvtx : Perm.contains (Perm.from_bits_truncate (n_mode p)) Perm.S_ISVTX = false).
  { rewrite Perm.from_bits_truncate_u16 by apply (ok_mode _ Hpo).
    change Perm.S_ISVTX with (2 ^ 9). by rewrite contains_pow2. }
  assert (Hst : sticky_denies (n_mode p) uid (n_uid p) (n_uid n) = false)
    by (unfold sticky_denies; by rewrite Hvtx).
  assert (Hun : noticed p new_name = None) by (unfold noticed; by rewrite Hvtx).
  pose proof (rename_runs w s uid gid dir old_name dir new_name flags t Hr (rep_ino _ _ _ _ Hr Hp)
    (rep_ino _ _ _ _ Hr Hp) Ht) as Hrun.
  rewrite (t_rename_moves uid gid dir old_name dir new_name flags t s p p ino n) in Hrun by done.
  destruct Hrun as (d' & Hrun & Hr').
  { intros i Hi. rewrite He in Hi. injection Hi as <-. split; [done|]. split; [done|].
    intros j _ q Hq Hq'. rewrite Hp in Hq. injection Hq as <-. congruence. }
  exists d', (t_move dir dir old_name new_name ino t s). split; [done|]. split; [done|].
  assert (Hp2 : f_nodes (t_move dir dir old_name new_name ino t s) !! dir =
    Some (shift_entry old_name new_name ino t p)).
  { unfold t_move, t_shift. rewrite upd_lookup_ne by (by apply not_eq_sym).
    rewrite decide_True by done. by apply upd_lookup_eq. }
  split; [|split].
  - rewrite (t_move_entry s dir dir p p _ _ ino n t) by done.
    rewrite decide_False by (intros [? ?]; congruence). by rewrite decide_True.
  - intros Hwf'. pose proof (wf_size _ Hwf' _ _ Hp2 Hpd) as Hs.
    cbn in Hs. rewrite (wf_size _ Hwf _ _ Hp Hpd) in Hs.
    rewrite map_size_insert_Some in Hs.
    2: { rewrite lookup_delete_ne by done. by eexists. }
    rewrite map_size_delete, Hpe in Hs. cbn in Hs.
    assert (size (n_entries p) <> 0%nat); [|lia].
    intros E%map_size_empty_inv. by rewrite E, lookup_empty in Hpe.
  - intros Ht1 Ht2. unfold t_move, t_shift. rewrite upd_lookup_ne by done.
    rewrite decide_True by done. by rewrite upd_lookup_ne.
Qed.
End theorems.

(** ** Witnesses *)

(** The root with the file [a] and the directory [d]; and with a second file
    [b]. *)
Definition pair_fs : fs := add_node 4 (file_node 0 ∅) (upd 1 (enter_sample (bs "b") 4) tree_fs).
Definition pair_world : world mapdb := World (image pair_fs) 5 ∅.
Definition pair_root : node := enter_sample (bs "b") 4 (enter_sample (bs "d") 3
  (enter_sample (bs "a") 2 (dir_node 1 {[bs "." := 1]}))).

Lemma pair_fs_ok : fs_ok pair_fs.
Proof.
  apply fs_ok_add; [|done|by apply file_node_ok].
  apply fs_ok_upd; [apply tree_fs_ok|]. intros n Hn Hok. injection Hn as <-.
  unfold enter_sample at 1. apply ok_with_size; [done|]. by apply ok_with_entry.
Qed.

Lemma pair_fs_wf : wf pair_fs.
Proof.
  apply (wf_create tree_fs 4 1 (enter_sample (bs "d") 3 (enter_sample (bs "a") 2
    (dir_node 1 {[bs "." := 1]}))) (file_node 0 ∅) (bs "b") (enter_sample (bs "b") 4));
    try done; [apply tree_fs_wf|by intros []].
Qed.

Lemma rename_moves_file_witness :
  exists d' s', dbfs_common_rename 0 0 1 (bs "a") 3 (bs "c") 0 sample_time tree_world =
      (Ok tt, set_db tree_world d') /\ represents d' s' /\ wf s' /\
    (forall dir name, entry s' dir name =
      if decide (dir = 3 /\ name = bs "c") then Some 2
      else if decide (dir = 1 /\ name = bs "a") then None else entry tree_fs dir name) /\
    f_nodes s' !! 2 = Some (with_ctime sample_time (file_node 0 ∅)).
Proof.
  refine (rename_moves_file tree_world tree_fs 0 0 1 (bs "a") 3 (bs "c") 0 sample_time
    (enter_sample (bs "d") 3 (enter_sample (bs "a") 2 (dir_node 1 {[bs "." := 1]})))
    (dir_node 2 (<[bs ".." := 1]> {[bs "." := 3]})) 2 (file_node 0 ∅)
    (image_represents _ tree_fs_ok) tree_fs_wf _ _ _ _ _ _ _ _ _ _ _ _ _ _ _ _).
  all: first [reflexivity|done|by intros []|by_eval].
Defined.

Lemma rename_over_breaks_tree_witness :
  exists d' s', dbfs_common_rename 0 0 1 (bs "a") 1 (bs "b") 0 sample_time pair_world =
      (Ok tt, set_db pair_world d') /\ represents d' s' /\ entry s' 1 (bs "b") = Some 2 /\
    ~ wf s' /\ (4 <> 2 -> 4 <> 1 -> f_nodes s' !! 4 = f_nodes pair_fs !! 4).
Proof.
  refine (rename_over_breaks_tree pair_world pair_fs 0 0 1 (bs "a") (bs "b") 0 sample_time
    pair_root 2 (file_node 0 ∅) 4 (image_represents _ pair_fs_ok) pair_fs_wf _ _ _ _ _ _ _ _ _ _ _).
  all: first [reflexivity|done|by_eval].
Defined.
