(* ===== verification/Xattr.v ===== *)
(** * Listing extended attributes

    What [dbfs_common_listxattr] of src/src/attr.rs, modelled in [Attr],
    writes into the caller's buffer. *)

From S2P Require Import Prelude Bytes Common Store MapDb Access Tree Layout Image Inode Attr File Readdir.

(** The names of the extended attributes among the keys of a bucket. *)
Definition xattr_names (pairs : list (bytes * bytes)) : list bytes :=
  filter (fun k => is_xattr_key k = true) pairs.*1.

(** The names one after the other, each with a zero byte. *)
Definition joined (names : list bytes) : bytes := names ≫= (fun k => k ++ [Byte.x00]).

Section facts.
Context {D : Type} `{JammDb D, !JammDbLaws D, !Reliable D}.
Implicit Types (d : D) (w : world D) (s : fs) (n : node).

Lemma xattr_prefixes k :
  starts_with k (bs "user.") || starts_with k (bs "system.") || starts_with k (bs "trusted.")
    || starts_with k (bs "security.") = is_xattr_key k.
Proof.
  unfold is_xattr_key, parse_xattr_namespace.
  destruct (starts_with k (bs "user.")); [done|]. destruct (starts_with k (bs "system.")); [done|].
  destruct (starts_with k (bs "trusted.")); [done|]. by destruct (starts_with k (bs "security.")).
Qed.

Lemma joined_cons k names : joined (k :: names) = (k ++ [Byte.x00]) ++ joined names.
Proof. done. Qed.

Lemma zlen_joined_cons k names : zlen (joined (k :: names)) = zlen k + 1 + zlen (joined names).
Proof. rewrite joined_cons, !zlen_app. done. Qed.

(** The names the loop writes from [size] on, with [cap] bytes of buffer: a
    name that does not fit is skipped, a later one may still fit. *)
Fixpoint fitting (size cap : Z) (names : list bytes) : list bytes :=
  match names with
  | [] => []
  | k :: names =>
      if size + zlen k + 1 <=? cap then k :: fitting (size + zlen k + 1) cap names
      else fitting size cap names
  end.

Lemma fitting_room size cap names :
  size <= cap -> size + zlen (joined (fitting size cap names)) <= cap.
Proof.
  revert size. induction names as [|k names IH]; intros size Hs; cbn [fitting].
  - change (zlen (joined [])) with 0. lia.
  - destruct (Z.leb_spec (size + zlen k + 1) cap) as [Hle|]; [|by apply IH].
    rewrite zlen_joined_cons. specialize (IH _ Hle). lia.
Qed.

Lemma fitting_all size cap names :
  size + zlen (joined names) <= cap -> fitting size cap names = names.
Proof.
  revert size. induction names as [|k names IH]; intros size Hs; cbn [fitting]; [done|].
  rewrite zlen_joined_cons in Hs. pose proof (zlen_nonneg (joined names)).
  rewrite Zleb_t by lia. f_equal. apply IH. lia.
Qed.

Lemma fitting_none size names : fitting size size names = [].
Proof.
  induction names as [|k names IH]; cbn [fitting]; [done|]. pose proof (zlen_nonneg k).
  by rewrite Zleb_f by lia.
Qed.

Lemma listxattr_loop_ok pairs size buf :
  0 <= size <= zlen buf ->
  let names := fitting size (zlen buf) (xattr_names pairs) in
  listxattr_loop pairs size buf = Ok (size + zlen (joined names), splice buf size (joined names)).
Proof.
  cbv zeta. revert size buf. induction pairs as [|[k v] pairs IH]; intros size buf Hs.
  { cbn. by rewrite Z.add_0_r, splice_nil. }
  cbn [listxattr_loop]. rewrite xattr_prefixes. unfold xattr_names in *.
  cbn [fmap list_fmap fst]. rewrite filter_cons.
  destruct (is_xattr_key k) eqn:Ek; [rewrite decide_True by done|by rewrite decide_False; [apply IH|]].
  cbn [fitting]. cbv zeta. destruct (Z.leb_spec (size + zlen k + 1) (zlen buf)) as [Hle|]; [|by apply IH].
  pose proof (zlen_nonneg k).
  rewrite copy_into_ok by lia. cbn [unwrap mbind outcome_bind].
  assert (Hl1 : zlen (splice buf size k) = zlen buf) by (apply splice_len; lia).
  rewrite copy_into_ok; [|lia|change (zlen [Byte.x00]) with 1; lia|lia].
  cbn [unwrap mbind outcome_bind].
  rewrite splice_app by (try change (zlen [Byte.x00]) with 1; lia).
  assert (Hl2 : zlen (splice buf size (k ++ [Byte.x00])) = zlen buf).
  { apply splice_len; rewrite ?zlen_app; try change (zlen [Byte.x00]) with 1; lia. }
  rewrite IH by lia. rewrite Hl2. set (rest := fitting _ _ _).
  pose proof (fitting_room (size + zlen k + 1) (zlen buf)
    (filter (fun k => is_xattr_key k = true) pairs.*1) Hle) as Hroom. fold rest in Hroom.
  rewrite zlen_joined_cons, joined_cons. f_equal. f_equal; [lia|].
  rewrite splice_app; rewrite ?zlen_app; try change (zlen [Byte.x00]) with 1; try lia. done.
Qed.

(** The keys of the extended attributes of a node, in order. *)
Definition attr_keys (names : list bytes) (n : node) : Prop :=
  StronglySorted key_lt names /\ forall k, k ∈ names <-> is_Some (n_xattrs n !! k).

Lemma xattr_names_ok d s ino n :
  represents d s -> f_nodes s !! ino = Some n ->
  attr_keys (xattr_names (db_pairs d (usize_be ino))) n.
Proof.
  intros Hr Hn. pose proof (rep_ok _ _ _ _ Hr Hn) as Hok. split.
  - unfold xattr_names. pose proof (db_pairs_sorted d (usize_be ino)) as Hs.
    induction (db_pairs d (usize_be ino)).*1 as [|k l IH]; [constructor|].
    apply StronglySorted_inv in Hs as [Hs Hx]. rewrite filter_cons. case_decide; [|by apply IH].
    constructor; [by apply IH|]. rewrite Forall_forall in Hx |- *.
    intros y Hy. apply Hx. by apply list_elem_of_filter in Hy as [_ ?].
  - intros k. unfold xattr_names. rewrite list_elem_of_filter, list_elem_of_fmap. split.
    + intros (Hk & [k' v] & -> & Hin). cbn in *. apply (db_pairs_val _ _ _ _ _ Hr Hn) in Hin.
      cbn in Hin. assert (E : parse_key k' = KXattr k') by (by apply parse_key_iff).
      rewrite E in Hin. by eexists.
    + intros [v Hv]. pose proof (ok_xattrs _ Hok _ _ Hv) as Hk. split; [done|].
      exists (k, v). split; [done|]. apply db_pairs_elem.
      change k with (key_bytes (KXattr k)) at 1. by rewrite (rep_get _ _ _ _ (KXattr k) Hr Hn Hk).
Qed.

(** [dbfs_common_listxattr] always succeeds on an existing inode. It
    writes the names of its extended attributes in ascending order, each with
    a zero byte, as far as they fit, and returns the bytes written; with room
    for all of them it writes all, and with an empty buffer it returns 0
    instead of the room needed. *)
Theorem listxattr_names w s ino n buf :
  represents (w_db w) s -> f_nodes s !! ino = Some n ->
  exists names, attr_keys names n /\
    let out := joined (fitting 0 (zlen buf) names) in
    dbfs_common_listxattr ino buf w = (Ok (zlen out, splice buf 0 out), w) /\
    (zlen (joined names) <= zlen buf -> out = joined names) /\
    (buf = [] -> dbfs_common_listxattr ino buf w = (Ok (0, []), w)).
Proof.
  intros Hr Hn. exists (xattr_names (db_pairs (w_db w) (usize_be ino))).
  split; [by eapply xattr_names_ok|]. cbv zeta.
  set (names := xattr_names _).
  assert (Hrun : dbfs_common_listxattr ino buf w =
    (Ok (zlen (joined (fitting 0 (zlen buf) names)),
         splice buf 0 (joined (fitting 0 (zlen buf) names))), w)).
  { unfold dbfs_common_listxattr. eapply read_tx_ok.
    erewrite tx_bind_ok by (apply get_bucket_ok; by eapply rep_has).
    erewrite tx_bind_ok by reflexivity. unfold tx_check.
    pose proof (zlen_nonneg buf). rewrite listxattr_loop_ok by lia.
    by rewrite Z.add_0_l. }
  split; [done|]. split.
  - intros Hfit. by rewrite fitting_all by lia.
  - intros ->. rewrite Hrun. change (zlen []) with 0. by rewrite fitting_none.
Qed.
End facts.

(** ** Witness *)

Lemma listxattr_names_witness :
  exists names, attr_keys names (with_xattrs <[bs "user.k" := bs "v"]> (file_node 0 ∅)) /\
    let out := joined (fitting 0 (zlen (replicate 9 Byte.x2e)) names) in
    dbfs_common_listxattr 2 (replicate 9 Byte.x2e) tagged_world =
      (Ok (zlen out, splice (replicate 9 Byte.x2e) 0 out), tagged_world) /\
    (zlen (joined names) <= zlen (replicate 9 Byte.x2e) -> out = joined names) /\
    (replicate 9 Byte.x2e = [] ->
      dbfs_common_listxattr 2 (replicate 9 Byte.x2e) tagged_world = (Ok (0, []), tagged_world)).
Proof.
  refine (listxattr_names tagged_world tagged_fs 2 _ (replicate 9 Byte.x2e)
    (image_represents _ tagged_fs_ok) _).
  reflexivity.
Defined.
