(* ===== verification/Limits.v ===== *)
(** * Allocation and the limits of file sizes

    [dbfs_common_fallocate] of src/src/inode.rs on every branch, with the
    wrap-around of [offset + size], and what [dbfs_common_write] of
    src/src/file.rs does behind the largest slice number, which is stored in
    32 bits. *)

From S2P Require Import Prelude Bytes Common Store MapDb Access Tree Layout Image Inode Truncate File.

(** A node after [dbfs_common_fallocate] without [FALLOC_FL_KEEP_SIZE]: a file
    grows and never shrinks. *)
Definition allocated (f_size : Z) (t : DbfsTimeSpec) (n : node) : node :=
  touch t (with_size (Z.max (n_size n) f_size) n).

Definition t_fallocate `{SliceConfig} (uid gid ino offset size mode : Z) (t : DbfsTimeSpec) (s : fs) :
  outcome (unit * fs) :=
  match f_nodes s !! ino with
  | None => Panic
  | Some n =>
      let f_size := w64 (offset + size) in
      if negb (checkout_access (n_uid n) (n_gid n) (n_mode n) uid gid ACCESS_W_OK)
      then Err AccessError
      else
        let gap := if n_size n / SLICE_SIZE <? f_size / SLICE_SIZE
                   then sat_sub f_size (n_size n) else 0 in
        if f_free s <? gap then Err NoSpace
        else
          let s := set_free (f_free s - gap) s in
          if Z.land mode FALLOC_FL_KEEP_SIZE =? 0
          then Ok (tt, upd ino (allocated f_size t) s) else Ok (tt, s)
  end.

Section facts.
Context `{SliceConfig} {D : Type} `{JammDb D, !JammDbLaws D, !Reliable D}.
Implicit Types (d : D) (w : world D) (s : fs) (n : node).

Lemma set_free_same s : set_free (f_free s - 0) s = s.
Proof. destruct s. unfold set_free. cbn. by rewrite Z.sub_0_r. Qed.

(** The last writes, from a database in which the space is claimed. *)
Lemma agree_grow d s ino n f_size mode t :
  represents d s -> f_nodes s !! ino = Some n -> is_u64 f_size -> time_ok t ->
  agree (tx_when (Z.land mode FALLOC_FL_KEEP_SIZE =? 0)
    (put (usize_be ino) (bs "ctime") (time_to_be_bytes t);;
     put (usize_be ino) (bs "mtime") (time_to_be_bytes t);;
     tx_when (n_size n <? f_size) (put (usize_be ino) (bs "size") (usize_be f_size))) d)
    (if Z.land mode FALLOC_FL_KEEP_SIZE =? 0 then Ok (tt, upd ino (allocated f_size t) s)
     else Ok (tt, s)).
Proof.
  intros Hr Hn Hf Ht. destruct (_ =? _); cbn [tx_when]; [|by split].
  do 2 ag. destruct (Z.ltb_spec (n_size n) f_size); cbn [tx_when].
  - apply agree_last. ag. fuse ino (fun n => touch t (with_size f_size n)).
    split; [done|]. erewrite upd_ext; [exact Hr0|]. intros m Hm. rewrite Hn in Hm.
    injection Hm as <-. unfold allocated. by rewrite Z.max_r by lia.
  - fuse ino (touch t). split; [done|]. erewrite upd_ext; [exact Hr0|]. intros m Hm.
    rewrite Hn in Hm. injection Hm as <-. unfold allocated. rewrite Z.max_l by lia. by destruct n.
Qed.

Lemma fallocate_tx_refines uid gid ino offset size mode t :
  is_u64 ino -> time_ok t ->
  refines (fallocate_tx (D := D) uid gid ino offset size mode t)
    (t_fallocate uid gid ino offset size mode t).
Proof.
  intros Hi Ht d s Hr. unfold fallocate_tx, t_fallocate.
  destruct (f_nodes s !! ino) as [n|] eqn:Hn.
  2: { eapply agree_bind_panic; [|done]. unfold tx_expect, get_bucket.
       by rewrite (rep_none _ _ Hr ino Hi Hn). }
  eapply agree_bind_ok; [apply tx_expect_ok, get_bucket_ok; by eapply rep_has|].
  do 4 ag. apply agree_guard; [|by intros ->]. intros ->. cbn [negb].
  pose proof (w64_range (offset + size)) as Hf. set (f_size := w64 (offset + size)) in *.
  pose proof (rep_free _ _ Hr) as [_ Hfree].
  destruct (n_size n / SLICE_SIZE <? f_size / SLICE_SIZE); cbn [tx_when].
  - eapply agree_claim; [done|by intros Hlt; rewrite Zltb_t|]. intros Hge d1 Hr1.
    rewrite (Zltb_f (f_free s)) by lia. by apply agree_grow.
  - eapply agree_bind_ok; [done|]. rewrite (Zltb_f (f_free s) 0) by apply Hfree. rewrite set_free_same.
    by apply agree_grow.
Qed.

Lemma fallocate_runs w s uid gid ino offset size mode t :
  represents (w_db w) s -> is_u64 ino -> time_ok t ->
  match t_fallocate uid gid ino offset size mode t s with
  | Ok (u, s') => exists d',
      dbfs_common_fallocate uid gid ino offset size mode t w = (Ok u, set_db w d') /\
      represents d' s'
  | Err e => dbfs_common_fallocate uid gid ino offset size mode t w = (Err e, w)
  | Panic => dbfs_common_fallocate uid gid ino offset size mode t w = (Panic, w)
  end.
Proof. intros. by apply write_runs, fallocate_tx_refines. Qed.

(** Growing a file keeps the tree. *)
Lemma wf_set_free s z : wf s -> wf (set_free z s).
Proof. intros []. by split. Qed.

Lemma wf_allocated s ino n f_size t :
  wf s -> f_nodes s !! ino = Some n -> node_is_dir n = false ->
  wf (upd ino (allocated f_size t) s).
Proof.
  intros Hwf Hn Hd. apply wf_upd_attr; [done|]. intros m Hm. rewrite Hn in Hm.
  injection Hm as <-. split_and!; try done. congruence.
Qed.

Lemma t_fallocate_wf s uid gid ino offset size mode t s' :
  wf s -> (forall n, f_nodes s !! ino = Some n -> node_is_dir n = false) ->
  t_fallocate uid gid ino offset size mode t s = Ok (tt, s') -> wf s'.
Proof.
  intros Hwf Hd. unfold t_fallocate. destruct (f_nodes s !! ino) as [n|] eqn:Hn; [|done].
  destruct (negb _); [done|]. cbv zeta. destruct (_ <? _) eqn:E; [done|].
  destruct (Z.land mode _ =? 0); intros [= <-]; [|by apply wf_set_free].
  by apply (wf_allocated _ _ n); [apply wf_set_free|..|apply Hd].
Qed.

(** C32: Allocation and its bounds. On a file the caller may write,
    [dbfs_common_fallocate] of a range that ends within 64 bits, in a later
    slice than the file does, takes the bytes the file would grow by from the
    free space, or fails with [NoSpace] and changes nothing; it
    never shrinks the file and never changes a byte of it, and the tree stays
    well formed. Of a range whose end wraps around to a place inside the
    file it reports success without reserving or growing anything. *)
Theorem fallocate_bounds w s uid gid ino offset size mode t n :
  represents (w_db w) s -> wf s -> time_ok t -> f_nodes s !! ino = Some n ->
  node_is_dir n = false ->
  checkout_access (n_uid n) (n_gid n) (n_mode n) uid gid ACCESS_W_OK = true ->
  (0 <= offset + size < 2 ^ 64 -> n_size n / SLICE_SIZE < (offset + size) / SLICE_SIZE ->
    (f_free s < offset + size - n_size n ->
      dbfs_common_fallocate uid gid ino offset size mode t w = (Err NoSpace, w)) /\
    (offset + size - n_size n <= f_free s -> exists d' s' n',
      dbfs_common_fallocate uid gid ino offset size mode t w = (Ok tt, set_db w d') /\
      represents d' s' /\ wf s' /\ f_nodes s' !! ino = Some n' /\
      f_free s' = f_free s - (offset + size - n_size n) /\
      n_size n' = (if Z.land mode FALLOC_FL_KEEP_SIZE =? 0 then offset + size else n_size n) /\
      forall pos, byte_at n' pos = byte_at n pos)) /\
  (2 ^ 64 <= offset + size < 2 ^ 64 + n_size n -> exists d' s' n',
    dbfs_common_fallocate uid gid ino offset size mode t w = (Ok tt, set_db w d') /\
    represents d' s' /\ f_nodes s' !! ino = Some n' /\ f_free s' = f_free s /\
    n_size n' = n_size n).
Proof.
  intros Hr Hwf Ht Hn Hd Hw. pose proof slice_range as HS.
  pose proof (rep_free _ _ Hr) as [_ Hfree]. pose proof (rep_ok _ _ _ _ Hr Hn) as Hok.
  pose proof (fallocate_runs w s uid gid ino offset size mode t Hr (rep_ino _ _ _ _ Hr Hn) Ht) as Hrun.
  pose proof (t_fallocate_wf s uid gid ino offset size mode t) as Hwf'.
  unfold t_fallocate in Hrun, Hwf'. rewrite Hn, Hw in Hrun, Hwf'. cbn [negb] in Hrun, Hwf'.
  cbv zeta in Hrun, Hwf'. split.
  - intros Hf Hblk. rewrite (w64_small (offset + size)) in Hrun, Hwf' by done.
    rewrite (Zltb_t (n_size n / SLICE_SIZE)) in Hrun, Hwf' by done.
    assert (Hgrow : n_size n < offset + size).
    { destruct (Z.le_gt_cases (offset + size) (n_size n)) as [Hle|]; [|done].
      assert ((offset + size) / SLICE_SIZE <= n_size n / SLICE_SIZE); [|lia].
      apply Z.div_le_mono; lia. }
    assert (Hgap : sat_sub (offset + size) (n_size n) = offset + size - n_size n)
      by (unfold sat_sub; lia).
    rewrite Hgap in Hrun, Hwf'. split; intros Hspace.
    + by rewrite Zltb_t in Hrun.
    + rewrite (Zltb_f (f_free s)) in Hrun, Hwf' by done.
      destruct (Z.land mode _ =? 0).
      * destruct Hrun as (d' & Hrun & Hr').
        eexists d', _, (allocated (offset + size) t n). split; [done|]. split; [done|].
        split; [apply (Hwf' _ Hwf ltac:(intros m Hm; congruence) eq_refl)|].
        split; [by apply upd_lookup_eq|]. split; [done|].
        split; [|done]. cbn. lia.
      * destruct Hrun as (d' & Hrun & Hr'). eexists d', _, n. split; [done|]. split; [done|].
        split; [by apply wf_set_free|]. by split_and!.
  - intros Hf. assert (E : w64 (offset + size) = offset + size - 2 ^ 64).
    { pose proof (ok_size _ Hok) as Hsz. unfold is_u64 in Hsz. unfold w64.
      replace (offset + size) with (offset + size - 2 ^ 64 + 1 * 2 ^ 64) at 1 by lia.
      rewrite Z.mod_add by lia. apply Z.mod_small. lia. }
    rewrite E in Hrun.
    rewrite (Zltb_f (n_size n / SLICE_SIZE)) in Hrun by (apply Z.div_le_mono; lia).
    rewrite (Zltb_f (f_free s) 0), set_free_same in Hrun by apply Hfree.
    destruct (Z.land mode _ =? 0); destruct Hrun as (d' & Hrun & Hr').
    + eexists d', _, (allocated (offset + size - 2 ^ 64) t n). split; [done|]. split; [done|].
      split; [by apply upd_lookup_eq|]. split; [done|]. cbn. lia.
    + by exists d', s, n.
Qed.
End facts.

(** ** copy_file_range *)

Section copy.
Context `{SliceConfig} `{!Memory} {D : Type} `{JammDb D, !JammDbLaws D, !Reliable D}.
Implicit Types (d : D) (w : world D) (s : fs) (n : node).

Lemma copy_into_len {A} (l : list A) a b v l' : copy_into l a b v = Some l' -> zlen l' = zlen l.
Proof.
  unfold copy_into. intros E. case_in E. zbool. injection E as <-. apply splice_len; lia.
Qed.

Lemma read_piece_len value index size offset buf at_ buf' at' :
  read_piece value index size offset buf at_ = Some (buf', at') -> zlen buf' = zlen buf.
Proof.
  unfold read_piece. cbv zeta. destruct (slice _ _ _) as [chunk|]; [|done]. cbn [mbind option_bind].
  destruct (copy_into _ _ _ _) as [b|] eqn:E; [|done]. cbn. intros [= <- _].
  by eapply copy_into_len.
Qed.

Lemma hole_loop_len k i size offset buf at_ buf' at' :
  hole_loop k i size offset buf at_ = Some (buf', at') -> zlen buf' = zlen buf.
Proof.
  revert i buf at_. induction k as [|k IH]; intros i buf at_; cbn [hole_loop].
  { by intros [= <- _]. }
  destruct (read_piece _ _ _ _ _ _) as [[b a]|] eqn:E; [|done]. cbn [mbind option_bind].
  intros ->%IH. by eapply read_piece_len.
Qed.

(** Reading never changes the length of the buffer. *)
Lemma read_loop_len pairs size offset start buf at_ buf' at' :
  read_loop pairs size offset start buf at_ = Some (buf', at') -> zlen buf' = zlen buf.
Proof.
  revert start buf at_. induction pairs as [|[k v] pairs IH]; intros start buf at_; cbn [read_loop].
  { by intros [= <- _]. }
  destruct (after_colon k) as [x|]; [|done]. cbn [mbind option_bind].
  destruct (u32_of x) as [index|]; [|done]. cbn [mbind option_bind].
  set (r := if index =? start then _ else _). assert (Hlen : forall st b a, r = Some (st, b, a) -> zlen b = zlen buf).
  { intros st b a. unfold r. destruct (_ =? _); [by intros [= _ <- _]|].
    destruct (hole_loop _ _ _ _ _ _) as [[b1 a1]|] eqn:E; [|done]. cbn. intros [= _ <- _].
    by eapply hole_loop_len. }
  destruct r as [[[st b] a]|]; [|done]. cbn [mbind option_bind]. specialize (Hlen _ _ _ eq_refl).
  destruct (read_piece _ _ _ _ _ _) as [[b2 a2]|] eqn:E; [|done]. cbn [mbind option_bind].
  apply read_piece_len in E. destruct (_ =? _); [intros [= <- _]|intros ->%IH]; congruence.
Qed.

Lemma read_tx_len number buf offset d count buf' d' :
  read_bytes_tx number buf offset d = Ok (count, buf', d') -> zlen buf' = zlen buf.
Proof.
  unfold read_bytes_tx. intros E. apply tx_bind_inv in E as (b & d1 & _ & E).
  apply tx_bind_inv in E as (size & d2 & _ & E). destruct (_ <=? _); [by injection E as _ <- _|].
  cbv zeta in E. apply tx_bind_inv in E as (pairs & d3 & _ & E).
  apply tx_bind_inv in E as ([b1 a1] & d4 & Hl & E). unfold tx_unwrap in Hl.
  destruct (read_loop _ _ _ _ _ _) as [[b2 a2]|] eqn:E2; [|done]. injection Hl as <- <- <-.
  injection E as _ <- _. by eapply read_loop_len.
Qed.

Lemma common_read_len number buf offset w count buf' w' :
  dbfs_common_read number buf offset w = (Ok (count, buf'), w') -> zlen buf' = zlen buf.
Proof.
  unfold dbfs_common_read, read_tx, dropped_tx. destruct (db_begin _ _) as [e|].
  { unfold raise. destruct Question; done. }
  destruct (read_bytes_tx _ _ _ _) as [[[c b] d]| |] eqn:E; try done.
  intros [= <- <- <-]. by eapply read_tx_len.
Qed.

(** The times of the target, written last. *)
Lemma touch_runs w s ino n t :
  represents (w_db w) s -> f_nodes s !! ino = Some n -> time_ok t ->
  exists d', write_tx Question Question
      (bucket ← get_bucket (usize_be ino);
       put bucket (bs "ctime") (time_to_be_bytes t);;
       put bucket (bs "mtime") (time_to_be_bytes t)) w = (Ok tt, set_db w d') /\
    represents d' (upd ino (touch t) s).
Proof.
  intros Hr Hn Ht. apply (write_runs Question Question _ w (Ok (tt, upd ino (touch t) s))).
  do 2 ag. apply agree_last. ag. by fuse ino (touch t).
Qed.
End copy.

(** ** Slice numbers wrap around *)

Section wrap.
Context `{SliceConfig} `{!Memory} {D : Type} `{JammDb D, !JammDbLaws D, !Reliable D}.
Implicit Types (d : D) (w : world D) (s : fs) (n : node).

(** A file after one whole slice was written as the slice [num]. *)
Definition rewritten (buf : bytes) (num : Z) (n : node) : node :=
  with_size (Z.max (n_size n) ((num + 1) * SLICE_SIZE)) (with_slices <[w32 num := buf]> n).

(** One round of the loop writes a whole slice, whatever its number. *)
Lemma agree_whole_slice {B} (f : Z -> Tx D B) fuel d s ino n buf num (R : outcome (B * fs)) :
  represents d s -> f_nodes s !! ino = Some n -> zlen buf = SLICE_SIZE ->
  (forall d', represents d' (upd ino (with_slices <[w32 num := buf]>) s) -> agree (f SLICE_SIZE d') R) ->
  agree ((write_loop (S fuel) (usize_be ino) buf num 0 0 ≫= f) d) R.
Proof.
  intros Hr Hn Hlen Hf. pose proof slice_range as HS. cbn [write_loop].
  rewrite Hlen, Z.sub_0_r, Z.min_id, !Z.add_0_l, !Z.eqb_refl.
  cbn [andb Z.eqb]. apply agree_assoc, (agree_unwrap _ _ _ buf).
  { rewrite slice_ok by lia. f_equal. rewrite Z.sub_0_r. cbn [Z.to_nat].
    rewrite drop_0. apply take_ge. unfold zlen in Hlen. lia. }
  apply agree_assoc. eapply agree_put_slice; [done|done|apply w32_range|]. intros d1 Hr1.
  by apply Hf.
Qed.

Lemma write_slice_runs w s ino n buf num :
  represents (w_db w) s -> f_nodes s !! ino = Some n -> zlen buf = SLICE_SIZE -> 0 <= num ->
  (num + 1) * SLICE_SIZE < 2 ^ 64 ->
  exists d', dbfs_common_write ino buf (num * SLICE_SIZE) w = (Ok SLICE_SIZE, set_db w d') /\
    represents d' (upd ino (rewritten buf num) s).
Proof.
  intros Hr Hn Hlen Hnum Hlim. pose proof slice_range as HS.
  pose proof (ok_size _ (rep_ok _ _ _ _ Hr Hn)) as Hsz.
  apply (write_runs Question Question _ w (Ok (SLICE_SIZE, upd ino (rewritten buf num) s))).
  unfold write_bytes_tx. do 2 ag. rewrite Z.div_mul, Z.mod_mul by lia. unfold write_fuel.
  eapply agree_whole_slice; [done|done|done|]. intros d1 Hr1. cbv beta zeta.
  rewrite w64_small by (unfold is_u64; nia).
  replace (num * SLICE_SIZE + SLICE_SIZE) with ((num + 1) * SLICE_SIZE) by lia.
  destruct (Z.ltb_spec (n_size n) (Z.max (n_size n) ((num + 1) * SLICE_SIZE))); cbn [tx_when].
  - eapply agree_put_size; [exact Hr1|by apply upd_lookup_eq|unfold is_u64 in *; nia|].
    intros d2 Hr2. split; [done|]. rewrite upd_upd in Hr2. erewrite upd_ext; [exact Hr2|].
    intros m Hm. rewrite Hn in Hm. by injection Hm as <-.
  - eapply agree_bind_ok; [done|]. split; [done|]. erewrite upd_ext; [exact Hr1|].
    intros m Hm. rewrite Hn in Hm. injection Hm as <-. unfold rewritten.
    rewrite Z.max_l by lia. by destruct n.
Qed.

(** C31: Behind the limit of a file, writes go around. Slices are numbered in 32
    bits and [dbfs_common_write] does not check the offset: writing a whole
    slice at the slice [num] of 2^32 or more reports success and a size
    beyond the limit, but replaces the bytes of the slice [num mod 2^32] at
    the start of the file, leaving all others. *)
Theorem write_wraps_around w s ino n buf num :
  represents (w_db w) s -> f_nodes s !! ino = Some n -> zlen buf = SLICE_SIZE ->
  2 ^ 32 <= num -> (num + 1) * SLICE_SIZE < 2 ^ 64 ->
  exists d' n', dbfs_common_write ino buf (num * SLICE_SIZE) w = (Ok SLICE_SIZE, set_db w d') /\
    represents d' (upd ino (fun _ => n') s) /\
    n_size n' = Z.max (n_size n) ((num + 1) * SLICE_SIZE) /\
    num mod 2 ^ 32 < num /\
    (forall i : nat, (i < length buf)%nat ->
      buf !! i = Some (byte_at n' (num mod 2 ^ 32 * SLICE_SIZE + Z.of_nat i))) /\
    (forall pos, 0 <= pos -> pos / SLICE_SIZE <> num mod 2 ^ 32 ->
      byte_at n' pos = byte_at n pos).
Proof.
  intros Hr Hn Hlen Hnum Hlim. pose proof slice_range as HS.
  destruct (write_slice_runs w s ino n buf num Hr Hn Hlen ltac:(lia) Hlim) as (d' & Hrun & Hr').
  exists d', (rewritten buf num n). split; [done|]. split.
  { erewrite upd_ext; [exact Hr'|]. intros m Hm. rewrite Hn in Hm. by injection Hm as <-. }
  split; [done|]. split; [pose proof (Z.mod_pos_bound num (2 ^ 32)); lia|].
  change (num mod 2 ^ 32) with (w32 num). split.
  - intros i Hi. unfold byte_at. rewrite Z.add_comm, Z.div_add, Z.mod_add by lia.
    unfold zlen in Hlen. rewrite Z.div_small, Z.mod_small by lia. cbn [rewritten n_slices with_size with_slices].
    rewrite Z.add_0_l, lookup_insert_eq, Nat2Z.id.
    destruct (lookup_lt_is_Some_2 _ _ Hi) as [b ->]. done.
  - intros pos Hpos Hne. unfold byte_at. cbn [rewritten n_slices with_size with_slices].
    by rewrite lookup_insert_ne.
Qed.
End wrap.

(** ** Witnesses *)

#[local] Instance limits_memory : Memory := sample_memory.

(** A file of three slices grown to 3000 bytes and, with an offset that makes
    the end wrap around, not grown. *)
Lemma fallocate_bounds_witness :
  (exists d' s', dbfs_common_fallocate 0 0 2 1000 2000 0 sample_time three_world =
     (Ok tt, set_db three_world d') /\ represents d' s' /\
     f_free s' = f_free three_fs - 1900) /\
  (exists d', dbfs_common_fallocate 0 0 2 (2 ^ 64 - 1) 2 0 sample_time three_world =
     (Ok tt, set_db three_world d')).
Proof.
  split.
  - destruct (fallocate_bounds three_world three_fs 0 0 2 1000 2000 0 sample_time three_node
      (image_represents _ three_fs_ok) three_fs_wf) as [Hgrow _]; [by_eval|reflexivity|done|done|].
    destruct (Hgrow ltac:(lia) ltac:(by_eval)) as [_ Hok].
    destruct (Hok ltac:(by_eval)) as (d' & s' & n' & E & Hr & _ & _ & Hfree & _).
    exists d', s'. split; [exact E|]. split; [exact Hr|]. rewrite Hfree. done.
  - destruct (fallocate_bounds three_world three_fs 0 0 2 (2 ^ 64 - 1) 2 0 sample_time three_node
      (image_represents _ three_fs_ok) three_fs_wf) as [_ Hwrap]; [by_eval|reflexivity|done|done|].
    destruct (Hwrap ltac:(by_eval)) as (d' & _ & _ & E & _). exists d'. exact E.
Defined.

Lemma write_wraps_around_witness :
  exists d' n', dbfs_common_write 2 (replicate 512 Byte.x7a) (2 ^ 32 * 512) three_world =
      (Ok 512, set_db three_world d') /\
    represents d' (upd 2 (fun _ => n') three_fs) /\ byte_at three_node 0 = Byte.x61 /\
    byte_at n' 0 = Byte.x7a.
Proof.
  destruct (write_wraps_around three_world three_fs 2 three_node (replicate 512 Byte.x7a) (2 ^ 32)
    (image_represents _ three_fs_ok)) as (d' & n' & E & Hr & _ & _ & Hnew & _);
    [reflexivity|done|lia|by_eval|].
  exists d', n'. split; [exact E|]. split; [exact Hr|]. split; [done|].
  specialize (Hnew 0%nat ltac:(rewrite length_replicate; lia)). cbn in Hnew. by injection Hnew.
Defined.
