(* ===== verification/SuperBlock.v ===== *)
(** * The super block: making, mounting and unmounting a file system

    The bucket [super_blk] holds the next inode number, the magic number, the
    block size and the free space. This file models [init_db] of
    src/src/fuse/mkfs.rs and the database side of src/src/fs_type.rs: the
    root inode, mounting, [statfs], synchronising and unmounting. The
    [rvfs] objects built around them are the crate's. *)

From S2P Require Import Prelude Bytes Common Store MapDb Access Tree Layout Image Inode.

(** [InodeMode] of the [rvfs] crate, as far as the conversion uses it. *)
Inductive InodeMode := S_FILE | S_DIR | S_SYMLINK | S_OTHER.

Definition permission_from_mode (inode_mode : InodeMode) : Z :=
  let permission := Perm.from_bits_truncate 0x1FF in
  match inode_mode with
  | S_FILE => Perm.union permission Perm.S_IFREG
  | S_DIR => Perm.union permission Perm.S_IFDIR
  | S_SYMLINK => Perm.union permission Perm.S_IFLNK
  | S_OTHER => permission
  end.

(** What mounting reads of the super block. *)
Record SuperBlk := MkSuperBlk { sb_block_size : Z; sb_magic : Z; sb_mount_flag : Z }.

Definition DBFS_MAGIC : Z := 1111.

Section ops.
Context `{SliceConfig} {D : Type} `{JammDb D}.

(** [init_db]: nothing is done when the super block exists. *)
Definition init_db_tx (size : Z) : Tx D unit :=
  bucket ← tx_expect (create_bucket (bs "super_blk"));
  put bucket (bs "continue_number") (usize_be 1);;
  put bucket (bs "magic") (u32_be DBFS_MAGIC);;
  put bucket (bs "blk_size") (u32_be SLICE_SIZE);;
  put bucket (bs "disk_size") (u64_be size).

Definition init_db (size : Z) : Op D unit :=
  present ← dropped_tx true Unwrap (tx_has (bs "super_blk"));
  if (present : bool) then mret tt else write_tx Unwrap Unwrap (init_db_tx size).

(** [dbfs_common_root_inode]: the body of its transaction; [old] is the
    inode number drawn when there is no root. *)
Definition root_inode_tx (old uid gid : Z) (ctime : DbfsTimeSpec) : Tx D Z :=
  present ← tx_has (usize_be 1);
  (if (present : bool) then mret tt else
     let permission := permission_from_mode S_DIR in
     new_inode ← tx_expect (create_bucket (usize_be 1));
     tx_unwrap (if old =? 1 then Some tt else None);;
     put new_inode (bs "mode") (u16_be permission);;
     put new_inode (bs "hard_links") (u32_be 2);;
     put new_inode (bs "uid") (u32_be uid);;
     put new_inode (bs "gid") (u32_be gid);;
     put new_inode (bs "atime") (time_to_be_bytes ctime);;
     put new_inode (bs "mtime") (time_to_be_bytes ctime);;
     put new_inode (bs "ctime") (time_to_be_bytes ctime);;
     put new_inode (bs "block_size") (u32_be SLICE_SIZE);;
     put new_inode (bs "size") (usize_be 1);;
     put new_inode (generate_data_key (bs ".")) (bs "1"));;
  bucket ← get_bucket (usize_be 1);
  read_usize bucket (bs "size").

(** The number is drawn inside the transaction, and only when the root is
    missing; it stays drawn when the transaction fails. *)
Definition draw_root_number : Op D Z := fun w =>
  if db_has (w_db w) (usize_be 1) then load_next w else fetch_next w.

Definition dbfs_common_root_inode (uid gid : Z) (ctime : DbfsTimeSpec) : Op D Z :=
  op_begin Question true;;
  old ← draw_root_number;
  write_tx Question Question (root_inode_tx old uid gid ctime).

(** [init_dbfs_fuse]: making the file system of a new image. *)
Definition init_dbfs_fuse (size uid gid : Z) (time : DbfsTimeSpec) : Op D unit :=
  init_db size;;
  op_expect (dbfs_common_root_inode uid gid time);;
  mret tt.

(** [dbfs_create_simple_super_blk]: mounting. *)
Definition dbfs_create_simple_super_blk (flags : Z) : StrOp D SuperBlk :=
  _ <-- str_of (bs "dbfs_fill_super_block: get db tx failed") (op_begin Question false);
  continue_number <-- str_of (bs "dbfs_fill_super_block: get bucket failed")
    (read_tx Question
       (bucket ← get_bucket (bs "super_blk"); read_usize bucket (bs "continue_number")));
  _ <-- str_of [] (store_next continue_number);
  str_of [] (read_tx Unwrap
    (blk_size ← read_u32 (bs "super_blk") (bs "blk_size");
     magic ← read_u32 (bs "super_blk") (bs "magic");
     mret (MkSuperBlk blk_size magic flags))).

(** [dbfs_sync_fs] and [dbfs_common_umount] write the next number back. *)
Definition sync_tx (continue_number : Z) : Tx D unit :=
  bucket ← tx_expect (get_or_create_bucket (bs "super_blk"));
  put bucket (bs "continue_number") (usize_be continue_number).

Definition dbfs_sync_fs : StrOp D unit :=
  str_of (bs "dbfs_sync_fs error")
    (continue_number ← load_next; write_tx Unwrap Question (sync_tx continue_number)).

Definition umount_tx (c_number : Z) : Tx D unit :=
  bucket ← get_bucket (bs "super_blk");
  put bucket (bs "continue_number") (usize_be c_number).

Definition dbfs_common_umount : Op D unit :=
  c_number ← load_next; write_tx Question Question (umount_tx c_number).

Definition dbfs_kill_super_blk : Op D unit := op_expect dbfs_common_umount.

(** [dbfs_common_statfs]; dividing by a block size of zero panics. *)
Definition statfs_name : bytes := splice (replicate 32 Byte.x00) 0 (bs "dbfs").

Definition statfs_tx (magic : option Z) : Tx D (Z * Z) :=
  bucket ← get_bucket (bs "super_blk");
  disk_size ← read_u64 bucket (bs "disk_size");
  magic ← match magic with
          | Some magic => mret magic
          | None => read_u32 bucket (bs "magic")
          end;
  mret (disk_size, magic).

Definition dbfs_common_statfs (blk_size magic mount_flags : option Z) : Op D DbfsFsStat :=
  '(disk_size, magic) ← read_tx Question (statfs_tx magic);
  let blk_size := default SLICE_SIZE blk_size in
  total_inodes ← load_next;
  let mount_flag := default 0 mount_flags in
  blocks ← op_unwrap (if blk_size =? 0 then None else Some (disk_size / blk_size));
  mret {| f_bsize := blk_size; f_frsize := blk_size; f_blocks := blocks;
          f_bfree := blocks; f_bavail := blocks; f_files := total_inodes;
          f_ffree := 999; f_favail := 999; f_fsid := magic; f_flag := mount_flag;
          f_namemax := 255; f_name := statfs_name |}.

Definition dbfs_stat_fs (sb : SuperBlk) : StrOp D DbfsFsStat :=
  str_of (bs "statfs error")
    (dbfs_common_statfs (Some (sb_block_size sb)) (Some (sb_magic sb))
       (Some (sb_mount_flag sb))).
End ops.

(** ** What the operations promise *)

(** The root of a new file system and the tree it makes. *)
Definition root_node `{SliceConfig} (uid gid : Z) (t : DbfsTimeSpec) : node :=
  {| n_size := 1; n_mode := permission_from_mode S_DIR; n_nlink := 2; n_uid := uid;
     n_gid := gid; n_blksize := SLICE_SIZE; n_atime := t; n_mtime := t; n_ctime := t;
     n_entries := {[bs "." := 1]}; n_target := None; n_dev := None; n_slices := ∅;
     n_xattrs := ∅ |}.

Definition mkfs_fs `{SliceConfig} (size uid gid : Z) (t : DbfsTimeSpec) : fs :=
  Fs {[1 := root_node uid gid t]} size.

(** The rest of the super block. *)
Record super_at {D} `{JammDb D} (d : D) (next blk_size magic : Z) : Prop := {
  sup_next : db_get d (bs "super_blk") (bs "continue_number") = Some (usize_be next);
  sup_blk : db_get d (bs "super_blk") (bs "blk_size") = Some (u32_be blk_size);
  sup_magic : db_get d (bs "super_blk") (bs "magic") = Some (u32_be magic) }.

(** ** Transactions that leave a bucket alone *)

Section keeps.
Context {D : Type} `{JammDbLaws D}.

Definition keeps (b : bytes) {A} (m : Tx D A) : Prop :=
  forall d a d', m d = Ok (a, d') -> forall k, db_get d' b k = db_get d b k.

Lemma keeps_bind b {A B} (m : Tx D A) (f : A -> Tx D B) :
  keeps b m -> (forall a, keeps b (f a)) -> keeps b (m ≫= f).
Proof.
  intros Hm Hf d x d'' Hr k. apply tx_bind_inv in Hr as (a & d' & E1 & E2).
  by rewrite (Hf _ _ _ _ E2), (Hm _ _ _ E1).
Qed.

Lemma keeps_same b {A} (m : Tx D A) :
  (forall d a d', m d = Ok (a, d') -> d' = d) -> keeps b m.
Proof. intros Hm d a d' Hr k. by rewrite (Hm _ _ _ Hr). Qed.

Lemma keeps_ret b {A} (a : A) : keeps b (mret a : Tx D A).
Proof. apply keeps_same. by intros d x d' [= _ <-]. Qed.
Lemma keeps_unwrap b {A} (o : option A) : keeps b (tx_unwrap o : Tx D A).
Proof. apply keeps_same. intros d x d'. destruct o; [by intros [= _ <-]|done]. Qed.
Lemma keeps_has b h : keeps b (tx_has h).
Proof. apply keeps_same. by intros d x d' [= _ <-]. Qed.
Lemma keeps_get_kv b h k : keeps b (get_kv h k).
Proof. apply keeps_same. by intros d x d' [= _ <-]. Qed.
Lemma keeps_get_bucket b h : keeps b (get_bucket h).
Proof.
  apply keeps_same. intros d x d'. unfold get_bucket.
  destruct (db_has d h); [by intros [= _ <-]|done].
Qed.
Lemma keeps_read b {A} (conv : bytes -> option A) h k : keeps b (read_field conv h k).
Proof.
  apply keeps_bind; [apply keeps_get_kv|intros ?].
  apply keeps_bind; [apply keeps_unwrap|intros ?]. apply keeps_unwrap.
Qed.
Lemma keeps_put b h k v : h <> b -> keeps b (put h k v).
Proof. intros Hh d x d' [= _ <-] k'. by apply db_get_put_bucket, not_eq_sym. Qed.
Lemma keeps_create b h {B} (f : bytes -> Tx D B) :
  h <> b -> keeps b (f h) -> keeps b (tx_expect (create_bucket h) ≫= f).
Proof.
  intros Hh Hf d x d' Hr k. apply tx_bind_inv in Hr as (a & d1 & E1 & E2).
  unfold tx_expect, create_bucket in E1.
  destruct (db_create d h) as [d2|] eqn:E; [|done]. injection E1 as <- <-.
  rewrite (Hf _ _ _ E2), (db_get_create _ _ _ _ _ E).
  by rewrite bool_decide_eq_false_2 by (by apply not_eq_sym).
Qed.
End keeps.

Section facts.
Context `{SliceConfig} {D : Type} `{JammDb D, !JammDbLaws D, !Reliable D}.
Implicit Types (d : D) (w : world D) (s : fs).

Lemma op_begin_ok p wr w : op_begin p wr w = (Ok tt, w).
Proof. unfold op_begin. by rewrite begin_ok. Qed.

(** A field of the super block other than the free space. *)
Lemma rep_super_put d s k v :
  represents d s -> k <> bs "disk_size" -> represents (db_put d (bs "super_blk") k v) s.
Proof.
  intros Hr Hk. split.
  - intros j n Ej. pose proof (rep_node _ _ Hr _ _ Ej) as (Hj & Hat & Hm).
    split; [done|]. split; [|done].
    eapply node_at_frame; [by rewrite db_has_put| |done].
    intros k'. apply db_get_put_bucket. apply not_eq_sym, super_blk_ne.
  - intros j Hj Ej. rewrite db_has_put. by apply (rep_none _ _ Hr).
  - destruct (rep_free _ _ Hr) as [Hf Hu]. split; [|done].
    by rewrite db_get_put_key by (by apply not_eq_sym).
Qed.

Lemma rep_empty d z :
  (forall ino, is_u64 ino -> db_has d (usize_be ino) = false) -> free_at d z ->
  represents d (Fs ∅ z).
Proof. intros Hn Hf. split; [done| |done]. intros ino Hi _. by apply Hn. Qed.

Lemma root_node_ok uid gid t :
  is_u32 uid -> is_u32 gid -> time_ok t -> node_ok (root_node uid gid t).
Proof.
  intros. pose proof slice_range. split; cbn; try done.
  - unfold is_u32. lia.
  - lia.
  - by intros nm i [_ <-]%lookup_singleton_Some.
  - by intros ? [= <-] [].
Qed.

(** Making the super block of an empty image. *)
Lemma init_db_runs w size :
  (forall b, db_has (w_db w) b = false) -> is_u64 size ->
  exists d', init_db size w = (Ok tt, set_db w d') /\
    represents d' (Fs ∅ size) /\ super_at d' 1 SLICE_SIZE DBFS_MAGIC.
Proof.
  intros Hno Hs. destruct (db_create_some _ _ (Hno (bs "super_blk"))) as [d1 Hd].
  assert (Hh : db_has d1 (bs "super_blk") = true).
  { rewrite (db_has_create _ _ _ _ Hd). by rewrite bool_decide_eq_true_2. }
  eexists. split.
  - unfold init_db. erewrite op_bind_ok.
    2: { unfold dropped_tx. rewrite begin_ok. unfold tx_has. by rewrite Hno. }
    cbv beta iota. apply write_tx_ok. unfold init_db_tx.
    erewrite tx_bind_ok by (apply tx_expect_ok; unfold create_bucket; by rewrite Hd).
    done.
  - split; [apply rep_empty|].
    + intros ino Hi. rewrite !db_has_put, (db_has_create _ _ _ _ Hd), Hno.
      rewrite bool_decide_eq_false_2; [done|]. apply not_eq_sym, super_blk_ne.
    + split; [|done]. by db_simpl.
    + split; by db_simpl.
Qed.
(** The root's transaction, when there is no root and when there is one. *)
Lemma root_missing_agree d s uid gid t :
  represents d s -> f_nodes s !! 1 = None -> is_u32 uid -> is_u32 gid -> time_ok t ->
  agree (root_inode_tx 1 uid gid t d) (Ok (1, add_node 1 (root_node uid gid t) s)).
Proof.
  intros Hr H1 Hu Hg Ht. assert (H64 : is_u64 1) by done.
  pose proof (rep_none _ _ Hr _ H64 H1) as Hn.
  destruct (db_create_some _ _ Hn) as [d1 Hc].
  unfold root_inode_tx. eapply agree_bind_ok; [unfold tx_has; by rewrite Hn|].
  cbv beta iota. apply agree_assoc. eapply agree_bind_ok.
  { apply tx_expect_ok. unfold create_bucket. by rewrite Hc. }
  apply filling_create in Hc. cbv beta.
  apply agree_assoc. eapply agree_bind_ok; [done|].
  do 9 (apply agree_assoc; fill). fill1 (KEntry (bs ".")).
  match goal with |- agree (_ ?d') _ =>
    assert (Hr' : represents d' (add_node 1 (root_node uid gid t) s)) end.
  { eapply rep_filled; [done..|by apply root_node_ok|eassumption|].
    intros []; try done. cbn [root_node node_val n_entries].
    case_decide as E; [injection E as ->; by rewrite lookup_singleton_eq|].
    by rewrite lookup_singleton_ne by congruence. }
  assert (Hl : f_nodes (add_node 1 (root_node uid gid t) s) !! 1 = Some (root_node uid gid t))
    by apply lookup_insert_eq.
  eapply agree_get_bucket; [done..|]. apply agree_last.
  by eapply agree_read_size.
Qed.

Lemma root_present_agree d s old uid gid t n :
  represents d s -> f_nodes s !! 1 = Some n ->
  agree (root_inode_tx old uid gid t d) (Ok (n_size n, s)).
Proof.
  intros Hr H1. unfold root_inode_tx.
  eapply agree_bind_ok; [unfold tx_has; by rewrite (rep_has _ _ _ _ Hr H1)|].
  cbv beta iota. eapply agree_bind_ok; [done|].
  eapply agree_get_bucket; [done..|]. apply agree_last. by eapply agree_read_size.
Qed.

(** The root's transaction leaves the super block alone. *)
Lemma root_tx_keeps old uid gid t : keeps (D := D) (bs "super_blk") (root_inode_tx old uid gid t).
Proof.
  pose proof (super_blk_ne 1) as Hne. apply not_eq_sym in Hne.
  assert (Hb : forall h, keeps (D := D) (bs "super_blk") (get_bucket h ≫= (fun b => read_usize b (bs "size")))).
  { intros h. apply keeps_bind; [apply keeps_get_bucket|intros ?]. apply keeps_read. }
  apply keeps_bind; [apply keeps_has|intros present].
  apply keeps_bind; [|intros _; apply Hb].
  destruct present; [apply keeps_ret|].
  apply keeps_create; [done|].
  repeat (apply keeps_bind; [first [by apply keeps_put|apply keeps_unwrap]|intros _]).
  by apply keeps_put.
Qed.

Lemma root_tx_super d d' old uid gid t x next blk magic :
  root_inode_tx old uid gid t d = Ok (x, d') -> super_at d next blk magic ->
  super_at d' next blk magic.
Proof.
  unfold root_inode_tx. intros Hrun Hs.
  assert (HE : forall k, db_get d' (bs "super_blk") k = db_get d (bs "super_blk") k).
  { refine (root_tx_keeps _ _ _ _ _ _ _ Hrun). }
  destruct Hs. split; by rewrite HE.
Qed.
Lemma root_inode_present w s uid gid t n :
  represents (w_db w) s -> f_nodes s !! 1 = Some n ->
  exists d', dbfs_common_root_inode uid gid t w = (Ok (n_size n), set_db w d') /\
    represents d' s /\
    forall next blk magic, super_at (w_db w) next blk magic -> super_at d' next blk magic.
Proof.
  intros Hr H1.
  pose proof (write_runs Question Question _ w _
    (root_present_agree _ _ (w_next w) uid gid t n Hr H1)) as (d' & E & Hr').
  exists d'. split_and!; [|done|].
  - unfold dbfs_common_root_inode. erewrite op_bind_ok by apply op_begin_ok.
    erewrite op_bind_ok; [exact E|]. unfold draw_root_number.
    by rewrite (rep_has _ _ _ _ Hr H1).
  - intros next blk magic. unfold write_tx in E. rewrite begin_ok in E.
    destruct (root_inode_tx _ _ _ _ _) as [[x d'']| |] eqn:Ex; [|done|done].
    rewrite commit_ok in E. apply (f_equal (fun r => w_db r.2)) in E. cbn in E. subst d''.
    by eapply root_tx_super.
Qed.

Lemma mkfs_runs w size uid gid t :
  (forall b, db_has (w_db w) b = false) -> w_next w = 1 ->
  is_u64 size -> is_u32 uid -> is_u32 gid -> time_ok t ->
  exists d', init_dbfs_fuse size uid gid t w = (Ok tt, World d' 2 (w_dirs w)) /\
    represents d' (mkfs_fs size uid gid t) /\
    super_at d' 1 SLICE_SIZE DBFS_MAGIC.
Proof.
  intros Hno Hnext Hs Hu Hg Ht.
  destruct (init_db_runs w size Hno Hs) as (d1 & E1 & Hr1 & Hsup).
  pose proof (root_missing_agree _ _ uid gid t Hr1 (lookup_empty 1) Hu Hg Ht) as Ha.
  unfold agree in Ha. destruct (root_inode_tx 1 uid gid t d1) as [[x d']| |] eqn:Ex;
    [|done|done]. destruct Ha as [-> Hr'].
  exists d'. split_and!; [|exact Hr'|by eapply root_tx_super].
  unfold init_dbfs_fuse. erewrite op_bind_ok by exact E1.
  erewrite op_bind_ok; [done|]. unfold op_expect, dbfs_common_root_inode.
  erewrite op_bind_ok by apply op_begin_ok.
  pose proof (rep_none _ _ Hr1 1 ltac:(done) (lookup_empty 1)) as Hroot.
  assert (E2 : draw_root_number (set_db w d1) = (Ok 1, World d1 2 (w_dirs w))).
  { unfold draw_root_number. cbn [w_db set_db]. rewrite Hroot.
    unfold fetch_next, set_next. cbn. by rewrite Hnext. }
  erewrite op_bind_ok by exact E2.
  by erewrite write_tx_ok by exact Ex.
Qed.

(** Making a file system. On an empty database [init_dbfs_fuse]
    returns and leaves exactly the root: a directory of size 1 whose only
    entry is itself, owned by the caller, in a well-formed tree, with the
    whole size free, the super block's fields set and the next inode
    number 2. *)
Theorem mkfs_root w size uid gid t :
  (forall b, db_has (w_db w) b = false) -> w_next w = 1 ->
  is_u64 size -> is_u32 uid -> is_u32 gid -> time_ok t ->
  exists d', init_dbfs_fuse size uid gid t w = (Ok tt, World d' 2 (w_dirs w)) /\
    represents d' (mkfs_fs size uid gid t) /\ wf (mkfs_fs size uid gid t) /\
    super_at d' 1 SLICE_SIZE DBFS_MAGIC.
Proof.
  intros Hno Hn Hs Hu Hg Ht.
  destruct (mkfs_runs w size uid gid t Hno Hn Hs Hu Hg Ht) as (d' & E & Hr & Hsup).
  exists d'. split_and!; [done|done|by apply root_alone_wf|done].
Qed.

(** C28: Unmounting and mounting again restores the file system: whatever the
    counter of the new session was, after [dbfs_common_umount] in the old one
    [dbfs_create_simple_super_blk] reads the block size and the magic number
    and brings back the next inode number, and [dbfs_common_root_inode] finds
    the root: the tree is the one unmounted. *)
Theorem remount_restores w s old blk magic flags root :
  represents (w_db w) s -> super_at (w_db w) old blk magic ->
  is_u64 (w_next w) -> is_u32 blk -> is_u32 magic -> f_nodes s !! 1 = Some root ->
  exists d', dbfs_common_umount w = (Ok tt, set_db w d') /\ represents d' s /\
    forall next dirs,
      dbfs_create_simple_super_blk flags (World d' next dirs) =
        (Ok (inr (MkSuperBlk blk magic flags)), World d' (w_next w) dirs) /\
      exists d'', dbfs_common_root_inode 0 0 time_default (World d' (w_next w) dirs) =
        (Ok (n_size root), World d'' (w_next w) dirs) /\ represents d'' s.
Proof.
  intros Hr [Hn Hb Hm] Hnext Hblk Hmagic H1.
  assert (Hh : db_has (w_db w) (bs "super_blk") = true) by by eapply db_has_some.
  exists (db_put (w_db w) (bs "super_blk") (bs "continue_number") (usize_be (w_next w))).
  pose proof (rep_super_put _ _ (bs "continue_number") (usize_be (w_next w)) Hr
    ltac:(done)) as Hr'.
  split_and!; [|done|].
  - unfold dbfs_common_umount. erewrite op_bind_ok by done. apply write_tx_ok.
    unfold umount_tx. by tx_step.
  - intros next dirs. split.
    + set (d' := db_put _ _ _ _) in *.
      assert (Hh' : db_has d' (bs "super_blk") = true) by (unfold d'; by rewrite db_has_put).
      assert (Hb' : db_get d' (bs "super_blk") (bs "blk_size") = Some (u32_be blk))
        by (unfold d'; by db_simpl).
      assert (Hm' : db_get d' (bs "super_blk") (bs "magic") = Some (u32_be magic))
        by (unfold d'; by db_simpl).
      unfold dbfs_create_simple_super_blk.
      erewrite str_bind_ok by (eapply str_of_ok, op_begin_ok).
      erewrite str_bind_ok.
      2: { eapply str_of_ok, read_tx_ok. tx_step.
           eapply read_field_ok; [by apply db_get_put_eq|]. by apply usize_of_be. }
      erewrite str_bind_ok by (by eapply str_of_ok).
      apply str_of_ok. eapply read_tx_ok.
      erewrite tx_bind_ok.
      2: { eapply read_field_ok; [exact Hb'|by apply u32_of_be]. }
      erewrite tx_bind_ok.
      2: { eapply read_field_ok; [exact Hm'|by apply u32_of_be]. }
      done.
    + by destruct (root_inode_present (World _ (w_next w) dirs) s 0 0 time_default root Hr' H1)
        as (d'' & E & Hr'' & _); exists d''.
Qed.

(** [statfs] reports the free space in blocks and the number of inodes
    drawn. *)
Lemma statfs_reports w s next blk magic flags :
  represents (w_db w) s -> super_at (w_db w) next blk magic -> is_u32 magic -> blk <> 0 ->
  dbfs_common_statfs (Some blk) None flags w =
  (Ok (FsStat blk blk (f_free s / blk) (f_free s / blk) (f_free s / blk) (w_next w) 999 999
         magic (default 0 flags) 255 statfs_name), w).
Proof.
  intros Hr [_ _ Hm] Hmagic Hblk. destruct (rep_free _ _ Hr) as [Hf Hu].
  unfold dbfs_common_statfs. erewrite op_bind_ok.
  2: { eapply read_tx_ok. unfold statfs_tx.
       erewrite tx_bind_ok by (eapply get_bucket_ok, db_has_some; exact Hf).
       erewrite tx_bind_ok by (eapply read_field_ok; [exact Hf|by apply u64_of_be]).
       erewrite tx_bind_ok by (eapply read_field_ok; [exact Hm|by apply u32_of_be]).
       reflexivity. }
  cbv beta iota. rewrite op_bind_ok with (a := w_next w) (w' := w) by done.
  change (default SLICE_SIZE (Some blk)) with blk. by rewrite (Zeqb_ne blk 0) by done.
Qed.
End facts.

(** ** Witnesses *)

Definition empty_world : world mapdb := World ∅ 1 ∅.

Lemma mkfs_root_witness :
  exists d', init_dbfs_fuse 1000000 0 0 sample_time empty_world = (Ok tt, World d' 2 ∅) /\
    wf (mkfs_fs 1000000 0 0 sample_time).
Proof.
  destruct (mkfs_root empty_world 1000000 0 0 sample_time) as (d' & E & _ & Hw & _).
  - intros b. done.
  - done.
  - done.
  - done.
  - done.
  - done.
  - by exists d'.
Defined.

(** The file system just made, after the session has drawn numbers. *)
Definition session_world : world mapdb :=
  set_next (init_dbfs_fuse 1000000 0 0 sample_time empty_world).2 7.

Lemma session_ok :
  represents (w_db session_world) (mkfs_fs 1000000 0 0 sample_time) /\
  super_at (w_db session_world) 1 SLICE_SIZE DBFS_MAGIC.
Proof.
  destruct (mkfs_runs empty_world 1000000 0 0 sample_time) as (d' & E & Hr & Hs);
    [done..|]. unfold session_world. rewrite E. by split.
Qed.

Lemma remount_restores_witness :
  exists d', dbfs_common_umount session_world = (Ok tt, set_db session_world d') /\
    dbfs_create_simple_super_blk 0 (World d' 1 ∅) =
      (Ok (inr (MkSuperBlk 512 1111 0)), World d' 7 ∅).
Proof.
  destruct session_ok as [Hr Hs].
  destruct (remount_restores session_world (mkfs_fs 1000000 0 0 sample_time) 1 512 1111 0
    (root_node 0 0 sample_time)) as (d' & E & _ & Hm).
  - exact Hr.
  - exact Hs.
  - done.
  - done.
  - done.
  - apply lookup_singleton_eq.
  - exists d'. split; [exact E|]. apply (Hm 1 ∅).
Defined.
