(* ===== verification/FsCommon.v ===== *)
(** * The shared functions of src/src/fs_common.rs

    A second version of the root inode, of unmounting and of [statfs], for the
    adapters of the newer VFS interface. Its root inode is written in a
    transaction that is dropped: it never reaches the database. *)

From S2P Require Import Prelude Bytes Common Store MapDb SuperBlock.

Section ops.
Context {D : Type} `{JammDb D}.

(** The body of [dbfs_common_root_inode]; [old] is the number drawn when there
    is no root. *)
Definition root_inode_tx (old uid gid : Z) (ctime : DbfsTimeSpec) : Tx D unit :=
  present ← tx_has (usize_be 1);
  if (present : bool) then mret tt else
    let permission := Perm.union (Perm.from_bits_truncate 0x1ED) Perm.S_IFDIR in
    new_inode ← tx_expect (create_bucket (usize_be 1));
    tx_unwrap (if old =? 1 then Some tt else None);;
    put new_inode (bs "mode") (u16_be permission);;
    put new_inode (bs "hard_links") (u32_be 2);;
    put new_inode (bs "uid") (u32_be uid);;
    put new_inode (bs "gid") (u32_be gid);;
    put new_inode (bs "atime") (time_to_be_bytes ctime);;
    put new_inode (bs "mtime") (time_to_be_bytes ctime);;
    put new_inode (bs "ctime") (time_to_be_bytes ctime).

(** [drop(tx)] instead of [tx.commit()]. *)
Definition dbfs_common_root_inode (uid gid : Z) (ctime : DbfsTimeSpec) : Op D Z :=
  op_begin Question true;;
  old ← draw_root_number;
  dropped_tx true Question (root_inode_tx old uid gid ctime);;
  mret 1.

Definition dbfs_common_umount : Op D unit := mret tt.

(** The numbers asked for are not looked at. *)
Definition dbfs_common_statfs (_total_blocks _free_blocks _total_files _free_files
    _block_size : Z) : Op D DbfsFsStat :=
  mret {| f_bsize := 4096; f_frsize := 4096; f_blocks := 0; f_bfree := 0; f_bavail := 0;
          f_files := 0; f_ffree := 0; f_favail := 0; f_fsid := 0; f_flag := 0;
          f_namemax := 255; f_name := replicate 32 Byte.x00 |}.

Context `{!JammDbLaws D, !Reliable D}.

Lemma draw_root_first (w : world D) :
  db_has (w_db w) (usize_be 1) = false ->
  op_begin Question true w = (Ok tt, w) /\
  draw_root_number w = (Ok (w_next w), set_next w (w64 (w_next w + 1))).
Proof. intros Hno. unfold op_begin, draw_root_number. by rewrite begin_ok, Hno. Qed.

(** The first call on a database without a root. *)
Lemma root_inode_first (w : world D) uid gid t :
  db_has (w_db w) (usize_be 1) = false -> w_next w = 1 ->
  dbfs_common_root_inode uid gid t w = (Ok 1, set_next w 2).
Proof.
  intros Hno Hn. destruct (db_create_some _ _ Hno) as [d1 Hc].
  destruct (draw_root_first w Hno) as [E1 E2]. unfold dbfs_common_root_inode.
  erewrite op_bind_ok by exact E1. erewrite op_bind_ok by exact E2. rewrite Hn.
  unfold dropped_tx, mbind at 1, op_bind. rewrite begin_ok. cbn [w_db set_next].
  unfold root_inode_tx, tx_has, mbind, tx_bind. rewrite Hno.
  unfold tx_expect, create_bucket. by rewrite Hc.
Qed.

(** With a root nothing happens. *)
Lemma root_inode_there (w : world D) uid gid t :
  db_has (w_db w) (usize_be 1) = true -> dbfs_common_root_inode uid gid t w = (Ok 1, w).
Proof.
  intros Hh. unfold dbfs_common_root_inode, op_begin. erewrite op_bind_ok by by rewrite begin_ok.
  erewrite op_bind_ok by (unfold draw_root_number; rewrite Hh; reflexivity).
  erewrite op_bind_ok; [reflexivity|]. apply dropped_tx_ok with (d := w_db w).
  unfold root_inode_tx, tx_has, mbind, tx_bind. by rewrite Hh.
Qed.

(** The root inode of this module is lost. When the root is missing, the
    first call returns 1 and leaves the database without it, having only drawn
    the number 1; the second call draws the number 2 and panics. *)
Theorem root_inode_lost (w : world D) uid gid t uid' gid' t' :
  db_has (w_db w) (usize_be 1) = false -> w_next w = 1 ->
  dbfs_common_root_inode uid gid t w = (Ok 1, set_next w 2) /\
  dbfs_common_root_inode uid' gid' t' (set_next w 2) = (Panic, set_next w 3).
Proof.
  intros Hno Hn. split; [by apply root_inode_first|].
  destruct (db_create_some _ _ Hno) as [d1 Hc].
  destruct (draw_root_first (set_next w 2) Hno) as [E1 E2]. unfold dbfs_common_root_inode.
  erewrite op_bind_ok by exact E1. erewrite op_bind_ok by exact E2.
  unfold mbind at 1, op_bind, dropped_tx. rewrite begin_ok. cbn [w_db set_next w_next].
  unfold root_inode_tx, tx_has, mbind, tx_bind. rewrite Hno.
  unfold tx_expect, create_bucket. by rewrite Hc.
Qed.
End ops.

Lemma root_inode_lost_witness :
  dbfs_common_root_inode 0 0 time_default empty_world = (Ok 1, World ∅ 2 ∅) /\
  dbfs_common_root_inode 0 0 time_default (World (∅ : mapdb) 2 ∅) = (Panic, World ∅ 3 ∅).
Proof.
  refine (root_inode_lost empty_world 0 0 time_default 0 0 time_default _ _).
  - done.
  - done.
Defined.
