(* ===== verification/Fuse.v ===== *)
(** * The FUSE front end: src/src/fuse

    The functions [dbfs_fuse_*] of fuse/inode.rs, fuse/file.rs, fuse/attr.rs,
    fuse/link.rs and fuse/sblk.rs, the callbacks of [DbfsFuse] in fuse/mod.rs
    that the kernel's requests arrive at, and the conversions of common.rs
    between the attributes of the common layer and those of the [fuser] crate.
    A callback ends with a reply, or with a panic of the daemon. *)

From S2P Require Import Prelude Bytes Common Store Access Inode Dir Attr Truncate File Readdir SuperBlock.

(** ** Data of the crates and of the operating system *)

Definition ENOENT : Z := 2.
Definition EACCES : Z := 13.
Definition EINVAL : Z := 22.
Definition O_ACCMODE : Z := 3.
Definition O_RDONLY : Z := 0.
Definition O_WRONLY : Z := 1.
Definition O_RDWR : Z := 2.
Definition O_TRUNC : Z := 0x200.
Definition FOPEN_DIRECT_IO : Z := 1.

(** [FileType] of [fuser]. *)
Inductive FileType := FtNamedPipe | FtCharDevice | FtBlockDevice | FtDirectory
  | FtRegularFile | FtSymlink | FtSocket.

(** A time of the system clock: seconds since the epoch, also negative, and
    nanoseconds below 10^9. *)
Record SystemTime := MkSystemTime { st_sec : Z; st_nsec : Z }.

(** [FileAttr] of [fuser]. *)
Record FileAttr := MkFileAttr {
  fa_ino : Z; fa_size : Z; fa_blocks : Z; fa_atime : SystemTime; fa_mtime : SystemTime;
  fa_ctime : SystemTime; fa_crtime : SystemTime; fa_kind : FileType; fa_perm : Z;
  fa_nlink : Z; fa_uid : Z; fa_gid : Z; fa_rdev : Z; fa_blksize : Z; fa_flags : Z }.

(** [TimeOrNow] of [fuser]. *)
Inductive TimeOrNow := Now | SpecificTime (t : SystemTime).

(** The caller, and what the clock shows each time the request reads it. *)
Record Request := MkRequest { req_uid : Z; req_gid : Z; req_clock : nat -> SystemTime }.

(** ** Conversions: [impl_fuse] of common.rs *)

(** [impl From<DbfsFileType> for FileType]. *)
Definition fuse_file_type (value : DbfsFileType) : FileType :=
  match value with
  | NamedPipe => FtNamedPipe
  | CharDevice => FtCharDevice
  | BlockDevice => FtBlockDevice
  | Directory => FtDirectory
  | RegularFile => FtRegularFile
  | Symlink => FtSymlink
  | Socket => FtSocket
  end.

(** [impl From<DbfsTimeSpec> for SystemTime]: [Duration::new] carries whole
    seconds out of the nanoseconds; the sum with the epoch panics when the
    seconds leave [i64]. *)
Definition system_time (value : DbfsTimeSpec) : option SystemTime :=
  let s := sec value + nsec value / 10 ^ 9 in
  if s <? 2 ^ 63 then Some (MkSystemTime s (nsec value mod 10 ^ 9)) else None.

(** [impl From<SystemTime> for DbfsTimeSpec]: a time before the epoch
    panics. *)
Definition time_of_system (value : SystemTime) : option DbfsTimeSpec :=
  if st_sec value <? 0 then None else Some (TimeSpec (st_sec value) (st_nsec value)).

(** [impl From<DbfsAttr> for FileAttr]. *)
Definition file_attr (value : DbfsAttr) : option FileAttr :=
  atime ← system_time (a_atime value);
  mtime ← system_time (a_mtime value);
  ctime ← system_time (a_ctime value);
  crtime ← system_time (a_crtime value);
  Some {| fa_ino := a_ino value; fa_size := a_size value; fa_blocks := a_blocks value;
          fa_atime := atime; fa_mtime := mtime; fa_ctime := ctime; fa_crtime := crtime;
          fa_kind := fuse_file_type (a_kind value); fa_perm := Z.land (a_perm value) 0x1FF;
          fa_nlink := a_nlink value; fa_uid := a_uid value; fa_gid := a_gid value;
          fa_rdev := a_rdev value; fa_blksize := a_blksize value; fa_flags := 0 |}.

(** [OsStr::to_str]: the names of the kernel are bytes; [str] is UTF-8. *)
Definition cont_byte (c : Byte.byte) : bool := (0x80 <=? byte_val c) && (byte_val c <=? 0xBF).
Definition in_range (lo hi : Z) (c : Byte.byte) : bool := (lo <=? byte_val c) && (byte_val c <=? hi).

(** The bytes the second byte of a character may be, by the first one. *)
Definition second_ok (c d : Byte.byte) : bool :=
  if byte_val c =? 0xE0 then in_range 0xA0 0xBF d
  else if byte_val c =? 0xED then in_range 0x80 0x9F d
  else if byte_val c =? 0xF0 then in_range 0x90 0xBF d
  else if byte_val c =? 0xF4 then in_range 0x80 0x8F d
  else cont_byte d.

Fixpoint utf8_ok (s : bytes) : bool :=
  match s with
  | [] => true
  | c :: s =>
      if byte_val c <? 0x80 then utf8_ok s
      else if in_range 0xC2 0xDF c then
        match s with d :: s => cont_byte d && utf8_ok s | _ => false end
      else if in_range 0xE0 0xEF c then
        match s with d :: e :: s => second_ok c d && cont_byte e && utf8_ok s | _ => false end
      else if in_range 0xF0 0xF4 c then
        match s with
        | d :: e :: f :: s => second_ok c d && cont_byte e && cont_byte f && utf8_ok s
        | _ => false
        end
      else false
  end.

Lemma utf8_ascii l : Forall (fun b => byte_val b < 0x80) l -> utf8_ok l = true.
Proof.
  induction 1 as [|b l Hb _ IH]; [done|]. cbn [utf8_ok]. by rewrite Zltb_t by done.
Qed.

Definition to_str (name : bytes) : option bytes := if utf8_ok name then Some name else None.

(** [as i64] of an unsigned 64-bit value, and [as u64] of a signed one. *)
Definition as_i64 (z : Z) : Z := if z mod 2 ^ 64 <? 2 ^ 63 then z mod 2 ^ 64 else z mod 2 ^ 64 - 2 ^ 64.

Section ops.
Context `{SliceConfig} {D : Type} `{JammDb D}.
Implicit Types (req : Request).

(** [DbfsTimeSpec::from(SystemTime::now())], the [i]-th reading. *)
Definition now (req : Request) (i : nat) : Op D DbfsTimeSpec :=
  op_unwrap (time_of_system (req_clock req i)).

(** ** fuse/inode.rs *)

Definition dbfs_fuse_lookup (parent : Z) (name : bytes) : Op D FileAttr :=
  if MAX_PATH_LEN <? zlen name then op_fail NameTooLong
  else
    attr ← dbfs_common_lookup parent name;
    op_unwrap (file_attr attr).

Definition access_mode_ok (flags : Z) : bool :=
  let mode := Z.land flags O_ACCMODE in
  (mode =? O_RDONLY) || (mode =? O_WRONLY) || (mode =? O_RDWR).

Definition dbfs_fuse_create (req : Request) (parent : Z) (name : bytes) (mode flags : Z) :
  Op D FileAttr :=
  if negb (access_mode_ok flags) then op_fail InvalidArgument
  else
    let permission := Perm.from_bits_truncate (w16 mode) in
    ctime ← now req 0;
    attr ← dbfs_common_create parent name (req_uid req) (req_gid req) ctime permission None None;
    op_unwrap (file_attr attr).

(** [res.is_err()] and [res.unwrap()]: any error becomes the error [()]. *)
Definition op_try {A} (m : Op D A) : Op D (option A) := fun w =>
  match m w with
  | (Ok a, w') => (Ok (Some a), w')
  | (Err _, w') => (Ok None, w')
  | (Panic, w') => (Panic, w')
  end.

Definition dbfs_fuse_mkdir (req : Request) (parent : Z) (name : bytes) (mode : Z) :
  Op D (option FileAttr) :=
  let permission := Perm.union (Perm.from_bits_truncate (w16 mode)) Perm.S_IFDIR in
  ctime ← now req 0;
  res ← op_try (dbfs_common_create parent name (req_uid req) (req_gid req) ctime permission
                  None None);
  match res with
  | None => mret None
  | Some attr => attr ← op_unwrap (file_attr attr); mret (Some attr)
  end.

Definition dbfs_fuse_truncate (req : Request) (ino size : Z) : Op D DbfsAttr :=
  ctime ← now req 0;
  dbfs_common_truncate (req_uid req) (req_gid req) ino ctime size.

Definition dbfs_fuse_rmdir (req : Request) (parent : Z) (name : bytes) : Op D unit :=
  ctime ← now req 0;
  dbfs_common_rmdir (req_uid req) (req_gid req) parent name ctime.

Definition dbfs_fuse_fallocate (req : Request) (ino offset size mode : Z) : Op D unit :=
  ctime ← now req 0;
  dbfs_common_fallocate (req_uid req) (req_gid req) ino offset size mode ctime.

Definition dbfs_fuse_rename (req : Request) (parent : Z) (name : bytes) (newparent : Z)
    (newname : bytes) (flags : Z) : Op D unit :=
  ctime ← now req 0;
  dbfs_common_rename (req_uid req) (req_gid req) parent name newparent newname flags ctime.

Definition dbfs_fuse_mknod (req : Request) (parent : Z) (name : bytes) (mode dev : Z) :
  Op D DbfsAttr :=
  let permission := Perm.from_bits_truncate (w16 mode) in
  ctime ← now req 0;
  dbfs_common_create parent name (req_uid req) (req_gid req) ctime permission None (Some dev).

(** ** fuse/attr.rs *)

Definition dbfs_fuse_getattr (ino : Z) : Op D FileAttr :=
  attr ← dbfs_common_attr ino;
  op_unwrap (file_attr attr).

Definition dbfs_fuse_statfs : Op D DbfsFsStat := dbfs_common_statfs None None None.

Definition dbfs_fuse_access (req : Request) (ino mask : Z) : Op D bool :=
  dbfs_common_access (req_uid req) (req_gid req) ino mask.

Definition dbfs_fuse_setxattr (req : Request) (ino : Z) (name value : bytes) : Op D unit :=
  time ← now req 0;
  dbfs_common_setxattr (req_uid req) (req_gid req) ino name value time.

Definition dbfs_fuse_getxattr (req : Request) (ino : Z) (name buf : bytes) : Op D (Z * bytes) :=
  dbfs_common_getxattr (req_uid req) (req_gid req) ino name buf.

(** [dbfs_common_listxattr] ignores the caller. *)
Definition dbfs_fuse_listxattr (req : Request) (ino : Z) (buf : bytes) : Op D (Z * bytes) :=
  dbfs_common_listxattr ino buf.

Definition dbfs_fuse_removexattr (req : Request) (ino : Z) (name : bytes) : Op D unit :=
  time ← now req 0;
  dbfs_common_removexattr (req_uid req) (req_gid req) ino name time.

Definition dbfs_fuse_chmod (req : Request) (ino mode : Z) : Op D DbfsAttr :=
  time ← now req 0;
  dbfs_common_chmod (req_uid req) (req_gid req) ino (w16 mode) time.

Definition dbfs_fuse_chown (req : Request) (ino : Z) (uid gid : option Z) : Op D DbfsAttr :=
  time ← now req 0;
  dbfs_common_chown (req_uid req) (req_gid req) ino uid gid time.

(** The time to set: the clock's [i]-th reading for [Now]. *)
Definition time_or_now (req : Request) (i : nat) (t : option TimeOrNow) :
  Op D (option DbfsTimeSpec) :=
  match t with
  | None => mret None
  | Some Now => t ← now req i; mret (Some t)
  | Some (SpecificTime t) => t ← op_unwrap (time_of_system t); mret (Some t)
  end.

Definition dbfs_fuse_utimens (req : Request) (ino : Z) (atime mtime : option TimeOrNow) :
  Op D DbfsAttr :=
  atime ← time_or_now req 0 atime;
  mtime ← time_or_now req 1 mtime;
  ctime ← now req 2;
  dbfs_common_utimens (req_uid req) (req_gid req) ino atime mtime ctime.

(** ** fuse/link.rs *)

Definition dbfs_fuse_link (req : Request) (ino newparent : Z) (newname : bytes) : Op D DbfsAttr :=
  if MAX_PATH_LEN <? zlen newname then op_fail NameTooLong
  else
    time ← now req 0;
    dbfs_common_link (req_uid req) (req_gid req) ino newparent newname time.

Definition dbfs_fuse_symlink (req : Request) (parent : Z) (name link : bytes) : Op D DbfsAttr :=
  if MAX_PATH_LEN <? zlen name then op_fail NameTooLong
  else
    time ← now req 0;
    let permission := Perm.union (Perm.from_bits_truncate 0x1FF) Perm.S_IFLNK in
    dbfs_common_create parent name (req_uid req) (req_gid req) time permission (Some link) None.

(** The whole buffer of [MAX_PATH_LEN] bytes; the length is dropped. *)
Definition dbfs_fuse_readlink (ino : Z) : Op D bytes :=
  '(_, buf) ← dbfs_common_readlink ino (replicate (Z.to_nat MAX_PATH_LEN) Byte.x00);
  mret buf.

Definition dbfs_fuse_unlink (req : Request) (parent : Z) (name : bytes) : Op D unit :=
  time ← now req 0;
  dbfs_common_unlink (req_uid req) (req_gid req) parent name None time.

(** ** fuse/sblk.rs *)

(** The state of the file is that of the database; [sync_all] and [flush] of
    the file below do not change it. *)
Definition dbfs_fuse_destroy : Op D unit := op_expect dbfs_common_umount.

(** ** fuse/file.rs *)

(** [assert!(offset >= 0)]. *)
Definition assert_offset (offset : Z) : Op D unit :=
  op_unwrap (if 0 <=? offset then Some tt else None).

Definition dbfs_fuse_read (ino offset : Z) (buf : bytes) : Op D (Z * bytes) :=
  assert_offset offset;;
  dbfs_common_read ino buf offset.

Definition dbfs_fuse_write `{!Memory} (ino offset : Z) (buf : bytes) : Op D Z :=
  assert_offset offset;;
  dbfs_common_write ino buf offset.

Definition dbfs_fuse_releasedir (ino : Z) : Op D unit :=
  set_readdir_table (fun t => (pop_readdir_table ino t).2).

(** The access mask of [open]; the error is the errno. *)
Definition open_mask (flags : Z) : Z + Z :=
  let mode := Z.land flags O_ACCMODE in
  if mode =? O_RDONLY then
    if negb (Z.land flags O_TRUNC =? 0) then inr EACCES
    else if negb (Z.land flags FMODE_EXEC =? 0) then inl ACCESS_X_OK
    else inl ACCESS_R_OK
  else if mode =? O_WRONLY then inl ACCESS_W_OK
  else if mode =? O_RDWR then inl (Z.lor ACCESS_R_OK ACCESS_W_OK)
  else inr EINVAL.

(** [None]: granted; [Some]: the errno. *)
Definition dbfs_fuse_open (req : Request) (ino flags : Z) : Op D (option Z) :=
  match open_mask flags with
  | inr errno => mret (Some errno)
  | inl access_mask => fun w =>
      match dbfs_common_open ino (req_uid req) (req_gid req) access_mask w with
      | (Ok _, w') => (Ok None, w')
      | (Err e, w') => (Ok (Some (error_code e)), w')
      | (Panic, w') => (Panic, w')
      end
  end.

Definition opendir_mask (flags : Z) : outcome Z :=
  let mode := Z.land flags O_ACCMODE in
  if mode =? O_RDONLY then
    if negb (Z.land flags O_TRUNC =? 0) then Err AccessError else Ok ACCESS_R_OK
  else if mode =? O_WRONLY then Ok ACCESS_W_OK
  else if mode =? O_RDWR then Ok (Z.lor ACCESS_R_OK ACCESS_W_OK)
  else Err InvalidArgument.

Definition dbfs_fuse_opendir (req : Request) (ino flags : Z) : Op D unit :=
  access_mask ← op_lift (opendir_mask flags);
  dbfs_common_open ino (req_uid req) (req_gid req) access_mask.

Definition dbfs_fuse_copy_file_range `{!Memory} (req : Request) (ino_in offset_in ino_out
    offset_out len : Z) : Op D Z :=
  time ← now req 0;
  dbfs_common_copy_file_range (req_uid req) (req_gid req) ino_in offset_in ino_out offset_out
    len time.
End ops.

Section facts.
Context {D : Type}.

Lemma op_try_ok {A} (m : Op D A) w a w' : m w = (Ok a, w') -> op_try m w = (Ok (Some a), w').
Proof. intros E. unfold op_try. by rewrite E. Qed.

Lemma op_try_err {A} (m : Op D A) w e w' : m w = (Err e, w') -> op_try m w = (Ok None, w').
Proof. intros E. unfold op_try. by rewrite E. Qed.

Lemma op_try_panic {A} (m : Op D A) w w' : m w = (Panic, w') -> op_try m w = (Panic, w').
Proof. intros E. unfold op_try. by rewrite E. Qed.

Lemma assert_offset_ok offset (w : world D) : 0 <= offset -> assert_offset offset w = (Ok tt, w).
Proof. intros. unfold assert_offset. by rewrite Zleb_t. Qed.
End facts.
