(* ===== verification/FuseDir.v ===== *)
(** * Listing a directory through FUSE: src/src/fuse/file.rs

    The kernel reads a directory in chunks: each request carries the offset of
    the last entry it was given, and the daemon adds entries to a reply until
    the reply is full. [dbfs_fuse_readdir] and [dbfs_fuse_readdirplus] keep
    their place in the table [GLOBAL_READDIR_TABLE] as the listing of [Readdir]
    does. The reply buffer is the [fuser] crate's: [full repl x] says that the
    entry [x] does not fit behind the entries [repl], in which case [add]
    returns [true] and adds nothing. *)

From S2P Require Import Prelude Bytes Common Store MapDb Access Tree Layout Image Inode File Readdir Fuse.

(** An entry of a reply to [readdir] and of one to [readdirplus]. *)
Record DirReply := MkDirReply { dr_ino : Z; dr_offset : Z; dr_kind : FileType; dr_name : bytes }.
Record DirPlus := MkDirPlus { dp_ino : Z; dp_offset : Z; dp_name : bytes; dp_attr : FileAttr }.

Definition plain_reply (x : DbfsDirEntry) : option DirReply :=
  Some (MkDirReply (d_ino x) (as_i64 (d_offset x + 1)) (fuse_file_type (d_kind x)) (d_name x)).

(** [x.attr.as_ref().unwrap()] and the conversion of the attributes. *)
Definition plus_reply (x : DbfsDirEntry) : option DirPlus :=
  attr ← d_attr x;
  attr ← file_attr attr;
  Some (MkDirPlus (d_ino x) (as_i64 (d_offset x + 1)) (d_name x) attr).

Section ops.
Context `{SliceConfig} {D : Type} `{JammDb D}.

Section reply.
Context {E : Type} (mk : DbfsDirEntry -> option E) (full : list E -> E -> bool).

(** [for i in 0..res]: the reply, the next offset, and the entry that did not
    fit. *)
Fixpoint add_entries (entries : list DbfsDirEntry) (offset : Z) (repl : list E) :
  option (list E * Z * option DbfsDirEntry) :=
  match entries with
  | [] => Some (repl, offset, None)
  | x :: entries =>
      e ← mk x;
      if full repl e then Some (repl, offset, Some x)
      else add_entries entries (as_i64 (d_offset x + 1)) (repl ++ [e])
  end.

(** [push_readdir_table(ino, ReadDirInfo::new(x.offset, x.name.clone()))]. *)
Definition record_place (ino : Z) (x : DbfsDirEntry) : Op D unit :=
  set_readdir_table (push_readdir_table ino (ReadDir (d_offset x) (d_name x))).

(** The [loop]: an errno, or the entries of the reply. *)
Fixpoint fuse_readdir_loop (fuel : nat) (plus : bool) (ino offset : Z) (repl : list E) :
  Op D (Z + list E) :=
  match fuel with
  | O => op_unwrap None
  | S fuel =>
      res ← op_try (dbfs_common_readdir ino (w64 offset) plus);
      match res with
      | None => mret (inl ENOENT)
      | Some entries =>
          match last entries with
          | None => mret (inr repl)
          | Some x =>
              '(repl, offset, stopped) ← op_unwrap (add_entries entries offset repl);
              match stopped with
              | Some y => record_place ino y;; mret (inr repl)
              | None => record_place ino x;; fuse_readdir_loop fuel plus ino offset repl
              end
          end
      end
  end.
End reply.

Definition dbfs_fuse_readdir (full : list DirReply -> DirReply -> bool) (ino offset : Z) :
  Op D (Z + list DirReply) :=
  assert_offset offset;;
  fuse_readdir_loop plain_reply full readdir_fuel false ino offset [].

Definition dbfs_fuse_readdirplus (full : list DirPlus -> DirPlus -> bool) (ino offset : Z) :
  Op D (Z + list DirPlus) :=
  assert_offset offset;;
  fuse_readdir_loop plus_reply full readdir_fuel true ino offset [].
End ops.

(** ** What the kernel sees *)

Section facts.
Context `{SliceConfig} {D : Type} `{JammDb D, !JammDbLaws D, !Reliable D}.
Implicit Types (w : world D) (s : fs) (n : node).

(** How many entries a reply takes. *)
Fixpoint taken {E} (full : list E -> E -> bool) (repl es : list E) : nat :=
  match es with
  | [] => 0
  | e :: es => if full repl e then 0 else S (taken full (repl ++ [e]) es)
  end.

Lemma taken_le {E} (full : list E -> E -> bool) repl es : (taken full repl es <= length es)%nat.
Proof.
  revert repl. induction es as [|e es IH]; intros repl; cbn; [lia|].
  destruct (full repl e); [lia|]. specialize (IH (repl ++ [e])). lia.
Qed.

Lemma add_entries_ok {E} (mk : DbfsDirEntry -> option E) full f es offset repl :
  (forall x, x ∈ es -> mk x = Some (f x)) ->
  let k := taken full repl (f <$> es) in
  exists off',
    add_entries mk full es offset repl = Some (repl ++ take k (f <$> es), off', es !! k) /\
    (k = length es -> off' = default offset ((fun x => as_i64 (d_offset x + 1)) <$> last es)).
Proof.
  revert offset repl. induction es as [|x es IH]; intros offset repl Hmk.
  { cbn. rewrite app_nil_r. eauto. }
  cbn [taken fmap list_fmap add_entries]. rewrite (Hmk x) by left. cbn [mbind option_bind].
  destruct (full repl (f x)); cbn zeta.
  { exists offset. cbn. rewrite app_nil_r. split; [done|]. lia. }
  destruct (IH (as_i64 (d_offset x + 1)) (repl ++ [f x])) as (off' & -> & Hoff).
  { intros y Hy. apply Hmk. by right. }
  exists off'. cbn [take lookup list_lookup length]. rewrite <- app_assoc. split; [done|].
  intros [= E1]. rewrite Hoff by done. rewrite last_cons. by destruct (last es).
Qed.

(** A request at another offset than the one after the recorded entry. *)
Lemma readdir_lost_place w s ino n info offset plus :
  represents (w_db w) s -> f_nodes s !! ino = Some n -> w_dirs w !! ino = Some info ->
  offset <> w64 (rd_offset info + 1) ->
  dbfs_common_readdir ino offset plus w = (Panic, w).
Proof.
  intros Hr Hn Htab Hne. unfold dbfs_common_readdir, get_readdir_table. rewrite Htab.
  unfold read_tx, dropped_tx. rewrite begin_ok. unfold readdir_tx.
  erewrite tx_bind_ok by (apply get_bucket_ok; by eapply rep_has).
  unfold readdir_cursor. rewrite Zeqb_ne by done. done.
Qed.
(** The entries of a directory as the kernel gets them: each with the offset at
    which the next one is found. *)
Definition dir_replies s (names : list (bytes * Z)) : list DirReply :=
  imap (fun i x => MkDirReply x.2 (Z.of_nat i + 1)
    (fuse_file_type (default RegularFile (kind_of <$> f_nodes s !! x.2))) x.1) names.

Lemma as_i64_small z : 0 <= z < 2 ^ 63 -> as_i64 z = z.
Proof.
  intros. unfold as_i64. rewrite Z.mod_small by lia. by rewrite Zltb_t by lia.
Qed.

Lemma plain_replies s names x :
  zlen names < 2 ^ 63 - 1 -> x ∈ listing s false 0 names ->
  plain_reply x =
    Some (MkDirReply (d_ino x) (d_offset x + 1) (fuse_file_type (d_kind x)) (d_name x)).
Proof.
  intros Hlen (i & Hi)%list_elem_of_lookup. unfold listing in Hi. rewrite list_lookup_imap in Hi.
  destruct (names !! i) as [y|] eqn:Ey; [|done]. injection Hi as <-.
  apply lookup_lt_Some in Ey. unfold zlen in Hlen. unfold plain_reply. cbn [d_offset dir_entry].
  by rewrite as_i64_small by lia.
Qed.

Lemma replies_listing s names :
  (fun x => MkDirReply (d_ino x) (d_offset x + 1) (fuse_file_type (d_kind x)) (d_name x))
    <$> listing s false 0 names = dir_replies s names.
Proof.
  unfold listing, dir_replies. rewrite fmap_imap. apply imap_ext. intros i y _. cbn.
  do 2 f_equal.
Qed.

(** The world after an interrupted or a whole listing. *)
Definition placed w (ino : Z) (x : DbfsDirEntry) : world D :=
  set_dirs w (push_readdir_table ino (ReadDir (d_offset x) (d_name x)) (w_dirs w)).

Lemma first_round w s ino n :
  represents (w_db w) s -> wf s -> f_nodes s !! ino = Some n -> w_dirs w !! ino = None ->
  zlen (db_pairs (w_db w) (usize_be ino)) < 2 ^ 63 ->
  dbfs_common_readdir ino 0 false w =
    (Ok (listing s false 0 (omap (entry_pair n) (db_pairs (w_db w) (usize_be ino)))), w).
Proof.
  intros Hr Hwf Hn Hno Hb.
  apply (readdir_runs _ _ _ n _ _ _ (db_pairs (w_db w) (usize_be ino)));
    [done|done| | |by intros kv; eapply db_pairs_val|done|done|lia].
  - intros name i Hi. apply (wf_closed _ Hwf ino name). unfold entry. by rewrite Hn.
  - unfold get_readdir_table. by rewrite Hno.
Qed.

(** The round after the last entry finds nothing more. *)
Lemma last_round w s ino n before x i :
  represents (w_db w) s -> wf s -> f_nodes s !! ino = Some n ->
  omap (entry_pair n) (db_pairs (w_db w) (usize_be ino)) = before ++ [(x, i)] ->
  zlen (db_pairs (w_db w) (usize_be ino)) < 2 ^ 63 - 1 ->
  w_dirs w !! ino = Some (ReadDir (zlen before) x) ->
  dbfs_common_readdir ino (zlen before + 1) false w = (Ok [], w).
Proof.
  intros Hr Hwf Hn Hom Hb Htab. pose proof (zlen_nonneg before) as Hpos.
  pose proof (zlen_omap_le (entry_pair n) (db_pairs (w_db w) (usize_be ino))) as Hle.
  rewrite Hom, zlen_app in Hle. change (zlen [(x, i)]) with 1 in Hle.
  apply (resume_runs w s ino n false _ x i before []); [done..|lia].
Qed.

(** A round that finds nothing ends the reply. *)
Lemma round_nothing full fuel w ino offset repl :
  is_u64 offset -> dbfs_common_readdir ino offset false w = (Ok [], w) ->
  fuse_readdir_loop plain_reply full (S fuel) false ino offset repl w = (Ok (inr repl), w).
Proof.
  intros Ho E. cbn [fuse_readdir_loop]. rewrite w64_small by done.
  by erewrite op_bind_ok by (by apply op_try_ok).
Qed.

(** One whole listing in one reply, or the part of it that fits. *)
Lemma fuse_readdir_run w s ino n full names :
  represents (w_db w) s -> wf s -> f_nodes s !! ino = Some n -> w_dirs w !! ino = None ->
  zlen (db_pairs (w_db w) (usize_be ino)) < 2 ^ 63 - 1 ->
  names = omap (entry_pair n) (db_pairs (w_db w) (usize_be ino)) ->
  let k := taken full [] (dir_replies s names) in
  dbfs_fuse_readdir full ino 0 w =
    (Ok (inr (take k (dir_replies s names))),
     from_option (placed w ino) (from_option (placed w ino) w (last (listing s false 0 names)))
       (listing s false 0 names !! k)).
Proof.
  intros Hr Hwf Hn Hno Hb -> k. set (names := omap _ _) in *.
  set (es := listing s false 0 names).
  pose proof (zlen_omap_le (entry_pair n) (db_pairs (w_db w) (usize_be ino))) as Hle.
  change (zlen names <= zlen (db_pairs (w_db w) (usize_be ino))) in Hle.
  destruct (add_entries_ok plain_reply full
    (fun x => MkDirReply (d_ino x) (d_offset x + 1) (fuse_file_type (d_kind x)) (d_name x))
    es 0 []) as (off' & Hadd & Hoff).
  { intros x Hx. by apply (plain_replies s names); [lia|]. }
  pose proof (replies_listing s names) as Hrl. fold es in Hrl.
  rewrite Hrl in Hadd, Hoff. fold k in Hadd, Hoff.
  unfold dbfs_fuse_readdir. erewrite op_bind_ok by (by apply assert_offset_ok).
  unfold readdir_fuel. remember 2%nat as fuel eqn:Ef. cbn [fuse_readdir_loop].
  erewrite op_bind_ok.
  2: { apply op_try_ok. change (w64 0) with 0. by apply (first_round w s ino n); [..|lia]. }
  fold names. fold es. cbv beta iota.
  destruct (last es) as [y|] eqn:El; cbn [from_option].
  2: { apply last_None in El. rewrite El.
       assert (Hnil : dir_replies s names = []) by (by rewrite <- Hrl, El).
       unfold k. by rewrite Hnil. }
  rewrite Hadd. erewrite op_bind_ok by reflexivity. cbv beta iota. cbn [app].
  destruct (es !! k) as [x|] eqn:Ek; [by erewrite op_bind_ok by reflexivity|].
  cbn [from_option]. apply lookup_ge_None in Ek.
  assert (Hk : k = length es).
  { pose proof (taken_le full [] (dir_replies s names)) as Hk. fold k in Hk.
    unfold dir_replies in Hk. rewrite length_imap in Hk. unfold es, listing in *.
    rewrite length_imap in *. lia. }
  erewrite op_bind_ok by reflexivity. fold (placed w ino y).
  destruct (last names) as [[x i]|] eqn:Eln.
  2: { apply last_None in Eln. unfold es in El. by rewrite Eln in El. }
  pose proof (last_listing s false 0 _ _ _ Eln) as E. fold es in E. rewrite El in E.
  injection E as ->. apply last_Some in Eln as [before Eln].
  pose proof (zlen_nonneg before) as Hpos.
  assert (Hlast : zlen names = zlen before + 1) by (rewrite Eln, zlen_app; done).
  rewrite Hoff by done.
  cbn [fmap option_fmap option_map default from_option d_offset dir_entry id].
  replace (0 + zlen names - 1 + 1) with (zlen before + 1) by lia.
  rewrite as_i64_small by lia. subst fuel. rewrite round_nothing; [done|unfold is_u64; lia|].
  apply (last_round _ s ino n before x i); [done..| |].
  - done.
  - cbn. unfold push_readdir_table. rewrite lookup_insert_eq.
    do 2 f_equal. lia.
Qed.

Lemma release_placed w ino x :
  w_dirs w !! ino = None -> dbfs_fuse_releasedir ino (placed w ino x) = (Ok tt, w).
Proof.
  intros Hno. destruct w as [d next t]. cbn in Hno. unfold dbfs_fuse_releasedir, set_readdir_table.
  unfold placed, set_dirs, pop_readdir_table, push_readdir_table. cbn [w_db w_next w_dirs snd].
  do 2 f_equal. by rewrite delete_insert_id.
Qed.

Lemma release_none w ino : w_dirs w !! ino = None -> dbfs_fuse_releasedir ino w = (Ok tt, w).
Proof.
  intros Hno. destruct w as [d next t]. cbn in Hno. unfold dbfs_fuse_releasedir, set_readdir_table.
  unfold set_dirs, pop_readdir_table. cbn [w_db w_next w_dirs snd]. do 2 f_equal.
  by apply delete_id.
Qed.

(** Requests at another offset than the recorded one end the daemon. *)
Lemma fuse_lost_place w s ino n info full offset :
  represents (w_db w) s -> f_nodes s !! ino = Some n -> w_dirs w !! ino = Some info ->
  is_u64 offset -> offset <> w64 (rd_offset info + 1) ->
  dbfs_fuse_readdir full ino offset w = (Panic, w).
Proof.
  intros Hr Hn Ht Ho Hne. unfold dbfs_fuse_readdir.
  erewrite op_bind_ok by (apply assert_offset_ok, Ho). unfold readdir_fuel.
  cbn [fuse_readdir_loop]. rewrite w64_small by done. apply op_bind_panic, op_try_panic.
  by eapply readdir_lost_place.
Qed.

(** C29: The kernel's requests for a directory. A first request is answered with
    the longest run of entries, in the order of their names and with the
    offsets 1, 2, ..., that fits into the reply; the database is as before,
    and closing the directory brings back the state before. When all entries
    fitted, the request at the offset of the last one gets an empty reply,
    which ends the listing. When they did not, the daemon recorded the entry
    that did not fit where the next request expects the last one that did:
    that request, at the offset of the last entry sent, panics. *)
Theorem fuse_listing_chunks w s ino n full :
  represents (w_db w) s -> wf s -> f_nodes s !! ino = Some n -> w_dirs w !! ino = None ->
  zlen (db_pairs (w_db w) (usize_be ino)) < 2 ^ 63 - 1 ->
  exists names k w', dir_names names n /\ k = taken full [] (dir_replies s names) /\
    dbfs_fuse_readdir full ino 0 w = (Ok (inr (take k (dir_replies s names))), w') /\
    w_db w' = w_db w /\ dbfs_fuse_releasedir ino w' = (Ok tt, w) /\
    (k = length names ->
      dbfs_fuse_readdir full ino (zlen names) w' = (Ok (inr []), w')) /\
    ((k < length names)%nat ->
      dbfs_fuse_readdir full ino (Z.of_nat k) w' = (Panic, w')).
Proof.
  intros Hr Hwf Hn Hno Hb. pose proof (dir_names_pairs _ _ _ _ Hr Hn) as HD.
  pose proof (fuse_readdir_run w s ino n full _ Hr Hwf Hn Hno Hb eq_refl) as E.
  pose proof (zlen_omap_le (entry_pair n) (db_pairs (w_db w) (usize_be ino))) as Hle.
  set (names := omap _ _) in *. set (k := taken _ _ _) in *. cbn zeta in E.
  assert (Hk : (k <= length names)%nat).
  { unfold k. etrans; [apply taken_le|]. unfold dir_replies. by rewrite length_imap. }
  assert (Hll : length (listing s false 0 names) = length names) by apply length_imap.
  eexists names, k, _. split; [done|]. split; [done|]. split; [exact E|].
  destruct (listing s false 0 names !! k) as [x|] eqn:Ek; cbn [from_option].
  - split; [done|]. split; [by apply release_placed|]. split.
    { apply lookup_lt_Some in Ek. lia. }
    intros Hlt. unfold listing in Ek. rewrite list_lookup_imap in Ek.
    destruct (names !! k) as [y|] eqn:Ey; [|done]. injection Ek as <-.
    apply lookup_lt_Some in Ey. unfold zlen in Hle, Hb.
    eapply fuse_lost_place; [done|done|apply lookup_insert_eq|unfold is_u64; lia|].
    cbn [rd_offset d_offset dir_entry]. rewrite w64_small by (unfold is_u64; lia). lia.
  - apply lookup_ge_None in Ek.
    split; [by destruct (last _)|]. split.
    { destruct (last _); [by apply release_placed|by apply release_none]. }
    split; [|lia]. intros _.
    destruct (last names) as [[x i]|] eqn:El.
    + rewrite (last_listing s false 0 _ _ _ El). cbn [from_option].
      apply last_Some in El as [before El].
      assert (Hz : zlen names = zlen before + 1) by (rewrite El, zlen_app; done).
      pose proof (zlen_nonneg before). unfold dbfs_fuse_readdir.
      erewrite op_bind_ok by (apply assert_offset_ok; lia). rewrite Hz.
      apply round_nothing; [unfold is_u64; lia|].
      apply (last_round _ s ino n before x i); [done..|].
      cbn. unfold push_readdir_table. rewrite lookup_insert_eq. do 2 f_equal. lia.
    + apply last_None in El.
      assert (Hl : last (listing s false 0 names) = None) by (by rewrite El).
      rewrite Hl. cbn [from_option]. replace (zlen names) with 0 by (by rewrite El).
      unfold dbfs_fuse_readdir.
      erewrite op_bind_ok by (apply assert_offset_ok; done).
      apply round_nothing; [done|].
      rewrite (first_round w s ino n) by (done || lia). fold names. by rewrite El.
Qed.
End facts.

(** ** Witness *)

(** A reply buffer for two entries: the root of [tree_fs] has three. *)
Definition two_fit (repl : list DirReply) (x : DirReply) : bool := bool_decide (length repl = 2%nat).

Lemma fuse_listing_chunks_witness :
  exists names k w', dir_names names tree_root /\ k = taken two_fit [] (dir_replies tree_fs names) /\
    dbfs_fuse_readdir two_fit 1 0 list_world =
      (Ok (inr (take k (dir_replies tree_fs names))), w') /\
    w_db w' = w_db list_world /\ dbfs_fuse_releasedir 1 w' = (Ok tt, list_world) /\
    (k = length names ->
      dbfs_fuse_readdir two_fit 1 (zlen names) w' = (Ok (inr []), w')) /\
    ((k < length names)%nat ->
      dbfs_fuse_readdir two_fit 1 (Z.of_nat k) w' = (Panic, w')).
Proof.
  refine (fuse_listing_chunks list_world tree_fs 1 tree_root two_fit
    (image_represents _ tree_fs_ok) tree_fs_wf _ _ _).
  - reflexivity.
  - reflexivity.
  - by_eval.
Defined.
