(* ===== verification/SpecialRead.v ===== *)
(** * Reading in pieces for a vectored reply: src/src/fuse/file.rs

    [dbfs_fuse_special_read] gathers the slices of a file, and zeros where
    none is stored, as pieces a reply could send without copying. The reply
    itself is commented out in the code; the pieces and the number it returns
    are the result here. *)

From S2P Require Import Prelude Bytes Common Store MapDb Access Tree Layout Image Inode Truncate File Fuse.

Section ops.
Context `{SliceConfig} {D : Type} `{JammDb D}.

(** [from_raw_parts(ptr, SLICE_SIZE)] of the stored value or of [tmp]; a value
    that is shorter is read behind its end, which the model reports as
    [None]. *)
Definition raw_slice (value : option bytes) : option bytes :=
  match value with Some v => slice v 0 SLICE_SIZE | None => Some tmp_slice end.

(** The [loop], with the pieces so far: the count and the pieces. [fuel]
    bounds its rounds. *)
Fixpoint special_loop (fuel : nat) (bucket : bytes) (size need_size start_num offset count : Z)
    (res_slice : list bytes) : Tx D (Z * list bytes) :=
  match fuel with
  | O => tx_unwrap None
  | S fuel =>
      value ← get_kv bucket (generate_data_key_with_number (w32 start_num));
      let real_size := Z.min (w64 (size - start_num * SLICE_SIZE)) SLICE_SIZE in
      let len := Z.min (need_size - count) (sat_sub real_size offset) in
      data ← tx_unwrap (raw_slice value);
      piece ← tx_unwrap (slice data offset (offset + len));
      let res_slice := res_slice ++ [piece] in
      let count := count + len in
      let offset := (offset + len) mod SLICE_SIZE in
      if (count =? size) || (count =? need_size) then mret (count, res_slice)
      else special_loop fuel bucket size need_size (start_num + 1) offset count res_slice
  end.

(** The zeros behind a count that is too small. *)
Definition special_fill (need_size count : Z) : list bytes :=
  if count =? need_size then []
  else replicate (Z.to_nat ((need_size - count) / SLICE_SIZE)) tmp_slice ++
       [take (Z.to_nat ((need_size - count) mod SLICE_SIZE)) tmp_slice].

(** Slices of at least one byte, after at most one empty piece at the end of
    the file. *)
Definition special_fuel (need_size : Z) : nat := S (S (Z.to_nat need_size)).

Definition special_read_tx (ino offset need_size : Z) : Tx D (Z * list bytes) :=
  bucket ← get_bucket (usize_be ino);
  size ← read_usize bucket (bs "size");
  if size <=? offset then mret (0, [])
  else
    '(count, res_slice) ←
      special_loop (special_fuel need_size) bucket size need_size
        (offset / SLICE_SIZE) (offset mod SLICE_SIZE) 0 [];
    mret (count, res_slice ++ special_fill need_size count).

Definition dbfs_fuse_special_read (ino old_offset need_size : Z) : Op D (Z * list bytes) :=
  assert_offset old_offset;;
  read_tx Question (special_read_tx ino old_offset need_size).
End ops.

Section facts.
Context `{SliceConfig} {D : Type} `{JammDbLaws D, !Reliable D}.

(** Where the loop is when it has gathered [x] from [pos] on: inside the file it
    goes on behind [x]; behind the file it has all of it. *)
Definition placed (n : node) (pos start_num offset : Z) (x : bytes) : Prop :=
  0 <= offset < SLICE_SIZE /\ 0 <= start_num /\
  ((start_num * SLICE_SIZE + offset = pos + zlen x /\ pos + zlen x < n_size n) \/
   n_size n <= start_num * SLICE_SIZE /\ n_size n - pos <= zlen x /\
    start_num * SLICE_SIZE + offset <= pos + zlen x + SLICE_SIZE /\
    (start_num * SLICE_SIZE = n_size n -> offset = 0)).

(** What has been gathered begins with the bytes of the file. *)
Definition begins (n : node) (pos : Z) (x : bytes) : Prop :=
  let k := Z.min (zlen x) (n_size n - pos) in take (Z.to_nat k) x = file_bytes n pos k.

Lemma begins_inside n pos x len :
  begins n pos x -> 0 <= len -> pos + zlen x + len <= n_size n ->
  begins n pos (x ++ file_bytes n (pos + zlen x) len).
Proof.
  unfold begins. cbv zeta. intros Hx Hl Hle. pose proof (zlen_nonneg x).
  assert (HL : zlen (file_bytes n (pos + zlen x) len) = len) by (by apply zlen_file_bytes).
  rewrite zlen_app, HL, !Z.min_l in * by lia. unfold zlen in *.
  rewrite take_ge in Hx by lia. rewrite take_ge by lens. rewrite Hx at 1.
  by apply file_bytes_app; lia.
Qed.

Lemma begins_behind n pos x p :
  begins n pos x -> n_size n - pos <= zlen x -> begins n pos (x ++ p).
Proof.
  unfold begins. cbv zeta. intros Hx Hle. pose proof (zlen_nonneg p).
  rewrite zlen_app, !Z.min_r in * by lia. rewrite <- Hx. unfold zlen in *.
  by rewrite take_app_le by lia.
Qed.

(** A piece of a slice that is stored, or of the zeros, is the file's. *)
Lemma raw_piece n i x len :
  slices_ok n -> 0 <= x -> 0 <= len -> x + len <= SLICE_SIZE ->
  exists data, raw_slice (n_slices n !! i) = Some data /\
    slice data x (x + len) = Some (file_bytes n (i * SLICE_SIZE + x) len).
Proof.
  intros Hok Hx Hl Hs. pose proof slice_range.
  assert (HT : zlen tmp_slice = SLICE_SIZE) by (unfold tmp_slice, zlen; lens).
  destruct (n_slices n !! i) as [v|] eqn:E; cbn [raw_slice].
  - pose proof (Hok i v E) as Hv. rewrite slice_ok by lia.
    eexists. split; [done|]. rewrite drop_0, Z.sub_0_r, take_ge by (unfold zlen in *; lia).
    rewrite slice_ok by lia. replace (x + len - x) with len by lia.
    f_equal. by apply slice_file_bytes.
  - exists tmp_slice. split; [done|]. rewrite slice_ok by lia.
    replace (x + len - x) with len by lia. f_equal. by apply zero_file_bytes.
Qed.

Definition rounds_left (n : node) (need start_num : Z) (x : bytes) : Z :=
  need - zlen x + (if start_num * SLICE_SIZE <=? n_size n then 1 else 0).

(** The length of the next piece. *)
Definition next_len (n : node) (need start_num offset : Z) (x : bytes) : Z :=
  Z.min (need - zlen x)
    (sat_sub (Z.min (w64 (n_size n - start_num * SLICE_SIZE)) SLICE_SIZE) offset).

Lemma w64_behind n start_num :
  n_size n < start_num * SLICE_SIZE -> 0 <= n_size n ->
  start_num * SLICE_SIZE + SLICE_SIZE < 2 ^ 64 ->
  SLICE_SIZE <= w64 (n_size n - start_num * SLICE_SIZE).
Proof.
  intros. pose proof slice_range. unfold w64.
  rewrite <- (Z.mod_unique (n_size n - start_num * SLICE_SIZE) (2 ^ 64) (-1)
    (2 ^ 64 + n_size n - start_num * SLICE_SIZE)) by lia. lia.
Qed.

Lemma next_len_inside n pos need start_num offset x :
  placed n pos start_num offset x -> zlen x <= need -> is_u64 (n_size n) ->
  pos + zlen x < n_size n ->
  next_len n need start_num offset x =
    Z.min (need - zlen x) (Z.min (n_size n - start_num * SLICE_SIZE) SLICE_SIZE - offset) /\
  start_num * SLICE_SIZE + offset = pos + zlen x.
Proof.
  intros (Ho & Hs & Hp) Hx [Hsz1 Hsz2] Hin. pose proof slice_range. unfold next_len, sat_sub.
  destruct Hp as [[Hp _]|(H1' & H2' & _)]; [|lia].
  rewrite w64_small by (unfold is_u64; nia). split; lia.
Qed.

Lemma next_len_behind n pos need start_num offset x :
  placed n pos start_num offset x -> zlen x <= need -> is_u64 (n_size n) ->
  start_num * SLICE_SIZE + SLICE_SIZE < 2 ^ 64 -> n_size n <= pos + zlen x ->
  0 <= next_len n need start_num offset x <= SLICE_SIZE - offset /\
  n_size n <= start_num * SLICE_SIZE /\
  (next_len n need start_num offset x = need - zlen x \/
   next_len n need start_num offset x = SLICE_SIZE - offset \/
   start_num * SLICE_SIZE = n_size n /\ offset = 0 /\
   next_len n need start_num offset x = 0).
Proof.
  intros (Ho & Hs & Hp) Hx [Hsz1 Hsz2] Hu Hout. pose proof slice_range.
  unfold next_len, sat_sub. destruct Hp as [[Hp ?]|(H1' & H2' & _ & Hz)]; [lia|].
  destruct (Z.eq_dec (start_num * SLICE_SIZE) (n_size n)).
  - replace (n_size n - start_num * SLICE_SIZE) with 0 by lia. change (w64 0) with 0.
    specialize (Hz e). lia.
  - pose proof (w64_behind n start_num). lia.
Qed.

(** A round that does not end the loop moves on. *)
Lemma placed_next n pos need start_num offset x p :
  placed n pos start_num offset x -> zlen x <= need -> is_u64 (n_size n) ->
  start_num * SLICE_SIZE + SLICE_SIZE < 2 ^ 64 ->
  zlen p = next_len n need start_num offset x -> zlen x + zlen p <> need ->
  placed n pos (start_num + 1) ((offset + zlen p) mod SLICE_SIZE) (x ++ p) /\
  rounds_left n need (start_num + 1) (x ++ p) < rounds_left n need start_num x.
Proof.
  intros Hpl Hx Hsz Hu Hp Hne. pose proof slice_range. pose proof (zlen_nonneg p).
  unfold placed, rounds_left. rewrite zlen_app. pose proof Hpl as (Ho & Hs & _).
  destruct (Z.lt_ge_cases (pos + zlen x) (n_size n)) as [Hin|Hout].
  - destruct (next_len_inside _ _ _ _ _ _ Hpl Hx Hsz Hin) as [Hl Hat]. rewrite Hl in Hp.
    destruct (Z.lt_ge_cases (n_size n - start_num * SLICE_SIZE) SLICE_SIZE).
    + rewrite Z.mod_small by lia.
      rewrite (Zleb_t (start_num * SLICE_SIZE)), Zleb_f by lia.
      lia.
    + replace (offset + zlen p) with SLICE_SIZE by lia. rewrite Z_mod_same_full.
      rewrite (Zleb_t (start_num * SLICE_SIZE)) by lia. destruct (_ <=? _); lia.
  - destruct (next_len_behind _ _ _ _ _ _ Hpl Hx Hsz Hu Hout) as (Hl & Hge & Hcase).
    rewrite <- Hp in Hl, Hcase. destruct Hpl as (_ & _ & [[? ?]|(_ & Hall & Hgap & _)]); [lia|].
    rewrite (Zleb_f ((start_num + 1) * SLICE_SIZE)) by lia.
    pose proof (Z.mod_pos_bound (offset + zlen p) SLICE_SIZE).
    destruct (Z.eq_dec (offset + zlen p) SLICE_SIZE) as [E|E].
    + rewrite E, Z_mod_same_full. destruct (_ <=? _) eqn:El; zbool; nia.
    + rewrite Z.mod_small by lia.
      destruct (_ <=? _) eqn:El; zbool; nia.
Qed.

(** What the next piece is, and that it goes on as [begins] says. *)
Lemma next_piece n pos need start_num offset x :
  placed n pos start_num offset x -> zlen x <= need -> is_u64 (n_size n) ->
  start_num * SLICE_SIZE + SLICE_SIZE < 2 ^ 64 -> slices_ok n -> begins n pos x ->
  exists data p, raw_slice (n_slices n !! start_num) = Some data /\
    slice data offset (offset + next_len n need start_num offset x) = Some p /\
    zlen p = next_len n need start_num offset x /\ zlen x + zlen p <= need /\
    begins n pos (x ++ p).
Proof.
  intros Hpl Hx Hsz Hu Hok Hb. pose proof Hpl as (Ho & _). pose proof slice_range.
  set (len := next_len n need start_num offset x).
  assert (Hlen : 0 <= len <= SLICE_SIZE - offset /\ len <= need - zlen x).
  { split; [|unfold len, next_len; lia]. destruct (Z.lt_ge_cases (pos + zlen x) (n_size n)).
    - destruct (next_len_inside _ _ _ _ _ _ Hpl Hx Hsz) as [E _]; [done|]. fold len in E.
      destruct Hpl as (_ & _ & [?|?]); lia.
    - by apply (next_len_behind _ _ _ _ _ _ Hpl Hx Hsz Hu). }
  destruct (raw_piece n start_num offset len Hok) as (data & Ed & Ep); [lia..|].
  exists data, (file_bytes n (start_num * SLICE_SIZE + offset) len).
  rewrite zlen_file_bytes by lia. split_and!; [done..|lia|].
  destruct (Z.lt_ge_cases (pos + zlen x) (n_size n)) as [Hin|Hout].
  - destruct (next_len_inside _ _ _ _ _ _ Hpl Hx Hsz Hin) as [E ->]. fold len in E.
    apply begins_inside; [done|lia|]. destruct Hpl as (_ & _ & [?|?]); lia.
  - apply begins_behind; [done|lia].
Qed.

Lemma special_loop_runs d s ino n pos need fuel start_num offset x res :
  represents d s -> f_nodes s !! ino = Some n -> slices_ok n -> 0 <= pos ->
  pos + need + 2 * SLICE_SIZE < 2 ^ 32 * SLICE_SIZE ->
  placed n pos start_num offset x -> zlen x <= need -> begins n pos x -> concat res = x ->
  rounds_left n need start_num x < Z.of_nat fuel ->
  exists count res',
    special_loop fuel (usize_be ino) (n_size n) need start_num offset (zlen x) res d =
      Ok ((count, res'), d) /\
    zlen (concat res') = count /\ count <= need /\ (count = need \/ count = n_size n) /\
    begins n pos (concat res').
Proof.
  intros Hr Hn Hok Hpos Hfit. pose proof (ok_size _ (rep_ok _ _ _ _ Hr Hn)) as Hsz.
  pose proof slice_range. revert start_num offset x res.
  induction fuel as [|fuel IH]; intros start_num offset x res Hpl Hx Hb Hres Hf.
  { unfold rounds_left in Hf. destruct (_ <=? _); lia. }
  assert (Hst : start_num * SLICE_SIZE <= pos + need + SLICE_SIZE).
  { destruct Hpl as (? & _ & [?|?]); lia. }
  assert (Hs32 : is_u32 start_num) by (split; [apply Hpl|nia]).
  destruct (next_piece n pos need start_num offset x Hpl Hx Hsz)
    as (data & p & Ed & Ep & Hp & Hle & Hb'); [lia|done|done|].
  cbn [special_loop]. rewrite w32_small by done.
  erewrite tx_bind_ok.
  2: exact (f_equal (fun v => Ok (v, d)) (rep_get _ _ _ _ (KSlice start_num) Hr Hn Hs32)).
  cbn [node_val]. rewrite Ed. erewrite tx_bind_ok by reflexivity. cbv beta zeta.
  fold (next_len n need start_num offset x). rewrite Ep.
  erewrite tx_bind_ok by reflexivity. cbv beta. rewrite <- Hp, <- zlen_app.
  assert (Hres' : concat (res ++ [p]) = x ++ p)
    by (rewrite concat_app, Hres; cbn; by rewrite app_nil_r).
  destruct ((zlen (x ++ p) =? n_size n) || (zlen (x ++ p) =? need)) eqn:Estop.
  - eexists _, _. split; [done|]. rewrite Hres'. rewrite zlen_app in *.
    apply orb_true_iff in Estop. zbool. split_and!; [done|done|lia|done].
  - apply orb_false_iff in Estop. zbool. rewrite zlen_app in *.
    destruct (placed_next n pos need start_num offset x p Hpl Hx Hsz) as [Hpl' Hm];
      [lia|done|lia|]. rewrite <- zlen_app in *.
    apply IH; [done|lia|done|done|lia].
Qed.

Lemma concat_replicate_length {A} k (l : list A) :
  length (concat (replicate k l)) = (k * length l)%nat.
Proof. induction k as [|k IH]; [done|]. cbn. rewrite length_app, IH. lia. Qed.

Lemma special_fill_length need count :
  count <= need -> zlen (concat (special_fill need count)) = need - count.
Proof.
  intros Hle. unfold special_fill. pose proof slice_range.
  destruct (Z.eqb_spec count need) as [->|Hne]; [unfold zlen; cbn; lia|].
  assert (HT : length tmp_slice = Z.to_nat SLICE_SIZE) by (unfold tmp_slice; lens).
  rewrite concat_app. unfold zlen. rewrite length_app, concat_replicate_length. cbn [concat].
  rewrite app_nil_r, length_take, HT.
  assert (HS : 0 < SLICE_SIZE) by lia. assert (Hd : 0 <= need - count) by lia.
  pose proof (Z.div_mod (need - count) SLICE_SIZE (Z.neq_sym _ _ (Z.lt_neq _ _ HS))) as HD.
  pose proof (Z.mod_pos_bound (need - count) SLICE_SIZE HS).
  pose proof (Z.div_pos (need - count) SLICE_SIZE Hd HS).
  rewrite Nat.min_l by lia. rewrite Nat2Z.inj_add, Nat2Z.inj_mul, !Z2Nat.id by lia. lia.
Qed.

Lemma special_read_tx_runs d s ino n pos need :
  represents d s -> f_nodes s !! ino = Some n ->
  special_read_tx ino pos need d =
  if n_size n <=? pos then Ok ((0, []), d)
  else
    match special_loop (special_fuel need) (usize_be ino) (n_size n) need
            (pos / SLICE_SIZE) (pos mod SLICE_SIZE) 0 [] d with
    | Ok ((count, res), d) => Ok ((count, res ++ special_fill need count), d)
    | Err e => Err e
    | Panic => Panic
    end.
Proof.
  intros Hr Hn. pose proof (ok_size _ (rep_ok _ _ _ _ Hr Hn)) as Hsz.
  unfold special_read_tx. erewrite tx_bind_ok by (apply get_bucket_ok; by eapply rep_has).
  cbv beta. erewrite tx_bind_ok.
  2: { eapply read_field_ok; [exact (rep_get _ _ _ _ KSize Hr Hn I)|].
       apply usize_of_be, Hsz. }
  destruct (n_size n <=? pos); [done|]. unfold mbind, tx_bind.
  by destruct (special_loop _ _ _ _ _ _ _ _ _) as [[[??]?]| |].
Qed.

Lemma placed_start n pos :
  0 <= pos < n_size n -> placed n pos (pos / SLICE_SIZE) (pos mod SLICE_SIZE) [].
Proof.
  intros Hp. pose proof slice_range. pose proof (Z.div_mod pos SLICE_SIZE).
  split; [apply Z.mod_pos_bound; lia|]. split; [apply Z.div_pos; lia|]. left.
  change (zlen []) with 0. lia.
Qed.

(** C30: The pieces of [dbfs_fuse_special_read] are always as many bytes as were asked
    for, whatever the file has: first the bytes of the file, holes read as zeros, to its
    end or to the end of the request, then others. The loop ends, and the number it
    returns is the one asked for or the size of the file: at an offset inside the file
    it is more than what is left there whenever the request is. *)
Theorem special_read_gathers w s ino n pos need :
  represents (w_db w) s -> f_nodes s !! ino = Some n -> slices_ok n ->
  0 <= pos -> 0 <= need -> pos + need + 2 * SLICE_SIZE < 2 ^ 32 * SLICE_SIZE ->
  (n_size n <= pos -> dbfs_fuse_special_read ino pos need w = (Ok (0, []), w)) /\
  (pos < n_size n -> exists count res,
    dbfs_fuse_special_read ino pos need w = (Ok (count, res), w) /\
    zlen (concat res) = need /\ (count = need \/ count = n_size n) /\
    let k := Z.min need (n_size n - pos) in
    take (Z.to_nat k) (concat res) = file_bytes n pos k).
Proof.
  intros Hr Hn Hok Hpos Hneed Hfit. unfold dbfs_fuse_special_read, assert_offset.
  rewrite Zleb_t by done. erewrite op_bind_ok by reflexivity.
  pose proof (special_read_tx_runs _ _ _ _ pos need Hr Hn) as Hrun.
  split; intros Hlt; [rewrite Zleb_t in Hrun by done; by apply (read_tx_ok Question) in Hrun|].
  rewrite Zleb_f in Hrun by done.
  destruct (special_loop_runs _ _ ino n pos need (special_fuel need) _ _ [] [] Hr Hn Hok Hpos
    Hfit (placed_start n pos (conj Hpos Hlt))) as (count & res & E & Hl & Hle & Hc & Hb);
    [done| |done| |].
  - unfold begins. change (zlen []) with 0. by rewrite Z.min_l, take_nil by lia.
  - unfold rounds_left, special_fuel. change (zlen []) with 0. destruct (_ <=? _); lia.
  - change (zlen []) with 0 in E. rewrite E in Hrun.
    exists count, (res ++ special_fill need count). split; [by eapply read_tx_ok|].
    rewrite concat_app, zlen_app, Hl, special_fill_length by done.
    split; [lia|]. split; [done|]. unfold begins in Hb. cbv zeta in *. rewrite Hl in Hb.
    assert (Hk : Z.min need (n_size n - pos) = Z.min count (n_size n - pos)) by lia.
    rewrite Hk, <- Hb. unfold zlen in Hl. by rewrite take_app_le by lia.
Qed.
End facts.

(** A read in a file of three slices. *)
Lemma special_read_gathers_witness :
  exists count res,
    dbfs_fuse_special_read 2 1024 600 three_world = (Ok (count, res), three_world) /\
    zlen (concat res) = 600 /\ (count = 600 \/ count = n_size three_node) /\
    let k := Z.min 600 (n_size three_node - 1024) in
    take (Z.to_nat k) (concat res) = file_bytes three_node 1024 k.
Proof.
  refine (proj2 (special_read_gathers three_world three_fs 2 three_node 1024 600
    (image_represents _ three_fs_ok) _ three_slices_ok _ _ _) _).
  - reflexivity.
  - by_eval.
  - by_eval.
  - by_eval.
  - by_eval.
Defined.
