(* ===== verification/FuseOps.v ===== *)
(** * The callbacks of the FUSE front end: src/src/fuse/mod.rs

    One definition per callback of [impl Filesystem for DbfsFuse]: it takes
    the kernel's request to a function of [Fuse] or [FuseDir] and turns the
    result into the reply. A callback that returns without a reply drops the
    reply object ([RNone]). *)

From S2P Require Import Prelude Bytes Common Store Access Inode Dir Attr Truncate File Readdir SuperBlock Fuse FuseDir.

(** What [reply.statfs(..)] is given. *)
Record StatfsReply := MkStatfsReply {
  sr_blocks : Z; sr_bfree : Z; sr_bavail : Z; sr_files : Z; sr_ffree : Z;
  sr_bsize : Z; sr_namelen : Z; sr_frsize : Z }.

Inductive Reply :=
  | RNone
  | ROk
  | RError (errno : Z)
  | REntry (attr : FileAttr)
  | RAttr (attr : FileAttr)
  | RCreated (attr : FileAttr)
  | ROpened (flags : Z)
  | RData (data : bytes)
  | RWritten (size : Z)
  | RXattrSize (size : Z)
  | RXattr (data : bytes)
  | RStatfs (stat : StatfsReply)
  | RDirectory (entries : list DirReply)
  | RDirectoryPlus (entries : list DirPlus).

(** The state of the object: [new] ignores its second argument. *)
Record DbfsFuse := MkDbfsFuse { direct_io : bool; _suid_support : bool }.

Definition dbfs_fuse_new (direct_io _suid_support : bool) : DbfsFuse := MkDbfsFuse direct_io false.

(** [BUDDY_ALLOCATOR.lock().alloc(..)] for the buffer of a read: the bytes the
    memory happens to hold, or a failure. *)
Class Cache := {
  cache_alloc : Z -> option bytes;
  cache_alloc_len : forall size buf, cache_alloc size = Some buf -> zlen buf = size }.

Definition FILE_SIZE : Z := 1024 * 1024 * 1024 * 20.

Section ops.
Context `{SliceConfig} {D : Type} `{JammDb D}.
Implicit Types (req : Request) (self : DbfsFuse).

(** [match res { Ok(a) => .., Err(e) => reply.error(..) }]. *)
Definition answer {A} (m : Op D A) (ok : A -> outcome Reply) (err : DbfsError -> Z) : Op D Reply :=
  fun w =>
    match m w with
    | (Ok a, w') => (ok a, w')
    | (Err e, w') => (Ok (RError (err e)), w')
    | (Panic, w') => (Panic, w')
    end.

Definition reply_ok {A} (_ : A) : outcome Reply := Ok ROk.
(** [reply.entry(&TTL, &attr.into(), 0)] and [reply.attr(&TTL, &attr.into())]. *)
Definition reply_entry (attr : DbfsAttr) : outcome Reply := 
  attr ← unwrap (file_attr attr); Ok (REntry attr).
Definition reply_attr (attr : DbfsAttr) : outcome Reply := 
  attr ← unwrap (file_attr attr); Ok (RAttr attr).
Definition enoent (_ : DbfsError) : Z := ENOENT.

(** The database that was opened is the state; [time] is the clock. *)
Definition fuse_init (uid gid : Z) (time : SystemTime) : Op D (option Z) :=
  init_db FILE_SIZE;;
  time ← op_unwrap (time_of_system time);
  res ← op_try (dbfs_common_root_inode uid gid time);
  mret (match res with Some _ => None | None => Some (-1) end).

Definition fuse_destroy : Op D unit := dbfs_fuse_destroy.

Definition fuse_lookup (parent : Z) (name : bytes) : Op D Reply :=
  name ← op_unwrap (to_str name);
  answer (dbfs_fuse_lookup parent name) (fun attr => Ok (REntry attr)) error_code.

Definition fuse_getattr (ino : Z) : Op D Reply :=
  answer (dbfs_fuse_getattr ino) (fun attr => Ok (RAttr attr)) error_code.

(** The first group of attributes that is present is set, the others are
    not; without any there is no reply. *)
Definition fuse_setattr (req : Request) (ino : Z) (mode uid gid size : option Z)
    (atime mtime : option TimeOrNow) : Op D Reply :=
  match mode with
  | Some mode => answer (dbfs_fuse_chmod req ino mode) reply_attr error_code
  | None =>
      if bool_decide (is_Some uid) || bool_decide (is_Some gid) then
        answer (dbfs_fuse_chown req ino uid gid) reply_attr error_code
      else
        match size with
        | Some size => answer (dbfs_fuse_truncate req ino size) reply_attr error_code
        | None =>
            match atime, mtime with
            | None, None => mret RNone
            | _, _ => answer (dbfs_fuse_utimens req ino atime mtime) reply_attr error_code
            end
        end
  end.

Definition fuse_readlink (ino : Z) : Op D Reply :=
  answer (dbfs_fuse_readlink ino) (fun data => Ok (RData data)) error_code.

Definition fuse_mknod (req : Request) (parent : Z) (name : bytes) (mode rdev : Z) : Op D Reply :=
  name ← op_unwrap (to_str name);
  answer (dbfs_fuse_mknod req parent name mode rdev) reply_entry error_code.

Definition fuse_mkdir (req : Request) (parent : Z) (name : bytes) (mode : Z) : Op D Reply :=
  name ← op_unwrap (to_str name);
  answer (dbfs_fuse_mkdir req parent name mode)
    (fun res => Ok (match res with Some attr => REntry attr | None => RError ENOENT end)) enoent.

Definition fuse_unlink (req : Request) (parent : Z) (name : bytes) : Op D Reply :=
  name ← op_unwrap (to_str name);
  answer (dbfs_fuse_unlink req parent name) reply_ok error_code.

Definition fuse_rmdir (req : Request) (parent : Z) (name : bytes) : Op D Reply :=
  name ← op_unwrap (to_str name);
  answer (dbfs_fuse_rmdir req parent name) reply_ok error_code.

Definition fuse_symlink (req : Request) (parent : Z) (name link : bytes) : Op D Reply :=
  name ← op_unwrap (to_str name);
  link ← op_unwrap (to_str link);
  answer (dbfs_fuse_symlink req parent name link) reply_entry error_code.

Definition fuse_rename (req : Request) (parent : Z) (name : bytes) (newparent : Z)
    (newname : bytes) (flags : Z) : Op D Reply :=
  name ← op_unwrap (to_str name);
  newname ← op_unwrap (to_str newname);
  answer (dbfs_fuse_rename req parent name newparent newname flags) reply_ok error_code.

Definition fuse_link (req : Request) (ino newparent : Z) (newname : bytes) : Op D Reply :=
  newname ← op_unwrap (to_str newname);
  answer (dbfs_fuse_link req ino newparent newname) reply_entry error_code.

Definition open_flags (self : DbfsFuse) : Z := if direct_io self then FOPEN_DIRECT_IO else 0.

Definition fuse_open (self : DbfsFuse) (req : Request) (ino flags : Z) : Op D Reply :=
  answer (dbfs_fuse_open req ino flags)
    (fun res => Ok (match res with None => ROpened (open_flags self) | Some e => RError e end))
    error_code.

(** The reply is the part of the buffer that was read. *)
Definition fuse_read `{!Cache} (ino offset size : Z) : Op D Reply :=
  buf ← op_unwrap (cache_alloc size);
  answer (dbfs_fuse_read ino offset buf)
    (fun '(x, buf) => data ← unwrap (slice buf 0 x); Ok (RData data)) enoent.

Definition fuse_write `{!Memory} (ino offset : Z) (data : bytes) : Op D Reply :=
  answer (dbfs_fuse_write ino offset data) (fun x => Ok (RWritten (w32 x))) enoent.

(** Nothing is written back: [fsync] only logs that it is not implemented. *)
Definition fuse_flush : Op D Reply := mret ROk.
Definition fuse_release : Op D Reply := mret ROk.
Definition fuse_fsync : Op D Reply := mret ROk.
Definition fuse_fsyncdir : Op D Reply := mret ROk.

Definition fuse_opendir (self : DbfsFuse) (req : Request) (ino flags : Z) : Op D Reply :=
  answer (dbfs_fuse_opendir req ino flags) (fun _ => Ok (ROpened (open_flags self))) error_code.

Definition dir_answer {E} (r : list E -> Reply) (res : Z + list E) : outcome Reply :=
  Ok (match res with inl errno => RError errno | inr es => r es end).

Definition fuse_readdir (full : list DirReply -> DirReply -> bool) (ino offset : Z) : Op D Reply :=
  answer (dbfs_fuse_readdir full ino offset) (dir_answer RDirectory) enoent.

Definition fuse_readdirplus (full : list DirPlus -> DirPlus -> bool) (ino offset : Z) :
  Op D Reply :=
  answer (dbfs_fuse_readdirplus full ino offset) (dir_answer RDirectoryPlus) enoent.

Definition fuse_releasedir (ino : Z) : Op D Reply :=
  answer (op_expect (dbfs_fuse_releasedir ino)) reply_ok enoent.

Definition fuse_statfs : Op D Reply :=
  answer dbfs_fuse_statfs
    (fun stat => Ok (RStatfs {|
       sr_blocks := f_blocks stat; sr_bfree := f_bfree stat; sr_bavail := f_bavail stat;
       sr_files := f_files stat; sr_ffree := f_ffree stat; sr_bsize := w32 (f_bsize stat);
       sr_namelen := w32 (f_namemax stat); sr_frsize := w32 (f_frsize stat) |}))
    enoent.

Definition fuse_setxattr (req : Request) (ino : Z) (name value : bytes) : Op D Reply :=
  name ← op_unwrap (to_str name);
  answer (dbfs_fuse_setxattr req ino name value) reply_ok error_code.

Definition zeros (size : Z) : bytes := replicate (Z.to_nat size) Byte.x00.

Definition fuse_getxattr (req : Request) (ino : Z) (name : bytes) (size : Z) : Op D Reply :=
  name ← op_unwrap (to_str name);
  answer (dbfs_fuse_getxattr req ino name (zeros size))
    (fun '(x, buf) =>
       if size =? 0 then Ok (RXattrSize (w32 x))
       else data ← unwrap (slice buf 0 x); Ok (RXattr data))
    error_code.

(** The whole buffer is the reply, not the part that was filled. *)
Definition fuse_listxattr (req : Request) (ino size : Z) : Op D Reply :=
  answer (dbfs_fuse_listxattr req ino (zeros size))
    (fun '(x, buf) => Ok (if size =? 0 then RXattrSize (w32 x) else RXattr buf)) error_code.

Definition fuse_removexattr (req : Request) (ino : Z) (name : bytes) : Op D Reply :=
  name ← op_unwrap (to_str name);
  answer (dbfs_fuse_removexattr req ino name) reply_ok error_code.

Definition fuse_access (req : Request) (ino mask : Z) : Op D Reply :=
  answer (dbfs_fuse_access req ino mask)
    (fun granted => Ok (if granted : bool then ROk else RError ENOENT)) error_code.

Definition fuse_create (req : Request) (parent : Z) (name : bytes) (mode flags : Z) : Op D Reply :=
  name ← op_unwrap (to_str name);
  answer (dbfs_fuse_create req parent name mode flags) (fun attr => Ok (RCreated attr)) error_code.

(** [offset as u64], [length as u64], [mode as u32]. *)
Definition fuse_fallocate (req : Request) (ino offset length mode : Z) : Op D Reply :=
  answer (dbfs_fuse_fallocate req ino (w64 offset) (w64 length) (w32 mode)) reply_ok error_code.

Definition fuse_copy_file_range `{!Memory} (req : Request)
    (ino_in offset_in ino_out offset_out len : Z) : Op D Reply :=
  answer (dbfs_fuse_copy_file_range req ino_in (w64 offset_in) ino_out (w64 offset_out) len)
    (fun x => Ok (RWritten (w32 x))) error_code.
End ops.
