(* ===== verification/Serve.v ===== *)
(** * What the daemon does, as operations of the file system of [Tree]

    Every request of the kernel as a computation on the tree ([t_serve]): which
    errors are answered in which order, what the reply says, and what becomes of
    the tree and the inode counter. The computations are written in the monad
    of the entry points ([Op], over a tree in place of a database) with the
    abstract operations of the components ([t_create], [t_unlink_op],
    [t_rename], ...); the file proves that each callback of [FuseOps] does just
    that ([serve_sims]). What the tree looks like afterwards is the subject of
    [Session]. *)

From S2P Require Import Prelude Bytes Common Store MapDb Access Tree Layout Image Inode Dir Rename Attr Truncate File Limits Readdir SuperBlock Fuse FuseDir FuseOps.

(** The requests, in the order of [FuseOps]; those whose callback does nothing
    ([forget], [flush], [release], [fsync], [fsyncdir]) are left out. *)
Inductive KRequest :=
  | KLookup (parent : Z) (name : bytes)
  | KGetattr (ino : Z)
  | KSetattr (ino : Z) (mode uid gid size : option Z) (atime mtime : option TimeOrNow)
  | KReadlink (ino : Z)
  | KMknod (parent : Z) (name : bytes) (mode rdev : Z)
  | KMkdir (parent : Z) (name : bytes) (mode : Z)
  | KUnlink (parent : Z) (name : bytes)
  | KRmdir (parent : Z) (name : bytes)
  | KSymlink (parent : Z) (name link : bytes)
  | KRename (parent : Z) (name : bytes) (newparent : Z) (newname : bytes) (flags : Z)
  | KLink (ino newparent : Z) (newname : bytes)
  | KOpen (ino flags : Z)
  | KRead (ino offset size : Z)
  | KWrite (ino offset : Z) (data : bytes)
  | KOpendir (ino flags : Z)
  | KReaddir (ino offset : Z)
  | KReaddirplus (ino offset : Z)
  | KReleasedir (ino : Z)
  | KStatfs
  | KSetxattr (ino : Z) (name value : bytes)
  | KGetxattr (ino : Z) (name : bytes) (size : Z)
  | KListxattr (ino size : Z)
  | KRemovexattr (ino : Z) (name : bytes)
  | KAccess (ino mask : Z)
  | KCreate (parent : Z) (name : bytes) (mode flags : Z)
  | KFallocate (ino offset length mode : Z)
  | KCopyFileRange (ino_in offset_in ino_out offset_out len : Z).

(** The reply buffers of the crate for [readdir] and [readdirplus]. *)
Class ReplyBuffers := {
  dir_full : list DirReply -> DirReply -> bool;
  plus_full : list DirPlus -> DirPlus -> bool }.

Section handler.
Context `{SliceConfig} {D : Type} `{JammDb D} `{!Memory} `{!Cache} `{ReplyBuffers}.

(** The crate calls the callback of the request. *)
Definition handle (self : DbfsFuse) (req : Request) (k : KRequest) : Op D Reply :=
  match k with
  | KLookup parent name => fuse_lookup parent name
  | KGetattr ino => fuse_getattr ino
  | KSetattr ino mode uid gid size atime mtime => fuse_setattr req ino mode uid gid size atime mtime
  | KReadlink ino => fuse_readlink ino
  | KMknod parent name mode rdev => fuse_mknod req parent name mode rdev
  | KMkdir parent name mode => fuse_mkdir req parent name mode
  | KUnlink parent name => fuse_unlink req parent name
  | KRmdir parent name => fuse_rmdir req parent name
  | KSymlink parent name link => fuse_symlink req parent name link
  | KRename parent name newparent newname flags => fuse_rename req parent name newparent newname flags
  | KLink ino newparent newname => fuse_link req ino newparent newname
  | KOpen ino flags => fuse_open self req ino flags
  | KRead ino offset size => fuse_read ino offset size
  | KWrite ino offset data => fuse_write ino offset data
  | KOpendir ino flags => fuse_opendir self req ino flags
  | KReaddir ino offset => fuse_readdir dir_full ino offset
  | KReaddirplus ino offset => fuse_readdirplus plus_full ino offset
  | KReleasedir ino => fuse_releasedir ino
  | KStatfs => fuse_statfs
  | KSetxattr ino name value => fuse_setxattr req ino name value
  | KGetxattr ino name size => fuse_getxattr req ino name size
  | KListxattr ino size => fuse_listxattr req ino size
  | KRemovexattr ino name => fuse_removexattr req ino name
  | KAccess ino mask => fuse_access req ino mask
  | KCreate parent name mode flags => fuse_create req parent name mode flags
  | KFallocate ino offset length mode => fuse_fallocate req ino offset length mode
  | KCopyFileRange ino_in offset_in ino_out offset_out len =>
      fuse_copy_file_range req ino_in offset_in ino_out offset_out len
  end.
End handler.

(** ** Operations of the tree *)

Section spec.
Context `{SliceConfig} `{!Memory} `{!Cache}.

(** A step that changes the tree, and one that looks at it. *)
Definition t_tx {A} (f : fs -> outcome (A * fs)) : Op fs A := fun w =>
  match f (w_db w) with
  | Ok (a, s) => (Ok a, set_db w s)
  | Err e => (Err e, w)
  | Panic => (Panic, w)
  end.
Definition t_look {A} (g : fs -> outcome A) : Op fs A := fun w => (g (w_db w), w).

(** The type and the other bits of a mode. *)
Definition kind_bits (perm : Z) : DbfsFileType * Z :=
  (default RegularFile (file_type_of_perm perm), Z.land perm 0xFFF).

(** A creation draws the next number before it looks at the directory. *)
Definition t_create_op (dir : Z) (name : bytes) (uid gid : Z) (t : DbfsTimeSpec) (perm : Z)
    (target : option bytes) (dev : option Z) : Op fs DbfsAttr :=
  let '(kind, bits) := kind_bits perm in
  new ← fetch_next;
  n ← t_tx (t_create kind new dir name uid gid t bits target dev);
  mret (created_attr new kind t n).

Definition t_link_op (uid gid ino dir : Z) (name : bytes) (t : DbfsTimeSpec) (s : fs) :
  outcome (DbfsAttr * fs) :=
  p ← t_node (Err NotFound) dir s;
  t_guard (t_may_write uid gid p) AccessError;;
  t_node (Err NoData) ino s;;
  let s := t_link ino dir name t s in
  a ← t_attr ino s; Ok (a, s).

Definition t_open (uid gid ino mask : Z) (s : fs) : outcome unit :=
  n ← t_node (Err NotFound) ino s;
  t_guard (checkout_access (n_uid n) (n_gid n) (n_mode n) uid gid mask) AccessError.

(** The ids change places, as in the code. *)
Definition t_access (uid gid ino mask : Z) (s : fs) : outcome bool :=
  n ← t_node (Err NoData) ino s;
  Ok (checkout_access uid gid (n_mode n) (n_uid n) (n_gid n) (w16 mask)).

Definition t_readlink (ino : Z) (buf : bytes) (s : fs) : outcome (Z * bytes) :=
  n ← t_node (Err NoData) ino s;
  v ← unwrap (n_target n);
  let len := Z.min (zlen v) (zlen buf) in
  Ok (len, splice buf 0 (take (Z.to_nat len) v)).

(** The slices of the window, read by the loop of the code. *)
Definition t_read (ino : Z) (buf : bytes) (offset : Z) (s : fs) : outcome (Z * bytes) :=
  n ← t_node (Err NoData) ino s;
  if n_size n <=? offset then Ok (0, buf)
  else
    let first := offset / SLICE_SIZE in
    let last := Z.min ((offset + zlen buf) / SLICE_SIZE + 1) (n_size n / SLICE_SIZE + 1) in
    '(buf, len) ← unwrap (read_loop
      (prod_map generate_data_key_with_number id <$> slice_run (n_slices n) first (last - first))
      (n_size n) (offset mod SLICE_SIZE) first buf 0);
    Ok (len, buf).

Definition t_write_op (ino : Z) (data : bytes) (offset : Z) (s : fs) : outcome (Z * fs) :=
  t_node (Err NoData) ino s;;
  Ok (zlen data, upd ino (t_write data offset) s).

(** The file written to has its times set in a transaction of its own. *)
Definition t_copy (src offset_src dest offset_dest len : Z) (t : DbfsTimeSpec) : Op fs Z :=
  n ← t_look (t_node (Err NoData) src);
  let size := Z.min (sat_sub (n_size n) offset_src) len in
  '(size, buf) ← t_look (t_read src (replicate (Z.to_nat size) Byte.x00) offset_src);
  data ← op_unwrap (slice buf 0 size);
  written ← t_tx (t_write_op dest data offset_dest);
  t_tx (fun s => Ok (tt, upd dest (touch t) s));;
  mret written.

(** The first writes of the inode's mode. *)
Definition t_chmod (uid gid ino mode : Z) (t : DbfsTimeSpec) (s : fs) : outcome (DbfsAttr * fs) :=
  n ← t_node (Err Other) ino s;
  a ← t_attr ino s;
  t_guard ((uid =? 0) || ((uid =? n_uid n) && (gid =? n_gid n))) PermissionDenied;;
  let mode := chmod_mode (n_mode n) mode in
  if mode =? n_mode n then Ok (a, s)
  else Ok (attr_with_mode mode t a, upd ino (fun n => with_ctime t (with_mode mode n)) s).

Definition t_chown (uid gid ino : Z) (new_uid new_gid : option Z) (t : DbfsTimeSpec) (s : fs) :
  outcome (DbfsAttr * fs) :=
  n ← t_node (Err Other) ino s;
  a ← t_attr ino s;
  t_guard (negb (chown_denied a uid gid new_uid new_gid)) PermissionDenied;;
  let u := default (n_uid n) new_uid in
  let g := default (n_gid n) new_gid in
  let mode := chown_mode (n_mode n) new_uid new_gid in
  Ok (Attr (a_ino a) (a_size a) (a_blocks a) (a_atime a) (a_mtime a) t (a_crtime a) (a_kind a)
        mode (a_nlink a) u g (a_rdev a) (a_blksize a) (a_padding a) (a_flags a),
      upd ino (fun n => with_ctime t (with_mode mode (with_gid g (with_uid u n)))) s).

(** Only files of user 0 and the caller's own are open to him. *)
Definition t_utimens (uid gid ino : Z) (atime mtime : option DbfsTimeSpec) (t : DbfsTimeSpec) (s : fs) :
  outcome (DbfsAttr * fs) :=
  n ← t_node (Err NoData) ino s;
  a ← t_attr ino s;
  t_guard ((n_uid n =? uid) || (n_uid n =? 0)) PermissionDenied;;
  t_guard ((n_uid n =? uid) || t_may_write uid gid n) AccessError;;
  Ok (Attr (a_ino a) (a_size a) (a_blocks a) (default (a_atime a) atime) (default (a_mtime a) mtime)
        t (a_crtime a) (a_kind a) (a_perm a) (a_nlink a) (a_uid a) (a_gid a) (a_rdev a) (a_blksize a)
        (a_padding a) (a_flags a),
      upd ino (retimed atime mtime t) s).

(** The size is checked in slices: see [t_truncate]. *)
Definition t_truncate_op (uid gid ino f_size : Z) (t : DbfsTimeSpec) (s : fs) : outcome (DbfsAttr * fs) :=
  n ← t_node (Err NotFound) ino s;
  a ← t_attr ino s;
  t_guard (t_may_write uid gid n) AccessError;;
  s ← t_truncate ino t f_size n s;
  Ok (Attr (a_ino a) f_size (a_blocks a) (a_atime a) t t (a_crtime a) (a_kind a)
        (clear_suid_sgid (n_mode n)) (a_nlink a) (a_uid a) (a_gid a) (a_rdev a) (a_blksize a)
        (a_padding a) (a_flags a), s).

(** Nothing is removed. *)
Definition t_removexattr (uid gid ino : Z) (key : bytes) (s : fs) : outcome unit :=
  n ← t_node (Err NoData) ino s;
  node_check key ACCESS_W_OK uid gid n;;
  t_guard (bool_decide (is_Some (n_xattrs n !! key))) (from_jamm JKeyValueMissing).

(** ** The requests *)

(** The names of the kernel that are no UTF-8 end the daemon. *)
Definition named (name : bytes) (m : Op fs Reply) : Op fs Reply :=
  op_unwrap (to_str name);; m.

Definition t_open_op (uid gid ino flags : Z) : Op fs (option Z) :=
  match open_mask flags with
  | inr errno => mret (Some errno)
  | inl mask => fun a =>
      match t_open uid gid ino mask (w_db a) with
      | Ok _ => (Ok None, a)
      | Err e => (Ok (Some (error_code e)), a)
      | Panic => (Panic, a)
      end
  end.

(** What the kernel is told and what becomes of the tree. *)
Definition t_serve (self : DbfsFuse) (req : Request) (k : KRequest) : Op fs Reply :=
  let uid := req_uid req in
  let gid := req_gid req in
  match k with
  | KLookup parent name =>
      named name
        (answer (if MAX_PATH_LEN <? zlen name then op_fail NameTooLong
                 else a ← t_look (fun s => ino ← t_lookup parent name s; t_attr ino s);
                      op_unwrap (file_attr a))
           (fun a => Ok (REntry a)) error_code)
  | KGetattr ino =>
      answer (a ← t_look (t_attr ino); op_unwrap (file_attr a)) (fun a => Ok (RAttr a)) error_code
  | KSetattr ino (Some mode) _ _ _ _ _ =>
      answer (t ← now req 0; t_tx (t_chmod uid gid ino (w16 mode) t)) reply_attr error_code
  | KSetattr ino None new_uid new_gid size atime mtime =>
      if bool_decide (is_Some new_uid) || bool_decide (is_Some new_gid)
      then answer (t ← now req 0; t_tx (t_chown uid gid ino new_uid new_gid t)) reply_attr error_code
      else match size, atime, mtime with
      | Some size, _, _ =>
          answer (t ← now req 0; t_tx (t_truncate_op uid gid ino size t)) reply_attr error_code
      | None, None, None => mret RNone
      | None, _, _ =>
          answer (a ← time_or_now req 0 atime; m ← time_or_now req 1 mtime; t ← now req 2;
                  t_tx (t_utimens uid gid ino a m t)) reply_attr error_code
      end
  | KReadlink ino =>
      answer ('(_, buf) ← t_look (t_readlink ino (replicate (Z.to_nat MAX_PATH_LEN) Byte.x00)); mret buf)
        (fun data => Ok (RData data)) error_code
  | KMknod parent name mode rdev =>
      named name (answer (t ← now req 0; t_create_op parent name uid gid t (w16 mode) None (Some rdev))
        reply_entry error_code)
  | KMkdir parent name mode =>
      named name (answer
        (t ← now req 0;
         res ← op_try (t_create_op parent name uid gid t (Perm.union (w16 mode) Perm.S_IFDIR) None None);
         match res with
         | None => mret None
         | Some a => a ← op_unwrap (file_attr a); mret (Some a)
         end)
        (fun res => Ok (match res with Some a => REntry a | None => RError ENOENT end)) enoent)
  | KUnlink parent name =>
      named name (answer (t ← now req 0; t_tx (t_unlink_op uid gid parent name None t)) reply_ok error_code)
  | KRmdir parent name =>
      named name (answer (t ← now req 0; t_tx (t_rmdir_op uid gid parent name t)) reply_ok error_code)
  | KSymlink parent name link =>
      named name (named link (answer
        (if MAX_PATH_LEN <? zlen name then op_fail NameTooLong
         else t ← now req 0;
              t_create_op parent name uid gid t (Perm.union 0x1FF Perm.S_IFLNK) (Some link) None)
        reply_entry error_code))
  | KRename parent name newparent newname flags =>
      named name (named newname (answer
        (t ← now req 0; t_tx (t_rename uid gid parent name newparent newname flags t))
        reply_ok error_code))
  | KLink ino newparent newname =>
      named newname (answer
        (if MAX_PATH_LEN <? zlen newname then op_fail NameTooLong
         else t ← now req 0; t_tx (t_link_op uid gid ino newparent newname t))
        reply_entry error_code)
  | KOpen ino flags =>
      answer (t_open_op uid gid ino flags)
        (fun res => Ok (match res with None => ROpened (open_flags self) | Some e => RError e end))
        error_code
  | KRead ino offset size =>
      buf ← op_unwrap (cache_alloc size);
      answer (assert_offset offset;; t_look (t_read ino buf offset))
        (fun '(x, buf) => data ← unwrap (slice buf 0 x); Ok (RData data)) enoent
  | KWrite ino offset data =>
      answer (assert_offset offset;; t_tx (t_write_op ino data offset))
        (fun x => Ok (RWritten (w32 x))) enoent
  | KOpendir ino flags =>
      answer (mask ← op_lift (opendir_mask flags); t_look (t_open uid gid ino mask))
        (fun _ => Ok (ROpened (open_flags self))) error_code
  | KReleasedir ino => mret ROk
  | KSetxattr ino name value =>
      named name (answer (t ← now req 0; t_tx (t_setxattr uid gid ino name value t)) reply_ok error_code)
  | KGetxattr ino name size =>
      named name (answer (t_look (t_getxattr uid gid ino name (zeros size)))
        (fun '(x, buf) => if size =? 0 then Ok (RXattrSize (w32 x))
                          else data ← unwrap (slice buf 0 x); Ok (RXattr data)) error_code)
  | KRemovexattr ino name =>
      named name (answer (t ← now req 0; t_look (t_removexattr uid gid ino name)) reply_ok error_code)
  | KAccess ino mask =>
      answer (t_look (t_access uid gid ino mask))
        (fun granted => Ok (if granted : bool then ROk else RError ENOENT)) error_code
  | KCreate parent name mode flags =>
      named name (answer
        (if negb (access_mode_ok flags) then op_fail InvalidArgument
         else t ← now req 0;
              a ← t_create_op parent name uid gid t (w16 mode) None None;
              op_unwrap (file_attr a))
        (fun a => Ok (RCreated a)) error_code)
  | KFallocate ino offset length mode =>
      answer (t ← now req 0; t_tx (t_fallocate uid gid ino (w64 offset) (w64 length) (w32 mode) t))
        reply_ok error_code
  | KCopyFileRange ino_in offset_in ino_out offset_out len =>
      answer (t ← now req 0; t_copy ino_in (w64 offset_in) ino_out (w64 offset_out) len t)
        (fun x => Ok (RWritten (w32 x))) error_code
  | KReaddir _ _ | KReaddirplus _ _ | KStatfs | KListxattr _ _ => mret RNone
  end.

(** The listings, of directories and of extended attributes, and the figures of
    [statfs] are no matter of the tree alone: what [t_serve] answers stands for
    nothing. *)
Definition described (k : KRequest) : bool :=
  match k with
  | KReaddir _ _ | KReaddirplus _ _ | KStatfs | KListxattr _ _ => false
  | _ => true
  end.
End spec.

(** ** The requests the specification is for *)

(** The width of the values of a request. *)
Record req_ok (req : Request) : Prop := {
  req_uid_ok : is_u32 (req_uid req);
  req_gid_ok : is_u32 (req_gid req);
  req_clock_ok : forall i, st_sec (req_clock req i) < 2 ^ 63 /\
    0 <= st_nsec (req_clock req i) < 10 ^ 9 }.

Definition time_given (t : option TimeOrNow) : Prop :=
  match t with
  | Some (SpecificTime t) => st_sec t < 2 ^ 63 /\ 0 <= st_nsec t < 10 ^ 9
  | _ => True
  end.

Definition opt_u32 (o : option Z) : Prop := forall z, o = Some z -> is_u32 z.

(** A mode with the bits of one type, which comes with what the type needs. *)
Definition typed (perm : Z) (target : option bytes) (dev : option Z) : Prop :=
  exists kind bits, 0 <= bits < 2 ^ 12 /\ perm = Z.lor (type_bits kind) bits /\
    (kind = Symlink -> is_Some target) /\ (kind = CharDevice \/ kind = BlockDevice -> is_Some dev).

Section fits.
Context `{SliceConfig}.

(** The slices of a file have numbers of 32 bits. *)
Definition short (s : fs) (ino : Z) : Prop :=
  forall n, f_nodes s !! ino = Some n -> n_size n / SLICE_SIZE + 1 < 2 ^ 32.

(** Values in their widths, modes of a type, places in a file below the 2^32nd
    slice, and no directory removed through itself, linked into itself or moved
    into or onto a directory the request names. *)
Definition fits (s : fs) (k : KRequest) : Prop :=
  match k with
  | KLookup dir _ | KSymlink dir _ _ => is_u64 dir
  | KGetattr ino | KReadlink ino | KOpen ino _ | KOpendir ino _ | KSetxattr ino _ _
  | KGetxattr ino _ _ | KRemovexattr ino _ | KAccess ino _ | KFallocate ino _ _ _ => is_u64 ino
  | KSetattr ino _ uid gid size atime mtime =>
      is_u64 ino /\ opt_u32 uid /\ opt_u32 gid /\ time_given atime /\ time_given mtime /\
      forall f_size, size = Some f_size -> is_u64 f_size /\ short s ino
  | KMknod dir _ mode rdev => is_u64 dir /\ is_u32 rdev /\ typed (w16 mode) None (Some rdev)
  | KMkdir dir _ mode => is_u64 dir /\ typed (Perm.union (w16 mode) Perm.S_IFDIR) None None
  | KCreate dir _ mode _ => is_u64 dir /\ typed (w16 mode) None None
  | KUnlink dir name | KRmdir dir name => is_u64 dir /\ entry s dir name <> Some dir
  | KRename dir name newdir newname _ =>
      is_u64 dir /\ is_u64 newdir /\ rename_apart s dir name newdir newname
  | KLink ino dir _ => is_u64 ino /\ is_u64 dir /\ ino <> dir
  | KRead ino offset size => is_u64 ino /\ offset < 2 ^ 63 /\ is_u32 size /\ short s ino
  | KWrite ino offset data => is_u64 ino /\ offset + zlen data < 2 ^ 32 * SLICE_SIZE
  | KCopyFileRange ino_in _ ino_out offset_out len =>
      is_u64 ino_in /\ is_u64 ino_out /\ short s ino_in /\ 0 <= len /\
      w64 offset_out + len < 2 ^ 32 * SLICE_SIZE
  | KReaddir _ _ | KReaddirplus _ _ | KReleasedir _ | KStatfs | KListxattr _ _ => True
  end.
End fits.

(** ** Trees whose slices are whole *)

Section whole.
Context `{SliceConfig}.

Definition whole (s : fs) : Prop := forall i n, f_nodes s !! i = Some n -> slices_ok n.

Lemma whole_upd i g s :
  (forall n, f_nodes s !! i = Some n -> slices_ok n -> slices_ok (g n)) -> whole s -> whole (upd i g s).
Proof.
  intros Hg Hs j m. rewrite upd_lookup. destruct (f_nodes s !! j) as [n|] eqn:En; [|done].
  cbn. intros [= <-]. case_decide as E; [subst|by apply (Hs j)]. by apply Hg, (Hs i).
Qed.

Lemma whole_remove i s : whole s -> whole (remove_node i s).
Proof. intros Hs j n Hj. cbn in Hj. apply lookup_delete_Some in Hj as [_ Hj]. by apply (Hs j). Qed.

Lemma whole_add i n s : slices_ok n -> whole s -> whole (add_node i n s).
Proof. intros Hn Hs j m Hj. cbn in Hj. apply lookup_insert_Some in Hj as [[_ <-]|[_ Hj]]; [done|by apply (Hs j)]. Qed.

Lemma whole_free z s : whole s -> whole (set_free z s).
Proof. done. Qed.

Lemma slices_ok_same n m : n_slices m = n_slices n -> slices_ok n -> slices_ok m.
Proof. unfold slices_ok. by intros ->. Qed.

Lemma slices_ok_none n : n_slices n = ∅ -> slices_ok n.
Proof. intros E i v. by rewrite E, lookup_empty. Qed.

Lemma slices_moved new_dir t n : n_slices (moved new_dir t n) = n_slices n.
Proof. unfold moved. by destruct (is_dir_mode _). Qed.
End whole.

Create HintDb whole.
#[export] Hint Resolve whole_upd whole_remove whole_add whole_free slices_ok_none slices_moved : whole.
#[export] Hint Extern 1 (slices_ok _) => (eapply slices_ok_same; [reflexivity|eassumption]) : whole.

Section whole_ops.
Context `{SliceConfig} `{!Memory}.
Implicit Types (s : fs) (n : node).

Lemma whole_create kind new dir name uid gid t bits target dev s n s' :
  t_create kind new dir name uid gid t bits target dev s = Ok (n, s') -> whole s -> whole s'.
Proof. intros (p & _ & _ & _ & -> & ->)%t_create_inv Hs. eauto with whole. Qed.

Lemma whole_unlink uid gid dir name ino t s u s' :
  t_unlink_op uid gid dir name ino t s = Ok (u, s') -> whole s -> whole s'.
Proof.
  unfold t_unlink_op, t_unlink. intros E Hs. repeat case_match; try done; injection E as _ <-;
    eauto 6 with whole.
Qed.

Lemma whole_rmdir uid gid dir name t s u s' :
  t_rmdir_op uid gid dir name t s = Ok (u, s') -> whole s -> whole s'.
Proof.
  unfold t_rmdir_op. intros E Hs. repeat case_match; try done; injection E as _ <-; eauto 6 with whole.
Qed.

Lemma whole_move dir newdir name newname ino t s :
  whole s -> whole (t_move dir newdir name newname ino t s).
Proof.
  intros Hs. unfold t_move, t_shift. apply whole_upd.
  - intros n _. apply slices_ok_same, slices_moved.
  - destruct (decide _); eauto 6 with whole.
Qed.

Lemma whole_rename uid gid dir name newdir newname flags t s u s' :
  t_rename uid gid dir name newdir newname flags t s = Ok (u, s') -> whole s -> whole s'.
Proof.
  unfold t_rename. intros E Hs. destruct (t_rename_old _ _ _ _ s) as [[ino n]| |]; [|done..].
  cbn [mbind outcome_bind] in E. destruct (t_rename_new _ _ _ _ s) as [[[target m]|]| |]; [| |done..];
    cbn [mbind outcome_bind] in E; unfold t_guard in E.
  - destruct (negb _).
    { injection E as _ <-. unfold t_exchange. cbv zeta.
      destruct (is_dir_mode (n_mode m)), (is_dir_mode (n_mode n)); eauto 12 with whole. }
    destruct (negb (is_dir_mode (n_mode m) && _)); [|done]. cbn [mbind outcome_bind] in E.
    destruct (negb (is_dir_mode (n_mode n) && _ && _)); [|done]. cbn [mbind outcome_bind] in E.
    destruct (is_dir_mode (n_mode m)); [|done]. injection E as _ <-. apply whole_move.
    unfold t_drop. eauto with whole.
  - destruct (Z.land flags _ =? 0); [|done]. cbn [mbind outcome_bind] in E.
    destruct (negb (is_dir_mode (n_mode n) && _ && _)); [|done]. injection E as _ <-. by apply whole_move.
Qed.

Lemma whole_write data offset ino s : 0 <= offset -> whole s -> whole (upd ino (t_write data offset) s).
Proof.
  intros Ho Hs. apply whole_upd; [|done]. intros n Hn Hok. eapply (written_ok data offset n); [|done|done].
  by apply written_slices_ok.
Qed.

Lemma whole_truncate ino t f_size n s s' :
  f_nodes s !! ino = Some n -> 0 <= f_size -> 0 <= n_size n ->
  t_truncate ino t f_size n s = Ok s' -> whole s -> whole s'.
Proof.
  intros Hn Hf Hz E Hs. destruct (truncated_bytes s ino t f_size n s' Hn (Hs _ _ Hn) Hf Hz E)
    as (n' & Hn' & _ & Hok & _).
  intros i m Hi. destruct (decide (i = ino)) as [->|Hne]; [rewrite Hn' in Hi; by injection Hi as <-|].
  apply (Hs i). rewrite <- Hi. unfold t_truncate in E.
  destruct (_ <? _); [destruct (_ <? _); [done|]|]; injection E as <-; by rewrite upd_lookup_ne.
Qed.
End whole_ops.

(** ** Running beside the tree *)

(** The database of [w] stands for the tree of [a], whose slices are whole, and
    the counters are equal. *)
Record stands `{SliceConfig} {D} `{JammDb D} (w : world D) (a : world fs) : Prop := {
  st_rep : represents (w_db w) (w_db a);
  st_whole : whole (w_db a);
  st_next : w_next a = w_next w;
  st_u64 : is_u64 (w_next w) }.

Section sims.
Context `{SliceConfig} {D : Type} `{JammDb D, !JammDbLaws D, !Reliable D}.
Implicit Types (w : world D) (a : world fs).

(** The two computations return the same and end in states that belong
    together. *)
Definition sims {A} (m : Op D A) (ma : Op fs A) w a : Prop :=
  (m w).1 = (ma a).1 /\ stands (m w).2 (ma a).2.

Lemma sims_run {A} (m : Op D A) (ma : Op fs A) w a o w' a' :
  m w = (o, w') -> ma a = (o, a') -> stands w' a' -> sims m ma w a.
Proof. unfold sims. by intros -> ->. Qed.

Lemma sims_lift {A} (o : outcome A) w a : stands w a -> sims (op_lift o) (op_lift o) w a.
Proof. by split. Qed.

Lemma sims_ret {A} (x : A) w a : stands w a -> sims (mret x) (mret x) w a.
Proof. by split. Qed.

Lemma sims_fail {A} e w a : stands w a -> sims (op_fail e : Op D A) (op_fail e) w a.
Proof. by split. Qed.

Lemma sims_bind {A B} (m : Op D A) (ma : Op fs A) (f : A -> Op D B) (fa : A -> Op fs B) w a :
  sims m ma w a ->
  (forall x w' a', m w = (Ok x, w') -> ma a = (Ok x, a') -> stands w' a' -> sims (f x) (fa x) w' a') ->
  sims (m ≫= f) (ma ≫= fa) w a.
Proof.
  unfold sims, mbind, op_bind. intros [E Hs] Hf.
  destruct (m w) as [[x|e|] w'], (ma a) as [[y|e'|] a'];
    cbn in *; try discriminate E; [|injection E as <-; by split|by split].
  injection E as <-. by apply Hf.
Qed.

(** A first step that only computes. *)
Lemma sims_pure {A B} (o : outcome A) (f : A -> Op D B) (fa : A -> Op fs B) w a :
  stands w a -> (forall x, o = Ok x -> sims (f x) (fa x) w a) ->
  sims (op_lift o ≫= f) (op_lift o ≫= fa) w a.
Proof. intros Hs Hf. destruct o as [x|e|]; [by apply Hf|by split|by split]. Qed.

Lemma sims_answer {A} (m : Op D A) (ma : Op fs A) ok err w a :
  sims m ma w a -> sims (answer m ok err) (answer ma ok err) w a.
Proof.
  unfold sims, answer. intros [E Hs]. destruct (m w) as [[x|e|] w'], (ma a) as [[y|e'|] a'];
    cbn in *; try discriminate E; try injection E as <-; by split.
Qed.

Lemma sims_try {A} (m : Op D A) (ma : Op fs A) w a : sims m ma w a -> sims (op_try m) (op_try ma) w a.
Proof.
  unfold sims, op_try. intros [E Hs]. destruct (m w) as [[x|e|] w'], (ma a) as [[y|e'|] a'];
    cbn in *; try discriminate E; try injection E as <-; by split.
Qed.

Lemma stands_db w a d' s' : stands w a -> represents d' s' -> whole s' -> stands (set_db w d') (set_db a s').
Proof. intros [_ _ Hn Hu]. by split. Qed.

(** An operation that only reads. *)
Lemma sims_look {A} (m : Op D A) (g : fs -> outcome A) w a :
  m w = (g (w_db a), w) -> stands w a -> sims m (t_look g) w a.
Proof. intros E Hs. by eapply sims_run. Qed.

(** A transaction. *)
Lemma sims_tx {A} (m : Op D A) (f : fs -> outcome (A * fs)) w a :
  stands w a ->
  match f (w_db a) with
  | Ok (x, s') => exists d', m w = (Ok x, set_db w d') /\ represents d' s'
  | Err e => m w = (Err e, w)
  | Panic => m w = (Panic, w)
  end ->
  (forall x s', f (w_db a) = Ok (x, s') -> whole s') -> sims m (t_tx f) w a.
Proof.
  intros Hs Hm Hw. unfold sims, t_tx. destruct (f (w_db a)) as [[x s']|e|].
  - destruct Hm as (d' & -> & Hr'). split; [done|]. apply stands_db; [done..|by eapply Hw].
  - by rewrite Hm.
  - by rewrite Hm.
Qed.

Lemma time_sane req i t :
  req_ok req -> time_of_system (req_clock req i) = Some t -> time_ok t.
Proof.
  intros Hq. destruct (req_clock_ok _ Hq i) as [Hs Hn]. unfold time_of_system.
  destruct (Z.ltb_spec (st_sec (req_clock req i)) 0); [done|]. intros [= <-].
  split; cbn; unfold is_u64, is_u32; lia.
Qed.

Lemma sims_now {B} req i (f : DbfsTimeSpec -> Op D B) (fa : DbfsTimeSpec -> Op fs B) w a :
  req_ok req -> stands w a ->
  (forall t, time_ok t -> sims (f t) (fa t) w a) -> sims (now req i ≫= f) (now req i ≫= fa) w a.
Proof.
  intros Hq Hs Hf. unfold now, op_unwrap. apply sims_pure; [done|]. intros t Ht. apply Hf.
  destruct (time_of_system _) as [x|] eqn:E; [|done]. injection Ht as <-. by eapply time_sane.
Qed.

Lemma sims_time_given {B} req i t (f : option DbfsTimeSpec -> Op D B) (fa : option DbfsTimeSpec -> Op fs B) w a :
  req_ok req -> time_given t -> stands w a ->
  (forall t', (forall x, t' = Some x -> time_ok x) -> sims (f t') (fa t') w a) ->
  sims (time_or_now req i t ≫= f) (time_or_now req i t ≫= fa) w a.
Proof.
  intros Hreq Ht Hw Hf. unfold time_or_now. destruct t as [[|t]|].
  - unfold now, op_unwrap. destruct (time_of_system (req_clock req i)) as [x|] eqn:E; [|by split].
    apply (Hf (Some x)). intros y [= <-]. by eapply time_sane.
  - unfold op_unwrap, time_of_system. destruct Ht as [Hsec Hnsec].
    destruct (Z.ltb_spec (st_sec t) 0); [by split|]. apply (Hf (Some _)). intros y [= <-].
    split; cbn; unfold is_u64, is_u32; lia.
  - by apply (Hf None).
Qed.

(** A name that is UTF-8. *)
Lemma sims_named name (m : bytes -> Op D Reply) ma w a :
  stands w a -> sims (m name) ma w a -> sims (name ← op_unwrap (to_str name); m name) (named name ma) w a.
Proof.
  intros Hs Hm. unfold named, op_unwrap, to_str. destruct (utf8_ok name); [exact Hm|by split].
Qed.
End sims.

(** ** The operations of the common layer *)

Section common.
Context `{SliceConfig} {D : Type} `{JammDb D, !JammDbLaws D, !Reliable D} `{!Memory} `{!Cache}.
Implicit Types (w : world D) (a : world fs) (s : fs) (n : node).

Lemma bucket_missing d s ino :
  represents d s -> is_u64 ino -> f_nodes s !! ino = None -> get_bucket (usize_be ino) d = Err NoData.
Proof. intros Hr Hi Hn. apply get_bucket_missing. by apply (rep_none _ _ Hr). Qed.

Lemma look_attr ino w a : stands w a -> is_u64 ino -> sims (dbfs_common_attr ino) (t_look (t_attr ino)) w a.
Proof. intros Hs Hi. apply sims_look; [|done]. apply attr_runs; [apply Hs|done]. Qed.

(** Operations that begin with the attributes of the inode and call its absence
    [e]. *)
Lemma attr_first w a ino e :
  stands w a -> is_u64 ino ->
  match f_nodes (w_db a) !! ino with
  | Some n => exists ty, file_type_of_perm (n_mode n) = Some ty /\
      op_map_err e (dbfs_common_attr ino) w = (Ok (attr_of ino n ty), w) /\
      t_attr ino (w_db a) = Ok (attr_of ino n ty)
  | None => op_map_err e (dbfs_common_attr ino) w = (Err e, w)
  end.
Proof.
  intros Hs Hi. unfold op_map_err. rewrite (attr_runs w (w_db a)) by (done || apply Hs). unfold t_attr.
  destruct (f_nodes (w_db a) !! ino) as [n|] eqn:Hn; [|done].
  destruct (ok_type _ (rep_ok _ _ _ _ (st_rep _ _ Hs) Hn)) as [ty Hty]. exists ty. by rewrite Hty.
Qed.

Lemma kind_bits_type kind bits :
  0 <= bits < 2 ^ 12 -> kind_bits (Z.lor (type_bits kind) bits) = (kind, bits).
Proof.
  intros Hb. unfold kind_bits. rewrite file_type_type_bits by done. cbn [default from_option id].
  f_equal. change 0xFFF with (Z.ones 12). rewrite Z.land_ones by lia. apply Z.bits_inj'. intros i Hi.
  destruct (Z_lt_ge_dec i 12).
  - rewrite Z.mod_pow2_bits_low by lia. rewrite Z.lor_spec.
    replace (Z.testbit (type_bits kind) i) with false; [done|].
    symmetry. assert (E : type_bits kind = type_bits kind / 2 ^ 12 * 2 ^ 12) by by destruct kind.
    rewrite E. apply Z.mul_pow2_bits_low. lia.
  - rewrite Z.mod_pow2_bits_high by lia. symmetry. apply Z.bits_above_log2; [lia|].
    destruct (decide (bits = 0)) as [->|]; [cbn; lia|].
    assert (Z.log2 bits < 12) by (apply Z.log2_lt_pow2; lia). lia.
Qed.

Lemma create_sims req dir name t perm target dev w a :
  stands w a -> req_ok req -> is_u64 dir -> time_ok t -> typed perm target dev -> opt_u32 dev ->
  sims (dbfs_common_create dir name (req_uid req) (req_gid req) t perm target dev)
    (t_create_op dir name (req_uid req) (req_gid req) t perm target dev) w a.
Proof.
  intros Hs Hq Hd Ht (kind & bits & Hb & -> & Hsym & Hchr) Hdev.
  assert (Hok : create_ok kind (req_uid req) (req_gid req) t bits target dev).
  { split; [apply Hq|]. split; [apply Hq|]. done. }
  pose proof (create_runs w (w_db a) kind dir name (req_uid req) (req_gid req) t bits target dev
    (st_rep _ _ Hs) Hok (st_u64 _ _ Hs) Hd) as Hrun.
  unfold sims, t_create_op. rewrite kind_bits_type by done. unfold mbind, op_bind, fetch_next, t_tx.
  rewrite (st_next _ _ Hs). cbn [w_db set_next].
  assert (Hx : forall d' s', represents d' s' -> whole s' ->
    stands (set_db (set_next w (w64 (w_next w + 1))) d') (set_db (set_next a (w64 (w_next w + 1))) s')).
  { intros d' s' Hr' Hw'. split; [done|done|done|]. apply w64_range. }
  destruct (t_create _ _ _ _ _ _ _ _ _ _ _) as [[n s']|e|] eqn:E; [| |done].
  - destruct Hrun as (d' & Hr' & ->). split; [done|]. apply Hx; [done|].
    eapply whole_create; [exact E|apply Hs].
  - rewrite Hrun. split; [done|]. apply (Hx (w_db w) (w_db a)); apply Hs.
Qed.

Lemma link_sims req ino dir name t w a :
  stands w a -> is_u64 ino -> is_u64 dir -> ino <> dir -> time_ok t ->
  sims (dbfs_common_link (req_uid req) (req_gid req) ino dir name t)
    (t_tx (t_link_op (req_uid req) (req_gid req) ino dir name t)) w a.
Proof.
  intros Hs Hi Hd Hne Ht. pose proof (st_rep _ _ Hs) as Hr. apply sims_tx; [done| |].
  - unfold t_link_op, t_node, t_guard, t_may_write.
    destruct (f_nodes (w_db a) !! dir) as [p|] eqn:Hp; cbn [mbind outcome_bind].
    2: { unfold dbfs_common_link. pose proof (attr_first w a dir NotFound Hs Hd) as Ha.
         rewrite Hp in Ha. by erewrite op_bind_err. }
    destruct (checkout_access _ _ _ _ _ _) eqn:Hw; cbn [mbind outcome_bind].
    2: { eapply link_denied; [exact Hr|exact Hp|]. unfold may_write. by rewrite Hw. }
    destruct (f_nodes (w_db a) !! ino) as [n|] eqn:Hn; cbn [mbind outcome_bind].
    2: { unfold dbfs_common_link. pose proof (attr_first w a dir NotFound Hs Hd) as Ha.
         rewrite Hp in Ha. destruct Ha as (ty & _ & Ha & _). erewrite op_bind_ok by exact Ha.
         cbn [a_uid a_gid a_perm attr_of]. rewrite checkout_access_low_bits by done.
         change ACCESS_W_OK with 2 in Hw. rewrite Hw. cbn [negb].
         erewrite op_bind_err; [done|]. apply write_tx_err. by eapply link_tx_missing. }
    destruct (link_runs w (w_db a) (req_uid req) (req_gid req) ino dir name t p n Hr Ht Hne Hp Hn Hw)
      as (d' & tn & Hr' & Htn & Hrun).
    assert (Hn' : f_nodes (t_link ino dir name t (w_db a)) !! ino =
      Some (relink (w32 (n_nlink n + 1)) t n)).
    { unfold t_link. rewrite upd_lookup, upd_lookup_ne, Hn by done. cbn. by rewrite decide_True. }
    assert (E : t_attr ino (t_link ino dir name t (w_db a)) =
      Ok (attr_of ino (relink (w32 (n_nlink n + 1)) t n) tn)).
    { unfold t_attr. rewrite Hn'. cbn [n_mode relink with_ctime with_nlink]. by rewrite Htn. }
    rewrite E. cbn [mbind outcome_bind]. by exists d'.
  - intros x s' E. unfold t_link_op, t_node in E.
    destruct (f_nodes (w_db a) !! dir) as [p|]; [|done]. cbn [mbind outcome_bind] in E.
    unfold t_guard in E. destruct (t_may_write _ _ _); [|done]. cbn [mbind outcome_bind] in E.
    destruct (f_nodes (w_db a) !! ino) as [n|]; [|done]. cbn [mbind outcome_bind] in E.
    destruct (t_attr ino _) as [at_| |]; [|done..]. injection E as _ <-. unfold t_link.
    pose proof (st_whole _ _ Hs). eauto 6 with whole.
Qed.

Lemma unlink_sims req dir name t w a :
  stands w a -> is_u64 dir -> time_ok t -> entry (w_db a) dir name <> Some dir ->
  sims (dbfs_common_unlink (req_uid req) (req_gid req) dir name None t)
    (t_tx (t_unlink_op (req_uid req) (req_gid req) dir name None t)) w a.
Proof.
  intros Hs Hd Ht He. apply sims_tx; [done| |].
  - by apply unlink_runs; [apply Hs|..].
  - intros x s' E. eapply whole_unlink; [exact E|apply Hs].
Qed.

Lemma rmdir_sims req dir name t w a :
  stands w a -> is_u64 dir -> time_ok t -> entry (w_db a) dir name <> Some dir ->
  sims (dbfs_common_rmdir (req_uid req) (req_gid req) dir name t)
    (t_tx (t_rmdir_op (req_uid req) (req_gid req) dir name t)) w a.
Proof.
  intros Hs Hd Ht He. apply sims_tx; [done| |].
  - by apply rmdir_runs; [apply Hs|..].
  - intros x s' E. eapply whole_rmdir; [exact E|apply Hs].
Qed.

Lemma rename_sims req dir name newdir newname flags t w a :
  stands w a -> is_u64 dir -> is_u64 newdir -> time_ok t ->
  rename_apart (w_db a) dir name newdir newname ->
  sims (dbfs_common_rename (req_uid req) (req_gid req) dir name newdir newname flags t)
    (t_tx (t_rename (req_uid req) (req_gid req) dir name newdir newname flags t)) w a.
Proof.
  intros Hs Hd Hd' Ht Hap. apply sims_tx; [done| |].
  - by apply rename_runs; [apply Hs|..].
  - intros x s' E. eapply whole_rename; [exact E|apply Hs].
Qed.

Lemma setxattr_sims req ino name value t w a :
  stands w a -> is_u64 ino -> time_ok t ->
  sims (dbfs_common_setxattr (req_uid req) (req_gid req) ino name value t)
    (t_tx (t_setxattr (req_uid req) (req_gid req) ino name value t)) w a.
Proof.
  intros Hs Hi Ht. apply sims_tx; [done|by apply setxattr_runs; [apply Hs|..]|].
  intros x s' E. unfold t_setxattr in E. destruct (f_nodes _ !! ino) as [n|]; [|done].
  destruct (node_check _ _ _ _ n); [|done..]. injection E as _ <-.
  pose proof (st_whole _ _ Hs). eauto with whole.
Qed.

Lemma fallocate_sims req ino offset length mode t w a :
  stands w a -> is_u64 ino -> time_ok t ->
  sims (dbfs_common_fallocate (req_uid req) (req_gid req) ino offset length mode t)
    (t_tx (t_fallocate (req_uid req) (req_gid req) ino offset length mode t)) w a.
Proof.
  intros Hs Hi Ht. apply sims_tx; [done|by apply fallocate_runs; [apply Hs|..]|].
  intros x s' E. unfold t_fallocate in E. destruct (f_nodes _ !! ino) as [n|]; [|done].
  destruct (negb _); [done|]. cbv zeta in E. destruct (_ <? _); [done|].
  pose proof (st_whole _ _ Hs). destruct (Z.land _ _ =? 0); injection E as _ <-; eauto with whole.
Qed.

Lemma write_sims ino data offset w a :
  stands w a -> is_u64 ino -> 0 <= offset -> offset + zlen data < 2 ^ 32 * SLICE_SIZE ->
  sims (dbfs_common_write ino data offset) (t_tx (t_write_op ino data offset)) w a.
Proof.
  intros Hs Hi Ho Hlim. pose proof (st_rep _ _ Hs) as Hr. apply sims_tx; [done| |].
  - unfold t_write_op, t_node. destruct (f_nodes (w_db a) !! ino) as [n|] eqn:Hn; cbn [mbind outcome_bind].
    + exact (write_runs_ok w (w_db a) ino n data offset Hr Hn (st_whole _ _ Hs _ _ Hn) Ho Hlim).
    + apply write_tx_err. unfold write_bytes_tx. apply tx_bind_err. by eapply bucket_missing.
  - intros x s' E. unfold t_write_op, t_node in E. destruct (f_nodes (w_db a) !! ino) as [n|]; [|done].
    injection E as _ <-. apply whole_write; [done|apply Hs].
Qed.

Lemma read_sims ino buf offset w a :
  stands w a -> is_u64 ino -> 0 <= offset -> is_u64 (offset + zlen buf) -> short (w_db a) ino ->
  sims (dbfs_common_read ino buf offset) (t_look (t_read ino buf offset)) w a.
Proof.
  intros Hs Hi Ho Hu Hsh. pose proof (st_rep _ _ Hs) as Hr. apply sims_look; [|done].
  unfold t_read, t_node. destruct (f_nodes (w_db a) !! ino) as [n|] eqn:Hn; cbn [mbind outcome_bind].
  - unfold dbfs_common_read, read_tx, dropped_tx. rewrite begin_ok.
    rewrite (read_bytes_tx_runs _ (w_db a) _ n) by (done || by apply Hsh).
    destruct (_ <=? _); [done|]. cbv zeta. by destruct (read_loop _ _ _ _ _ _) as [[??]|].
  - apply dropped_tx_err. unfold read_bytes_tx. apply tx_bind_err. by eapply bucket_missing.
Qed.

Lemma truncate_sims req ino f_size t w a :
  stands w a -> is_u64 ino -> is_u64 f_size -> time_ok t -> short (w_db a) ino ->
  sims (dbfs_common_truncate (req_uid req) (req_gid req) ino t f_size)
    (t_tx (t_truncate_op (req_uid req) (req_gid req) ino f_size t)) w a.
Proof.
  intros Hs Hi Hf Ht Hsh. pose proof (st_rep _ _ Hs) as Hr.
  pose proof (attr_first w a ino NotFound Hs Hi) as Ha.
  assert (Hw : forall x s', t_truncate_op (req_uid req) (req_gid req) ino f_size t (w_db a) = Ok (x, s') ->
    whole s').
  { intros x s' E. unfold t_truncate_op, t_node, t_guard in E.
    destruct (f_nodes (w_db a) !! ino) as [n|] eqn:Hn; [|done]. cbn [mbind outcome_bind] in E.
    destruct (t_attr ino _) as [at_| |]; [|done..]. cbn [mbind outcome_bind] in E.
    destruct (t_may_write _ _ n); [|done]. cbn [mbind outcome_bind] in E.
    destruct (t_truncate ino t f_size n (w_db a)) as [s1| |] eqn:Et; [|done..]. injection E as _ <-.
    eapply whole_truncate; [exact Hn| | |exact Et|apply Hs].
    - apply Hf.
    - apply (ok_size _ (rep_ok _ _ _ _ Hr Hn)). }
  apply sims_tx; [done| |exact Hw]. clear Hw. unfold t_truncate_op, t_node, t_guard, t_may_write.
  destruct (f_nodes (w_db a) !! ino) as [n|] eqn:Hn; cbn [mbind outcome_bind].
  2: { unfold dbfs_common_truncate. by erewrite op_bind_err by exact Ha. }
  destruct Ha as (ty & Hty & Ha & ->). cbn [mbind outcome_bind]. unfold dbfs_common_truncate.
  destruct (checkout_access _ _ _ _ _ _) eqn:Ec; erewrite op_bind_ok by exact Ha; cbv beta;
    cbn [a_uid a_gid a_perm attr_of]; rewrite Ec; cbn [negb mbind outcome_bind]; [|done].
  pose proof (ok_size _ (rep_ok _ _ _ _ Hr Hn)) as [Hz _].
  assert (Hsz : is_u32 (n_size n / SLICE_SIZE)).
  { specialize (Hsh n Hn). pose proof slice_range. split; [apply Z.div_pos; lia|lia]. }
  pose proof (write_runs Question Question _ w _
    (truncate_tx_agree _ (w_db a) ino t f_size n ty Hr Hn (st_whole _ _ Hs _ _ Hn) Ht Hf Hsz)) as Hw.
  destruct (t_truncate ino t f_size n (w_db a)) as [s'|e|]; cbn [mbind outcome_bind] in Hw |- *.
  - destruct Hw as (d' & Hw & Hr'). exists d'. by erewrite op_bind_ok by exact Hw.
  - by erewrite op_bind_err by exact Hw.
  - by erewrite op_bind_panic by exact Hw.
Qed.

Lemma may_change_mode uid gid n :
  ((uid =? 0) || ((uid =? n_uid n) && (gid =? n_gid n))) =
  negb ((negb (uid =? 0) && negb (uid =? n_uid n)) || (negb (uid =? 0) && negb (gid =? n_gid n))).
Proof. by destruct (uid =? 0), (uid =? n_uid n), (gid =? n_gid n). Qed.

Lemma chmod_sims req ino mode t w a :
  stands w a -> is_u64 ino -> is_u16 mode -> time_ok t ->
  sims (dbfs_common_chmod (req_uid req) (req_gid req) ino mode t)
    (t_tx (t_chmod (req_uid req) (req_gid req) ino mode t)) w a.
Proof.
  intros Hs Hi Hm Ht. pose proof (st_rep _ _ Hs) as Hr.
  pose proof (attr_first w a ino Other Hs Hi) as Ha. apply sims_tx; [done| |].
  - unfold t_chmod, t_node, t_guard, dbfs_common_chmod.
    destruct (f_nodes (w_db a) !! ino) as [n|] eqn:Hn; cbn [mbind outcome_bind].
    2: { by erewrite op_bind_err by exact Ha. }
    destruct Ha as (ty & Hty & Ha & ->). cbn [mbind outcome_bind]. erewrite op_bind_ok by exact Ha.
    cbv beta. cbn [a_uid a_gid a_perm attr_of]. rewrite may_change_mode.
    destruct (_ && negb (_ =? n_uid n)); cbn [orb negb mbind outcome_bind]; [done|].
    destruct (_ && negb (_ =? n_gid n)); cbn [negb mbind outcome_bind]; [done|].
    pose proof (ok_mode _ (rep_ok _ _ _ _ Hr Hn)) as Hm16.
    fold (chmod_mode (n_mode n) mode). destruct (chmod_mode (n_mode n) mode =? n_mode n) eqn:E; cbn [negb].
    + exists (w_db w). by destruct w.
    + destruct (set_mode_runs w (w_db a) ino n (chmod_mode (n_mode n) mode) t Hr Hn
        (chmod_mode_u16 _ _ Hm16 Hm) Ht (chmod_mode_type _ _ Hm16)) as (d' & Hrun & Hr').
      exists d'. by erewrite op_bind_ok by exact Hrun.
  - intros x s' E. unfold t_chmod, t_node, t_guard in E.
    destruct (f_nodes (w_db a) !! ino) as [n|]; [|done]. cbn [mbind outcome_bind] in E.
    destruct (t_attr ino _) as [at_| |]; [|done..]. cbn [mbind outcome_bind] in E.
    destruct (_ || _); [|done]. cbn [mbind outcome_bind] in E. pose proof (st_whole _ _ Hs).
    destruct (_ =? n_mode n); injection E as _ <-; eauto with whole.
Qed.

Lemma chown_sims req ino new_uid new_gid t w a :
  stands w a -> is_u64 ino -> opt_u32 new_uid -> opt_u32 new_gid -> time_ok t ->
  sims (dbfs_common_chown (req_uid req) (req_gid req) ino new_uid new_gid t)
    (t_tx (t_chown (req_uid req) (req_gid req) ino new_uid new_gid t)) w a.
Proof.
  intros Hs Hi Hu Hg Ht. pose proof (st_rep _ _ Hs) as Hr.
  pose proof (attr_first w a ino Other Hs Hi) as Ha. apply sims_tx; [done| |].
  - unfold t_chown, t_node, t_guard, dbfs_common_chown.
    destruct (f_nodes (w_db a) !! ino) as [n|] eqn:Hn; cbn [mbind outcome_bind].
    2: { by erewrite op_bind_err by exact Ha. }
    destruct Ha as (ty & Hty & Ha & ->). cbn [mbind outcome_bind]. erewrite op_bind_ok by exact Ha.
    cbv beta. destruct (chown_denied _ _ _ _ _); cbn [negb mbind outcome_bind]; [done|].
    cbn [a_uid a_gid a_perm attr_of]. pose proof (rep_ok _ _ _ _ Hr Hn) as Hok.
    destruct (chown_write_runs w (w_db a) ino n (default (n_uid n) new_uid) (default (n_gid n) new_gid)
      (chown_mode (n_mode n) new_uid new_gid) t Hr Hn) as (d' & Hrun & Hr').
    + destruct new_uid; [by apply Hu|apply Hok].
    + destruct new_gid; [by apply Hg|apply Hok].
    + by apply chown_mode_u16, Hok.
    + done.
    + by apply chown_mode_type, Hok.
    + exists d'. by erewrite op_bind_ok by exact Hrun.
  - intros x s' E. unfold t_chown, t_node, t_guard in E.
    destruct (f_nodes (w_db a) !! ino) as [n|]; [|done]. cbn [mbind outcome_bind] in E.
    destruct (t_attr ino _) as [at_| |]; [|done..]. cbn [mbind outcome_bind] in E.
    destruct (negb _); [|done]. injection E as _ <-. pose proof (st_whole _ _ Hs). eauto with whole.
Qed.

Lemma may_retime uid gid n :
  negb (negb (n_uid n =? uid) && negb (checkout_access (n_uid n) (n_gid n) (n_mode n) uid gid ACCESS_W_OK)) =
  (n_uid n =? uid) || t_may_write uid gid n.
Proof. unfold t_may_write. by destruct (n_uid n =? uid), (checkout_access _ _ _ _ _ _). Qed.

Lemma retimed_slices atime mtime t n : n_slices (retimed atime mtime t n) = n_slices n.
Proof. by destruct atime, mtime. Qed.

Lemma utimens_sims req ino atime mtime t w a :
  stands w a -> is_u64 ino -> time_ok t ->
  (forall t, atime = Some t -> time_ok t) -> (forall t, mtime = Some t -> time_ok t) ->
  sims (dbfs_common_utimens (req_uid req) (req_gid req) ino atime mtime t)
    (t_tx (t_utimens (req_uid req) (req_gid req) ino atime mtime t)) w a.
Proof.
  intros Hs Hi Ht Hta Htm. pose proof (st_rep _ _ Hs) as Hr.
  apply sims_tx; [done| |].
  - pose proof (attr_runs w (w_db a) ino Hr Hi) as Ha.
    unfold t_utimens, t_node, t_guard, dbfs_common_utimens.
    destruct (f_nodes (w_db a) !! ino) as [n|] eqn:Hn; cbn [mbind outcome_bind].
    2: { unfold t_attr in Ha. rewrite Hn in Ha. by erewrite op_bind_err by exact Ha. }
    destruct (ok_type _ (rep_ok _ _ _ _ Hr Hn)) as [ty Hty].
    assert (E : t_attr ino (w_db a) = Ok (attr_of ino n ty)) by (unfold t_attr; by rewrite Hn, Hty).
    rewrite E in Ha |- *. cbn [mbind outcome_bind]. erewrite op_bind_ok by exact Ha. cbv beta.
    cbn [a_uid a_gid a_perm attr_of]. rewrite checkout_access_low_bits by done.
    replace ((n_uid n =? req_uid req) || (n_uid n =? 0)) with
      (negb (negb (n_uid n =? req_uid req) && negb (n_uid n =? 0)))
      by by destruct (n_uid n =? req_uid req), (n_uid n =? 0).
    rewrite <- may_retime. destruct (_ && negb (n_uid n =? 0)); cbn [negb mbind outcome_bind]; [done|].
    destruct (_ && negb (checkout_access _ _ _ _ _ _)); cbn [negb mbind outcome_bind]; [done|].
    destruct (set_times_runs w (w_db a) ino n atime mtime t Hr Hn Ht Hta Htm) as (d' & Hrun & Hr').
    exists d'. by erewrite op_bind_ok by exact Hrun.
  - intros x s' E. unfold t_utimens, t_node, t_guard in E.
    destruct (f_nodes (w_db a) !! ino) as [n|]; [|done]. cbn [mbind outcome_bind] in E.
    destruct (t_attr ino _) as [at_| |]; [|done..]. cbn [mbind outcome_bind] in E.
    destruct (_ || (_ =? 0)); [|done]. cbn [mbind outcome_bind] in E.
    destruct (_ || t_may_write _ _ _); [|done]. injection E as _ <-.
    apply whole_upd; [|apply Hs]. intros m _. apply slices_ok_same, retimed_slices.
Qed.

Lemma open_runs w a uid gid ino mask :
  stands w a -> is_u64 ino -> dbfs_common_open ino uid gid mask w = (t_open uid gid ino mask (w_db a), w).
Proof.
  intros Hs Hi. pose proof (attr_first w a ino NotFound Hs Hi) as Ha.
  unfold t_open, t_node, t_guard, dbfs_common_open.
  destruct (f_nodes (w_db a) !! ino) as [n|]; cbn [mbind outcome_bind].
  - destruct Ha as (ty & _ & Ha & _). erewrite op_bind_ok by exact Ha.
    cbn [a_uid a_gid a_perm attr_of]. by destruct (checkout_access _ _ _ _ _ _).
  - by erewrite op_bind_err by exact Ha.
Qed.

Lemma readlink_sims ino buf w a :
  stands w a -> is_u64 ino -> sims (dbfs_common_readlink ino buf) (t_look (t_readlink ino buf)) w a.
Proof.
  intros Hs Hi. pose proof (st_rep _ _ Hs) as Hr. apply sims_look; [|done].
  unfold dbfs_common_readlink, t_readlink, t_node, read_tx, dropped_tx. rewrite begin_ok.
  destruct (f_nodes (w_db a) !! ino) as [n|] eqn:Hn; cbn [mbind outcome_bind].
  - erewrite tx_bind_ok by (apply get_bucket_ok; by eapply rep_has).
    assert (Et : db_get (w_db w) (usize_be ino) (bs "data") = n_target n)
      by exact (rep_get _ _ _ _ KTarget Hr Hn I).
    erewrite tx_bind_ok by reflexivity. rewrite Et.
    destruct (n_target n) as [v|]; [|done]. erewrite tx_bind_ok by reflexivity. cbv zeta.
    pose proof (zlen_nonneg v). pose proof (zlen_nonneg buf).
    assert (El : zlen (take (Z.to_nat (Z.min (zlen v) (zlen buf))) v) = Z.min (zlen v) (zlen buf))
      by (unfold zlen in *; rewrite length_take; lia).
    unfold tx_unwrap. by erewrite tx_bind_ok by (rewrite copy_into_ok by lia; reflexivity).
  - erewrite tx_bind_err; [done|]. by eapply bucket_missing.
Qed.

Lemma removexattr_sims req ino key t w a :
  stands w a -> is_u64 ino -> time_ok t ->
  sims (dbfs_common_removexattr (req_uid req) (req_gid req) ino key t)
    (t_look (t_removexattr (req_uid req) (req_gid req) ino key)) w a.
Proof.
  intros Hs Hi Ht. pose proof (st_rep _ _ Hs) as Hr. apply sims_look; [|done].
  assert (Ha : exists s', agree (removexattr_tx (req_uid req) (req_gid req) ino key t (w_db w))
    (u ← t_removexattr (req_uid req) (req_gid req) ino key (w_db a); Ok (u, s'))).
  { unfold removexattr_tx, t_removexattr, t_node, t_guard, node_check.
    destruct (f_nodes (w_db a) !! ino) as [n|] eqn:Hn; cbn [mbind outcome_bind].
    2: { exists (w_db a). by eapply agree_missing. }
    exists (upd ino (fun n => with_ctime t (with_xattrs (base.delete key) n)) (w_db a)).
    ag. eapply agree_owner; [done|done|]. cbv beta iota.
    apply agree_check; [|by intros e ->|by intros ->]. intros [] Hc. rewrite Hc. cbn [mbind outcome_bind].
    pose proof (xattr_check_key _ _ _ _ _ _ _ Hc) as Hk.
    pose proof (rep_get _ _ _ _ (KXattr key) Hr Hn Hk) as Hg.
    change (key_bytes (KXattr key)) with key in Hg. change (node_val n (KXattr key)) with (n_xattrs n !! key) in Hg.
    destruct (n_xattrs n !! key) as [v|] eqn:Hv.
    - rewrite bool_decide_eq_true_2 by by eexists. cbn [mbind outcome_bind].
      eapply (agree_delete _ _ _ ino n (with_xattrs (base.delete key)) (KXattr key));
        [done|done|done| | |intros d1 Hr1].
      + split; [done|]. intros []; try done. edits_map.
      + intros []. split; cbn; try done. intros k v' [_ E]%lookup_delete_Some; eauto.
      + apply agree_last. ag.
        by fuse ino (fun n => with_ctime t (with_xattrs (base.delete key) n)).
    - rewrite bool_decide_eq_false_2 by by intros []. cbn [mbind outcome_bind].
      unfold agree, mbind, tx_bind, delete. by rewrite (proj2 (db_delete_None _ _ _) Hg). }
  destruct Ha as [s' Ha]. unfold agree in Ha. unfold dbfs_common_removexattr, dropped_tx. rewrite begin_ok.
  destruct (removexattr_tx _ _ _ _ _ _) as [[u d']|e|], (t_removexattr _ _ _ _ _) as [u'|e'|];
    cbn [mbind outcome_bind] in Ha; try done.
  - by destruct Ha as [-> _].
  - by subst.
Qed.

Lemma copy_sims req src offset_src dest offset_dest len t w a :
  stands w a -> is_u64 src -> is_u64 dest -> short (w_db a) src -> is_u64 offset_src ->
  0 <= len -> 0 <= offset_dest -> offset_dest + len < 2 ^ 32 * SLICE_SIZE -> time_ok t ->
  sims (dbfs_common_copy_file_range (req_uid req) (req_gid req) src offset_src dest offset_dest len t)
    (t_copy src offset_src dest offset_dest len t) w a.
Proof.
  intros Hs Hi Hj Hsh Ho Hlen Hod Hlim Ht. pose proof (st_rep _ _ Hs) as Hr.
  unfold dbfs_common_copy_file_range, t_copy.
  (** The size of the source comes alone in the code. *)
  destruct (f_nodes (w_db a) !! src) as [n|] eqn:Hn.
  2: { eapply (sims_run _ _ _ _ (Err NoData) w a); [| |done].
    - erewrite op_bind_err; [done|]. apply dropped_tx_err. apply tx_bind_err. by eapply bucket_missing.
    - unfold mbind, op_bind, t_look, t_node. by rewrite Hn. }
  pose proof (rep_ok _ _ _ _ Hr Hn) as Hok. pose proof (ok_size _ Hok) as Hz.
  assert (E1 : read_tx Question (bucket ← get_bucket (usize_be src); read_usize bucket (bs "size")) w =
    (Ok (n_size n), w)).
  { apply (read_tx_ok _ _ _ _ (w_db w)). erewrite tx_bind_ok by (apply get_bucket_ok; by eapply rep_has).
    apply (read_field_ok _ _ _ _ (usize_be (n_size n))); [exact (rep_get _ _ _ _ KSize Hr Hn I)|].
    apply usize_of_be, Hz. }
  assert (E2 : t_look (t_node (Err NoData) src) a = (Ok n, a)) by (unfold t_look, t_node; by rewrite Hn).
  unfold sims. erewrite (op_bind_ok _ _ w) by exact E1. erewrite (op_bind_ok _ _ a) by exact E2. cbv zeta.
  set (size := Z.min (sat_sub (n_size n) offset_src) len).
  assert (Hsize : 0 <= size <= len /\ offset_src + size < 2 ^ 64).
  { unfold size, sat_sub, is_u64 in *. lia. }
  apply sims_bind.
  { apply read_sims; [done|done|apply Ho| |done]. unfold zlen. rewrite length_replicate.
    unfold is_u64 in *. lia. }
  intros [count buf] w1 a1 Er Er' Hs1. apply sims_pure; [done|]. intros data Hd.
  assert (Hdl : zlen data <= len).
  { destruct (slice buf 0 count) as [v|] eqn:Esl; [|done]. injection Hd as <-.
    pose proof (common_read_len _ _ _ _ _ _ _ Er) as El. unfold zlen in El. rewrite length_replicate in El.
    rewrite (slice_len _ _ _ _ Esl). unfold slice in Esl. case_in Esl. zbool. unfold zlen in *. lia. }
  apply sims_bind; [apply write_sims; [done|done|done|lia]|].
  intros written w2 a2 _ Ew Hs2. apply sims_bind; [|intros [] w3 a3 _ _ Hs3; by apply sims_ret].
  assert (Hd2 : is_Some (f_nodes (w_db a2) !! dest)).
  { unfold t_tx, t_write_op, t_node in Ew. destruct (f_nodes (w_db a1) !! dest) as [m|] eqn:Em; [|done].
    cbn [mbind outcome_bind] in Ew. injection Ew as _ <-. cbn [w_db set_db].
    rewrite (upd_lookup_eq _ _ _ _ Em). by eexists. }
  destruct Hd2 as [m Hm]. apply sims_tx; [done| |].
  - exact (touch_runs w2 (w_db a2) dest m t (st_rep _ _ Hs2) Hm Ht).
  - intros x s' [= _ <-]. pose proof (st_whole _ _ Hs2). eauto with whole.
Qed.
End common.

(** ** Requests that leave the tree and the counter *)

Section quiet.
Context `{SliceConfig} {D : Type} `{JammDb D} `{!Memory} `{!Cache} `{ReplyBuffers}.
Implicit Types (w : world D).

(** [m] keeps the database and the counter. *)
Definition quiet {A} (m : Op D A) : Prop :=
  forall w, w_db (m w).2 = w_db w /\ w_next (m w).2 = w_next w.

Lemma quiet_bind {A B} (m : Op D A) (f : A -> Op D B) :
  quiet m -> (forall a, quiet (f a)) -> quiet (m ≫= f).
Proof.
  intros Hm Hf w. unfold mbind, op_bind. specialize (Hm w). destruct (m w) as [[x|e|] w']; [|done|done].
  destruct (Hf x w') as [-> ->]. exact Hm.
Qed.

Lemma quiet_answer {A} (m : Op D A) ok err : quiet m -> quiet (answer m ok err).
Proof. intros Hm w. unfold answer. specialize (Hm w). by destruct (m w) as [[]]. Qed.

Lemma quiet_try {A} (m : Op D A) : quiet m -> quiet (op_try m).
Proof. intros Hm w. unfold op_try. specialize (Hm w). by destruct (m w) as [[]]. Qed.

Lemma quiet_dropped {A} wr p (body : Tx D A) : quiet (dropped_tx wr p body).
Proof. intros w. by rewrite dropped_tx_same. Qed.

Lemma quiet_lift {A} (o : outcome A) : quiet (op_lift o).
Proof. done. Qed.

Lemma quiet_ret {A} (x : A) : quiet (mret x : Op D A).
Proof. done. Qed.

Lemma quiet_load : quiet (load_next (D := D)).
Proof. done. Qed.

Lemma quiet_table g : quiet (set_readdir_table (D := D) g).
Proof. done. Qed.
End quiet.

#[export] Hint Resolve quiet_dropped quiet_lift quiet_ret quiet_load quiet_table : fs.

(** Follow the structure of the code down to its transactions. *)
Ltac quiet_step := match goal with
  | |- quiet (mbind _ _) => apply quiet_bind; [|intros ?]
  | |- quiet (answer _ _ _) => apply quiet_answer
  | |- quiet (op_try _) => apply quiet_try
  | |- quiet (match ?x with _ => _ end) => destruct x
  | |- quiet (read_tx _ _) => apply quiet_dropped
  | |- quiet (op_unwrap _) => apply quiet_lift
  | |- quiet (op_fail _) => apply (quiet_lift (Err _))
  | |- quiet (assert_offset _) => apply quiet_lift
  | |- quiet (record_place _ _) => apply quiet_table
  | |- quiet _ => solve [auto with fs]
  end.

Section undescribed.
Context `{SliceConfig} {D : Type} `{JammDb D} `{!Memory} `{!Cache} `{ReplyBuffers}.

Lemma quiet_readdir_loop {E} (mk : DbfsDirEntry -> option E) full fuel plus ino offset repl :
  quiet (fuse_readdir_loop (D := D) mk full fuel plus ino offset repl).
Proof.
  revert offset repl. induction fuel as [|fuel IH]; intros offset repl; [apply quiet_lift|].
  cbn [fuse_readdir_loop]. apply quiet_bind; [apply quiet_try; intros w; apply quiet_dropped|].
  intros res. repeat (quiet_step || apply IH).
Qed.

Lemma undescribed_quiet self req k : described k = false -> quiet (handle (D := D) self req k).
Proof.
  destruct k; try discriminate; intros _; cbn [handle].
  - unfold fuse_readdir, dbfs_fuse_readdir. repeat (quiet_step || apply quiet_readdir_loop).
  - unfold fuse_readdirplus, dbfs_fuse_readdirplus. repeat (quiet_step || apply quiet_readdir_loop).
  - unfold fuse_statfs, dbfs_fuse_statfs, dbfs_common_statfs. repeat quiet_step.
  - unfold fuse_listxattr, dbfs_fuse_listxattr, dbfs_common_listxattr. repeat quiet_step.
Qed.
End undescribed.

(** ** The callbacks do what [t_serve] says *)

Section serve.
Context `{SliceConfig} {D : Type} `{JammDb D, !JammDbLaws D, !Reliable D}.
Context `{!Memory} `{!Cache} `{ReplyBuffers}.
Implicit Types (w : world D) (a : world fs) (req : Request).

Lemma w16_u16 z : is_u16 (w16 z).
Proof. unfold w16, is_u16. apply Z.mod_pos_bound. lia. Qed.

Lemma from_bits_w16 z : Perm.from_bits_truncate (w16 z) = w16 z.
Proof. apply Perm.from_bits_truncate_u16, w16_u16. Qed.

Lemma fuse_setattr_sims req ino mode uid gid size atime mtime self w a :
  let k := KSetattr ino mode uid gid size atime mtime in
  stands w a -> req_ok req -> fits (w_db a) k -> sims (handle self req k) (t_serve self req k) w a.
Proof.
  intros k Hs Hq (Hi & Hu & Hg & Hta & Htm & Hsz). unfold k. cbn [handle t_serve]. unfold fuse_setattr.
  destruct mode as [mode|].
  { apply sims_answer, sims_now; [done|done|]. intros t Ht. apply chmod_sims; try done. apply w16_u16. }
  destruct (_ || _).
  { apply sims_answer, sims_now; [done|done|]. intros t Ht. by apply chown_sims. }
  destruct size as [size|].
  { destruct (Hsz size eq_refl) as [Hf Hsh]. apply sims_answer, sims_now; [done|done|]. intros t Ht.
    by apply truncate_sims. }
  assert (Hut : forall ok err, sims (answer (dbfs_fuse_utimens req ino atime mtime) ok err)
    (answer (a ← time_or_now req 0 atime; m ← time_or_now req 1 mtime; t ← now req 2;
             t_tx (t_utimens (req_uid req) (req_gid req) ino a m t)) ok err) w a).
  { intros ok err. apply sims_answer. unfold dbfs_fuse_utimens.
    apply sims_time_given; [done|done|done|]. intros x Hx. apply sims_time_given; [done|done|done|].
    intros y Hy. apply sims_now; [done|done|]. intros t Ht. by apply utimens_sims. }
  destruct atime, mtime; [apply Hut..|]. by apply sims_ret.
Qed.

Lemma serve_sims self req k w a :
  stands w a -> req_ok req -> fits (w_db a) k ->
  (described k = true -> (handle self req k w).1 = (t_serve self req k a).1) /\
  stands (handle self req k w).2 (t_serve self req k a).2.
Proof.
  intros Hs Hq Hf. destruct (described k) eqn:Hk.
  2: { split; [done|]. destruct (undescribed_quiet self req k Hk w) as [Ed En].
       assert (E : (t_serve self req k a).2 = a) by (by destruct k). rewrite E.
       destruct Hs. by split; rewrite ?Ed, ?En. }
  enough (Hx : sims (handle self req k) (t_serve self req k) w a) by (destruct Hx; auto).
  destruct k; try discriminate; try (by apply fuse_setattr_sims); clear Hk;
    cbn [fits] in Hf; cbn [handle t_serve].
  - apply sims_named, sims_answer; [done|]. unfold dbfs_fuse_lookup. destruct (_ <? _); [by apply sims_fail|].
    apply sims_bind; [|intros x w' a' _ _ Hs'; by apply sims_lift].
    apply sims_look; [|done]. by apply lookup_runs; [apply Hs|].
  - apply sims_answer. unfold dbfs_fuse_getattr. apply sims_bind; [by apply look_attr|].
    intros x w' a' _ _ Hs'. by apply sims_lift.
  - apply sims_answer. unfold dbfs_fuse_readlink. apply sims_bind; [by apply readlink_sims|].
    intros [x buf] w' a' _ _ Hs'. by apply sims_ret.
  - destruct Hf as (Hd & Hr & Ht). apply sims_named, sims_answer; [done|]. unfold dbfs_fuse_mknod.
    rewrite from_bits_w16. apply sims_now; [done|done|]. intros t Hok.
    apply create_sims; try done. by intros z [= <-].
  - destruct Hf as (Hd & Ht). apply sims_named, sims_answer; [done|]. unfold dbfs_fuse_mkdir.
    rewrite from_bits_w16. apply sims_now; [done|done|]. intros t Hok.
    apply sims_bind; [by apply sims_try, create_sims|]. intros [x|] w' a' _ _ Hs'; [|by apply sims_ret].
    apply sims_pure; [done|]. intros y _. by apply sims_ret.
  - destruct Hf as (Hd & He). apply sims_named, sims_answer, sims_now; [done..|]. intros t Ht.
    by apply unlink_sims.
  - destruct Hf as (Hd & He). apply sims_named, sims_answer, sims_now; [done..|]. intros t Ht.
    by apply rmdir_sims.
  - apply sims_named, sims_named, sims_answer; [done..|]. unfold dbfs_fuse_symlink.
    destruct (_ <? _); [by apply sims_fail|]. apply sims_now; [done|done|]. intros t Ht. cbv zeta.
    apply create_sims; try done. exists Symlink, 0x1FF. split_and!; try done.
    intros [?|?]; done.
  - destruct Hf as (Hd & Hd' & Hap).
    apply (sims_named name (fun name => newname ← op_unwrap (to_str newname);
      answer (dbfs_fuse_rename req parent name newparent newname flags) reply_ok error_code)); [done|].
    apply sims_named, sims_answer, sims_now; [done..|]. intros t Ht. by apply rename_sims.
  - destruct Hf as (Hi & Hd & Hne). apply sims_named, sims_answer; [done|]. unfold dbfs_fuse_link.
    destruct (_ <? _); [by apply sims_fail|]. apply sims_now; [done|done|]. intros t Ht. by apply link_sims.
  - apply sims_answer. unfold dbfs_fuse_open, t_open_op. destruct (open_mask flags) as [mask|errno];
      [|by apply sims_ret].
    unfold sims. rewrite (open_runs w a) by done. by destruct (t_open _ _ _ _ _).
  - destruct Hf as (Hi & Hoff & Hsz & Hsh). apply sims_pure; [done|]. intros buf Hb.
    apply sims_answer, sims_pure; [done|]. intros [] Ho.
    assert (Hzb : zlen buf = size).
    { destruct (cache_alloc size) as [b|] eqn:Eb; [|done]. injection Hb as <-. by apply cache_alloc_len. }
    destruct (Z.leb_spec 0 offset); [|done]. apply read_sims; try done.
    rewrite Hzb. unfold is_u64, is_u32 in *. lia.
  - destruct Hf as (Hi & Hlim). apply sims_answer, sims_pure; [done|]. intros [] Ho.
    destruct (Z.leb_spec 0 offset); [|done]. by apply write_sims.
  - apply sims_answer. unfold dbfs_fuse_opendir. apply sims_pure; [done|]. intros mask _.
    apply sims_look; [|done]. by apply open_runs.
  - unfold fuse_releasedir. destruct Hs. by split.
  - apply sims_named, sims_answer, sims_now; [done..|]. intros t Ht. by apply setxattr_sims.
  - apply sims_named, sims_answer, sims_look; [done| |done]. by apply getxattr_runs; [apply Hs|].
  - apply sims_named, sims_answer, sims_now; [done..|]. intros t Ht. by apply removexattr_sims.
  - apply sims_answer. apply sims_look; [|done]. unfold t_access, t_node, dbfs_fuse_access.
    rewrite (access_runs w (w_db a)) by (done || apply Hs). by destruct (f_nodes (w_db a) !! ino).
  - destruct Hf as (Hd & Ht). apply sims_named, sims_answer; [done|]. unfold dbfs_fuse_create.
    destruct (negb _); [by apply sims_fail|]. rewrite from_bits_w16. apply sims_now; [done|done|]. intros t Hok.
    apply sims_bind; [by apply create_sims|]. intros x w' a' _ _ Hs'. by apply sims_lift.
  - apply sims_answer, sims_now; [done|done|]. intros t Ht. by apply fallocate_sims.
  - destruct Hf as (Hi & Hj & Hsh & Hlen & Hlim). apply sims_answer, sims_now; [done|done|]. intros t Ht.
    apply copy_sims; try done; apply w64_range.
Qed.
End serve.
