(* ===== verification/Session.v ===== *)
(** * Sessions: the tree the daemon keeps, request by request

    [Serve] says what every request does to the tree. This file follows runs
    of requests: the daemon and the specification [t_serve] side by side
    ([daemon_refines_tree]), and the invariant of the tree from the first start
    on ([sessions_keep_tree]). Not every request keeps the tree well formed: a
    rename onto a name in use and nodes of the types block device and socket
    break it, and the code leaves some checks to the kernel's VFS layer;
    [tidy] names the requests the invariant is for. *)

From S2P Require Import Prelude Bytes Common Store MapDb Access Tree Layout Image Inode Dir Rename Attr Truncate File Limits Readdir SuperBlock Fuse FuseDir FuseOps Serve.

(** ** Runs *)

(** Requests one after the other: the outcomes and the last state. A panic ends
    the daemon: its run is the part of the list up to there. *)
Fixpoint run {D} (serve : Request -> KRequest -> Op D Reply) (es : list (Request * KRequest))
    (w : world D) : list (outcome Reply) * world D :=
  match es with
  | [] => ([], w)
  | (req, k) :: es =>
      let '(o, w) := serve req k w in
      let '(os, w) := run serve es w in (o :: os, w)
  end.

(** The outcomes of a run and of its specification, where this says something. *)
Definition same_answers : list (Request * KRequest) -> list (outcome Reply) -> list (outcome Reply) -> Prop :=
  Forall3 (fun e o o' => described e.2 = true -> o = o').

Section spec.
Context `{SliceConfig} `{!Memory} `{!Cache}.
Implicit Types (a : world fs) (s : fs) (req : Request).

(** Every request of the run has values of their width and fits the tree it
    meets; [P] is asked of the tree and the counter it meets as well. *)
Fixpoint proper (P : fs -> Z -> KRequest -> Prop) (self : DbfsFuse) (es : list (Request * KRequest)) a : Prop :=
  match es with
  | [] => True
  | (req, k) :: es =>
      req_ok req /\ fits (w_db a) k /\ P (w_db a) (w_next a) k /\ proper P self es (t_serve self req k a).2
  end.

(** ** The requests that keep the tree *)

(** A new name in a directory with room, where there is the directory. *)
Definition room_for (s : fs) (dir : Z) (name : bytes) : Prop :=
  ~ dot name /\ entry s dir name = None /\
  forall p, f_nodes s !! dir = Some p -> node_is_dir p = true /\ n_size p + 1 < 2 ^ 64.

(** What is created: something else than a block device or a socket, under a new
    number. *)
Definition creates (s : fs) (next : Z) (dir : Z) (name : bytes) (perm : Z) : Prop :=
  room_for s dir name /\ next + 1 < 2 ^ 64 /\ file_type_of_perm perm ∉ [Some BlockDevice; Some Socket].

(** - The kernel's VFS layer looks names up before it asks for a change: it
      creates and links under names that are free, removes files with [unlink]
      and directories with [rmdir], never asks for [.] and [..], and writes to
      files only.
    - No counter is full: inode numbers, sizes of directories, links.
    - Left out are two kinds of requests the kernel does send: a rename onto a
      name in use, whether to replace or to exchange, and the creation of block
      devices and sockets. Nothing is asked of requests that keep the tree
      whatever they are given. *)
Definition tidy (s : fs) (next : Z) (k : KRequest) : Prop :=
  match k with
  | KMknod dir name mode _ | KCreate dir name mode _ => creates s next dir name (w16 mode)
  | KMkdir dir name mode => creates s next dir name (Perm.union (w16 mode) Perm.S_IFDIR)
  | KSymlink dir name _ => creates s next dir name (Perm.union 0x1FF Perm.S_IFLNK)
  | KUnlink dir name => ~ dot name /\ forall ino, entry s dir name = Some ino -> ~ is_dir s ino
  | KRmdir dir name => ~ dot name /\ forall ino, entry s dir name = Some ino -> is_dir s ino
  | KLink ino dir name =>
      room_for s dir name /\
      forall n, f_nodes s !! ino = Some n -> node_is_dir n = false /\ n_nlink n + 1 < 2 ^ 32
  | KRename dir name newdir newname _ => ~ dot name /\ room_for s newdir newname
  | KSetattr ino _ _ _ size _ _ => is_Some size -> ~ is_dir s ino
  | KWrite ino _ _ | KFallocate ino _ _ _ | KCopyFileRange _ _ ino _ _ => ~ is_dir s ino
  | _ => True
  end.

(** ** The invariant *)

(** The root is a directory without a parent. *)
Definition rooted (s : fs) : Prop :=
  exists n, f_nodes s !! 1 = Some n /\ node_is_dir n = true /\ n_entries n !! bs ".." = None.

(** No node is a block device or a socket. *)
Definition plain (s : fs) : Prop :=
  forall i n, f_nodes s !! i = Some n -> file_type_of_perm (n_mode n) ∉ [Some BlockDevice; Some Socket].

Record good (s : fs) : Prop := { g_wf : wf s; g_plain : plain s; g_rooted : rooted s }.

(** [below] says whether the inode counter is above the numbers in use: it is
    from the first start on, not in a daemon that was started again. *)
Record sound (below : bool) (a : world fs) : Prop := {
  so_good : good (w_db a);
  so_below : below = true -> forall i, is_Some (f_nodes (w_db a) !! i) -> i < w_next a }.

(** Every field of every node has its width: part of what a database can stand
    for. *)
Definition nodes_ok (s : fs) : Prop := forall i n, f_nodes s !! i = Some n -> node_ok n.
End spec.

(** ** Each operation keeps the invariant *)

Create HintDb good.

Section good.
Context `{SliceConfig} `{!Memory}.
Implicit Types (s : fs) (n p : node).

(** A change of a node that makes no node of another type and gives no parent. *)
Definition place_kept (g : node -> node) (n : node) : Prop :=
  file_type_of_perm (n_mode (g n)) = file_type_of_perm (n_mode n) /\
  (n_entries n !! bs ".." = None -> n_entries (g n) !! bs ".." = None).

Lemma plain_upd i g s :
  (forall n, f_nodes s !! i = Some n -> place_kept g n) -> plain s -> plain (upd i g s).
Proof.
  intros Hg Hs j m. rewrite upd_lookup. destruct (f_nodes s !! j) as [n|] eqn:En; [|done]. cbn.
  intros [= <-]. case_decide as E; [subst|by apply (Hs j)]. rewrite (proj1 (Hg n En)). by apply (Hs i).
Qed.

Lemma type_is_dir n m : file_type_of_perm (n_mode n) = file_type_of_perm (n_mode m) -> node_is_dir n = node_is_dir m.
Proof. unfold node_is_dir. by intros ->. Qed.

Lemma rooted_upd i g s :
  (forall n, f_nodes s !! i = Some n -> place_kept g n) -> rooted s -> rooted (upd i g s).
Proof.
  intros Hg (n & Hn & Hd & He). unfold rooted. rewrite upd_lookup, Hn. cbn [fmap option_fmap option_map].
  destruct (decide (1 = i)) as [<-|]; [|by exists n].
  destruct (Hg n Hn) as [Hgd Hge]. exists (g n). rewrite (type_is_dir _ _ Hgd). auto.
Qed.

Lemma plain_remove i s : plain s -> plain (remove_node i s).
Proof. intros Hs j n Hj. cbn in Hj. apply lookup_delete_Some in Hj as [_ Hj]. by apply (Hs j). Qed.

Lemma rooted_remove i s : i <> 1 -> rooted s -> rooted (remove_node i s).
Proof. intros Hi (n & Hn & Hx). exists n. cbn. by rewrite lookup_delete_ne. Qed.

Lemma plain_add i n s :
  file_type_of_perm (n_mode n) ∉ [Some BlockDevice; Some Socket] -> plain s -> plain (add_node i n s).
Proof. intros Hn Hs j m Hj. cbn in Hj. apply lookup_insert_Some in Hj as [[_ <-]|[_ Hj]]; [done|by apply (Hs j)]. Qed.

Lemma rooted_add i n s : f_nodes s !! i = None -> rooted s -> rooted (add_node i n s).
Proof.
  intros Hi (r & Hr & Hx). exists r. cbn. rewrite lookup_insert_ne; [done|congruence].
Qed.

Lemma enter_kept name ino t n : ~ dot name -> place_kept (enter name ino t) n.
Proof.
  intros Hdot. split; [done|]. cbn. intros He. rewrite lookup_insert_ne; [done|].
  intros E. apply Hdot. by right.
Qed.

Lemma leave_kept name t n : place_kept (leave name t) n.
Proof. split; [done|]. cbn. intros He. by apply lookup_delete_None; right. Qed.

Lemma shift_kept old new ino t n : ~ dot new -> place_kept (shift_entry old new ino t) n.
Proof.
  intros Hdot. split; [done|]. cbn. intros He. rewrite lookup_insert_ne.
  - by apply lookup_delete_None; right.
  - intros E. apply Hdot. by right.
Qed.

(** No entry but its own names the root. *)
Lemma root_unnamed s dir name :
  good s -> ~ dot name -> entry s dir name <> Some 1.
Proof.
  intros [Hwf _ (n & Hn & Hd & He)] Hdot E.
  pose proof (wf_down _ Hwf dir name 1 E Hdot ltac:(by exists n)) as Hup.
  unfold entry in Hup. rewrite Hn in Hup. cbn [mbind option_bind] in Hup. congruence.
Qed.

#[local] Hint Resolve rooted_upd plain_upd enter_kept leave_kept shift_kept plain_remove rooted_remove : good.
#[local] Hint Extern 2 (place_kept _ _) => (by split) : good.

(** An update of a node that keeps its place. *)
Lemma good_upd i g s :
  good s ->
  (forall n, f_nodes s !! i = Some n ->
    n_entries (g n) = n_entries n /\ n_nlink (g n) = n_nlink n /\
    file_type_of_perm (n_mode (g n)) = file_type_of_perm (n_mode n) /\
    (node_is_dir n = true -> n_size (g n) = n_size n)) ->
  good (upd i g s).
Proof.
  intros [Hwf Hpl Hroot] Hg.
  assert (Hk : forall n, f_nodes s !! i = Some n -> place_kept g n).
  { intros n (He & _ & Ht & _)%Hg. split; [done|by rewrite He]. }
  split; [|by apply plain_upd|by apply rooted_upd]. apply wf_upd_attr; [done|].
  intros n (He & Hl & Ht & Hz)%Hg. split_and!; try done. by apply type_is_dir.
Qed.

Lemma good_free z s : good s -> good (set_free z s).
Proof. intros [Hwf Hpl Hroot]. split; [by apply wf_set_free|exact Hpl|exact Hroot]. Qed.

Lemma plain_kinds kind : Some kind ∈ [Some BlockDevice; Some Socket] <-> kind ∈ [BlockDevice; Socket].
Proof.
  change [Some BlockDevice; Some Socket] with (Some <$> [BlockDevice; Socket]). rewrite list_elem_of_fmap.
  split; [by intros (y & [= ->] & Hy)|by exists kind].
Qed.

Lemma plain_kind kind : Some kind ∉ [Some BlockDevice; Some Socket] -> kind ∉ [BlockDevice; Socket].
Proof. by rewrite plain_kinds. Qed.

Lemma good_create kind new dir name uid gid t bits target dev s n s' :
  good s -> nodes_ok s -> room_for s dir name -> 0 <= bits < 2 ^ 12 ->
  file_type_of_perm (Z.lor (type_bits kind) bits) ∉ [Some BlockDevice; Some Socket] ->
  t_create kind new dir name uid gid t bits target dev s = Ok (n, s') -> good s'.
Proof.
  intros [Hwf Hpl Hroot] Hok (Hdot & Hfree & Hroom) Hb Hkind
    (p & Hp & Hnone & _ & -> & ->)%t_create_inv.
  destruct (Hroom p Hp) as [Hpd Hsz]. pose proof (ok_size _ (Hok _ _ Hp)) as Hps.
  rewrite file_type_type_bits in Hkind by done.
  apply plain_kind in Hkind.
  set (n := new_node _ _ _ _ _ _ _ _ _).
  assert (Hft : file_type_of_perm (n_mode n) = Some kind).
  { cbn. rewrite file_type_create_mode. by apply file_type_type_bits. }
  split.
  - eapply (wf_create s new dir p n name); try done.
    + cbn. apply w64_small. unfold is_u64 in *. lia.
    + by apply new_node_shape.
  - apply plain_add; [by rewrite Hft; intros ?%plain_kinds|]. eauto with good.
  - apply rooted_add; [by rewrite upd_lookup, Hnone|]. eauto with good.
Qed.

Lemma good_unlink uid gid dir name t s u s' :
  good s -> nodes_ok s -> ~ dot name -> (forall ino, entry s dir name = Some ino -> ~ is_dir s ino) ->
  t_unlink_op uid gid dir name None t s = Ok (u, s') -> good s'.
Proof.
  intros Hg Hok Hdot Hfile E. pose proof Hg as [Hwf Hpl Hroot]. unfold t_unlink_op in E.
  destruct (f_nodes s !! dir) as [p|] eqn:Hp; [|done].
  destruct (n_entries p !! name) as [ino|] eqn:He; [|done]. cbn [default from_option id] in E.
  destruct (negb _); [done|]. destruct (f_nodes s !! ino) as [n|] eqn:Hn; [|done].
  destruct (sticky_denies _ _ _ _); [done|]. injection E as _ <-.
  assert (Hent : entry s dir name = Some ino) by (unfold entry; by rewrite Hp).
  assert (Hnd : node_is_dir n = false).
  { destruct (node_is_dir n) eqn:Ed; [|done]. destruct (Hfile ino Hent). by exists n. }
  assert (Hi : ino <> 1) by (intros ->; by apply (root_unnamed s dir name Hg Hdot)).
  assert (Hl : plain (upd dir (leave name t) s) /\ rooted (upd dir (leave name t) s)) by eauto with good.
  destruct Hl as [Hl1 Hl2]. split.
  - by apply (t_unlink_wf s dir ino name p n t Hwf (Hok _ _ Hp) (Hok _ _ Hn)).
  - unfold t_unlink. destruct (_ =? _); eauto with good.
  - unfold t_unlink. destruct (_ =? _); eauto with good.
Qed.

Lemma good_rmdir uid gid dir name t s u s' :
  good s -> nodes_ok s -> ~ dot name -> (forall ino, entry s dir name = Some ino -> is_dir s ino) ->
  t_rmdir_op uid gid dir name t s = Ok (u, s') -> good s'.
Proof.
  intros Hg Hok Hdot Hdir E. pose proof Hg as [Hwf Hpl Hroot]. unfold t_rmdir_op in E.
  destruct (f_nodes s !! dir) as [p|] eqn:Hp; [|done].
  destruct (n_entries p !! name) as [ino|] eqn:He; [|done].
  destruct (f_nodes s !! ino) as [n|] eqn:Hn; [|done].
  destruct (Z.ltb_spec 2 (n_size n)) as [|Hsz]; [done|]. destruct (negb _); [done|].
  destruct (sticky_denies _ _ _ _); [done|]. injection E as _ <-.
  assert (Hent : entry s dir name = Some ino) by (unfold entry; by rewrite Hp).
  assert (Hnd : node_is_dir n = true) by (destruct (Hdir ino Hent) as (n' & Hn' & Hd); congruence).
  assert (Hi : ino <> 1) by (intros ->; by apply (root_unnamed s dir name Hg Hdot)).
  split; [|eauto with good..].
  eapply (wf_rmdir s dir ino p n name (leave name t)); try done.
  by apply (leave_size s dir p name name ino t Hwf (Hok _ _ Hp) Hp Hent).
Qed.

Lemma good_link ino dir name t s p :
  good s -> nodes_ok s -> room_for s dir name -> f_nodes s !! dir = Some p ->
  (forall n, f_nodes s !! ino = Some n -> node_is_dir n = false /\ n_nlink n + 1 < 2 ^ 32) ->
  is_Some (f_nodes s !! ino) -> good (t_link ino dir name t s).
Proof.
  intros [Hwf Hpl Hroot] Hok (Hdot & Hfree & Hroom) Hp Hlink [n Hn].
  destruct (Hroom p Hp) as [Hpd Hsz]. destruct (Hlink n Hn) as [Hnd Hnl]. split.
  - by apply (t_link_wf s ino dir name t p n Hwf (Hok _ _ Hp) (Hok _ _ Hn)).
  - unfold t_link. apply plain_upd; [by split|]. eauto with good.
  - unfold t_link. apply rooted_upd; [by split|]. eauto with good.
Qed.

(** Without block devices and sockets only directories have the bit of
    directories. *)
Lemma plain_dir_mode n :
  node_ok n -> file_type_of_perm (n_mode n) ∉ [Some BlockDevice; Some Socket] ->
  is_dir_mode (n_mode n) = node_is_dir n.
Proof.
  intros Hok Ht. unfold node_is_dir. destruct (ok_type _ Hok) as [ty Hty]. rewrite Hty in Ht.
  unfold is_dir_mode. rewrite Perm.from_bits_truncate_u16 by apply (ok_mode _ Hok).
  destruct (Perm.contains (n_mode n) Perm.S_IFDIR) eqn:Ed.
  2: { symmetry. apply bool_decide_eq_false. unfold file_type_of_perm. rewrite Ed.
       by repeat case_match. }
  symmetry. apply bool_decide_eq_true. unfold file_type_of_perm in *.
  destruct (Perm.contains (n_mode n) Perm.S_IFSOCK) eqn:Es.
  { injection Hty as <-. destruct Ht. right. left. }
  assert (Hx : forall f, Perm.contains (n_mode n) f = true -> Z.testbit f 15 = true -> False).
  { intros f Hf Hb. enough (Perm.contains (n_mode n) Perm.S_IFSOCK = true) by congruence.
    apply Perm.contains_spec. intros i Hi Hbit. change Perm.S_IFSOCK with (Z.lor (2 ^ 15) (2 ^ 14)) in Hbit.
    rewrite Z.lor_spec, !testbit_pow2_eqb in Hbit by lia. rewrite Perm.contains_spec in Hf, Ed.
    destruct (Z.eqb_spec 15 i) as [<-|]; [by apply Hf|]. destruct (Z.eqb_spec 14 i) as [<-|]; [|done].
    by apply Ed. }
  destruct (Perm.contains (n_mode n) Perm.S_IFLNK) eqn:El; [by destruct (Hx _ El)|].
  destruct (Perm.contains (n_mode n) Perm.S_IFREG) eqn:Er; [by destruct (Hx _ Er)|].
  destruct (Perm.contains (n_mode n) Perm.S_IFBLK) eqn:Eb; [|by rewrite Ed].
  injection Hty as <-. destruct Ht. left.
Qed.

Lemma move_place new_dir t n :
  node_ok n -> file_type_of_perm (n_mode n) ∉ [Some BlockDevice; Some Socket] ->
  node_is_dir n = false -> place_kept (moved new_dir t) n.
Proof. intros Hok Ht Hd. unfold moved, place_kept. by rewrite plain_dir_mode, Hd. Qed.

Lemma good_move dir name newdir newname ino t s p q n :
  good s -> nodes_ok s -> ~ dot name -> room_for s newdir newname ->
  f_nodes s !! dir = Some p -> f_nodes s !! newdir = Some q -> f_nodes s !! ino = Some n ->
  entry s dir name = Some ino -> ino <> dir -> ino <> newdir ->
  good (t_move dir newdir name newname ino t s).
Proof.
  intros Hg Hok Hdo (Hdn & Hfree & Hroom) Hp Hq Hn He Hno Hnn. pose proof Hg as [Hwf Hpl Hroot].
  destruct (Hroom q Hq) as [Hqd Hsz]. pose proof (plain_dir_mode n (Hok _ _ Hn) (Hpl _ _ Hn)) as Hm.
  assert (Hs : plain (t_shift dir newdir name newname ino t s) /\ rooted (t_shift dir newdir name newname ino t s)).
  { unfold t_shift. destruct (decide _); split; eauto 10 with good. }
  destruct Hs as [Hs1 Hs2]. split.
  - by apply (t_move_wf s dir newdir p q name newname ino n t Hwf (Hok _ _ Hp) (Hok _ _ Hq)).
  - intros i m Hi. unfold t_move in Hi. rewrite upd_lookup in Hi.
    destruct (f_nodes (t_shift _ _ _ _ _ _ s) !! i) as [m0|] eqn:E0; [|done]. injection Hi as <-.
    pose proof (Hs1 _ _ E0) as Hx. case_decide; [|exact Hx]. unfold moved. destruct (is_dir_mode (n_mode m0)); exact Hx.
  - assert (Hi : ino <> 1) by (intros ->; by apply (root_unnamed s dir name Hg Hdo)).
    destruct Hs2 as (r & Hr & Hx). exists r. unfold t_move. by rewrite upd_lookup_ne by done.
Qed.

Lemma good_rename uid gid dir name newdir newname flags t s u s' :
  good s -> nodes_ok s -> ~ dot name -> room_for s newdir newname ->
  rename_apart s dir name newdir newname ->
  t_rename uid gid dir name newdir newname flags t s = Ok (u, s') -> good s'.
Proof.
  intros Hg Hok Hdot Hroom Hap E. unfold t_rename in E.
  destruct (t_rename_old uid gid dir name s) as [[ino n]| |] eqn:Eo; [|done..].
  destruct (t_rename_old_inv _ _ _ _ _ _ _ Eo) as (p & Hp & He & Hn). cbn [mbind outcome_bind] in E.
  destruct (t_rename_new uid gid newdir newname s) as [found| |] eqn:En; [|done..].
  destruct (t_rename_new_inv _ _ _ _ _ _ En) as (q & Hq & Hnot & _). cbn [mbind outcome_bind] in E.
  assert (Hent : entry s dir name = Some ino) by (unfold entry; by rewrite Hp).
  destruct (Hap ino Hent) as (Hno & Hnn & _).
  assert (Hfree : n_entries q !! newname = None).
  { destruct Hroom as (_ & Hfree & _). unfold entry in Hfree. by rewrite Hq in Hfree. }
  rewrite (noticed_free q newname Hfree) in Hnot. destruct found; [done|]. unfold t_guard in E.
  destruct (Z.land flags _ =? 0); [|done]. cbn [mbind outcome_bind] in E.
  destruct (negb (is_dir_mode (n_mode n) && _ && _)); [|done]. injection E as _ <-.
  by apply (good_move dir name newdir newname ino t s p q n).
Qed.

Lemma good_truncate ino t f_size n s s' :
  good s -> f_nodes s !! ino = Some n -> node_is_dir n = false ->
  t_truncate ino t f_size n s = Ok s' -> good s'.
Proof.
  intros Hg Hn Hd E. unfold t_truncate in E.
  assert (Hx : forall z g, (forall m, n_entries (g m) = n_entries m /\ n_nlink (g m) = n_nlink m /\
      file_type_of_perm (n_mode (g m)) = file_type_of_perm (n_mode m)) -> good (upd ino g (set_free z s))).
  { intros z g Hgm. apply good_upd; [by apply good_free|]. intros m Hm. cbn in Hm.
    destruct (Hgm m) as (?&?&?). split_and!; try done. intros. congruence. }
  destruct (_ <? _); [destruct (_ <? _); [done|]|]; injection E as <-; apply Hx; intros m;
    (split; [done|]); (split; [done|]); apply file_type_clear_suid.
Qed.

Lemma good_fallocate uid gid ino offset size mode t s u s' :
  good s -> ~ is_dir s ino ->
  t_fallocate uid gid ino offset size mode t s = Ok (u, s') -> good s'.
Proof.
  intros Hg Hd E. unfold t_fallocate in E. destruct (f_nodes s !! ino) as [n|] eqn:Hn; [|done].
  destruct (negb _); [done|]. cbv zeta in E. destruct (_ <? _); [done|].
  destruct (Z.land _ _ =? 0); injection E as _ <-; [|by apply good_free].
  apply good_upd; [by apply good_free|]. intros m Hm. cbn in Hm. split_and!; try done.
  intros Hmd. destruct Hd. by exists m.
Qed.

(** The times, owners, modes and extended attributes of any node. *)
Lemma good_meta i g s :
  good s ->
  (forall n, f_nodes s !! i = Some n -> n_entries (g n) = n_entries n /\ n_nlink (g n) = n_nlink n /\
    n_size (g n) = n_size n /\ file_type_of_perm (n_mode (g n)) = file_type_of_perm (n_mode n)) ->
  good (upd i g s).
Proof. intros Hs Hg. apply good_upd; [done|]. intros n (?&?&?&?)%Hg. by split_and!. Qed.

Lemma good_write ino data offset s :
  good s -> ~ is_dir s ino -> good (upd ino (t_write data offset) s).
Proof.
  intros Hg Hd. apply good_upd; [done|]. intros m Hm. split_and!; try done.
  intros Hmd. destruct Hd. by exists m.
Qed.
End good.

(** ** The specification keeps the invariant *)

Section ends.
Implicit Types (a : world fs) (P : world fs -> Prop).

(** [P] holds of the state [m] ends in, whatever it returns. *)
Definition ends {A} P (m : Op fs A) a : Prop := P (m a).2.

Lemma ends_bind {A B} P (m : Op fs A) (f : A -> Op fs B) a :
  ends P m a -> (forall x a', m a = (Ok x, a') -> P a' -> ends P (f x) a') -> ends P (m ≫= f) a.
Proof.
  unfold ends, mbind, op_bind. intros Hm Hf. destruct (m a) as [[x| |] a'] eqn:E; [|done|done].
  by apply Hf.
Qed.

(** A first step that only computes. *)
Lemma ends_pure {A B} P (o : outcome A) (f : A -> Op fs B) a :
  P a -> (forall x, ends P (f x) a) -> ends P (op_lift o ≫= f) a.
Proof. unfold ends, mbind, op_bind, op_lift. intros Ha Hf. by destruct o. Qed.

Lemma ends_answer {A} P (m : Op fs A) ok err a : ends P m a -> ends P (answer m ok err) a.
Proof. unfold ends, answer. by destruct (m a) as [[]]. Qed.

Lemma ends_try {A} P (m : Op fs A) a : ends P m a -> ends P (op_try m) a.
Proof. unfold ends, op_try. by destruct (m a) as [[]]. Qed.

Lemma ends_named P name m a : P a -> ends P m a -> ends P (named name m) a.
Proof. intros Ha Hm. by apply ends_pure. Qed.

Lemma ends_tx {A} P (f : fs -> outcome (A * fs)) a :
  P a -> (forall x s', f (w_db a) = Ok (x, s') -> P (set_db a s')) -> ends P (t_tx f) a.
Proof. unfold ends, t_tx. intros Ha Hf. destruct (f (w_db a)) as [[x s']| |]; [by eapply Hf|done..]. Qed.

Lemma ends_given P req i t {B} (f : option DbfsTimeSpec -> Op fs B) a :
  P a -> (forall x, ends P (f x) a) -> ends P (time_or_now req i t ≫= f) a.
Proof.
  intros Ha Hf. apply ends_bind; [|intros; subst].
  - unfold time_or_now. destruct t as [[|t]|]; [by apply ends_pure..|done].
  - unfold time_or_now in *. destruct t as [[|t]|].
    + unfold now, op_unwrap, mbind, op_bind, op_lift in *. destruct (unwrap _) in H; [|done..].
      injection H as _ <-. apply Hf.
    + unfold op_unwrap, mbind, op_bind, op_lift in *. destruct (unwrap _) in H; [|done..].
      injection H as _ <-. apply Hf.
    + injection H as _ <-. apply Hf.
Qed.
End ends.

Section keeps.
Context `{SliceConfig} `{!Memory} `{!Cache}.
Implicit Types (a : world fs) (s : fs) (req : Request).

(** Every number of [s'] is one of [s]. *)
Definition sub (s' s : fs) : Prop := forall i, is_Some (f_nodes s' !! i) -> is_Some (f_nodes s !! i).

Lemma sub_refl s : sub s s.
Proof. by intros i. Qed.

Lemma sub_upd i g s s' : sub s' s -> sub (upd i g s') s.
Proof. intros Hs j. rewrite upd_lookup, fmap_is_Some. apply Hs. Qed.

Lemma sub_remove i s s' : sub s' s -> sub (remove_node i s') s.
Proof. intros Hs j [n Hn]. cbn in Hn. apply lookup_delete_Some in Hn as [_ Hn]. apply Hs. by eexists. Qed.

Lemma sub_free z s s' : sub s' s -> sub (set_free z s') s.
Proof. intros Hs. exact Hs. Qed.

Hint Resolve sub_refl sub_upd sub_remove sub_free : good.

(** The tree changes and has no new numbers. *)
Lemma sound_db below a s' : sound below a -> good s' -> sub s' (w_db a) -> sound below (set_db a s').
Proof. intros [_ Hb] Hg Hsub. split; [done|]. intros E i Hi. by apply Hb, Hsub. Qed.

Lemma sub_unlink uid gid dir name ino t s u s' :
  t_unlink_op uid gid dir name ino t s = Ok (u, s') -> sub s' s.
Proof.
  unfold t_unlink_op, t_unlink. intros E. repeat case_match; try done; injection E as _ <-; eauto with good.
Qed.

Lemma sub_rmdir uid gid dir name t s u s' : t_rmdir_op uid gid dir name t s = Ok (u, s') -> sub s' s.
Proof. unfold t_rmdir_op. intros E. repeat case_match; try done; injection E as _ <-; eauto with good. Qed.

Lemma sub_move dir newdir name newname ino t s : sub (t_move dir newdir name newname ino t s) s.
Proof. unfold t_move, t_shift. destruct (decide _); eauto with good. Qed.

Lemma sub_rename uid gid dir name newdir newname flags t s u s' :
  t_rename uid gid dir name newdir newname flags t s = Ok (u, s') ->
  (forall q, f_nodes s !! newdir = Some q -> noticed q newname = None) -> sub s' s.
Proof.
  unfold t_rename. intros E Hno. destruct (t_rename_old _ _ _ _ s) as [[ino n]| |]; [|done..].
  cbn [mbind outcome_bind] in E. destruct (t_rename_new _ _ _ _ s) as [found| |] eqn:En; [|done..].
  destruct (t_rename_new_inv _ _ _ _ _ _ En) as (q & Hq & Hnot & _). rewrite (Hno q Hq) in Hnot.
  destruct found; [done|]. cbn [mbind outcome_bind] in E. unfold t_guard in E.
  destruct (Z.land flags _ =? 0); [|done]. cbn [mbind outcome_bind] in E.
  destruct (negb (is_dir_mode (n_mode n) && _ && _)); [|done]. injection E as _ <-. apply sub_move.
Qed.

Lemma sub_truncate ino t f_size n s s' : t_truncate ino t f_size n s = Ok s' -> sub s' s.
Proof.
  unfold t_truncate. intros E. destruct (_ <? _); [destruct (_ <? _); [done|]|]; injection E as <-;
    eauto with good.
Qed.

Lemma sub_fallocate uid gid ino offset size mode t s u s' :
  t_fallocate uid gid ino offset size mode t s = Ok (u, s') -> sub s' s.
Proof.
  unfold t_fallocate. intros E. destruct (f_nodes s !! ino); [|done]. destruct (negb _); [done|].
  cbv zeta in E. destruct (_ <? _); [done|]. destruct (Z.land _ _ =? 0); injection E as _ <-; eauto with good.
Qed.

Lemma sound_meta below a i g :
  sound below a ->
  (forall n, f_nodes (w_db a) !! i = Some n -> n_entries (g n) = n_entries n /\ n_nlink (g n) = n_nlink n /\
    n_size (g n) = n_size n /\ file_type_of_perm (n_mode (g n)) = file_type_of_perm (n_mode n)) ->
  sound below (set_db a (upd i g (w_db a))).
Proof.
  intros Hs Hg. apply sound_db; [done| |eauto with good]. apply good_meta; [apply Hs|done].
Qed.

(** *** Creation *)

Lemma sound_create below req dir name perm target dev t a :
  sound below a -> nodes_ok (w_db a) -> 0 <= w_next a -> typed perm target dev ->
  creates (w_db a) (w_next a) dir name perm ->
  ends (sound below) (t_create_op dir name (req_uid req) (req_gid req) t perm target dev) a.
Proof.
  intros [Hg Hb] Hok Hpos (kind & bits & Hbits & -> & _) (Hroom & Hnext & Hkind).
  unfold t_create_op. rewrite kind_bits_type by done.
  assert (E : fetch_next a = (Ok (w_next a), set_next a (w_next a + 1))).
  { unfold fetch_next. by rewrite w64_small by (unfold is_u64; lia). }
  assert (Hnx : sound below (set_next a (w_next a + 1))).
  { split; [done|]. intros Eb i Hi. specialize (Hb Eb i Hi). cbn. lia. }
  unfold ends. erewrite op_bind_ok by exact E. fold (ends (sound below)
    (n ← t_tx (t_create kind (w_next a) dir name (req_uid req) (req_gid req) t bits target dev);
     mret (created_attr (w_next a) kind t n)) (set_next a (w_next a + 1))).
  apply ends_bind; [|intros x a' _ Ha; exact Ha]. apply ends_tx; [done|]. intros n s' Ec. cbn in Ec.
  split.
  - by eapply (good_create kind); [exact Hg|exact Hok|exact Hroom|exact Hbits|exact Hkind|exact Ec].
  - intros Eb i Hi. cbn. apply t_create_inv in Ec as (p & _ & _ & _ & _ & ->).
    destruct (decide (i = w_next a)) as [->|Hne]; [lia|]. cbn in Hi.
    rewrite lookup_insert_ne in Hi by done.
    specialize (Hb Eb i (sub_upd _ _ _ _ (sub_refl _) i Hi)). lia.
Qed.

(** *** Attributes *)

Lemma sound_chmod below uid gid ino mode t a :
  sound below a -> nodes_ok (w_db a) -> ends (sound below) (t_tx (t_chmod uid gid ino mode t)) a.
Proof.
  intros Hs Hok. apply ends_tx; [done|]. intros x s' E. unfold t_chmod, t_node, t_guard in E.
  destruct (f_nodes (w_db a) !! ino) as [n|] eqn:Hn; [|done]. cbn [mbind outcome_bind] in E.
  destruct (t_attr ino _) as [at_| |]; [|done..]. cbn [mbind outcome_bind] in E.
  destruct (_ || _); [|done]. cbn [mbind outcome_bind] in E.
  destruct (_ =? n_mode n); injection E as _ <-; [by destruct a|]. apply sound_meta; [done|].
  intros m Hm. rewrite Hn in Hm. injection Hm as <-. split_and!; try done. cbn.
  apply chmod_mode_type, (Hok _ _ Hn).
Qed.

Lemma sound_chown below uid gid ino new_uid new_gid t a :
  sound below a -> nodes_ok (w_db a) -> ends (sound below) (t_tx (t_chown uid gid ino new_uid new_gid t)) a.
Proof.
  intros Hs Hok. apply ends_tx; [done|]. intros x s' E. unfold t_chown, t_node, t_guard in E.
  destruct (f_nodes (w_db a) !! ino) as [n|] eqn:Hn; [|done]. cbn [mbind outcome_bind] in E.
  destruct (t_attr ino _) as [at_| |]; [|done..]. cbn [mbind outcome_bind] in E.
  destruct (negb _); [|done]. injection E as _ <-. apply sound_meta; [done|].
  intros m Hm. rewrite Hn in Hm. injection Hm as <-. split_and!; try done. cbn.
  apply chown_mode_type, (Hok _ _ Hn).
Qed.

Lemma sound_utimens below uid gid ino atime mtime t a :
  sound below a -> ends (sound below) (t_tx (t_utimens uid gid ino atime mtime t)) a.
Proof.
  intros Hs. apply ends_tx; [done|]. intros x s' E. unfold t_utimens, t_node, t_guard in E.
  destruct (f_nodes (w_db a) !! ino) as [n|] eqn:Hn; [|done]. cbn [mbind outcome_bind] in E.
  destruct (t_attr ino _) as [at_| |]; [|done..]. cbn [mbind outcome_bind] in E.
  destruct (_ || (_ =? 0)); [|done]. cbn [mbind outcome_bind] in E.
  destruct (_ || t_may_write _ _ _); [|done]. injection E as _ <-. apply sound_meta; [done|].
  intros m _. by destruct atime, mtime.
Qed.

Lemma sound_truncate below uid gid ino f_size t a :
  sound below a -> ~ is_dir (w_db a) ino ->
  ends (sound below) (t_tx (t_truncate_op uid gid ino f_size t)) a.
Proof.
  intros Hs Hd. apply ends_tx; [done|]. intros x s' E. unfold t_truncate_op, t_node, t_guard in E.
  destruct (f_nodes (w_db a) !! ino) as [n|] eqn:Hn; [|done]. cbn [mbind outcome_bind] in E.
  destruct (t_attr ino _) as [at_| |]; [|done..]. cbn [mbind outcome_bind] in E.
  destruct (t_may_write _ _ n); [|done]. cbn [mbind outcome_bind] in E.
  destruct (t_truncate ino t f_size n (w_db a)) as [s1| |] eqn:Et; [|done..]. injection E as _ <-.
  apply sound_db; [done| |by eapply sub_truncate]. eapply good_truncate; [apply Hs|exact Hn| |exact Et].
  destruct (node_is_dir n) eqn:Ed; [|done]. destruct Hd. by exists n.
Qed.

(** *** Contents *)

Lemma sound_write below ino data offset a :
  sound below a -> ~ is_dir (w_db a) ino -> ends (sound below) (t_tx (t_write_op ino data offset)) a.
Proof.
  intros Hs Hd. apply ends_tx; [done|]. intros x s' E. unfold t_write_op, t_node in E.
  destruct (f_nodes (w_db a) !! ino) as [n|] eqn:Hn; [|done]. injection E as _ <-.
  apply sound_db; [done| |eauto with good]. apply good_write; [apply Hs|done].
Qed.

Lemma sound_copy below src offset_src ino offset len t a :
  sound below a -> ~ is_dir (w_db a) ino ->
  ends (sound below) (t_copy src offset_src ino offset len t) a.
Proof.
  intros Hs Hd. unfold t_copy. apply ends_bind; [done|]. intros n a1 E1 _.
  assert (a1 = a) as -> by (unfold t_look in E1; congruence).
  apply ends_bind; [done|]. intros [size buf] a1 E2 _.
  assert (a1 = a) as -> by (unfold t_look in E2; congruence).
  apply ends_pure; [done|]. intros data. apply ends_bind; [by apply sound_write|].
  intros written a2 _ Hs2. apply ends_bind; [|intros ? ? _ Ha; exact Ha].
  apply ends_tx; [done|]. intros x s' [= _ <-]. by apply sound_meta.
Qed.

(** *** All requests *)

Lemma sound_setattr below self req ino mode uid gid size atime mtime a :
  let k := KSetattr ino mode uid gid size atime mtime in
  sound below a -> nodes_ok (w_db a) -> tidy (w_db a) (w_next a) k ->
  ends (sound below) (t_serve self req k) a.
Proof.
  intros k Hs Hok Hk. unfold k. cbn [t_serve]. destruct mode as [mode|].
  { apply ends_answer, ends_pure; [done|]. intros t. by apply sound_chmod. }
  destruct (_ || _).
  { apply ends_answer, ends_pure; [done|]. intros t. by apply sound_chown. }
  assert (Hut : forall ok err, ends (sound below) (answer (x ← time_or_now req 0 atime; m ← time_or_now req 1 mtime;
    t ← now req 2; t_tx (t_utimens (req_uid req) (req_gid req) ino x m t)) ok err) a).
  { intros ok err. apply ends_answer, ends_given; [done|]. intros x. apply ends_given; [done|]. intros m.
    apply ends_pure; [done|]. intros t. by apply sound_utimens. }
  destruct size as [size|].
  { apply ends_answer, ends_pure; [done|]. intros t. apply sound_truncate; [done|]. apply Hk. by eexists. }
  destruct atime, mtime; [apply Hut..|done].
Qed.

Lemma serve_sound below self req k a :
  sound below a -> nodes_ok (w_db a) -> 0 <= w_next a -> fits (w_db a) k -> tidy (w_db a) (w_next a) k ->
  sound below (t_serve self req k a).2.
Proof.
  intros Hs Hok Hpos Hf Hk. pose proof (so_good _ _ Hs) as Hg.
  fold (ends (sound below) (t_serve self req k) a).
  destruct k; try done; try (by apply sound_setattr); cbn [t_serve] in *; cbn [fits tidy] in Hf, Hk.
  - apply ends_named, ends_answer; [done|]. destruct (_ <? _); [done|]. apply ends_bind; [done|].
    intros x a' _ Ha. exact Ha.
  - apply ends_answer, ends_bind; [done|]. intros x a' _ Ha. exact Ha.
  - apply ends_answer, ends_bind; [done|]. intros [x buf] a' _ Ha. exact Ha.
  - destruct Hf as (_ & _ & Hty). apply ends_named, ends_answer, ends_pure; [done..|]. intros t.
    by apply sound_create.
  - destruct Hf as (_ & Hty). apply ends_named, ends_answer, ends_pure; [done..|]. intros t.
    apply ends_bind; [by apply ends_try, sound_create|]. intros [x|] a' _ Ha; [|done].
    apply ends_pure; [exact Ha|]. intros y. exact Ha.
  - apply ends_named, ends_answer, ends_pure; [done..|]. intros t. apply ends_tx; [done|]. intros x s' E.
    destruct Hk as [Hdot Hfile]. apply sound_db; [done|by eapply good_unlink|by eapply sub_unlink].
  - apply ends_named, ends_answer, ends_pure; [done..|]. intros t. apply ends_tx; [done|]. intros x s' E.
    destruct Hk as [Hdot Hdir]. apply sound_db; [done|by eapply good_rmdir|by eapply sub_rmdir].
  - apply ends_named, ends_named, ends_answer; [done..|]. destruct (_ <? _); [done|].
    apply ends_pure; [done|]. intros t. apply sound_create; [done|done|done| |done].
    exists Symlink, 0x1FF. split_and!; try done; by intros [?|?].
  - destruct Hf as (_ & _ & Hap). destruct Hk as [Hdot Hroom].
    apply ends_named, ends_named, ends_answer, ends_pure; [done..|]. intros t. apply ends_tx; [done|].
    intros x s' E. apply sound_db; [done|by eapply good_rename|]. eapply sub_rename; [exact E|].
    intros q Hq. apply noticed_free. destruct Hroom as (_ & Hfree & _). unfold entry in Hfree.
    by rewrite Hq in Hfree.
  - destruct Hk as [Hroom Hlink]. apply ends_named, ends_answer; [done|]. destruct (_ <? _); [done|].
    apply ends_pure; [done|]. intros t. apply ends_tx; [done|]. intros x s' E.
    unfold t_link_op, t_node, t_guard in E.
    destruct (f_nodes (w_db a) !! newparent) as [p|] eqn:Hp; [|done]. cbn [mbind outcome_bind] in E.
    destruct (t_may_write _ _ p); [|done]. cbn [mbind outcome_bind] in E.
    destruct (f_nodes (w_db a) !! ino) as [n|] eqn:Hn; [|done]. cbn [mbind outcome_bind] in E.
    destruct (t_attr ino _) as [at_| |]; [|done..]. injection E as _ <-. apply sound_db; [done| |].
    + apply (good_link ino newparent newname t (w_db a) p Hg Hok Hroom Hp); rewrite Hn; [exact Hlink|by eexists].
    + unfold t_link. eauto with good.
  - apply ends_answer. unfold ends, t_open_op. destruct (open_mask flags); [|done].
    by destruct (t_open _ _ _ _ _).
  - apply ends_pure; [done|]. intros buf. apply ends_answer, ends_pure; [done|]. by intros [].
  - apply ends_answer, ends_pure; [done|]. intros []. by apply sound_write.
  - apply ends_answer, ends_pure; [done|]. by intros mask.
  - apply ends_named, ends_answer, ends_pure; [done..|]. intros t. apply ends_tx; [done|]. intros x s' E.
    unfold t_setxattr in E. destruct (f_nodes (w_db a) !! ino) as [n|] eqn:Hn; [|done].
    destruct (node_check _ _ _ _ n); [|done..]. injection E as _ <-. by apply sound_meta.
  - by apply ends_named, ends_answer.
  - by apply ends_named, ends_answer, ends_pure.
  - by apply ends_answer.
  - destruct Hf as (_ & Hty). apply ends_named, ends_answer; [done|]. destruct (negb _); [done|].
    apply ends_pure; [done|]. intros t. apply ends_bind; [by apply sound_create|]. intros x a' _ Ha. exact Ha.
  - apply ends_answer, ends_pure; [done|]. intros t. apply ends_tx; [done|]. intros x s' E.
    apply sound_db; [done|by eapply good_fallocate|by eapply sub_fallocate].
  - apply ends_answer, ends_pure; [done|]. intros t. by apply sound_copy.
Qed.
End keeps.

(** ** The daemon beside its specification *)

Section sessions.
Context `{SliceConfig} {D : Type} `{JammDb D, !JammDbLaws D, !Reliable D}.
Context `{!Memory} `{!Cache} `{ReplyBuffers}.
Implicit Types (w : world D) (a : world fs) (s : fs) (req : Request).

Lemma stands_nodes_ok w a : stands w a -> nodes_ok (w_db a).
Proof. intros Hs i n Hn. exact (rep_ok _ _ _ _ (st_rep _ _ Hs) Hn). Qed.

Lemma run_sims P self es w a :
  stands w a -> proper P self es a ->
  same_answers es (run (handle self) es w).1 (run (t_serve self) es a).1 /\
  stands (run (handle self) es w).2 (run (t_serve self) es a).2.
Proof.
  revert w a. induction es as [|[req k] es IH]; intros w a Hs Hp; [by split; [constructor|]|].
  destruct Hp as (Hq & Hf & _ & Hp). destruct (serve_sims self req k w a Hs Hq Hf) as [Hr Hs'].
  cbn [run]. destruct (handle self req k w) as [o w1], (t_serve self req k a) as [o' a1].
  cbn [fst snd] in *. destruct (IH w1 a1 Hs' Hp) as [Has Hs2].
  destruct (run (handle self) es w1), (run (t_serve self) es a1). split; [by constructor|done].
Qed.

Lemma run_sound below self es w a :
  stands w a -> sound below a -> proper tidy self es a -> sound below (run (t_serve self) es a).2.
Proof.
  revert w a. induction es as [|[req k] es IH]; intros w a Hs Hg Hp; [done|].
  destruct Hp as (Hq & Hf & Ht & Hp). destruct (serve_sims self req k w a Hs Hq Hf) as [_ Hs'].
  assert (Hpos : 0 <= w_next a) by (rewrite (st_next _ _ Hs); apply (st_u64 _ _ Hs)).
  pose proof (serve_sound below self req k a Hg (stands_nodes_ok _ _ Hs) Hpos Hf Ht) as Hg'.
  cbn [run]. destruct (t_serve self req k a) as [o' a1]. cbn [fst snd] in *.
  specialize (IH _ a1 Hs' Hg' Hp). by destruct (run (t_serve self) es a1).
Qed.

(** C1: The daemon refines the tree. For every sequence of requests whose values
    are in their widths and which fit the trees they meet ([fits]: places in
    files below the 2^32nd slice, modes of one type, no directory removed,
    linked or moved through or onto itself), each callback returns exactly what
    the operation of the tree [t_serve] returns, errors and panics included
    (for all requests but listings and [statfs], of which only the effect is
    described; of a read it is what the loop of the code makes of the slices in the
    tree, see [File.read_contents]), and afterwards the database stands for exactly the tree that
    [t_serve] computes and the inode counter is the one it computes, whether or
    not the tree is well formed. *)
Theorem daemon_refines_tree self es w a :
  stands w a -> proper (fun _ _ _ => True) self es a ->
  same_answers es (run (handle self) es w).1 (run (t_serve self) es a).1 /\
  stands (run (handle self) es w).2 (run (t_serve self) es a).2.
Proof. apply run_sims. Qed.

(** The tree and the counter after the first start. *)
Definition first_tree (uid gid : Z) (time : SystemTime) : world fs :=
  World (mkfs_fs FILE_SIZE uid gid (TimeSpec (st_sec time) (st_nsec time))) 2 ∅.

Lemma first_tree_sound uid gid time : sound true (first_tree uid gid time).
Proof.
  split.
  - split; [by apply root_alone_wf| |].
    + intros i n Hi. cbn in Hi. apply lookup_singleton_Some in Hi as [_ <-]. vm_compute. 
      intros Hin. inversion Hin as [|? ? ? Hin']. inversion Hin' as [|? ? ? Hin'']. inversion Hin''.
    + eexists. split; [by apply lookup_singleton_eq|]. done.
  - intros _ i [n Hi]. cbn in Hi. by apply lookup_singleton_Some in Hi as [<- _].
Qed.

Lemma fuse_init_runs w uid gid time :
  (forall b, db_has (w_db w) b = false) -> w_next w = 1 -> is_u32 uid -> is_u32 gid ->
  0 <= st_sec time < 2 ^ 63 -> 0 <= st_nsec time < 10 ^ 9 ->
  exists w0, fuse_init uid gid time w = (Ok None, w0) /\ stands w0 (first_tree uid gid time).
Proof.
  intros Hno Hnext Hu Hg Hsec Hnsec. set (t := TimeSpec (st_sec time) (st_nsec time)).
  assert (Ht : time_ok t) by (split; cbn; unfold is_u64, is_u32; lia).
  destruct (mkfs_runs w FILE_SIZE uid gid t Hno Hnext ltac:(done) Hu Hg Ht) as (d' & E & Hr & _).
  exists (World d' 2 (w_dirs w)). split.
  - unfold init_dbfs_fuse in E. apply op_bind_inv in E as ([] & w1 & E1 & E).
    apply op_bind_inv in E as (z & w2 & E2 & E). injection E as ->.
    unfold fuse_init. erewrite op_bind_ok by exact E1.
    unfold time_of_system. rewrite Zltb_f by lia. erewrite op_bind_ok by reflexivity.
    fold t. erewrite op_bind_ok.
    2: { apply (op_try_ok _ _ z). unfold op_expect in E2.
         by destruct (dbfs_common_root_inode uid gid t w1) as [[]]. }
    done.
  - split; [exact Hr| |done|done]. intros i n Hi. cbn in Hi.
    apply lookup_singleton_Some in Hi as [_ <-]. by apply slices_ok_none.
Qed.
End sessions.

Section start.
Context `{SliceConfig} {D : Type} `{JammDb D, !JammDbLaws D, !Reliable D}.
Context `{!Memory} `{!Cache} `{ReplyBuffers}.
Implicit Types (w : world D) (s : fs).

(** C2: The tree stays well formed in every tidy session. Mounting an empty image
    succeeds; after every sequence of requests in their widths that fit and are
    [tidy] when they come, the database stands for the tree the specification
    computes, and that tree is well formed: directory sizes count the entries, link
    counts the names, every directory that has a parent has one name, in the
    parent; its root is a directory, its slices are whole, and all its numbers
    are below the inode counter. Not tidy, and left out, are renames onto a name
    in use (to replace or to exchange), block devices and sockets, full
    counters, and what the kernel's VFS layer filters. *)
Theorem sessions_keep_tree self w uid gid time :
  (forall b, db_has (w_db w) b = false) -> w_next w = 1 -> is_u32 uid -> is_u32 gid ->
  0 <= st_sec time < 2 ^ 63 -> 0 <= st_nsec time < 10 ^ 9 ->
  exists w0, fuse_init uid gid time w = (Ok None, w0) /\
    forall es, proper tidy self es (first_tree uid gid time) ->
      let w1 := (run (handle self) es w0).2 in
      let s := w_db (run (t_serve self) es (first_tree uid gid time)).2 in
      represents (w_db w1) s /\ wf s /\ rooted s /\ whole s /\
      forall i, is_Some (f_nodes s !! i) -> i < w_next w1.
Proof.
  intros Hno Hnext Hu Hg Hsec Hnsec.
  destruct (fuse_init_runs w uid gid time Hno Hnext Hu Hg Hsec Hnsec) as (w0 & E & Hs).
  exists w0. split; [exact E|]. intros es Hp w1 s.
  destruct (run_sims _ self es _ _ Hs Hp) as [_ Hs1].
  destruct (run_sound true self es _ _ Hs (first_tree_sound uid gid time) Hp) as [[Hwf _ Hroot] Hb].
  split; [apply Hs1|]. split; [done|]. split; [done|]. split; [apply Hs1|].
  intros i Hi. specialize (Hb eq_refl i Hi). by rewrite (st_next _ _ Hs1) in Hb.
Qed.
End start.

(** ** Witnesses *)

Definition sample_req : Request := MkRequest 1000 1000 (fun _ => MkSystemTime 1700000000 5).

#[local] Instance sample_cache : Cache.
Proof.
  refine {| cache_alloc := fun size =>
    if (0 <=? size) && (size <=? 8388608) then Some (replicate (Z.to_nat size) Byte.xaa) else None |}.
  intros size buf. destruct (Z.leb_spec 0 size); [|done]. destruct (size <=? 8388608); [|done].
  intros [= <-]. unfold zlen. rewrite length_replicate. lia.
Defined.

#[local] Instance sample_buffers : ReplyBuffers :=
  {| dir_full := two_fit; plus_full := fun repl _ => bool_decide (length repl = 2%nat) |}.

#[local] Instance session_memory : Memory := sample_memory.

Lemma sample_req_ok : req_ok sample_req.
Proof. split; [done|done|]. intros i. cbn. lia. Qed.

Lemma tree_fs_whole : whole tree_fs.
Proof.
  intros i n Hi. apply slices_ok_none. unfold tree_fs, file_fs, root_fs, upd, add_node in Hi. cbn [f_nodes] in Hi.
  apply lookup_insert_Some in Hi as [[<- <-]|[_ Hi]]; [done|].
  destruct (decide (i = 1)) as [->|Hne].
  - rewrite lookup_alter_eq, lookup_insert_ne, lookup_alter_eq, lookup_singleton_eq in Hi by done.
    by injection Hi as <-.
  - rewrite lookup_alter_ne in Hi by done.
    apply lookup_insert_Some in Hi as [[<- <-]|[_ Hi]]; [done|].
    rewrite lookup_alter_ne, lookup_singleton_ne in Hi by done. done.
Qed.

Lemma tree_world_stands : stands tree_world (World tree_fs 4 ∅).
Proof. split; [exact (image_represents _ tree_fs_ok)|exact tree_fs_whole|done|done]. Qed.

Definition sample_self : DbfsFuse := dbfs_fuse_new false false.

(** A rename onto a name in use, and a write to the file under it. *)
Definition sample_run : list (Request * KRequest) :=
  [(sample_req, KRename 1 (bs "a") 1 (bs "d") 0); (sample_req, KLookup 1 (bs "a"));
   (sample_req, KWrite 2 0 (bs "hi"))].

Lemma sample_run_proper : proper (fun _ _ _ => True) sample_self sample_run (World tree_fs 4 ∅).
Proof.
  unfold sample_run. cbn [proper].
  split; [exact sample_req_ok|]. split.
  { split; [done|]. split; [done|]. intros ino Hi. change (Some 2 = Some ino) in Hi. injection Hi as <-.
    split; [done|]. split; [done|]. intros target _ q Hq Hn. exfalso.
    change (Some tree_root = Some q) in Hq. injection Hq as <-. done. }
  split; [done|]. split; [exact sample_req_ok|]. split; [done|]. split; [done|].
  split; [exact sample_req_ok|]. split; [by split; [|vm_compute]|]. done.
Qed.

Lemma daemon_refines_tree_witness :
  (run (handle sample_self) sample_run tree_world).1 = [Ok ROk; Ok (RError ENOENT); Ok (RWritten 2)] /\
  same_answers sample_run (run (handle sample_self) sample_run tree_world).1
    (run (t_serve sample_self) sample_run (World tree_fs 4 ∅)).1 /\
  stands (run (handle sample_self) sample_run tree_world).2
    (run (t_serve sample_self) sample_run (World tree_fs 4 ∅)).2.
Proof.
  split; [vm_compute; reflexivity|].
  exact (daemon_refines_tree sample_self sample_run tree_world _ tree_world_stands sample_run_proper).
Defined.

(** A decision of [room_for]. *)
Definition room_check (s : fs) (dir : Z) (name : bytes) : bool :=
  negb (bool_decide (name = bs ".") || bool_decide (name = bs "..")) && bool_decide (entry s dir name = None) &&
  match f_nodes s !! dir with Some p => node_is_dir p && (n_size p + 1 <? 2 ^ 64) | None => true end.

Lemma room_checked s dir name : room_check s dir name = true -> room_for s dir name.
Proof.
  unfold room_check. rewrite !andb_true_iff, negb_true_iff, orb_false_iff, !bool_decide_eq_false,
    bool_decide_eq_true. intros [[[H1 H2] He] Hp]. split; [by intros [?|?]|]. split; [done|].
  intros p Ep. rewrite Ep, andb_true_iff, Z.ltb_lt in Hp. exact Hp.
Qed.

Definition started : world mapdb := (fuse_init 1000 1000 (MkSystemTime 1700000000 5) empty_world).2.

(** A directory, a file in it, and the directory under another name. *)
Definition tidy_run : list (Request * KRequest) :=
  [(sample_req, KMkdir 1 (bs "d") 0x1FF); (sample_req, KCreate 2 (bs "f") 0x81A4 0);
   (sample_req, KRename 1 (bs "d") 1 (bs "e") 0)].

Lemma typed_of perm kind bits :
  0 <= bits < 2 ^ 12 -> perm = Z.lor (type_bits kind) bits -> kind = Directory \/ kind = RegularFile ->
  typed perm None None.
Proof.
  intros Hb -> Hk. exists kind, bits. split; [done|]. split; [done|]. destruct Hk as [-> | ->]; (split; [done|]);
    by intros [?|?].
Qed.

Lemma tidy_run_proper : proper tidy sample_self tidy_run (first_tree 1000 1000 (MkSystemTime 1700000000 5)).
Proof.
  unfold tidy_run. cbn [proper].
  split; [exact sample_req_ok|]. split; [split; [done|by apply (typed_of _ Directory 0x1FF); [..|left]]|].
  split; [split; [apply room_checked; vm_compute; reflexivity|by split; [|by_eval]]|].
  split; [exact sample_req_ok|].
  split; [split; [done|by apply (typed_of _ RegularFile 0x1A4); [..|right]]|].
  split; [split; [apply room_checked; vm_compute; reflexivity|split; [vm_compute; reflexivity|by_eval]]|].
  split; [exact sample_req_ok|].
  split.
  - split; [done|]. split; [done|]. intros ino Hi.
    assert (E : Some 2 = Some ino) by (rewrite <- Hi; vm_compute; reflexivity). injection E as <-.
    split; [done|]. split; [done|]. intros target Ht. exfalso.
    assert (E : None = Some target) by (rewrite <- Ht; vm_compute; reflexivity). done.
  - split; [|done]. split; [by intros [?|?]|]. apply room_checked. vm_compute. reflexivity.
Qed.

Lemma sessions_keep_tree_witness :
  fuse_init 1000 1000 (MkSystemTime 1700000000 5) empty_world = (Ok None, started) /\
  let w1 := (run (handle sample_self) tidy_run started).2 in
  let s := w_db (run (t_serve sample_self) tidy_run (first_tree 1000 1000 (MkSystemTime 1700000000 5))).2 in
  represents (w_db w1) s /\ wf s /\ rooted s /\ whole s /\
  forall i, is_Some (f_nodes s !! i) -> i < w_next w1.
Proof.
  destruct (sessions_keep_tree sample_self empty_world 1000 1000 (MkSystemTime 1700000000 5))
    as (w0 & E & Hall); [done|done|done|done|by cbn; lia|by cbn; lia|].
  assert (Ew : started = w0) by (unfold started; by rewrite E). rewrite Ew. split; [exact E|].
  exact (Hall tidy_run tidy_run_proper).
Defined.
