(* ===== verification/Restart.v ===== *)
(** * Stopping and starting the daemon: src/src/fuse/mod.rs over src/src/inode.rs

    The database outlives the process; the inode counter and the table of
    listings do not. The daemon writes the counter to the super block when it
    is unmounted, but nothing it runs reads it back: a daemon that starts on a
    file system begins to count at 1 again, whether the last one was unmounted
    or killed. The theorems say what survives, and what the counter does to
    the creations that follow. *)

From S2P Require Import Prelude Bytes Common Store MapDb Access Tree Layout Image Inode Dir Rename Attr Truncate File Limits Readdir SuperBlock Fuse FuseDir FuseOps Serve Session.

(** A new process on the database: the statics have their first values. *)
Definition new_process {D} (w : world D) : world D := World (w_db w) 1 ∅.

(** ** Starting on a file system that is there *)

Section start.
Context `{SliceConfig} {D : Type} `{JammDb D, !JammDbLaws D, !Reliable D}.
Implicit Types (w : world D) (s : fs).

Lemma init_db_present w s size : represents (w_db w) s -> init_db size w = (Ok tt, w).
Proof.
  intros Hr. destruct (rep_free _ _ Hr) as [Hf _]. unfold init_db. erewrite op_bind_ok.
  2: { unfold dropped_tx. rewrite begin_ok. unfold tx_has.
       by rewrite (db_has_some _ _ _ _ Hf). }
  done.
Qed.

(** The tree is the one that was there; the counter begins at 1. *)
Lemma fuse_start_runs w s uid gid time :
  represents (w_db w) s -> rooted s -> 0 <= st_sec time ->
  exists d', fuse_init uid gid time (new_process w) = (Ok None, World d' 1 ∅) /\
    represents d' s.
Proof.
  intros Hr (n & Hn & _) Hsec.
  destruct (root_inode_present (new_process w) s uid gid (TimeSpec (st_sec time) (st_nsec time)) n
    Hr Hn) as (d' & E & Hr' & _).
  exists d'. split; [|done]. unfold fuse_init.
  erewrite op_bind_ok by exact (init_db_present (new_process w) s FILE_SIZE Hr).
  unfold time_of_system. rewrite Zltb_f by lia. erewrite op_bind_ok by reflexivity.
  erewrite op_bind_ok by (apply (op_try_ok _ _ (n_size n)); exact E). done.
Qed.

(** Unmounting stores the counter and leaves the tree. *)
Lemma fuse_destroy_runs w s :
  represents (w_db w) s ->
  exists d', fuse_destroy w = (Ok tt, set_db w d') /\ represents d' s.
Proof.
  intros Hr. destruct (rep_free _ _ Hr) as [Hf _].
  exists (db_put (w_db w) (bs "super_blk") (bs "continue_number") (usize_be (w_next w))).
  split; [|by apply rep_super_put].
  assert (E : dbfs_common_umount w = (Ok tt, set_db w
    (db_put (w_db w) (bs "super_blk") (bs "continue_number") (usize_be (w_next w))))).
  { unfold dbfs_common_umount. erewrite op_bind_ok by done. apply write_tx_ok.
    unfold umount_tx. erewrite tx_bind_ok; [done|].
    apply get_bucket_ok. by eapply db_has_some. }
  unfold fuse_destroy, dbfs_fuse_destroy, op_expect. by rewrite E.
Qed.
End start.

(** ** The life of a file system *)

Section lives.
Context `{SliceConfig} {D : Type} `{JammDb D, !JammDbLaws D, !Reliable D}.
Context `{!Memory} `{!Cache} `{ReplyBuffers}.
Implicit Types (w : world D) (a : world fs) (req : Request).

(** Requests, unmounting, and new daemons on the database, in any order, with the
    tree and the counter beside: a start begins to count at 1 and keeps the tree.
    A daemon that is killed is one that another follows without unmounting; the
    kills are between requests. *)
Inductive life (self : DbfsFuse) : world D -> world fs -> world D -> world fs -> Prop :=
  | life_now w a : life self w a w a
  | life_request w a req k w' a' :
      req_ok req -> fits (w_db a) k -> tidy (w_db a) (w_next a) k ->
      life self (handle self req k w).2 (t_serve self req k a).2 w' a' -> life self w a w' a'
  | life_unmount w a w' a' : life self (fuse_destroy w).2 a w' a' -> life self w a w' a'
  | life_start w a uid gid time w' a' :
      0 <= st_sec time ->
      life self (fuse_init uid gid time (new_process w)).2 (World (w_db a) 1 ∅) w' a' -> life self w a w' a'.

Lemma life_sound self w a w' a' :
  life self w a w' a' -> stands w a -> sound false a -> stands w' a' /\ sound false a'.
Proof.
  induction 1 as [|w a req k w' a' Hq Hf Ht _ IH|w a w' a' _ IH|w a uid gid time w' a' Ht _ IH];
    intros Hs Hg; [done|..].
  - destruct (serve_sims self req k w a Hs Hq Hf) as [_ Hs']. apply IH; [done|].
    assert (Hpos : 0 <= w_next a) by (rewrite (st_next _ _ Hs); apply (st_u64 _ _ Hs)).
    exact (serve_sound false self req k a Hg (stands_nodes_ok _ _ Hs) Hpos Hf Ht).
  - apply IH; [|done]. destruct (fuse_destroy_runs w (w_db a) (st_rep _ _ Hs)) as (d' & -> & Hr').
    by destruct Hs.
  - destruct Hg as [Hg _]. apply IH; [|by split].
    destruct (fuse_start_runs w (w_db a) uid gid time (st_rep _ _ Hs) (g_rooted _ Hg) Ht) as (d' & -> & Hr').
    destruct Hs. by split.
Qed.

(** C3: The tree survives the lives of the daemon. From the first start on an empty
    image, after any tidy requests ([tidy], with values in their widths that fit),
    any unmounting, and any number of daemons started anew on the database, after
    an unmounting or a kill between two requests, the database stands for the
    tree the specification computes, and that tree is well formed with its root and
    whole slices, although the counter of a new daemon begins below the numbers in
    use. Renames onto a name in use, block devices and sockets are not tidy. *)
Theorem lives_keep_tree self w uid gid time :
  (forall b, db_has (w_db w) b = false) -> w_next w = 1 -> is_u32 uid -> is_u32 gid ->
  0 <= st_sec time < 2 ^ 63 -> 0 <= st_nsec time < 10 ^ 9 ->
  exists w0, fuse_init uid gid time w = (Ok None, w0) /\
    forall w1 a1, life self w0 (first_tree uid gid time) w1 a1 ->
      represents (w_db w1) (w_db a1) /\ wf (w_db a1) /\ rooted (w_db a1) /\ whole (w_db a1).
Proof.
  intros Hno Hnext Hu Hg Hsec Hnsec.
  destruct (fuse_init_runs w uid gid time Hno Hnext Hu Hg Hsec Hnsec) as (w0 & E & Hs).
  exists w0. split; [exact E|]. intros w1 a1 Hl.
  destruct (life_sound _ _ _ _ _ Hl Hs) as [Hs1 [[Hwf _ Hroot] _]].
  - split; [apply (so_good _ _ (first_tree_sound uid gid time))|done].
  - split_and!; [apply Hs1|done|done|apply Hs1].
Qed.
End lives.

(** ** Creations after a start *)

(** The arguments of a creation. *)
Record Attempt := MkAttempt {
  at_kind : DbfsFileType; at_dir : Z; at_name : bytes; at_uid : Z; at_gid : Z;
  at_time : DbfsTimeSpec; at_bits : Z; at_target : option bytes; at_dev : option Z }.

Definition attempt_ok (a : Attempt) : Prop :=
  create_ok (at_kind a) (at_uid a) (at_gid a) (at_time a) (at_bits a) (at_target a) (at_dev a) /\
  is_u64 (at_dir a).

Section creations.
Context `{SliceConfig} {D : Type} `{JammDb D, !JammDbLaws D, !Reliable D}.
Implicit Types (w : world D) (s : fs).

Definition attempt (a : Attempt) : Op D DbfsAttr :=
  dbfs_common_create (at_dir a) (at_name a) (at_uid a) (at_gid a) (at_time a)
    (Z.lor (type_bits (at_kind a)) (at_bits a)) (at_target a) (at_dev a).

Fixpoint attempts (l : list Attempt) (w : world D) : list (outcome DbfsAttr) * world D :=
  match l with
  | [] => ([], w)
  | a :: l =>
      let '(o, w) := attempt a w in
      let '(os, w) := attempts l w in (o :: os, w)
  end.

(** The number drawn is in use: the creation fails, and only the counter
    moves. *)
Lemma attempt_taken w s a :
  represents (w_db w) s -> attempt_ok a -> is_u64 (w_next w + 1) -> 0 <= w_next w ->
  is_Some (f_nodes s !! w_next w) ->
  exists e, attempt a w = (Err e, set_next w (w_next w + 1)) /\
    e ∈ [NoData; AccessError; FileExists].
Proof.
  intros Hr [Hok Hdir] Hn H0' Htaken.
  assert (Hu : is_u64 (w_next w)) by (destruct Hn; split; lia).
  pose proof (create_runs w s (at_kind a) (at_dir a) (at_name a) (at_uid a) (at_gid a)
    (at_time a) (at_bits a) (at_target a) (at_dev a) Hr Hok Hu Hdir) as Hrun.
  rewrite (w64_small (w_next w + 1)) in Hrun by done.
  destruct (t_create _ _ _ _ _ _ _ _ _ _ s) as [[n s']|e|] eqn:E; [| |done].
  - apply t_create_inv in E as (_ & _ & Hnone & _). rewrite Hnone in Htaken. by destruct Htaken.
  - exists e. split; [done|]. unfold t_create in E.
    repeat case_match; try done; injection E as <-; set_solver.
Qed.

Lemma attempts_taken w s l :
  represents (w_db w) s -> Forall attempt_ok l -> 0 <= w_next w ->
  w_next w + Z.of_nat (length l) < 2 ^ 64 ->
  (forall i, w_next w <= i < w_next w + Z.of_nat (length l) -> is_Some (f_nodes s !! i)) ->
  Forall (fun o => exists e, o = Err e) (attempts l w).1 /\
  (attempts l w).2 = set_next w (w_next w + Z.of_nat (length l)).
Proof.
  intros Hr Hl. revert w Hr. induction Hl as [|a l Ha _ IH]; intros w Hr Hpos Hn Htaken.
  { cbn. split; [constructor|]. rewrite Z.add_0_r. by destruct w. }
  cbn [attempts length] in *.
  destruct (attempt_taken w s a Hr Ha) as (e & -> & _);
    [unfold is_u64; lia|done|apply Htaken; lia|].
  destruct (IH (set_next w (w_next w + 1))) as [Hos Hw];
    [done|cbn; lia|cbn; lia|intros i Hi; apply Htaken; cbn in Hi; lia|].
  destruct (attempts l _) as [os w2]. cbn [fst snd] in *. split.
  - constructor; [by exists e|done].
  - rewrite Hw. unfold set_next. cbn. f_equal. lia.
Qed.

(** C11: A daemon that starts on a file system draws inode numbers from 1 again, whether
    the last one was unmounted or killed: as many creations as there are numbers in use
    from 1 on fail, whoever asks for whatever, and change nothing but the counter. *)
Theorem creations_fail_after_start w s uid gid time w0 l :
  represents (w_db w) s -> rooted s -> 0 <= st_sec time ->
  fuse_init uid gid time (new_process w) = (Ok None, w0) ->
  Forall attempt_ok l -> Z.of_nat (length l) < 2 ^ 64 - 1 ->
  (forall i, 1 <= i <= Z.of_nat (length l) -> is_Some (f_nodes s !! i)) ->
  Forall (fun o => exists e, o = Err e) (attempts l w0).1 /\
  w_db (attempts l w0).2 = w_db w0 /\ represents (w_db w0) s /\
  w_next (attempts l w0).2 = 1 + Z.of_nat (length l).
Proof.
  intros Hr Hroot Ht E Hl Hn Htaken.
  destruct (fuse_start_runs w s uid gid time Hr Hroot Ht) as (d' & E' & Hr').
  rewrite E in E'. injection E' as ->.
  destruct (attempts_taken (World d' 1 ∅) s l Hr' Hl) as [Hos ->];
    [done|cbn; lia|intros i Hi; apply Htaken; cbn in Hi; lia|].
  done.
Qed.
End creations.

(** ** Witnesses *)

#[local] Existing Instance session_memory.
#[local] Existing Instance sample_cache.
#[local] Existing Instance sample_buffers.

Definition later : SystemTime := MkSystemTime 1700000100 0.

(** A directory is made, the daemon unmounted, and another started. *)
Definition world_made : world mapdb :=
  (handle sample_self sample_req (KMkdir 1 (bs "d") 0x1FF) started).2.
Definition world_stopped : world mapdb := (fuse_destroy world_made).2.
Definition world_again : world mapdb := (fuse_init 1000 1000 later (new_process world_stopped)).2.

(** The next directory is refused: its number would be that of the root. *)
Example next_mkdir_refused :
  (handle sample_self sample_req (KMkdir 1 (bs "e") 0x1FF) world_again).1 = Ok (RError ENOENT).
Proof. vm_compute. reflexivity. Qed.

(** The tree and the counter at the same time. *)
Definition tree_made : world fs :=
  (t_serve sample_self sample_req (KMkdir 1 (bs "d") 0x1FF) (first_tree 1000 1000 (MkSystemTime 1700000000 5))).2.

Lemma life_made :
  life sample_self started (first_tree 1000 1000 (MkSystemTime 1700000000 5)) world_again (World (w_db tree_made) 1 ∅).
Proof.
  pose proof tidy_run_proper as (Hq & Hf & Ht & _).
  refine (life_request _ _ _ sample_req (KMkdir 1 (bs "d") 0x1FF) _ _ Hq Hf Ht _).
  refine (life_unmount _ _ _ _ _ _). refine (life_start _ _ _ 1000 1000 later _ _ _ _); [by_eval|].
  apply life_now.
Qed.

Lemma lives_keep_tree_witness :
  w_next world_again = 1 /\ entry (w_db tree_made) 1 (bs "d") = Some 2 /\
  represents (w_db world_again) (w_db tree_made) /\ wf (w_db tree_made) /\ rooted (w_db tree_made) /\
  whole (w_db tree_made).
Proof.
  destruct (lives_keep_tree sample_self empty_world 1000 1000 (MkSystemTime 1700000000 5))
    as (w0 & E & Hall); [done|done|done|done|by cbn; lia|by cbn; lia|].
  assert (Ew : started = w0) by (unfold started; by rewrite E).
  rewrite <- Ew in Hall. split; [vm_compute; reflexivity|]. split; [vm_compute; reflexivity|].
  exact (Hall _ _ life_made).
Defined.

(** Three creations in the sample tree, whose numbers 1, 2 and 3 are in use. *)
Definition sample_attempt (name : bytes) : Attempt :=
  MkAttempt RegularFile 1 name 1000 1000 (TimeSpec 0 0) 0x1A4 None None.

Lemma sample_attempt_ok name : attempt_ok (sample_attempt name).
Proof.
  split; [|by_eval]. split; [by_eval|]. split; [by_eval|]. split; [split; by_eval|].
  split; [by_eval|]. split; [done|]. split; [|done]. by intros [|].
Qed.

Lemma tree_fs_rooted : rooted tree_fs.
Proof. eexists. split; [vm_compute; reflexivity|]. split; vm_compute; reflexivity. Qed.

Lemma creations_fail_after_start_witness :
  exists w0, fuse_init 1000 1000 later (new_process tree_world) = (Ok None, w0) /\
    Forall (fun o => exists e, o = Err e)
      (attempts [sample_attempt (bs "x"); sample_attempt (bs "y"); sample_attempt (bs "z")] w0).1.
Proof.
  destruct (fuse_init 1000 1000 later (new_process tree_world)) as [o w0] eqn:E.
  assert (Eo : o = Ok None).
  { change o with (o, w0).1. rewrite <- E. vm_compute. reflexivity. }
  subst o. exists w0. split; [reflexivity|].
  apply (creations_fail_after_start tree_world tree_fs 1000 1000 later w0
    [sample_attempt (bs "x"); sample_attempt (bs "y"); sample_attempt (bs "z")]).
  - exact (image_represents _ tree_fs_ok).
  - exact tree_fs_rooted.
  - by_eval.
  - exact E.
  - repeat first [apply Forall_nil_2|apply Forall_cons_2; [apply sample_attempt_ok|]].
  - by_eval.
  - intros i Hi. cbn in Hi. assert (i = 1 \/ i = 2 \/ i = 3) as [->|[->| ->]] by lia;
      eexists; vm_compute; reflexivity.
Defined.
