(* ===== verification/Progress.v ===== *)
(** * Progress: a reader gets to the end

    What a client that reads a file piece by piece can count on when it shares
    the database with others: a step of the reader is one call of
    [dbfs_common_read] (src/src/file.rs); between its steps others do whatever
    they like as long as they leave the file alone. *)

From S2P Require Import Prelude Bytes Common Store MapDb Tree Layout Image Inode Dir Truncate File.

(** Where the reader is and what it has; [rd_done] once a read returned
    nothing. *)
Record reader := Reader { rd_offset : Z; rd_got : bytes; rd_done : bool }.

Definition reader_start : reader := Reader 0 [] false.

Section progress.
Context `{SliceConfig} {D : Type} `{JammDb D}.

(** One read into the buffer [buf]; a reader that is done, or was refused,
    stays where it is. *)
Definition reader_step (ino : Z) (buf : bytes) (r : reader) (w : world D) : reader * world D :=
  if rd_done r then (r, w)
  else match dbfs_common_read ino buf (rd_offset r) w with
       | (Ok (len, buf'), w') =>
           (if len =? 0 then Reader (rd_offset r) (rd_got r) true
            else Reader (rd_offset r + len) (rd_got r ++ take (Z.to_nat len) buf') false, w')
       | (_, w') => (r, w')
       end.

(** The first [k] steps, others moving before each of them. *)
Fixpoint reads (others : nat -> world D -> world D) (ino : Z) (buf : bytes) (k : nat)
    (w : world D) : reader * world D :=
  match k with
  | O => (reader_start, w)
  | S k =>
      let '(r, w) := reads others ino buf k w in
      reader_step ino buf r (others k w)
  end.

(** The file [ino] of the database is the node [n]. *)
Definition shows_file (ino : Z) (n : node) (w : world D) : Prop :=
  exists s, represents (w_db w) s /\ f_nodes s !! ino = Some n.

Context `{!JammDbLaws D, !Reliable D}.
Implicit Types (n : node) (w : world D).

(** Every slice of the file is stored, and it is not too long. *)
Record whole_file n (buf : bytes) : Prop := {
  wf_slices : slices_ok n;
  wf_stored : forall i, 0 <= i -> i * SLICE_SIZE < n_size n -> is_Some (n_slices n !! i);
  wf_small : n_size n / SLICE_SIZE + 1 < 2 ^ 32;
  wf_offset : is_u64 (n_size n + zlen buf) }.

(** The reader after [k] rounds. *)
Definition reader_after n (len : Z) (k : nat) : reader :=
  let got := Z.min (Z.of_nat k * len) (n_size n) in
  Reader got (file_bytes n 0 got) (bool_decide (n_size n + len <= Z.of_nat k * len)).

Context (ino : Z) (n : node) (buf : bytes) (others : nat -> world D -> world D).
Hypothesis (Hbuf : 0 < zlen buf) (Hdiv : zlen buf mod SLICE_SIZE = 0).
Hypothesis (Hfile : whole_file n buf).
Hypothesis (Hothers : forall k w, shows_file ino n w -> shows_file ino n (others k w)).

Lemma read_next w offset :
  shows_file ino n w -> 0 <= offset < n_size n -> offset mod SLICE_SIZE = 0 ->
  let len := Z.min (zlen buf) (n_size n - offset) in
  dbfs_common_read ino buf offset w = (Ok (len, splice buf 0 (file_bytes n offset len)), w).
Proof.
  intros (s & Hr & Hn) Ho Ha len. destruct Hfile as [Hsl Hst Hsm Hu]. pose proof slice_range.
  assert (Hs : read_start offset = offset) by (apply read_start_ok; [lia|by right]).
  pose proof (slice_div offset) as Hd.
  assert (0 <= offset / SLICE_SIZE) by (apply Z.div_pos; lia).
  erewrite (read_window w s ino n buf offset (offset / SLICE_SIZE)); try done.
  - by rewrite Hs.
  - unfold is_u64 in *. lia.
  - split; [lia|]. rewrite Hs. split; [nia|]. split; [lia|]. intros i Hi Hlt. apply Hst; lia.
Qed.

(** A step takes the reader after [k] rounds to the one after [k + 1]. *)
Lemma reader_round w k :
  shows_file ino n w ->
  reader_step ino buf (reader_after n (zlen buf) k) w = (reader_after n (zlen buf) (S k), w).
Proof.
  intros Hw. destruct (Hw) as (s & Hr & Hn).
  pose proof (ok_size _ (rep_ok _ _ _ _ Hr Hn)) as [Hz0 _]. destruct Hfile as [Hsl Hst Hsm Hu].
  unfold reader_step, reader_after. cbn [rd_done rd_offset rd_got].
  rewrite Nat2Z.inj_succ. set (B := zlen buf) in *. set (a := Z.of_nat k) in *.
  case_bool_decide as Hd.
  { rewrite bool_decide_eq_true_2 by nia. by rewrite !Z.min_r by nia. }
  destruct (Z.le_gt_cases (n_size n) (a * B)) as [Hend|Hmid].
  - rewrite (Z.min_r (a * B)) by lia. rewrite (read_past_end w s ino n) by (done || lia).
    rewrite bool_decide_eq_true_2 by nia. by rewrite Z.min_r by nia.
  - rewrite (Z.min_l (a * B)) by lia.
    assert (Ha : (a * B) mod SLICE_SIZE = 0) by (rewrite Z.mul_mod, Hdiv, Z.mul_0_r by (pose proof slice_range; lia); done).
    assert (0 <= a * B) by (unfold B, zlen; lia).
    rewrite read_next by (done || lia). fold B. set (len := Z.min B (n_size n - a * B)).
    rewrite (Zeqb_ne len) by lia. rewrite bool_decide_eq_false_2 by nia.
    replace (Z.min (Z.succ a * B) (n_size n)) with (a * B + len) by lia.
    assert (Hf : zlen (file_bytes n (a * B) len) = len) by (apply zlen_file_bytes; lia).
    assert (Ht : take (Z.to_nat len) (splice buf 0 (file_bytes n (a * B) len)) = file_bytes n (a * B) len).
    { unfold splice. change (take (Z.to_nat 0) buf) with (@nil Byte.byte). cbn [app]. apply take_app_length'. unfold zlen in Hf. lia. }
    rewrite Ht. do 2 f_equal. rewrite <- file_bytes_app by lia. by rewrite Z.add_0_l.
Qed.

Lemma reads_rounds w k :
  shows_file ino n w ->
  (reads others ino buf k w).1 = reader_after n (zlen buf) k /\
  shows_file ino n (reads others ino buf k w).2.
Proof.
  intros Hw. induction k as [|k [IH1 IH2]].
  - split; [|done]. destruct Hw as (s & Hr & Hn).
    pose proof (ok_size _ (rep_ok _ _ _ _ Hr Hn)) as [Hz0 _]. unfold reader_after. cbn [reads fst].
    rewrite bool_decide_eq_false_2 by lia. by rewrite Z.min_l by lia.
  - cbn [reads]. destruct (reads others ino buf k w) as [r w1]. cbn [fst snd] in *. subst r.
    rewrite reader_round by by apply Hothers. split; [done|]. by apply Hothers.
Qed.

(** C9: A reader with a buffer of whole slices gets the whole of a file without
    holes. The length of the buffer is a multiple of the slice size, every slice of
    the file is stored ([whole_file]), and between the reads others may do what they like as
    long as the file stays as it is. Then a client that reads from the start and on from
    where each read ended comes to a read that returns nothing after at most as many
    reads as there are buffers in the file, and two, and has then, and from then on,
    exactly the bytes of the file. With other buffers, or with holes, a read returns other
    bytes or ends early ([File.read_contents]). *)
Theorem reader_gets_all w :
  shows_file ino n w ->
  exists k, Z.of_nat k <= n_size n / zlen buf + 2 /\
    forall m, (k <= m)%nat ->
      (reads others ino buf m w).1 = Reader (n_size n) (file_bytes n 0 (n_size n)) true.
Proof.
  intros Hw. destruct (Hw) as (s & Hr & Hn).
  pose proof (ok_size _ (rep_ok _ _ _ _ Hr Hn)) as [Hz0 _].
  assert (0 <= n_size n / zlen buf) by by apply Z.div_pos.
  exists (Z.to_nat (n_size n / zlen buf + 2)). split; [lia|]. intros m Hm.
  destruct (reads_rounds w m Hw) as [-> _]. unfold reader_after.
  assert (Hlen : n_size n + zlen buf <= Z.of_nat m * zlen buf).
  { pose proof (Z.mul_succ_div_gt (n_size n) (zlen buf) Hbuf). nia. }
  rewrite bool_decide_eq_true_2 by done. by rewrite Z.min_r by lia.
Qed.
End progress.

(** ** Witness *)

(** Others take inode numbers meanwhile. *)
Definition draw_numbers (k : nat) (w : world mapdb) : world mapdb :=
  set_next w (w_next w + Z.of_nat k).

Lemma reader_gets_all_witness :
  exists k, Z.of_nat k <= 4 /\
    (reads draw_numbers 2 (replicate 512 Byte.x00) k three_world).1 =
    Reader 1100 (file_bytes three_node 0 1100) true.
Proof.
  destruct (reader_gets_all 2 three_node (replicate 512 Byte.x00) draw_numbers) with (w := three_world)
    as (k & Hk & Hall).
  - by vm_compute.
  - by vm_compute.
  - split; [apply three_slices_ok| |by vm_compute|by vm_compute].
    intros i Hi Hlt. change (is_Some (three_slices !! i)).
    cbn [n_size three_node file_node SLICE_SIZE sli512] in Hlt.
    assert (H3 : i = 0 \/ i = 1 \/ i = 2) by lia. destruct H3 as [->|[->| ->]]; by eexists.
  - intros k w (s & Hr & Hn). by exists s.
  - exists three_fs. split; [apply image_represents, three_fs_ok|reflexivity].
  - exists k. split; [|by apply Hall].
    change (n_size three_node) with 1100 in Hk. change (zlen (replicate 512 Byte.x00)) with 512 in Hk.
    exact Hk.
Defined.
