(* ===== verification/Rvfs.v ===== *)
(** * The operations of the rvfs interface

    The functions of src/src/inode.rs, src/src/file.rs and src/src/fs_type.rs
    that the [rvfs] crate calls through its tables of operations. They call
    the common layer as the superuser and keep the crate's objects in step:
    an inode object caches the size, the link count and the owner of an
    inode, a directory-entry object refers to an inode object. The objects
    are shared ([Arc]), so the state has a heap of each and the operations
    take addresses. *)

From S2P Require Import Prelude Bytes Common Store MapDb Access Tree Layout Image Inode Dir Truncate File SuperBlock Fuse.

(** [Inode] and [DirEntry] of the crate, as far as the operations use them. *)
Record InodeObj := MkInode {
  number : Z; i_mode : InodeMode; file_size : Z; hard_links : Z; i_uid : Z; i_gid : Z }.
Record DentryObj := MkDentry { d_name_of : bytes; d_inode : Z }.

(** [create_tmp_inode_from_sb_blk]: the fields of the new object, or an error;
    the number is the one asked for. *)
Class RvfsCrate := {
  tmp_inode : Z -> InodeMode -> option InodeObj;
  tmp_inode_number : forall n m i, tmp_inode n m = Some i -> number i = n }.

Record vfs (D : Type) := Vfs {
  v_world : world D; v_inodes : gmap Z InodeObj; v_dentries : gmap Z DentryObj }.
Arguments Vfs {D} v_world v_inodes v_dentries.
Arguments v_world {D} v.
Arguments v_inodes {D} v.
Arguments v_dentries {D} v.

(** A message ([inl]) or a result; [None] is a panic. *)
Definition Rv (D A : Type) : Type := vfs D -> option (bytes + A) * vfs D.

Section rv.
Context {D : Type}.

Definition rv_ret {A} (a : A) : Rv D A := fun v => (Some (inr a), v).
Definition rv_err {A} (msg : bytes) : Rv D A := fun v => (Some (inl msg), v).
Definition rv_panic {A} : Rv D A := fun v => (None, v).
Definition rv_bind {A B} (m : Rv D A) (f : A -> Rv D B) : Rv D B := fun v =>
  match m v with
  | (Some (inr a), v') => f a v'
  | (Some (inl msg), v') => (Some (inl msg), v')
  | (None, v') => (None, v')
  end.
Definition rv_unwrap {A} (o : option A) : Rv D A :=
  match o with Some a => rv_ret a | None => rv_panic end.

Definition set_world (v : vfs D) (w : world D) : vfs D := Vfs w (v_inodes v) (v_dentries v).

(** An entry point of the common layer: [.map_err(|_| msg)?], or [unwrap()]. *)
Definition common {A} (msg : bytes) (m : Op D A) : Rv D A := fun v =>
  match m (v_world v) with
  | (Ok a, w) => (Some (inr a), set_world v w)
  | (Err _, w) => (Some (inl msg), set_world v w)
  | (Panic, w) => (None, set_world v w)
  end.
Definition common_unwrap {A} (m : Op D A) : Rv D A := common [] (op_expect m).

(** The objects behind addresses; new ones are at unused addresses. *)
Definition inode_at (l : Z) : Rv D InodeObj := fun v =>
  (match v_inodes v !! l with Some i => Some (inr i) | None => None end, v).
Definition dentry_at (l : Z) : Rv D DentryObj := fun v =>
  (match v_dentries v !! l with Some e => Some (inr e) | None => None end, v).
Definition update_inode (l : Z) (f : InodeObj -> InodeObj) : Rv D unit := fun v =>
  (Some (inr tt), Vfs (v_world v) (alter f l (v_inodes v)) (v_dentries v)).
Definition set_d_inode (l i : Z) : Rv D unit := fun v =>
  (Some (inr tt), Vfs (v_world v) (v_inodes v)
     (alter (fun e => MkDentry (d_name_of e) i) l (v_dentries v))).
Definition new_inode (i : InodeObj) : Rv D Z := fun v =>
  let l := fresh (dom (v_inodes v)) in
  (Some (inr l), Vfs (v_world v) (<[l := i]> (v_inodes v)) (v_dentries v)).
Definition new_dentry (e : DentryObj) : Rv D Z := fun v =>
  let l := fresh (dom (v_dentries v)) in
  (Some (inr l), Vfs (v_world v) (v_inodes v) (<[l := e]> (v_dentries v))).
End rv.

Notation "x <~ m ; f" := (rv_bind m (fun x => f))
  (at level 20, m at level 100, f at level 200, right associativity).

(** Changes of the cached fields. *)
Definition with_file_size (f : Z -> Z) (i : InodeObj) : InodeObj :=
  MkInode (number i) (i_mode i) (f (file_size i)) (hard_links i) (i_uid i) (i_gid i).
Definition with_hard_links (f : Z -> Z) (i : InodeObj) : InodeObj :=
  MkInode (number i) (i_mode i) (file_size i) (f (hard_links i)) (i_uid i) (i_gid i).
Definition with_owner (uid gid : Z) (i : InodeObj) : InodeObj :=
  MkInode (number i) (i_mode i) (file_size i) (hard_links i) uid gid.

(** [impl From<DbfsFileType> for InodeMode] (common.rs). *)
Definition inode_mode_of (value : DbfsFileType) : option InodeMode :=
  match value with
  | Directory => Some S_DIR
  | RegularFile => Some S_FILE
  | Symlink => Some S_SYMLINK
  | _ => None
  end.

(** The part of a [StatFs] the conversion of a [DbfsFsStat] fills in. *)
Record StatFs := MkStatFs {
  fs_type : Z; block_size : Z; total_blocks : Z; free_blocks : Z; total_inodes : Z;
  name_len : Z; st_name : bytes }.

(** [impl From<DbfsFsStat> for StatFs] (common.rs). *)
Definition stat_fs_of (value : DbfsFsStat) : StatFs :=
  {| fs_type := w32 (f_fsid value); block_size := f_bsize value; total_blocks := f_blocks value;
     free_blocks := f_bfree value; total_inodes := f_files value;
     name_len := w32 (f_namemax value); st_name := f_name value |}.

Section ops.
Context `{SliceConfig} {D : Type} `{JammDb D} `{RvfsCrate}.

(** A new inode object in the crate's heap. *)
Definition create_tmp_inode (n : Z) (mode : InodeMode) : Rv D Z :=
  match tmp_inode n mode with
  | Some i => new_inode i
  | None => rv_err (bs "create inode failed")
  end.

(** ** Creation *)

Definition dbfs_rvfs_create (dir dentry : Z) (inode_mode : InodeMode) (target_path : option bytes) :
  Rv D unit :=
  d <~ inode_at dir;
  e <~ dentry_at dentry;
  let permission := permission_from_mode inode_mode in
  attr <~ common (bs "dbfs_rvfs_create: dbfs_common_create failed")
            (dbfs_common_create (number d) (d_name_of e) 0 0 time_default permission target_path None);
  n_inode <~ create_tmp_inode (a_ino attr) inode_mode;
  _ <~ update_inode dir (with_file_size (fun z => w64 (z + 1)));
  set_d_inode dentry n_inode.

Definition dbfs_create (dir dentry : Z) : Rv D unit := dbfs_rvfs_create dir dentry S_FILE None.
Definition dbfs_mkdir (dir dentry : Z) : Rv D unit := dbfs_rvfs_create dir dentry S_DIR None.
Definition dbfs_symlink (dir dentry : Z) (target : bytes) : Rv D unit :=
  dbfs_rvfs_create dir dentry S_SYMLINK (Some target).

(** ** Links *)

Definition dbfs_link (old_dentry dir new_dentry : Z) : Rv D unit :=
  old_e <~ dentry_at old_dentry;
  let old_inode := d_inode old_e in
  i <~ inode_at old_inode;
  e <~ dentry_at new_dentry;
  d <~ inode_at dir;
  _ <~ common (bs "DbfsError::NotFound")
         (dbfs_common_link 0 0 (number i) (number d) (d_name_of e) time_default);
  _ <~ update_inode old_inode (with_hard_links (fun z => w32 (z + 1)));
  _ <~ update_inode dir (with_file_size (fun z => w64 (z + 1)));
  set_d_inode new_dentry old_inode.

Definition dbfs_unlink (dir dentry : Z) : Rv D unit :=
  e <~ dentry_at dentry;
  let inode := d_inode e in
  i <~ inode_at inode;
  d <~ inode_at dir;
  _ <~ common (bs "dbfs_common_unlink failed")
         (dbfs_common_unlink 0 0 (number d) (d_name_of e) (Some (number i)) time_default);
  update_inode inode (with_hard_links (fun z => w32 (z - 1))).

Definition dbfs_rmdir (dir dentry : Z) : Rv D unit :=
  d <~ inode_at dir;
  e <~ dentry_at dentry;
  _ <~ common (bs "dbfs_common_rmdir failed")
         (dbfs_common_rmdir 0 0 (number d) (d_name_of e) time_default);
  update_inode dir (with_file_size (fun z => w64 (z - 1))).

(** ** Lookup *)

Definition dbfs_lookup (dir dentry : Z) : Rv D unit :=
  d <~ inode_at dir;
  e <~ dentry_at dentry;
  res <~ common (bs "dbfs_common_lookup failed") (dbfs_common_lookup (number d) (d_name_of e));
  mode <~ rv_unwrap (inode_mode_of (a_kind res));
  n_inode <~ create_tmp_inode (a_ino res) mode;
  _ <~ update_inode n_inode (with_file_size (fun _ => a_size res));
  _ <~ update_inode n_inode (with_hard_links (fun _ => a_nlink res));
  _ <~ update_inode n_inode (with_owner (a_uid res) (a_gid res));
  set_d_inode dentry n_inode.

(** ** Attributes under the prefix [attr:] *)

Definition attr_key (key : bytes) : bytes := bs "attr:" ++ key.

(** The inode number behind a directory entry. *)
Definition number_of (dentry : Z) : Rv D Z :=
  e <~ dentry_at dentry;
  i <~ inode_at (d_inode e);
  rv_ret (number i).

Definition setattr_tx (n : Z) (key val : bytes) : Tx D unit :=
  bucket ← get_bucket (usize_be n);
  put bucket (attr_key key) val.

Definition dbfs_setattr (dentry : Z) (key val : bytes) : Rv D unit :=
  n <~ number_of dentry;
  common_unwrap (write_tx Unwrap Unwrap (setattr_tx n key val)).

(** The result of [delete]; the transaction is committed in either case. *)
Definition removeattr_tx (n : Z) (key : bytes) : Tx D bool := fun d =>
  match get_bucket (usize_be n) d with
  | Ok (bucket, _) =>
      match db_delete d bucket (attr_key key) with
      | Some d' => Ok (true, d')
      | None => Ok (false, d)
      end
  | Err e => Err e
  | Panic => Panic
  end.

Definition dbfs_removeattr (dentry : Z) (key : bytes) : Rv D unit :=
  n <~ number_of dentry;
  found <~ common_unwrap (write_tx Unwrap Unwrap (removeattr_tx n key));
  if found : bool then rv_ret tt else rv_err (bs "not found").

(** The length of the value, and the buffer after the call. *)
Definition dbfs_getattr (dentry : Z) (key buf : bytes) : Rv D (Z * bytes) :=
  n <~ number_of dentry;
  value <~ common_unwrap (read_tx Unwrap (
    bucket ← get_bucket (usize_be n); get_kv bucket (attr_key key)));
  match value with
  | None => rv_err (bs "not found")
  | Some value =>
      let len := Z.min (zlen value) (zlen buf) in
      buf <~ rv_unwrap (copy_into buf 0 len (take (Z.to_nat len) value));
      rv_ret (zlen value, buf)
  end.

(** The loop over the pairs: the total that was needed, and the names that
    fit, each with a zero behind it. *)
Fixpoint listattr_loop (pairs : list (bytes * bytes)) (len total : Z) (buf : bytes) :
  option (Z * bytes) :=
  match pairs with
  | [] => Some (total, buf)
  | (key, _) :: pairs =>
      if starts_with key (bs "attr:") then
        key ← after_colon key;
        let key_len := zlen key in
        let total := total + (key_len + 1) in
        if zlen buf <=? len + key_len then listattr_loop pairs len total buf
        else
          buf ← copy_into buf len (len + key_len) key;
          buf ← copy_into buf (len + key_len) (len + key_len + 1) [Byte.x00];
          listattr_loop pairs (len + key_len + 1) total buf
      else listattr_loop pairs len total buf
  end.

Definition dbfs_listattr (dentry : Z) (buf : bytes) : Rv D (Z * bytes) :=
  n <~ number_of dentry;
  pairs <~ common_unwrap (read_tx Unwrap (bucket ← get_bucket (usize_be n); kv_pairs bucket));
  rv_unwrap (listattr_loop pairs 0 0 buf).

(** ** Symbolic links *)

Definition dbfs_readlink (dentry : Z) (buf : bytes) : Rv D (Z * bytes) :=
  n <~ number_of dentry;
  common (bs "not a symlink") (dbfs_common_readlink n buf).

(** The name pushed to [lookup_data.symlink_names]. *)
Definition dbfs_followlink (dentry : Z) : Rv D bytes :=
  n <~ number_of dentry;
  value <~ common_unwrap (read_tx Unwrap (
    bucket ← get_bucket (usize_be n);
    value ← get_kv bucket (bs "data"); tx_unwrap value));
  rv_unwrap (to_str value).

(** ** Renaming *)

(** The writes: the value is the number of the new directory, in the same
    directory under the old key; the sizes are written in decimal. *)
Definition rvfs_rename_tx (old_number new_number : Z) (key new_name : bytes) : Tx D unit :=
  let new_value := usize_to_string new_number in
  old_bucket ← tx_expect (get_bucket (usize_be old_number));
  if new_number =? old_number then put old_bucket key new_value
  else
    new_bucket ← tx_expect (get_bucket (usize_be new_number));
    tx_expect (delete old_bucket key);;
    size ← read_usize old_bucket (bs "size");
    put old_bucket (bs "size") (usize_to_string (w64 (size - 1)));;
    put new_bucket (generate_data_key new_name) new_value;;
    size ← read_usize new_bucket (bs "size");
    put new_bucket (bs "size") (usize_to_string (w64 (size + 1))).

(** The objects change just before the commit, whose failure panics. *)
Definition dbfs_rename (old_dir old_dentry new_dir new_dentry : Z) : Rv D unit :=
  o <~ inode_at old_dir;
  e <~ dentry_at old_dentry;
  let key := generate_data_key (d_name_of e) in
  kv <~ common_unwrap (read_tx Unwrap (
    old_bucket ← get_bucket (usize_be (number o)); get_kv old_bucket key));
  n <~ inode_at new_dir;
  match kv with
  | None => rv_err (bs "dbfs_rename: old_dentry not found")
  | Some value =>
      str <~ rv_unwrap (to_str value);
      _ <~ rv_unwrap (parse_usize str);
      e' <~ dentry_at new_dentry;
      _ <~ common_unwrap (write_tx Unwrap Unwrap
             (rvfs_rename_tx (number o) (number n) key (d_name_of e')));
      if number n =? number o then rv_ret tt
      else
        _ <~ update_inode old_dir (with_file_size (fun z => w64 (z - 1)));
        update_inode new_dir (with_file_size (fun z => w64 (z + 1)))
  end.

(** ** Sizes and contents *)

(** The new size is the one the crate has cached. *)
Definition dbfs_truncate (inode : Z) : Rv D unit :=
  i <~ inode_at inode;
  _ <~ common (bs "dbfs_truncate: truncate failed")
         (dbfs_common_truncate 0 0 (number i) time_default (file_size i));
  rv_ret tt.

(** The file's directory entry stands for the file. *)
Definition dbfs_file_write `{!Memory} (f_dentry : Z) (buf : bytes) (offset : Z) : Rv D Z :=
  n <~ number_of f_dentry;
  common (bs "dbfs_common_write error") (dbfs_common_write n buf offset).

Definition dbfs_file_read (f_dentry : Z) (buf : bytes) (offset : Z) : Rv D (Z * bytes) :=
  n <~ number_of f_dentry;
  common (bs "dbfs_common_read error") (dbfs_common_read n buf offset).

(** ** Mounting: fs_type.rs *)

Definition dbfs_create_root_inode : Rv D Z :=
  count <~ common (bs "create root inode failed") (dbfs_common_root_inode 0 0 time_default);
  inode <~ create_tmp_inode 1 S_DIR;
  _ <~ update_inode inode (with_hard_links (fun _ => 0));
  _ <~ update_inode inode (with_file_size (fun _ => count));
  rv_ret inode.

Definition dbfs_create_root_dentry (inode : Z) : Rv D Z := new_dentry (MkDentry (bs "/") inode).

(** The root entry of the super block. *)
Definition dbfs_fill_super_block : Rv D Z :=
  inode <~ dbfs_create_root_inode;
  dbfs_create_root_dentry inode.

(** [exists_]: the crate knows a super block of the device. *)
Definition dbfs_get_super_blk (exists_ : bool) (flags : Z) : Rv D (SuperBlk * Z) :=
  if exists_ then rv_err (bs "super block exist, can't create new one")
  else
    sb <~ (fun v => match dbfs_create_simple_super_blk flags (v_world v) with
                    | (Ok (inr sb), w) => (Some (inr sb), set_world v w)
                    | (Ok (inl msg), w) => (Some (inl msg), set_world v w)
                    | (_, w) => (None, set_world v w)
                    end);
    root <~ dbfs_fill_super_block;
    rv_ret (sb, root).
End ops.
