(* ===== verification/RvfsFacts.v ===== *)
(** * The objects of the rvfs interface and the database

    What the operations of [Rvfs] do to the cached sizes, link counts and
    owners: which of them keep the objects in step with the tree in the
    database, and which do not. *)

From S2P Require Import Prelude Bytes Common Store MapDb Access Tree Layout Image Inode Dir Truncate File SuperBlock Fuse Rvfs.

(** The object shows the node. *)
Definition shows (n : node) (i : InodeObj) : Prop :=
  file_size i = n_size n /\ hard_links i = n_nlink n /\ i_uid i = n_uid n /\ i_gid i = n_gid n.

(** The object shows the node of its number, while there is one. *)
Definition in_step (s : fs) (i : InodeObj) : Prop :=
  forall n, f_nodes s !! number i = Some n -> shows n i.

(** Every object of the heap is in step, and no two are for one inode. *)
Record all_in_step (m : gmap Z InodeObj) (s : fs) : Prop := {
  st_step : forall l i, m !! l = Some i -> in_step s i;
  st_one : forall l l' i i', m !! l = Some i -> m !! l' = Some i' ->
    number i = number i' -> l = l' }.

(** The database stands for [s] and the objects are in step with it. *)
Definition coherent {D} `{JammDb D} (v : vfs D) (s : fs) : Prop :=
  represents (w_db (v_world v)) s /\ all_in_step (v_inodes v) s.

Section rules.
Context {D : Type}.
Implicit Types v : vfs D.

Lemma rv_bind_ok {A B} (m : Rv D A) (f : A -> Rv D B) v a v' :
  m v = (Some (inr a), v') -> rv_bind m f v = f a v'.
Proof. intros E. unfold rv_bind. by rewrite E. Qed.

Lemma rv_bind_msg {A B} (m : Rv D A) (f : A -> Rv D B) v msg v' :
  m v = (Some (inl msg), v') -> rv_bind m f v = (Some (inl msg), v').
Proof. intros E. unfold rv_bind. by rewrite E. Qed.

Lemma common_ok {A} msg (m : Op D A) v a w :
  m (v_world v) = (Ok a, w) -> common msg m v = (Some (inr a), set_world v w).
Proof. intros E. unfold common. by rewrite E. Qed.

Lemma common_unwrap_ok {A} (m : Op D A) v a w :
  m (v_world v) = (Ok a, w) -> common_unwrap m v = (Some (inr a), set_world v w).
Proof. intros E. apply common_ok. unfold op_expect. by rewrite E. Qed.

Lemma inode_at_ok v l i : v_inodes v !! l = Some i -> inode_at l v = (Some (inr i), v).
Proof. intros E. unfold inode_at. by rewrite E. Qed.

Lemma dentry_at_ok v l e : v_dentries v !! l = Some e -> dentry_at l v = (Some (inr e), v).
Proof. intros E. unfold dentry_at. by rewrite E. Qed.

Lemma number_of_ok v l e i :
  v_dentries v !! l = Some e -> v_inodes v !! d_inode e = Some i ->
  number_of l v = (Some (inr (number i)), v).
Proof.
  intros He Hi. unfold number_of. erewrite rv_bind_ok by (by apply dentry_at_ok).
  by erewrite rv_bind_ok by (by apply inode_at_ok).
Qed.
End rules.

(** One step of an operation whose outcome the context determines. *)
Ltac rv_step := erewrite rv_bind_ok; [|first
  [ eapply inode_at_ok; cbn; eassumption | eapply dentry_at_ok; cbn; eassumption
  | eapply number_of_ok; cbn; eassumption
  | eapply common_ok; cbn; eassumption | eapply common_unwrap_ok; cbn; eassumption
  | reflexivity ]]; cbv beta.

(** ** Changes of the tree and of the objects, side by side *)

Lemma in_step_upd_ne s j g i : number i <> j -> in_step s i -> in_step (upd j g s) i.
Proof. intros Hne Hi n. rewrite upd_lookup_ne by done. apply Hi. Qed.

Lemma in_step_upd s j g f i :
  number (f i) = number i -> (forall n, shows n i -> shows (g n) (f i)) ->
  number i = j -> in_step s i -> in_step (upd j g s) (f i).
Proof.
  intros Hf Hg <- Hi n. rewrite Hf, upd_lookup.
  destruct (f_nodes s !! number i) as [m|] eqn:Em; [|done]. cbn.
  rewrite decide_True by done. intros [= <-]. by apply Hg, Hi.
Qed.

(** The node [j] and the cache of its object change together. *)
Lemma all_in_step_upd m s l j g f i :
  all_in_step m s -> m !! l = Some i -> number i = j ->
  (forall i, number (f i) = number i) -> (forall n i, shows n i -> shows (g n) (f i)) ->
  all_in_step (alter f l m) (upd j g s).
Proof.
  intros [Hst Hone] Hl Hj Hf Hg. split.
  - intros l' i'. rewrite lookup_alter_Some. intros [[<- (i0 & E & ->)]|[Hne E]].
    + rewrite Hl in E. injection E as <-. apply in_step_upd; eauto.
    + apply in_step_upd_ne; [|by eapply Hst].
      intros E'. apply Hne. eapply Hone; [exact Hl|exact E|congruence].
  - intros l1 l2 i1 i2. rewrite !lookup_alter_Some.
    intros [[<- (k1 & E1 & ->)]|[_ E1]] [[<- (k2 & E2 & ->)]|[_ E2]]; rewrite ?Hf; eauto.
Qed.

Lemma all_in_step_remove m s j : all_in_step m s -> all_in_step m (remove_node j s).
Proof.
  intros [Hst Hone]. split; [|done]. intros l i E n. cbn.
  rewrite lookup_delete_Some. intros [_ En]. by eapply Hst.
Qed.

(** A new object in step, of an inode no object was for. *)
Lemma all_in_step_new m s l i :
  all_in_step m s -> m !! l = None -> in_step s i ->
  (forall l' i', m !! l' = Some i' -> number i' <> number i) ->
  all_in_step (<[l := i]> m) s.
Proof.
  intros [Hst Hone] Hl Hi Hnew. split.
  - intros l' i'. rewrite lookup_insert_Some. intros [[<- <-]|[_ E]]; [done|by eapply Hst].
  - intros l1 l2 i1 i2. rewrite !lookup_insert_Some.
    intros [[<- <-]|[_ E1]] [[<- <-]|[_ E2]] En; eauto.
    + by destruct (Hnew l2 i2 E2).
    + by destruct (Hnew l1 i1 E1).
Qed.

Lemma shows_enter name ino t n i :
  shows n i -> shows (enter name ino t n) (with_file_size (fun z => w64 (z + 1)) i).
Proof. intros (Hz & ? & ? & ?). split_and!; [cbn; by rewrite Hz|done..]. Qed.

Lemma shows_leave name t n i :
  shows n i -> shows (leave name t n) (with_file_size (fun z => w64 (z - 1)) i).
Proof. intros (Hz & ? & ? & ?). split_and!; [cbn; by rewrite Hz|done..]. Qed.

Lemma shows_relink k t n i :
  shows n i -> shows (relink (w32 (n_nlink n + k)) t n) (with_hard_links (fun z => w32 (z + k)) i).
Proof. intros (? & Hl & ? & ?). split_and!; [done|cbn; by rewrite Hl|done..]. Qed.

(** ** Decimal strings *)

Lemma dec_digits_len f k n :
  0 <= n < 10 ^ Z.of_nat k -> (0 < k)%nat -> (length (dec_digits f n) <= k)%nat.
Proof.
  revert k n. induction f as [|f IH]; intros k n Hn Hk; cbn [dec_digits]; [cbn; lia|].
  rewrite length_app. cbn [length]. destruct (Z.ltb_spec n 10); [cbn; lia|].
  destruct k as [|[|k]]; [lia|cbn in Hn; lia|].
  rewrite Nat2Z.inj_succ, Z.pow_succ_r in Hn by lia.
  specialize (IH (S k) (n / 10)).
  assert (0 <= n / 10 < 10 ^ Z.of_nat (S k)).
  { split; [apply Z.div_pos; lia|apply Z.div_lt_upper_bound; lia]. }
  lia.
Qed.

(** A decimal number of at most seven digits is no stored [usize]. *)
Lemma usize_of_decimal n : 0 <= n < 10 ^ 7 -> usize_of (usize_to_string n) = None.
Proof.
  intros Hn. unfold usize_of, from_be_n, usize_to_string.
  pose proof (dec_digits_len 20 7 n Hn ltac:(lia)).
  by replace (length (dec_digits 20 n) =? 8)%nat with false by (symmetry; apply Nat.eqb_neq; lia).
Qed.

Lemma to_str_usize n : 0 <= n -> to_str (usize_to_string n) = Some (usize_to_string n).
Proof. intros Hn. unfold to_str. by rewrite utf8_ascii by (by apply dec_digits_ascii). Qed.

Section facts.
Context `{SliceConfig} {D : Type} `{JammDb D, !JammDbLaws D, !Reliable D} `{RvfsCrate}.
Implicit Types v : vfs D.

(** ** Lookup and links *)

(** [dbfs_lookup] makes an object that shows the node. When the name is in
    the directory and the crate makes the object, the operation succeeds
    without a change of the database; the directory entry then refers to a
    new object with the number, size, link count and owner of the node the
    name stands for, the other objects are untouched, and the state stays
    coherent when no object was for that inode. *)
Theorem rvfs_lookup_in_step v s dir d dentry e ino n t mode i0 :
  coherent v s -> v_inodes v !! dir = Some d -> v_dentries v !! dentry = Some e ->
  entry s (number d) (d_name_of e) = Some ino -> f_nodes s !! ino = Some n ->
  file_type_of_perm (n_mode n) = Some t -> inode_mode_of t = Some mode ->
  tmp_inode ino mode = Some i0 ->
  exists v' l i,
    dbfs_lookup dir dentry v = (Some (inr tt), v') /\ v_world v' = v_world v /\
    v_inodes v !! l = None /\ v_inodes v' = <[l := i]> (v_inodes v) /\
    v_dentries v' !! dentry = Some (MkDentry (d_name_of e) l) /\
    number i = ino /\ shows n i /\
    ((forall l' i', v_inodes v !! l' = Some i' -> number i' <> ino) -> coherent v' s).
Proof.
  intros [Hr Hst] Hd He Hen Hn Ht Hm Hi.
  set (l := fresh (dom (v_inodes v))).
  assert (Hl : v_inodes v !! l = None) by apply not_elem_of_dom, is_fresh.
  set (i := with_owner (n_uid n) (n_gid n) (with_hard_links (fun _ => n_nlink n)
              (with_file_size (fun _ => n_size n) i0))).
  assert (Hnum : number i = ino) by (by apply tmp_inode_number in Hi).
  assert (Hrun : dbfs_common_lookup (number d) (d_name_of e) (v_world v) =
    (Ok (attr_of ino n t), v_world v)).
  { assert (is_Some (f_nodes s !! number d)) as [p Hp].
    { unfold entry in Hen. by destruct (f_nodes s !! number d). }
    rewrite (lookup_runs _ s _ _ Hr (rep_ino _ _ _ _ Hr Hp)). unfold t_lookup.
    rewrite Hp, (entry_some _ _ _ _ _ Hp Hen). cbn. unfold t_attr. by rewrite Hn, Ht. }
  exists (Vfs (v_world v) (<[l := i]> (v_inodes v))
    (alter (fun e => MkDentry (d_name_of e) l) dentry (v_dentries v))), l, i.
  split_and!; try done.
  - unfold dbfs_lookup. do 3 rv_step. cbn [a_kind attr_of]. rewrite Hm. rv_step.
    unfold create_tmp_inode. cbn [a_ino attr_of]. rewrite Hi. do 4 rv_step.
    unfold set_d_inode. cbn [v_world v_inodes v_dentries set_world]. fold l.
    rewrite !alter_insert_eq. done.
  - cbn. rewrite lookup_alter_eq, He. done.
  - intros Hnew. split; [done|]. apply all_in_step_new; [done|done| |by rewrite Hnum].
    intros m. rewrite Hnum, Hn. intros [= <-]. done.
Qed.

(** C34: [dbfs_link] keeps the objects in step: when the old entry is of a file and
    the new name's directory another inode, the operation succeeds, the
    database stands for the tree with the new link, the new entry refers to
    the old object, and every object still shows its node: the file's
    cached link count and the directory's cached size grew with the tree. *)
Theorem rvfs_link_in_step v s old o i dir d dentry e n p :
  coherent v s -> v_dentries v !! old = Some o -> v_inodes v !! d_inode o = Some i ->
  v_inodes v !! dir = Some d -> v_dentries v !! dentry = Some e ->
  f_nodes s !! number i = Some n -> f_nodes s !! number d = Some p -> number i <> number d ->
  exists v',
    dbfs_link old dir dentry v = (Some (inr tt), v') /\
    coherent v' (t_link (number i) (number d) (d_name_of e) time_default s) /\
    v_dentries v' !! dentry = Some (MkDentry (d_name_of e) (d_inode o)).
Proof.
  intros [Hr Hst] Ho Hi Hd He Hn Hp Hne.
  destruct (link_runs (v_world v) s 0 0 (number i) (number d) (d_name_of e) time_default p n)
    as (d' & tn & Hr' & _ & Hrun); [done..|apply checkout_root_write|].
  unfold dbfs_link. do 5 rv_step. do 2 rv_step. eexists. split; [reflexivity|].
  cbn [v_world v_inodes v_dentries set_world]. split; [split; [done|]|].
  - unfold t_link. rewrite upd_comm by done.
    assert (Hst1 := all_in_step_upd _ _ _ _ (fun n => relink (w32 (n_nlink n + 1)) time_default n)
      (with_hard_links (fun z => w32 (z + 1))) _ Hst Hi eq_refl ltac:(done)
      (shows_relink 1 time_default)).
    apply (all_in_step_upd _ _ _ _ _ _ d Hst1); [|done|done|apply shows_enter].
    rewrite lookup_alter_ne; [done|]. intros E. rewrite E in Hi. congruence.
  - cbn. by rewrite lookup_alter_eq, He.
Qed.

(** [dbfs_rmdir] keeps the objects in step: for a directory without entries
    of its own under a name of a well-formed tree, the operation succeeds,
    the directory is gone and every object shows its node, the parent's
    cached size having shrunk with the tree. *)
Theorem rvfs_rmdir_in_step v s dir d dentry e ino p n :
  coherent v s -> wf s -> v_inodes v !! dir = Some d -> v_dentries v !! dentry = Some e ->
  entry s (number d) (d_name_of e) = Some ino -> ino <> number d ->
  f_nodes s !! number d = Some p -> f_nodes s !! ino = Some n -> n_size n <= 2 ->
  exists v',
    dbfs_rmdir dir dentry v = (Some (inr tt), v') /\
    coherent v' (remove_node ino (upd (number d) (leave (d_name_of e) time_default) s)).
Proof.
  intros [Hr Hst] Hwf Hd He Hen Hne Hp Hn Hz.
  pose proof (rmdir_runs (v_world v) s 0 0 (number d) (d_name_of e) time_default Hr
    (rep_ino _ _ _ _ Hr Hp) ltac:(done)) as Hrun.
  unfold t_rmdir_op in Hrun. rewrite Hp, (entry_some _ _ _ _ _ Hp Hen), Hn in Hrun.
  rewrite Zltb_f in Hrun by lia. rewrite checkout_root_write in Hrun. cbn [negb] in Hrun.
  unfold sticky_denies in Hrun. rewrite andb_false_r in Hrun. cbn [andb] in Hrun.
  destruct Hrun as (d' & Hrun & Hr'); [congruence|].
  unfold dbfs_rmdir. do 3 rv_step. eexists. split; [reflexivity|].
  split; [done|]. cbn. apply all_in_step_remove.
  apply (all_in_step_upd _ _ _ _ _ _ d Hst); [done|done|done|apply shows_leave].
Qed.

(** [dbfs_unlink] leaves the directory's cached size behind. For a file with
    another name, unlinking succeeds and the file's object still shows the
    file; the directory's object is as before although the directory has
    one entry less, so it no longer shows its node. *)
Theorem rvfs_unlink_out_of_step v s dir d dentry e i p n :
  coherent v s -> wf s -> v_inodes v !! dir = Some d -> v_dentries v !! dentry = Some e ->
  v_inodes v !! d_inode e = Some i -> entry s (number d) (d_name_of e) = Some (number i) ->
  f_nodes s !! number d = Some p -> f_nodes s !! number i = Some n ->
  number i <> number d -> n_nlink n <> 1 ->
  exists v' s' p' i',
    dbfs_unlink dir dentry v = (Some (inr tt), v') /\
    represents (w_db (v_world v')) s' /\ entry s' (number d) (d_name_of e) = None /\
    v_inodes v' !! d_inode e = Some i' /\ in_step s' i' /\
    v_inodes v' !! dir = Some d /\ f_nodes s' !! number d = Some p' /\
    file_size d = n_size p' + 1 /\ ~ in_step s' d.
Proof.
  intros [Hr Hst] Hwf Hd He Hi Hen Hp Hn Hne Hl.
  pose proof (entry_some _ _ _ _ _ Hp Hen) as Hpe.
  pose proof (unlink_runs (v_world v) s 0 0 (number d) (d_name_of e) (Some (number i))
    time_default Hr (rep_ino _ _ _ _ Hr Hp) ltac:(done)) as Hrun.
  unfold t_unlink_op in Hrun. rewrite Hp, Hpe in Hrun. cbn [from_option id] in Hrun.
  rewrite checkout_root_write, Hn in Hrun. cbn [negb] in Hrun.
  unfold sticky_denies in Hrun. rewrite andb_false_r in Hrun. cbn [andb] in Hrun.
  destruct Hrun as (d' & Hrun & Hr').
  { intros j [= <-]. split; [by eapply rep_ino|done]. }
  { congruence. }
  unfold t_unlink in Hr'. rewrite (Zeqb_ne _ _ Hl) in Hr'.
  set (s' := upd (number i) _ _) in Hr'.
  assert (Hp' : f_nodes s' !! number d = Some (leave (d_name_of e) time_default p)).
  { unfold s'. rewrite upd_lookup_ne by done. by apply upd_lookup_eq. }
  destruct (entry_is_dir _ _ _ _ Hwf Hen) as (p0 & Hp0 & Hpd).
  rewrite Hp in Hp0. injection Hp0 as <-.
  pose proof (leave_size s (number d) p (d_name_of e) (d_name_of e) (number i) time_default
    Hwf (rep_ok _ _ _ _ Hr Hp) Hp Hen) as Hls.
  pose proof (st_step _ _ Hst _ _ Hd _ Hp) as (Hdz & _).
  unfold dbfs_unlink. do 4 rv_step. eexists _, s', _, _. split_and!.
  - reflexivity.
  - exact Hr'.
  - unfold s'. rewrite entry_upd_same by done. rewrite entry_upd, decide_True, Hp by done.
    apply lookup_delete_eq.
  - cbn. by rewrite lookup_alter_eq, Hi.
  - unfold s'. apply in_step_upd;
      [done|intros m; exact (shows_relink (-1) time_default m i)|done|].
    apply in_step_upd_ne; [done|]. by apply (st_step _ _ Hst (d_inode e)).
  - cbn. rewrite lookup_alter_ne; [done|]. intros E. rewrite E in Hi. congruence.
  - exact Hp'.
  - lia.
  - intros Hs. destruct (Hs _ Hp') as (Hz & _). lia.
Qed.

(** ** Renaming *)

(** A size that is not eight bytes long: the attributes cannot be read. *)
Lemma attr_panics (w : world D) ino (z : bytes) :
  db_get (w_db w) (usize_be ino) (bs "size") = Some z -> usize_of z = None ->
  dbfs_common_attr ino w = (Panic, w).
Proof.
  intros Hg Hv. unfold dbfs_common_attr, read_tx, dropped_tx. rewrite begin_ok.
  unfold attr_tx. erewrite tx_bind_ok by (eapply get_bucket_ok, db_has_some; exact Hg).
  erewrite tx_bind_panic; [done|]. unfold read_usize, read_field, mbind, tx_bind, get_kv.
  rewrite Hg. cbn. by rewrite Hv.
Qed.

(** What the writes between two directories leave behind. *)
Lemma rvfs_rename_runs (db : D) s o n name new_name ino po pn :
  represents db s -> f_nodes s !! o = Some po -> f_nodes s !! n = Some pn -> n <> o ->
  n_entries po !! name = Some ino ->
  exists db', rvfs_rename_tx o n (generate_data_key name) new_name db = Ok (tt, db') /\
    db_get db' (usize_be n) (generate_data_key new_name) = Some (usize_to_string n) /\
    db_get db' (usize_be o) (generate_data_key name) = None /\
    db_get db' (usize_be o) (bs "size") = Some (usize_to_string (w64 (n_size po - 1))) /\
    db_get db' (usize_be n) (bs "size") = Some (usize_to_string (w64 (n_size pn + 1))).
Proof.
  intros Hr Ho Hn Hne He.
  assert (Hb : usize_be n <> usize_be o).
  { intros E. apply Hne. apply usize_be_inj; [by eapply rep_ino..|done]. }
  assert (Hb' : usize_be o <> usize_be n) by congruence.
  pose proof (rep_has _ _ _ _ Hr Ho) as Hho. pose proof (rep_has _ _ _ _ Hr Hn) as Hhn.
  pose proof (rep_get _ _ _ _ KSize Hr Ho I) as Hso. cbn in Hso.
  pose proof (rep_get _ _ _ _ KSize Hr Hn I) as Hsn. cbn in Hsn.
  pose proof (ok_size _ (rep_ok _ _ _ _ Hr Ho)) as Hzo.
  pose proof (ok_size _ (rep_ok _ _ _ _ Hr Hn)) as Hzn.
  pose proof (rep_get _ _ _ _ (KEntry name) Hr Ho I) as Hk. cbn in Hk. rewrite He in Hk.
  destruct (db_delete_some _ _ _ _ Hk) as [d1 Hd].
  assert (Hh : forall b, db_has d1 b = db_has db b) by (intros; by eapply db_has_delete).
  assert (Ho1 : db_get d1 (usize_be o) (bs "size") = Some (usize_be (n_size po))).
  { erewrite db_get_delete_ne by (first [exact Hd|right; key_neq]). done. }
  assert (Hn1 : db_get d1 (usize_be n) (bs "size") = Some (usize_be (n_size pn))).
  { erewrite db_get_delete_ne by (first [exact Hd|right; key_neq]). done. }
  rewrite <- Hh in Hho, Hhn.
  unfold rvfs_rename_tx. cbv zeta.
  erewrite tx_bind_ok by (apply tx_expect_ok, get_bucket_ok; by rewrite <- Hh).
  rewrite (Zeqb_ne n o) by done.
  erewrite tx_bind_ok by (apply tx_expect_ok, get_bucket_ok; by rewrite <- Hh).
  erewrite tx_bind_ok by (by apply tx_expect_ok, delete_ok).
  do 4 tx_step. eexists. split; [reflexivity|].
  assert (Hdel : db_get d1 (usize_be o) (generate_data_key name) = None)
    by (by eapply db_get_delete_eq).
  split_and!; db_simpl; done.
Qed.

(** C33: [dbfs_rename] between two directories destroys both. For an entry of the
    old directory the operation reports success, but the entry it writes in
    the new one holds the number of the new directory, not that of the
    renamed inode, and the sizes are written as decimal strings, which no
    reader of the eight-byte value accepts: while the directories have
    fewer than 10^7 entries, reading the attributes of either directory
    panics afterwards. *)
Theorem rvfs_rename_destroys v s old_dir o old e new_dir n new e' ino po pn :
  represents (w_db (v_world v)) s ->
  v_inodes v !! old_dir = Some o -> v_dentries v !! old = Some e ->
  v_inodes v !! new_dir = Some n -> v_dentries v !! new = Some e' ->
  f_nodes s !! number o = Some po -> f_nodes s !! number n = Some pn ->
  number n <> number o -> entry s (number o) (d_name_of e) = Some ino ->
  1 <= n_size po < 10 ^ 7 -> n_size pn + 1 < 10 ^ 7 ->
  exists v',
    dbfs_rename old_dir old new_dir new v = (Some (inr tt), v') /\
    db_get (w_db (v_world v')) (usize_be (number n)) (generate_data_key (d_name_of e')) =
      Some (usize_to_string (number n)) /\
    dbfs_common_attr (number o) (v_world v') = (Panic, v_world v') /\
    dbfs_common_attr (number n) (v_world v') = (Panic, v_world v').
Proof.
  intros Hr Ho He Hn He' Hpo Hpn Hne Hen Hzo Hzn.
  pose proof (entry_some _ _ _ _ _ Hpo Hen) as Hpe.
  pose proof (ok_entries _ (rep_ok _ _ _ _ Hr Hpo) _ _ Hpe) as Hino.
  pose proof (ok_size _ (rep_ok _ _ _ _ Hr Hpn)) as [Hz0 _].
  destruct (rvfs_rename_runs _ s (number o) (number n) (d_name_of e) (d_name_of e') ino po pn
    Hr Hpo Hpn Hne Hpe) as (db' & Hrun & Hent & _ & Hso & Hsn).
  pose proof (rep_get _ _ _ _ (KEntry (d_name_of e)) Hr Hpo I) as Hk.
  cbn in Hk. rewrite Hpe in Hk.
  unfold dbfs_rename. do 2 rv_step.
  erewrite rv_bind_ok.
  2: { apply common_unwrap_ok. apply read_tx_ok with (d := w_db (v_world v)).
       erewrite tx_bind_ok by (eapply get_bucket_ok, rep_has; eassumption).
       unfold get_kv. rewrite Hk. reflexivity. }
  cbv beta. rv_step. cbn [fmap option_fmap option_map].
  rewrite to_str_usize by (unfold is_u64 in Hino; lia). rv_step.
  rewrite parse_usize_to_string by done. do 2 rv_step.
  erewrite rv_bind_ok by (by apply common_unwrap_ok, write_tx_ok).
  cbv beta. rewrite (Zeqb_ne (number n) (number o)) by done. rv_step.
  eexists. split; [reflexivity|]. cbn [v_world set_world set_db w_db].
  rewrite w64_small in Hso, Hsn by (unfold is_u64; lia).
  split_and!.
  - exact Hent.
  - eapply attr_panics; [exact Hso|]. apply usize_of_decimal. lia.
  - eapply attr_panics; [exact Hsn|]. apply usize_of_decimal. lia.
Qed.

(** ** Attributes under the prefix [attr:] *)

(** [let len = min(value.len(), buf.len()); buf[..len] = value[..len]]. *)
Lemma copy_prefix (x buf : bytes) :
  copy_into buf 0 (Z.min (zlen x) (zlen buf))
    (take (Z.to_nat (Z.min (zlen x) (zlen buf))) x) =
  Some (take (length buf) x ++ drop (length x) buf).
Proof.
  assert (E : Z.to_nat (Z.min (zlen x) (zlen buf)) = (length x `min` length buf)%nat)
    by (unfold zlen; lia).
  rewrite E. rewrite copy_into_ok.
  - unfold splice. change (Z.to_nat 0) with 0%nat. rewrite take_0, app_nil_l, length_take.
    f_equal. f_equal.
    + destruct (Nat.le_ge_cases (length x) (length buf)).
      * rewrite !take_ge by lia. done.
      * f_equal. lia.
    + destruct (Nat.le_ge_cases (length x) (length buf)); [f_equal; lia|].
      rewrite !drop_ge by lia. done.
  - done.
  - unfold zlen. rewrite length_take. lia.
  - unfold zlen. rewrite ?length_take. lia.
Qed.

Lemma getattr_runs v dentry e i key buf val :
  v_dentries v !! dentry = Some e -> v_inodes v !! d_inode e = Some i ->
  db_has (w_db (v_world v)) (usize_be (number i)) = true ->
  db_get (w_db (v_world v)) (usize_be (number i)) (attr_key key) = val ->
  dbfs_getattr dentry key buf v =
  (Some match val with
        | None => inl (bs "not found")
        | Some x => inr (zlen x, take (length buf) x ++ drop (length x) buf)
        end, v).
Proof.
  intros He Hi Hb Hg. unfold dbfs_getattr. rv_step. erewrite rv_bind_ok.
  2: { apply common_unwrap_ok. apply read_tx_ok with (d := w_db (v_world v)).
       erewrite tx_bind_ok by (by apply get_bucket_ok). unfold get_kv. rewrite Hg. reflexivity. }
  cbv beta. destruct val as [x|]; [|by destruct v].
  rewrite copy_prefix. rv_step. by destruct v.
Qed.

(** The attributes of the rvfs interface are a map. On an entry whose inode
    exists, [dbfs_setattr] succeeds; [dbfs_getattr] of the key then reports
    the length of the value and fills the buffer with as much of it as
    fits; [dbfs_removeattr] takes the attribute away, after which both
    answer [not found] and nothing changes. No pair of the database whose
    key has not the prefix [attr:] is touched, and no attribute under
    another key. *)
Theorem rvfs_attr_roundtrip v dentry e i key val :
  v_dentries v !! dentry = Some e -> v_inodes v !! d_inode e = Some i ->
  db_has (w_db (v_world v)) (usize_be (number i)) = true ->
  exists v1 v2,
    dbfs_setattr dentry key val v = (Some (inr tt), v1) /\
    (forall buf, dbfs_getattr dentry key buf v1 =
      (Some (inr (zlen val, take (length buf) val ++ drop (length val) buf)), v1)) /\
    dbfs_removeattr dentry key v1 = (Some (inr tt), v2) /\
    (forall buf, dbfs_getattr dentry key buf v2 = (Some (inl (bs "not found")), v2)) /\
    dbfs_removeattr dentry key v2 = (Some (inl (bs "not found")), v2) /\
    (forall b k, k <> attr_key key ->
      db_get (w_db (v_world v1)) b k = db_get (w_db (v_world v)) b k /\
      db_get (w_db (v_world v2)) b k = db_get (w_db (v_world v)) b k).
Proof.
  intros He Hi Hb. set (b0 := usize_be (number i)) in *.
  set (d1 := db_put (w_db (v_world v)) b0 (attr_key key) val).
  assert (Hb1 : db_has d1 b0 = true) by (unfold d1; by rewrite db_has_put).
  assert (Hg1 : db_get d1 b0 (attr_key key) = Some val) by (by apply db_get_put_eq).
  destruct (db_delete_some _ _ _ _ Hg1) as [d2 Hd2].
  assert (Hb2 : db_has d2 b0 = true) by (by rewrite (db_has_delete _ _ _ _ _ Hd2)).
  assert (Hg2 : db_get d2 b0 (attr_key key) = None) by (by eapply db_get_delete_eq).
  exists (set_world v (set_db (v_world v) d1)), (set_world v (set_db (v_world v) d2)).
  split_and!.
  - unfold dbfs_setattr. rv_step. apply common_unwrap_ok, write_tx_ok.
    unfold setattr_tx. by erewrite tx_bind_ok by (by apply get_bucket_ok).
  - intros buf. by eapply (getattr_runs (set_world v (set_db (v_world v) d1)) _ _ _ _ _ (Some val)).
  - unfold dbfs_removeattr. rv_step. erewrite rv_bind_ok.
    2: { apply common_unwrap_ok, write_tx_ok. unfold removeattr_tx.
         cbn [w_db v_world set_world set_db]. fold b0. rewrite (get_bucket_ok _ _ Hb1), Hd2. done. }
    done.
  - intros buf. by eapply (getattr_runs (set_world v (set_db (v_world v) d2)) _ _ _ _ _ None).
  - unfold dbfs_removeattr. rv_step. erewrite rv_bind_ok.
    2: { apply common_unwrap_ok, write_tx_ok. unfold removeattr_tx.
         cbn [w_db v_world set_world set_db]. fold b0. rewrite (get_bucket_ok _ _ Hb2).
         apply db_delete_None in Hg2. rewrite Hg2. done. }
    done.
  - intros b k Hk. cbn. split; [by apply db_get_put_key|].
    rewrite (db_get_delete_ne _ _ _ _ _ _ Hd2) by (by right). by apply db_get_put_key.
Qed.
End facts.

(** ** Witnesses *)

(** A crate whose new objects are empty. *)
#[local] Instance sample_crate : RvfsCrate.
Proof. refine {| tmp_inode n m := Some (MkInode n m 0 0 0 0) |}. by intros n m i [= <-]. Defined.

(** The root with the file [a] under a second name [b], and the directory [d]. *)
Definition linked_fs : fs := t_link 2 1 (bs "b") sample_time tree_fs.

Definition sample_vfs (s : fs) (size links : Z) : vfs mapdb :=
  Vfs (World (image s) 4 ∅)
    {[10 := MkInode 1 S_DIR size 2 0 0; 11 := MkInode 2 S_FILE 0 links 1000 1000;
      12 := MkInode 3 S_DIR 2 2 0 0]}
    {[20 := MkDentry (bs "a") 11; 21 := MkDentry (bs "d") 12; 22 := MkDentry (bs "c") 0]}.

Lemma linked_fs_ok : fs_ok linked_fs.
Proof.
  unfold linked_fs, t_link. apply fs_ok_upd; [apply fs_ok_upd; [apply tree_fs_ok|]|].
  - intros n Hn Hok. injection Hn as <-. unfold enter, touch.
    apply ok_with_ctime; [done|]. apply ok_with_mtime; [done|]. apply ok_with_size; [done|].
    by apply ok_with_entry.
  - intros n Hn Hok. injection Hn as <-. unfold relink.
    apply ok_with_ctime; [done|]. by apply ok_with_nlink.
Qed.

Lemma linked_fs_wf : wf linked_fs.
Proof.
  eapply (t_link_wf tree_fs 2 1 (bs "b") sample_time); try reflexivity.
  - apply tree_fs_wf.
  - by apply (proj2 tree_fs_ok 1).
  - by apply (proj2 tree_fs_ok 2).
  - by intros [].
Qed.

Lemma sample_coherent s size links :
  fs_ok s -> all_in_step (v_inodes (sample_vfs s size links)) s ->
  coherent (sample_vfs s size links) s.
Proof. intros Hs Ho. split; [by apply image_represents|done]. Qed.

Lemma sample_objects s size links n1 n2 n3 :
  f_nodes s !! 1 = Some n1 -> f_nodes s !! 2 = Some n2 -> f_nodes s !! 3 = Some n3 ->
  shows n1 (MkInode 1 S_DIR size 2 0 0) -> shows n2 (MkInode 2 S_FILE 0 links 1000 1000) ->
  shows n3 (MkInode 3 S_DIR 2 2 0 0) ->
  all_in_step (v_inodes (sample_vfs s size links)) s.
Proof.
  intros H1 H2 H3 ???. split.
  - cbn. intros l i. rewrite !lookup_insert_Some, lookup_singleton_Some.
    intros [[_ <-]|[_ [[_ <-]|[_ [_ <-]]]]] n; cbn; congruence.
  - cbn. intros l l' i i'. rewrite !lookup_insert_Some, !lookup_singleton_Some.
    intros [[<- <-]|[_ [[<- <-]|[_ [<- <-]]]]] [[<- <-]|[_ [[<- <-]|[_ [<- <-]]]]]; cbn; lia.
Qed.

Lemma tree_coherent : coherent (sample_vfs tree_fs 3 1) tree_fs.
Proof. apply sample_coherent; [apply tree_fs_ok|]. by eapply sample_objects. Qed.

Lemma linked_coherent : coherent (sample_vfs linked_fs 4 2) linked_fs.
Proof. apply sample_coherent; [apply linked_fs_ok|]. by eapply sample_objects. Qed.

Lemma rvfs_lookup_in_step_witness :
  exists v', dbfs_lookup 10 20 (sample_vfs tree_fs 3 1) = (Some (inr tt), v').
Proof.
  destruct (rvfs_lookup_in_step (sample_vfs tree_fs 3 1) tree_fs 10 (MkInode 1 S_DIR 3 2 0 0)
    20 (MkDentry (bs "a") 11) 2 (file_node 0 ∅) RegularFile S_FILE (MkInode 2 S_FILE 0 0 0 0))
    as (v' & l & i & E & _); [apply tree_coherent|reflexivity..|]. exists v'. exact E.
Defined.

Lemma rvfs_link_in_step_witness :
  exists v', dbfs_link 20 10 22 (sample_vfs tree_fs 3 1) = (Some (inr tt), v') /\
    v_dentries v' !! 22 = Some (MkDentry (bs "c") 11).
Proof.
  destruct (rvfs_link_in_step (sample_vfs tree_fs 3 1) tree_fs 20 (MkDentry (bs "a") 11)
    (MkInode 2 S_FILE 0 1 1000 1000) 10 (MkInode 1 S_DIR 3 2 0 0) 22 (MkDentry (bs "c") 0)
    (file_node 0 ∅) (enter_sample (bs "d") 3 (enter_sample (bs "a") 2
      (dir_node 1 {[bs "." := 1]})))) as (v' & E & _ & He);
    [apply tree_coherent|reflexivity..|done|].
  exists v'. split; [exact E|exact He].
Defined.

Lemma rvfs_rmdir_in_step_witness :
  exists v', dbfs_rmdir 10 21 (sample_vfs tree_fs 3 1) = (Some (inr tt), v').
Proof.
  destruct (rvfs_rmdir_in_step (sample_vfs tree_fs 3 1) tree_fs 10 (MkInode 1 S_DIR 3 2 0 0)
    21 (MkDentry (bs "d") 12) 3 (enter_sample (bs "d") 3 (enter_sample (bs "a") 2
      (dir_node 1 {[bs "." := 1]}))) (dir_node 2 (<[bs ".." := 1]> {[bs "." := 3]})))
    as (v' & E & _);
    [apply tree_coherent|apply tree_fs_wf|reflexivity|reflexivity|reflexivity|done
    |reflexivity|reflexivity|done|].
  exists v'. exact E.
Defined.

Lemma rvfs_unlink_out_of_step_witness :
  exists v', dbfs_unlink 10 20 (sample_vfs linked_fs 4 2) = (Some (inr tt), v') /\
    v_inodes v' !! 10 = Some (MkInode 1 S_DIR 4 2 0 0).
Proof.
  destruct (rvfs_unlink_out_of_step (sample_vfs linked_fs 4 2) linked_fs 10
    (MkInode 1 S_DIR 4 2 0 0) 20 (MkDentry (bs "a") 11) (MkInode 2 S_FILE 0 2 1000 1000)
    (enter (bs "b") 2 sample_time (enter_sample (bs "d") 3 (enter_sample (bs "a") 2
      (dir_node 1 {[bs "." := 1]})))) (relink 2 sample_time (file_node 0 ∅)))
    as (v' & s' & p' & i' & E & _ & _ & _ & _ & Hd & _);
    [apply linked_coherent|apply linked_fs_wf|reflexivity|reflexivity|reflexivity|reflexivity
    |reflexivity|reflexivity|done|done|].
  exists v'. split; [exact E|exact Hd].
Defined.

Lemma rvfs_rename_destroys_witness :
  exists v', dbfs_rename 10 20 12 22 (sample_vfs tree_fs 3 1) = (Some (inr tt), v') /\
    dbfs_common_attr 1 (v_world v') = (Panic, v_world v') /\
    dbfs_common_attr 3 (v_world v') = (Panic, v_world v').
Proof.
  destruct (rvfs_rename_destroys (sample_vfs tree_fs 3 1) tree_fs 10 (MkInode 1 S_DIR 3 2 0 0)
    20 (MkDentry (bs "a") 11) 12 (MkInode 3 S_DIR 2 2 0 0) 22 (MkDentry (bs "c") 0) 2
    (enter_sample (bs "d") 3 (enter_sample (bs "a") 2 (dir_node 1 {[bs "." := 1]})))
    (dir_node 2 (<[bs ".." := 1]> {[bs "." := 3]}))) as (v' & E & _ & Ho & Hn);
    [apply tree_coherent|reflexivity|reflexivity|reflexivity|reflexivity|reflexivity|reflexivity
    |done|reflexivity|done|done|].
  exists v'. split; [exact E|split; [exact Ho|exact Hn]].
Defined.

Lemma rvfs_attr_roundtrip_witness :
  exists v1 v2, dbfs_setattr 20 (bs "k") (bs "value") (sample_vfs tree_fs 3 1) =
      (Some (inr tt), v1) /\
    dbfs_getattr 20 (bs "k") (bs "...") v1 = (Some (inr (5, bs "val")), v1) /\
    dbfs_removeattr 20 (bs "k") v1 = (Some (inr tt), v2).
Proof.
  destruct (rvfs_attr_roundtrip (sample_vfs tree_fs 3 1) 20 (MkDentry (bs "a") 11)
    (MkInode 2 S_FILE 0 1 1000 1000) (bs "k") (bs "value")) as (v1 & v2 & E1 & G & E2 & _);
    [reflexivity|reflexivity|vm_compute; reflexivity|].
  exists v1, v2. split; [exact E1|split; [exact (G (bs "..."))|exact E2]].
Defined.
