(* ===== verification/Vfscore.v ===== *)
(** * The interface of the [vfscore] crate

    The errors, the types of nodes and the two conversions that the file
    systems for the newer VFS use. The crate is not part of the repository;
    what its conversions return is a parameter. *)

From S2P Require Import Prelude Bytes.

Inductive VfsError :=
  | VNotDir | VEExist | VNoEntry | VNoSys | VIsDir | VIoError | VInvalid | VNotEmpty.

Inductive VfsNodeType := VFile | VDir | VSymLink | VCharDevice | VBlockDevice | VFifo
  | VSocket | VUnknown.

#[export] Instance VfsNodeType_eq_dec : EqDecision VfsNodeType.
Proof. solve_decision. Defined.

(** [VfsNodePerm::from_bits_truncate]. *)
Class VfsCore := { perm_truncate : Z -> Z }.

(** [VfsInodeMode::from(perm, type).bits()]. *)
Class VfsModes := { mode_bits : Z -> VfsNodeType -> Z }.

(** The operations of an inode of another file system that this one keeps a
    log in; [read_at] returns the number of bytes and the buffer. The last
    is the [Debug] text of an error. *)
Class VfsDevice (V : Type) := {
  vi_write_at : V -> Z -> bytes -> (VfsError + Z) * V;
  vi_read_at : V -> Z -> bytes -> VfsError + (Z * bytes);
  vi_truncate : V -> Z -> (VfsError + unit) * V;
  vi_flush : V -> VfsError + unit;
  vi_debug : VfsError -> bytes }.
