(* ===== verification/Alien.v ===== *)
(** * The in-memory file system for Alien: src/src/alien_integration

    Inodes, dentries, the super block and mounting of the first phase of the
    integration, which keeps everything in memory. Inodes, counters and
    dentries are shared objects ([Arc]), so the state is a heap of each and
    the operations take addresses. The traits and types are those of the
    [vfscore] crate. *)

From S2P Require Import Prelude Bytes Common Store Vfscore.

Inductive InodeData :=
  | File (data : bytes)
  | Directory (entries : gmap bytes (Z * VfsNodeType)).

Record DbfsSuperBlock := MkSuperBlock { block_size : Z; db_path : bytes }.

(** [next_ino] is the address of a counter, [data] is behind a lock. *)
Record DbfsInode := MkDbfsInode {
  i_sb : DbfsSuperBlock; i_ino : Z; i_type : VfsNodeType; i_data : InodeData;
  i_perm : Z; i_next_ino : Z }.

(** [inode] is the address of an inode, the others are dentries. *)
Record DbfsDentryInner := MkDentryInner {
  de_parent : option Z; de_inode : Z; de_name : bytes; de_children : gmap bytes Z }.

Record mem := Mem {
  m_inodes : gmap Z DbfsInode; m_counters : gmap Z Z; m_dentries : gmap Z DbfsDentryInner }.

(** The fields of [VfsFileStat] that are not constant. *)
Record VfsFileStat := MkVfsFileStat { st_nlink : Z; st_size : Z; st_blocks : Z; st_ino : Z; st_blksize : Z }.

Record VfsFsStat := MkVfsFsStat {
  f_bsize : Z; f_frsize : Z; f_blocks : Z; f_bfree : Z; f_bavail : Z; f_files : Z;
  f_ffree : Z; f_favail : Z; f_fsid : Z; f_flag : Z; f_namemax : Z; f_name : bytes }.

(** An error ([inl]) or a result; [None] is a panic. *)
Definition Al (A : Type) : Type := mem -> option (VfsError + A) * mem.

Definition al_ret {A} (a : A) : Al A := fun m => (Some (inr a), m).
Definition al_err {A} (e : VfsError) : Al A := fun m => (Some (inl e), m).
Definition al_panic {A} : Al A := fun m => (None, m).
Definition al_bind {A B} (x : Al A) (f : A -> Al B) : Al B := fun m =>
  match x m with
  | (Some (inr a), m') => f a m'
  | (Some (inl e), m') => (Some (inl e), m')
  | (None, m') => (None, m')
  end.

Notation "x <~ m ; f" := (al_bind m (fun x => f))
  (at level 20, m at level 100, f at level 200, right associativity).

Definition inode_at (l : Z) : Al DbfsInode := fun m =>
  (inr <$> m_inodes m !! l, m).
Definition dentry_at (l : Z) : Al DbfsDentryInner := fun m =>
  (inr <$> m_dentries m !! l, m).
Definition new_object (i : DbfsInode) : Al Z := fun m =>
  let l := fresh (dom (m_inodes m)) in
  (Some (inr l), Mem (<[l := i]> (m_inodes m)) (m_counters m) (m_dentries m)).
Definition new_counter (n : Z) : Al Z := fun m =>
  let l := fresh (dom (m_counters m)) in
  (Some (inr l), Mem (m_inodes m) (<[l := n]> (m_counters m)) (m_dentries m)).
Definition new_dentry (e : DbfsDentryInner) : Al Z := fun m =>
  let l := fresh (dom (m_dentries m)) in
  (Some (inr l), Mem (m_inodes m) (m_counters m) (<[l := e]> (m_dentries m))).
Definition set_data (l : Z) (d : InodeData) : Al unit := fun m =>
  (Some (inr tt),
   Mem (alter (fun i => MkDbfsInode (i_sb i) (i_ino i) (i_type i) d (i_perm i) (i_next_ino i))
          l (m_inodes m)) (m_counters m) (m_dentries m)).
Definition update_dentry (l : Z) (f : DbfsDentryInner -> DbfsDentryInner) : Al unit := fun m =>
  (Some (inr tt), Mem (m_inodes m) (m_counters m) (alter f l (m_dentries m))).

(** [AtomicU64::fetch_add(1)]. *)
Definition fetch_add (c : Z) : Al Z := fun m =>
  match m_counters m !! c with
  | Some n => (Some (inr n), Mem (m_inodes m) (<[c := w64 (n + 1)]> (m_counters m)) (m_dentries m))
  | None => (None, m)
  end.

(** ** Inodes: inode.rs *)

Section inode.
Context `{VfsCore}.

Definition new_root (sb : DbfsSuperBlock) : Al Z :=
  next <~ new_counter 2;
  new_object (MkDbfsInode sb 1 VDir (Directory ∅) (perm_truncate 0x1ED) next).

(** The data and the permissions a type starts with. *)
Definition start_data (type_ : VfsNodeType) : InodeData :=
  match type_ with VDir => Directory ∅ | _ => File [] end.
Definition start_perm (type_ : VfsNodeType) : Z :=
  match type_ with VDir => perm_truncate 0x1ED | _ => perm_truncate 0x1A4 end.

Definition new_inode (sb : DbfsSuperBlock) (parent : Z) (type_ : VfsNodeType) : Al Z :=
  p <~ inode_at parent;
  ino <~ fetch_add (i_next_ino p);
  new_object (MkDbfsInode sb ino type_ (start_data type_) (start_perm type_) (i_next_ino p)).

Definition get_size (i : DbfsInode) : Z :=
  match i_data i with File data => zlen data | Directory entries => Z.of_nat (size entries) * 256 end.

Definition alien_create (self : Z) (name : bytes) (ty : VfsNodeType) : Al Z :=
  i <~ inode_at self;
  if bool_decide (i_type i <> VDir) then al_err VNotDir
  else if match i_data i with
          | Directory entries => bool_decide (is_Some (entries !! name))
          | File _ => false
          end then al_err VEExist
  else
    n <~ new_inode (i_sb i) self ty;
    o <~ inode_at n;
    i <~ inode_at self;
    _ <~ match i_data i with
         | Directory entries => set_data self (Directory (<[name := (i_ino o, ty)]> entries))
         | File _ => al_ret tt
         end;
    al_ret n.

Definition alien_unlink (self : Z) (name : bytes) : Al unit :=
  i <~ inode_at self;
  if bool_decide (i_type i <> VDir) then al_err VNotDir
  else if bool_decide (name = bs "." \/ name = bs "..") then al_err VEExist
  else match i_data i with
       | Directory entries =>
           match entries !! name with
           | Some _ => set_data self (Directory (base.delete name entries))
           | None => al_err VNoEntry
           end
       | File _ => al_ret tt
       end.

(** A name gets an object of its own, which shows nothing of what is stored
    under it; the dots get a copy of the directory. *)
Definition alien_lookup (self : Z) (name : bytes) : Al Z :=
  i <~ inode_at self;
  if bool_decide (i_type i <> VDir) then al_err VNotDir
  else if bool_decide (name = bs "." \/ name = bs "..") then new_object i
  else match i_data i with
       | Directory entries =>
           match entries !! name with
           | Some (ino, type_) =>
               next <~ new_counter 0;
               new_object (MkDbfsInode (i_sb i) ino type_ (start_data type_) (start_perm type_) next)
           | None => al_err VNoEntry
           end
       | File _ => al_err VNoEntry
       end.

Definition alien_rmdir (self : Z) (name : bytes) : Al unit := alien_unlink self name.

Definition alien_node_perm (self : Z) : Al Z := i <~ inode_at self; al_ret (i_perm i).
Definition alien_inode_type (self : Z) : Al VfsNodeType := i <~ inode_at self; al_ret (i_type i).

(** [st_size] is an [i64]. *)
Definition alien_get_attr (self : Z) : Al VfsFileStat :=
  i <~ inode_at self;
  al_ret (MkVfsFileStat 1 (get_size i) 1 (i_ino i) 4096).

(** The operations of the later phases. *)
Definition alien_link (self : Z) (name : bytes) (src : Z) : Al Z := al_err VNoSys.
Definition alien_symlink (self : Z) (name sy_name : bytes) : Al Z := al_err VNoSys.
Definition alien_readlink (self : Z) (buf : bytes) : Al Z := al_err VNoSys.
Definition alien_truncate (self len : Z) : Al unit := al_err VNoSys.
Definition alien_rename_to (self : Z) (old_name : bytes) (new_parent : Z) (new_name : bytes) :
  Al unit := al_err VNoSys.
Definition alien_list_xattr (self : Z) : Al (list bytes) := al_ret [].

(** [Vec::resize]: more than [isize::MAX] bytes panic. *)
Definition resize (data : bytes) (n : Z) : option bytes :=
  if n <? 2 ^ 63
  then Some (take (Z.to_nat n) data ++ replicate (Z.to_nat n - length data) Byte.x00)
  else None.

Definition alien_read_at (self offset : Z) (buf : bytes) : Al (Z * bytes) :=
  i <~ inode_at self;
  if bool_decide (i_type i <> VFile) then al_err VIsDir
  else match i_data i with
       | File data =>
           let start := offset in
           if zlen data <=? start then al_ret (0, buf)
           else
             let bytes_to_read := Z.min (zlen buf) (zlen data - start) in
             match slice data start (start + bytes_to_read) with
             | Some piece =>
                 match copy_into buf 0 bytes_to_read piece with
                 | Some buf => al_ret (bytes_to_read, buf)
                 | None => al_panic
                 end
             | None => al_panic
             end
       | Directory _ => al_err VIsDir
       end.

Definition alien_write_at (self offset : Z) (buf : bytes) : Al Z :=
  i <~ inode_at self;
  if bool_decide (i_type i <> VFile) then al_err VIsDir
  else match i_data i with
       | File data =>
           let start := offset in
           let stop := w64 (start + zlen buf) in
           match (if zlen data <? stop then resize data stop else Some data) with
           | Some data =>
               match copy_into data start stop buf with
               | Some data => _ <~ set_data self (File data); al_ret (zlen buf)
               | None => al_panic
               end
           | None => al_panic
           end
       | Directory _ => al_err VIsDir
       end.
End inode.

(** ** Dentries: dentry.rs *)

Definition dentry_root (inode : Z) : Al Z := new_dentry (MkDentryInner None inode (bs "/") ∅).

Definition dentry_find (self : Z) (path : bytes) : Al (option Z) :=
  e <~ dentry_at self;
  i <~ inode_at (de_inode e);
  al_ret (if bool_decide (i_type i = VDir) then de_children e !! path else None).

(** The dentry is made before the name is looked for. *)
Definition dentry_insert (self : Z) (name : bytes) (child : Z) : Al Z :=
  d <~ new_dentry (MkDentryInner (Some self) child name ∅);
  e <~ dentry_at self;
  if bool_decide (is_Some (de_children e !! name)) then al_err VEExist
  else
    _ <~ update_dentry self (fun e =>
           MkDentryInner (de_parent e) (de_inode e) (de_name e) (<[name := d]> (de_children e)));
    al_ret d.

Definition dentry_remove (self : Z) (name : bytes) : Al (option Z) :=
  e <~ dentry_at self;
  _ <~ update_dentry self (fun e =>
         MkDentryInner (de_parent e) (de_inode e) (de_name e) (base.delete name (de_children e)));
  al_ret (de_children e !! name).

Definition dentry_parent (self : Z) : Al (option Z) := e <~ dentry_at self; al_ret (de_parent e).
Definition dentry_set_parent (self parent : Z) : Al unit :=
  update_dentry self (fun e =>
    MkDentryInner (Some parent) (de_inode e) (de_name e) (de_children e)).
Definition dentry_name (self : Z) : Al bytes := e <~ dentry_at self; al_ret (de_name e).
Definition dentry_inode (self : Z) : Al Z := e <~ dentry_at self; al_ret (de_inode e).
Definition dentry_to_mount_point (self sub_fs_root mount_flag : Z) : Al unit := al_err VNoSys.

(** ** The super block and mounting: superblock.rs, fstype.rs *)

Definition sb_new (db_path : bytes) : DbfsSuperBlock := MkSuperBlock 4096 db_path.

Definition sb_root_inode `{VfsCore} (sb : DbfsSuperBlock) : Al Z := new_root sb.

Definition sb_stat_fs (sb : DbfsSuperBlock) : VfsFsStat :=
  {| f_bsize := block_size sb; f_frsize := block_size sb; f_blocks := 1024; f_bfree := 512;
     f_bavail := 512; f_files := 100; f_ffree := 50; f_favail := 50; f_fsid := 0x44424653;
     f_flag := 0; f_namemax := 255; f_name := replicate 32 Byte.x00 |}.

Definition fs_mount `{VfsCore} (db_path : bytes) : Al Z :=
  root_inode <~ sb_root_inode (sb_new db_path);
  dentry_root root_inode.

(** ** Sequences of calls *)

Inductive call :=
  | CRoot (sb : DbfsSuperBlock)
  | CCreate (self : Z) (name : bytes) (ty : VfsNodeType)
  | CUnlink (self : Z) (name : bytes)
  | CRmdir (self : Z) (name : bytes)
  | CLookup (self : Z) (name : bytes)
  | CRead (self offset : Z) (buf : bytes)
  | CWrite (self offset : Z) (buf : bytes)
  | CInsert (dentry : Z) (name : bytes) (child : Z)
  | CRemove (dentry : Z) (name : bytes).

Definition run `{VfsCore} (c : call) (m : mem) : mem :=
  match c with
  | CRoot sb => (sb_root_inode sb m).2
  | CCreate self name ty => (alien_create self name ty m).2
  | CUnlink self name => (alien_unlink self name m).2
  | CRmdir self name => (alien_rmdir self name m).2
  | CLookup self name => (alien_lookup self name m).2
  | CRead self offset buf => (alien_read_at self offset buf m).2
  | CWrite self offset buf => (alien_write_at self offset buf m).2
  | CInsert dentry name child => (dentry_insert dentry name child m).2
  | CRemove dentry name => (dentry_remove dentry name m).2
  end.

(** The memories of a file system in use. *)
Inductive reached `{VfsCore} : mem -> Prop :=
  | reached_mount path : reached (fs_mount path (Mem ∅ ∅ ∅)).2
  | reached_call m c : reached m -> reached (run c m).

(** The data of an inode is of its type, and its counter exists. *)
Definition of_type (ty : VfsNodeType) (d : InodeData) : Prop :=
  match d with Directory _ => ty = VDir | File _ => ty <> VDir end.

Definition typed (m : mem) : Prop :=
  forall l i, m_inodes m !! l = Some i ->
  of_type (i_type i) (i_data i) /\ is_Some (m_counters m !! i_next_ino i).

Section facts.
Context `{VfsCore}.

Lemma al_bind_ok {A B} (x : Al A) (f : A -> Al B) m a m' :
  x m = (Some (inr a), m') -> al_bind x f m = f a m'.
Proof. intros E. unfold al_bind. by rewrite E. Qed.

Lemma al_inode_at_ok l m i : m_inodes m !! l = Some i -> inode_at l m = (Some (inr i), m).
Proof. intros E. unfold inode_at. by rewrite E. Qed.

Lemma start_of_type ty : of_type ty (start_data ty).
Proof. by destruct ty. Qed.

Lemma typed_object m i :
  typed m -> of_type (i_type i) (i_data i) -> is_Some (m_counters m !! i_next_ino i) ->
  typed (new_object i m).2.
Proof. intros Ht Hi Hc l j. cbn. rewrite lookup_insert_Some. intros [[_ <-]|[_ E]]; eauto. Qed.

Lemma typed_counters m c n :
  typed m -> typed (Mem (m_inodes m) (<[c := n]> (m_counters m)) (m_dentries m)).
Proof.
  intros Ht l i E. destruct (Ht l i E) as [Hd Hc]. split; [done|]. cbn.
  rewrite lookup_insert. by case_decide.
Qed.

Lemma typed_data m l d :
  typed m -> (forall i, m_inodes m !! l = Some i -> of_type (i_type i) d) ->
  typed (set_data l d m).2.
Proof.
  intros Ht Hd l' i. cbn. rewrite lookup_alter_Some. intros [[<- (j & E & ->)]|[_ E]]; [|eauto].
  cbn. split; [by apply Hd|]. by apply (Ht l j).
Qed.

Lemma typed_dentries m x : typed m -> typed (Mem (m_inodes m) (m_counters m) x).
Proof. done. Qed.

(** A computation that starts with a look at an inode. *)
Lemma typed_at {A} l (f : DbfsInode -> Al A) m :
  typed m -> (forall i, m_inodes m !! l = Some i -> typed (f i m).2) ->
  typed (al_bind (inode_at l) f m).2.
Proof.
  intros Ht Hf. unfold al_bind, inode_at. destruct (m_inodes m !! l) as [i|] eqn:E; [|done].
  by apply Hf.
Qed.

(** The object [new_inode] makes. *)
Definition made_object (sb : DbfsSuperBlock) (p : DbfsInode) (n : Z) (ty : VfsNodeType) : DbfsInode :=
  MkDbfsInode sb n ty (start_data ty) (start_perm ty) (i_next_ino p).

Lemma new_inode_runs m sb parent p n ty :
  m_inodes m !! parent = Some p -> m_counters m !! i_next_ino p = Some n ->
  let l := fresh (dom (m_inodes m)) in
  new_inode sb parent ty m =
  (Some (inr l),
   Mem (<[l := made_object sb p n ty]> (m_inodes m))
       (<[i_next_ino p := w64 (n + 1)]> (m_counters m)) (m_dentries m)).
Proof.
  intros Hp Hn. cbv zeta. unfold new_inode. erewrite al_bind_ok by (by apply al_inode_at_ok).
  erewrite al_bind_ok by (unfold fetch_add; rewrite Hn; reflexivity). done.
Qed.

Lemma typed_create m self name ty : typed m -> typed (alien_create self name ty m).2.
Proof.
  intros Ht. apply typed_at; [done|]. intros i Ei. case_bool_decide; [done|].
  destruct (Ht self i Ei) as [Hd [n Hn]]. case_match; [done|].
  erewrite al_bind_ok by (by apply new_inode_runs).
  match goal with |- context [al_bind _ _ ?m] => set (m1 := m) end.
  assert (Ht1 : typed m1).
  { apply (typed_object (Mem (m_inodes m) (<[i_next_ino i := w64 (n + 1)]> (m_counters m))
      (m_dentries m))); [by apply typed_counters|apply start_of_type|].
    cbn. rewrite lookup_insert_eq. by eexists. }
  apply typed_at; [done|]. intros o _. apply typed_at; [done|]. intros i' Ei'.
  destruct (i_data i') as [|entries] eqn:Ed; [done|].
  erewrite al_bind_ok by reflexivity. cbn [al_ret snd].
  apply (typed_data _ self); [done|]. intros j Ej. rewrite Ei' in Ej. injection Ej as <-.
  destruct (Ht1 _ _ Ei') as [Hd' _]. by rewrite Ed in Hd'.
Qed.

Lemma typed_unlink m self name : typed m -> typed (alien_unlink self name m).2.
Proof.
  intros Ht. apply typed_at; [done|]. intros i Ei. case_bool_decide; [done|].
  case_bool_decide; [done|]. destruct (i_data i) as [|entries] eqn:Ed; [done|].
  destruct (entries !! name); [|done]. apply typed_data; [done|].
  intros j Ej. rewrite Ei in Ej. injection Ej as <-. destruct (Ht _ _ Ei) as [Hd _].
  by rewrite Ed in Hd.
Qed.

Lemma typed_lookup m self name : typed m -> typed (alien_lookup self name m).2.
Proof.
  intros Ht. apply typed_at; [done|]. intros i Ei. case_bool_decide; [done|].
  case_bool_decide; [by apply typed_object; [|apply (Ht _ _ Ei)..]|].
  destruct (i_data i) as [|entries]; [done|]. destruct (entries !! name) as [[ino ty]|]; [|done].
  erewrite al_bind_ok by reflexivity. apply typed_object; [by apply typed_counters|apply start_of_type|].
  cbn. rewrite lookup_insert_eq. by eexists.
Qed.

Lemma read_same m self offset buf : (alien_read_at self offset buf m).2 = m.
Proof.
  unfold alien_read_at, al_bind, inode_at. destruct (m_inodes m !! self) as [i|]; [|done]. cbn.
  case_bool_decide; [done|]. destruct (i_data i); [|done]. destruct (_ <=? _); [done|].
  destruct (slice _ _ _); [|done]. by destruct (copy_into _ _ _ _).
Qed.

Lemma typed_write m self offset buf : typed m -> typed (alien_write_at self offset buf m).2.
Proof.
  intros Ht. apply typed_at; [done|]. intros i Ei. case_bool_decide as Hty; [done|].
  destruct (i_data i) as [data|] eqn:Ed; [|done]. cbv zeta.
  destruct (if _ <? _ then _ else _) as [data'|]; [|done].
  destruct (copy_into _ _ _ _) as [data''|]; [|done].
  erewrite al_bind_ok by reflexivity. cbn [al_ret snd]. apply (typed_data _ self); [done|].
  intros j Ej. rewrite Ei in Ej. injection Ej as <-. cbn. by rewrite Hty.
Qed.

Lemma dentry_call_keeps m c :
  match c with CInsert _ _ _ | CRemove _ _ => True | _ => False end ->
  m_inodes (run c m) = m_inodes m /\ m_counters (run c m) = m_counters m.
Proof.
  destruct c as [| | | | | | |self name child|self name]; try done; intros _; cbn.
  - unfold dentry_insert, al_bind, new_dentry, dentry_at. cbn.
    destruct (_ !! self); [|done]. cbn. by case_bool_decide.
  - unfold dentry_remove, al_bind, dentry_at. cbn. by destruct (_ !! self).
Qed.

Lemma typed_run m c : typed m -> typed (run c m).
Proof.
  intros Ht. destruct c; cbn [run].
  - unfold sb_root_inode, new_root. erewrite al_bind_ok by reflexivity.
    apply typed_object; [by apply typed_counters|done|]. cbn. rewrite lookup_insert_eq. by eexists.
  - by apply typed_create.
  - by apply typed_unlink.
  - by apply typed_unlink.
  - by apply typed_lookup.
  - by rewrite read_same.
  - by apply typed_write.
  - destruct (dentry_call_keeps m (CInsert dentry name child) I) as [E1 E2].
    intros l i. cbn [run] in E1, E2. rewrite E1, E2. apply Ht.
  - destruct (dentry_call_keeps m (CRemove dentry name) I) as [E1 E2].
    intros l i. cbn [run] in E1, E2. rewrite E1, E2. apply Ht.
Qed.

Lemma reached_typed m : reached m -> typed m.
Proof.
  induction 1 as [path|m c _ IH]; [|by apply typed_run].
  intros l i. cbn. rewrite lookup_insert_Some. intros [[_ <-]|[_ []%lookup_empty_Some]].
  split; [done|]. cbn. rewrite lookup_insert_eq. by eexists.
Qed.

(** ** The contents of a file *)

(** What [read_at] leaves of a buffer. *)
Definition read_result (data : bytes) (offset : Z) (buf : bytes) : Z * bytes :=
  if zlen data <=? offset then (0, buf)
  else let n := Z.min (zlen buf) (zlen data - offset) in
       (n, splice buf 0 (take (Z.to_nat n) (drop (Z.to_nat offset) data))).

Lemma al_read_runs m l i data offset buf :
  m_inodes m !! l = Some i -> i_type i = VFile -> i_data i = File data -> 0 <= offset ->
  alien_read_at l offset buf m = (Some (inr (read_result data offset buf)), m).
Proof.
  intros Hi Ht Hd Ho. unfold alien_read_at. erewrite al_bind_ok by (by apply al_inode_at_ok).
  rewrite Ht, Hd. cbv zeta. rewrite bool_decide_eq_false_2 by (intros []; done).
  unfold read_result. destruct (Z.leb_spec (zlen data) offset); [done|]. cbv zeta.
  pose proof (zlen_nonneg buf). pose proof (zlen_nonneg data).
  set (n := Z.min (zlen buf) (zlen data - offset)).
  rewrite slice_ok by (unfold n; lia). replace (offset + n - offset) with n by lia.
  rewrite copy_into_ok; [done|lia| |unfold n; lia].
  unfold zlen in *. rewrite length_take, length_drop. unfold n. lia.
Qed.

(** The data with a write at [offset]. *)
Definition written (data : bytes) (offset : Z) (buf : bytes) : bytes :=
  splice (data ++ replicate (Z.to_nat (offset + zlen buf) - length data) Byte.x00) offset buf.

Lemma al_write_runs m l i data offset buf :
  m_inodes m !! l = Some i -> i_type i = VFile -> i_data i = File data ->
  0 <= offset -> offset + zlen buf < 2 ^ 63 ->
  alien_write_at l offset buf m =
  (Some (inr (zlen buf)), (set_data l (File (written data offset buf)) m).2).
Proof.
  intros Hi Ht Hd Ho Hb. unfold alien_write_at. erewrite al_bind_ok by (by apply al_inode_at_ok).
  rewrite Ht, Hd. cbv zeta. rewrite bool_decide_eq_false_2 by (intros []; done).
  pose proof (zlen_nonneg buf). rewrite w64_small by (unfold is_u64; lia).
  assert (E : (if zlen data <? offset + zlen buf then resize data (offset + zlen buf)
               else Some data) =
    Some (data ++ replicate (Z.to_nat (offset + zlen buf) - length data) Byte.x00)).
  { destruct (Z.ltb_spec (zlen data) (offset + zlen buf)) as [Hlt|Hge].
    - unfold resize. rewrite Zltb_t by done. by rewrite take_ge by (unfold zlen in *; lia).
    - replace (_ - _)%nat with 0%nat by (unfold zlen in *; lia). by rewrite app_nil_r. }
  rewrite E, copy_into_ok; [|done|done|].
  - by erewrite al_bind_ok by reflexivity.
  - rewrite zlen_app. unfold zlen at 3. rewrite length_replicate. unfold zlen in *. lia.
Qed.

Lemma written_len data offset buf :
  0 <= offset -> zlen (written data offset buf) = Z.max (zlen data) (offset + zlen buf).
Proof.
  intros Ho. pose proof (zlen_nonneg buf). unfold written. rewrite splice_len; [|done|].
  - rewrite zlen_app. unfold zlen. rewrite length_replicate. lia.
  - rewrite zlen_app. unfold zlen. rewrite length_replicate. lia.
Qed.

Lemma written_lookup data offset buf (k : nat) :
  0 <= offset ->
  written data offset buf !! k =
  if decide (offset <= Z.of_nat k < offset + zlen buf) then buf !! (k - Z.to_nat offset)%nat
  else if decide (k < length data)%nat then data !! k
  else if decide (Z.of_nat k < offset) then Some Byte.x00 else None.
Proof.
  intros Ho. unfold written. set (r := data ++ _).
  assert (Hr : offset + zlen buf <= zlen r).
  { unfold r. rewrite zlen_app. unfold zlen. rewrite length_replicate. lia. }
  case_decide as Hin.
  - apply splice_lookup_new; [done|done|lia|unfold zlen in *; lia].
  - rewrite splice_lookup_old; [|done|done|unfold zlen in *; lia].
    unfold r. case_decide as Hk; [by rewrite lookup_app_l|].
    rewrite lookup_app_r by lia. case_decide as Hk'.
    + apply lookup_replicate_2. unfold zlen. lia.
    + apply lookup_ge_None. rewrite length_replicate. unfold zlen in *. lia.
Qed.

Lemma read_written data offset buf out :
  0 <= offset -> zlen out = zlen buf -> 0 < zlen buf ->
  read_result (written data offset buf) offset out = (zlen buf, buf).
Proof.
  intros Ho Hout Hb. unfold read_result. rewrite written_len by done.
  rewrite Zleb_f by lia. cbv zeta. replace (Z.min _ _) with (zlen buf) by lia. f_equal.
  unfold splice. rewrite take_0, app_nil_l.
  assert (E : take (Z.to_nat (zlen buf)) (drop (Z.to_nat offset) (written data offset buf)) = buf).
  { apply list_eq. intros k. destruct (decide (k < length buf)%nat) as [Hk|Hk].
    - rewrite lookup_take_lt by (unfold zlen; lia). rewrite lookup_drop, written_lookup by done.
      rewrite decide_True by (unfold zlen; lia). f_equal. lia.
    - rewrite lookup_take_ge by (unfold zlen; lia). symmetry. apply lookup_ge_None. lia. }
  rewrite E, drop_ge, app_nil_r; [done|]. unfold zlen in *. lia.
Qed.

Lemma set_data_eq m l i d :
  m_inodes m !! l = Some i ->
  m_inodes (set_data l d m).2 !! l =
  Some (MkDbfsInode (i_sb i) (i_ino i) (i_type i) d (i_perm i) (i_next_ino i)).
Proof. intros E. cbn. by rewrite lookup_alter_eq, E. Qed.

Lemma set_data_ne m l d l' : l' <> l -> m_inodes (set_data l d m).2 !! l' = m_inodes m !! l'.
Proof. intros. cbn. by rewrite lookup_alter_ne. Qed.

(** A new address is not that of an object. *)
Lemma fresh_ne (m : gmap Z DbfsInode) l i : m !! l = Some i -> fresh (dom m) <> l.
Proof.
  intros Hl E. apply (is_fresh (dom m)). rewrite E. apply elem_of_dom. by eexists.
Qed.

Lemma data_of_file m l i :
  typed m -> m_inodes m !! l = Some i -> i_type i = VFile -> exists data, i_data i = File data.
Proof.
  intros Ht Hi Hty. destruct (Ht _ _ Hi) as [Hd _]. destruct (i_data i) as [data|]; [by exists data|].
  cbn in Hd. congruence.
Qed.

Lemma al_create_runs m self i entries name ty n :
  m_inodes m !! self = Some i -> i_type i = VDir -> i_data i = Directory entries ->
  entries !! name = None -> m_counters m !! i_next_ino i = Some n ->
  let l := fresh (dom (m_inodes m)) in
  alien_create self name ty m =
  (Some (inr l),
   (set_data self (Directory (<[name := (n, ty)]> entries))
     (Mem (<[l := made_object (i_sb i) i n ty]> (m_inodes m))
          (<[i_next_ino i := w64 (n + 1)]> (m_counters m)) (m_dentries m))).2).
Proof.
  intros Hi Hty Hd Hn Hc. cbv zeta. set (l := fresh _).
  assert (Hl : l <> self) by (by eapply fresh_ne).
  unfold alien_create. erewrite al_bind_ok by (by apply al_inode_at_ok).
  rewrite Hty, Hd. rewrite bool_decide_eq_false_2 by (intros []; done).
  rewrite bool_decide_eq_false_2 by (rewrite Hn; by intros [? ?]).
  erewrite al_bind_ok by (by apply new_inode_runs). fold l.
  erewrite al_bind_ok by (apply al_inode_at_ok, lookup_insert_eq).
  erewrite al_bind_ok by (apply al_inode_at_ok; cbn; rewrite lookup_insert_ne by done; exact Hi).
  rewrite Hd. by erewrite al_bind_ok by reflexivity.
Qed.

(** C39: The file system is type safe. In every memory a mounted file system
    reaches, by any sequence of calls, an inode's data is of the inode's
    type; hence reading a file, at any offset, returns, writing one returns
    as long as the end is below 2^63, and creating a name in a directory
    returns an object or [EEXIST]: none of them panics or finds data of the
    wrong kind. *)
Theorem alien_typed m l i :
  reached m -> m_inodes m !! l = Some i ->
  of_type (i_type i) (i_data i) /\
  (i_type i = VFile ->
    (forall offset buf, 0 <= offset -> exists n buf',
      alien_read_at l offset buf m = (Some (inr (n, buf')), m)) /\
    (forall offset buf, 0 <= offset -> offset + zlen buf < 2 ^ 63 -> exists m',
      alien_write_at l offset buf m = (Some (inr (zlen buf)), m'))) /\
  (i_type i = VDir -> forall name ty,
    alien_create l name ty m = (Some (inl VEExist), m) \/
    exists l' m', alien_create l name ty m = (Some (inr l'), m')).
Proof.
  intros Hm%reached_typed Hi. pose proof (Hm _ _ Hi) as [Hd [c Hc]]. split_and!; [done|..].
  - intros Hty. destruct (data_of_file m l i Hm Hi Hty) as [data E]. split.
    + intros offset buf Ho. rewrite (al_read_runs _ _ _ _ _ _ Hi Hty E Ho).
      destruct (read_result data offset buf) as [n buf']. by exists n, buf'.
    + intros offset buf Ho Hb. rewrite (al_write_runs _ _ _ _ _ _ Hi Hty E Ho Hb). by eexists.
  - intros Hty name ty. destruct (i_data i) as [|entries] eqn:E; [done|].
    destruct (entries !! name) as [x|] eqn:Ex.
    + left. unfold alien_create. erewrite al_bind_ok by (by apply al_inode_at_ok).
      rewrite Hty, E. rewrite bool_decide_eq_false_2 by (intros []; done).
      by rewrite bool_decide_eq_true_2 by (rewrite Ex; by eexists).
    + right. rewrite (al_create_runs _ _ _ _ _ _ _ Hi Hty E Ex Hc). by eexists _, _.
Qed.

(** Through one object a file is a sequence of bytes. After a write at any
    offset (below 2^63) the object's data has the bytes written at their
    places, the old ones elsewhere and zeros in a gap before the offset, its
    length is the larger of the old length and the end of the write, no
    other object has changed, and reading as many bytes from the offset
    returns those written. *)
Theorem alien_write_then_read m l i offset buf out :
  reached m -> m_inodes m !! l = Some i -> i_type i = VFile ->
  0 <= offset -> 0 < zlen buf -> offset + zlen buf < 2 ^ 63 -> zlen out = zlen buf ->
  exists data data' m' i',
    i_data i = File data /\
    alien_write_at l offset buf m = (Some (inr (zlen buf)), m') /\
    m_inodes m' !! l = Some i' /\ i_data i' = File data' /\ i_type i' = VFile /\
    (forall l', l' <> l -> m_inodes m' !! l' = m_inodes m !! l') /\
    zlen data' = Z.max (zlen data) (offset + zlen buf) /\
    (forall k : nat, data' !! k =
      if decide (offset <= Z.of_nat k < offset + zlen buf) then buf !! (k - Z.to_nat offset)%nat
      else if decide (k < length data)%nat then data !! k
      else if decide (Z.of_nat k < offset) then Some Byte.x00 else None) /\
    alien_read_at l offset out m' = (Some (inr (zlen buf, buf)), m').
Proof.
  intros Hm%reached_typed Hi Hty Ho Hb Hend Hout.
  destruct (data_of_file m l i Hm Hi Hty) as [data E].
  set (i' := MkDbfsInode (i_sb i) (i_ino i) (i_type i) (File (written data offset buf)) (i_perm i)
               (i_next_ino i)).
  assert (Hi' : m_inodes (set_data l (File (written data offset buf)) m).2 !! l = Some i').
  { by apply (set_data_eq m l i). }
  exists data, (written data offset buf), (set_data l (File (written data offset buf)) m).2, i'.
  split_and!; [done|by apply (al_write_runs m l i)|exact Hi'|done|done| | | |].
  - intros l' Hne. by apply set_data_ne.
  - by apply written_len.
  - intros k. by apply written_lookup.
  - rewrite (al_read_runs _ _ _ _ _ _ Hi' Hty eq_refl Ho). by rewrite read_written.
Qed.

(** [lookup] forgets the file. When a file is created in a directory and
    something is written through the object [create] returns, [lookup] of
    the name succeeds with the number and the type of the file, but with
    another object without contents: reading it returns no byte, while the
    first object still has them. *)
Theorem alien_lookup_forgets m dir i entries name buf out :
  reached m -> m_inodes m !! dir = Some i -> i_type i = VDir -> i_data i = Directory entries ->
  entries !! name = None -> ~ (name = bs "." \/ name = bs "..") ->
  0 < zlen buf < 2 ^ 63 -> zlen out = zlen buf ->
  exists l m1 m2 l' m3 o o',
    alien_create dir name VFile m = (Some (inr l), m1) /\
    alien_write_at l 0 buf m1 = (Some (inr (zlen buf)), m2) /\
    alien_lookup dir name m2 = (Some (inr l'), m3) /\
    m_inodes m3 !! l = Some o /\ m_inodes m3 !! l' = Some o' /\
    i_ino o' = i_ino o /\ i_type o' = i_type o /\
    alien_read_at l 0 out m3 = (Some (inr (zlen buf, buf)), m3) /\
    alien_read_at l' 0 out m3 = (Some (inr (0, out)), m3).
Proof.
  intros Hm%reached_typed Hi Hty Hd Hn Hdot Hb Hout. pose proof (Hm _ _ Hi) as [_ [n Hc]].
  pose proof (al_create_runs _ _ _ _ _ VFile _ Hi Hty Hd Hn Hc) as Hcr. cbv zeta in Hcr.
  set (l := fresh (dom (m_inodes m))) in Hcr.
  assert (Hl : l <> dir) by (by eapply fresh_ne).
  set (m1 := (set_data dir _ _).2) in Hcr. set (o := made_object (i_sb i) i n VFile) in *.
  assert (Ho1 : m_inodes m1 !! l = Some o).
  { unfold m1. rewrite set_data_ne by done. apply lookup_insert_eq. }
  pose proof (al_write_runs m1 l o [] 0 buf Ho1 eq_refl eq_refl ltac:(lia) ltac:(lia)) as Hwr.
  set (m2 := (set_data l _ m1).2) in Hwr.
  set (dir' := MkDbfsInode (i_sb i) (i_ino i) (i_type i) (Directory (<[name := (n, VFile)]> entries))
                 (i_perm i) (i_next_ino i)).
  assert (Hd2 : m_inodes m2 !! dir = Some dir').
  { unfold m2. rewrite set_data_ne by done. apply set_data_eq. cbn [m_inodes].
    by rewrite lookup_insert_ne. }
  set (o2 := MkDbfsInode (i_sb o) n VFile (File (written [] 0 buf)) (i_perm o) (i_next_ino o)).
  assert (Ho2 : m_inodes m2 !! l = Some o2).
  { by apply (set_data_eq m1 l o). }
  set (l' := fresh (dom (m_inodes m2))).
  assert (Hl' : l' <> l) by (by eapply fresh_ne).
  set (o' := MkDbfsInode (i_sb i) n VFile (File []) (perm_truncate 0x1A4)
               (fresh (dom (m_counters m2)))).
  set (m3 := Mem (<[l' := o']> (m_inodes m2))
               (<[fresh (dom (m_counters m2)) := 0]> (m_counters m2)) (m_dentries m2)).
  assert (Hlk : alien_lookup dir name m2 = (Some (inr l'), m3)).
  { unfold alien_lookup. erewrite al_bind_ok by (by apply al_inode_at_ok).
    cbn [i_type dir' i_data]. rewrite Hty. rewrite bool_decide_eq_false_2 by (intros []; done).
    rewrite bool_decide_eq_false_2 by done. rewrite lookup_insert_eq.
    by erewrite al_bind_ok by reflexivity. }
  assert (Ho3 : m_inodes m3 !! l = Some o2) by (unfold m3; cbn [m_inodes]; by rewrite lookup_insert_ne).
  assert (Ho3' : m_inodes m3 !! l' = Some o') by (apply lookup_insert_eq).
  exists l, m1, m2, l', m3, o2, o'. split_and!; try done.
  - rewrite (al_read_runs m3 l o2 _ 0 out Ho3 eq_refl eq_refl ltac:(lia)).
    by rewrite read_written by lia.
  - rewrite (al_read_runs m3 l' o' _ 0 out Ho3' eq_refl eq_refl ltac:(lia)). done.
Qed.
End facts.

(** ** Witnesses *)

#[local] Instance sample_core : VfsCore := {| perm_truncate z := z |}.

Definition mounted : mem := (fs_mount (bs "db") (Mem ∅ ∅ ∅)).2.
Definition sample_root : DbfsInode :=
  MkDbfsInode (MkSuperBlock 4096 (bs "db")) 1 VDir (Directory ∅) 0x1ED 0.
Definition with_file : mem := run (CCreate 0 (bs "a") VFile) mounted.
Definition sample_file : DbfsInode :=
  MkDbfsInode (MkSuperBlock 4096 (bs "db")) 2 VFile (File []) 0x1A4 0.

Lemma with_file_reached : reached with_file.
Proof. apply reached_call, reached_mount. Qed.

Lemma alien_typed_witness :
  exists l m', alien_write_at l 3 (bs "abc") with_file = (Some (inr 3), m').
Proof.
  destruct (alien_typed with_file 1 sample_file) as (_ & Hf & _);
    [exact with_file_reached|vm_compute; reflexivity|].
  destruct (proj2 (Hf eq_refl) 3 (bs "abc")) as [m' E]; [lia|reflexivity|].
  exists 1, m'. exact E.
Defined.

Lemma alien_write_then_read_witness :
  exists m', alien_write_at 1 2 (bs "abc") with_file = (Some (inr 3), m') /\
    alien_read_at 1 2 (bs "...") m' = (Some (inr (3, bs "abc")), m').
Proof.
  destruct (alien_write_then_read with_file 1 sample_file 2 (bs "abc") (bs "..."))
    as (data & data' & m' & i' & _ & E & _ & _ & _ & _ & _ & _ & R);
    [exact with_file_reached|vm_compute; reflexivity|reflexivity|lia|reflexivity|reflexivity
    |reflexivity|].
  exists m'. split; [exact E|exact R].
Defined.

Lemma alien_lookup_forgets_witness :
  exists l m3, alien_read_at l 0 (bs "...") m3 = (Some (inr (3, bs "abc")), m3) /\
    exists l', alien_read_at l' 0 (bs "...") m3 = (Some (inr (0, bs "...")), m3).
Proof.
  destruct (alien_lookup_forgets mounted 0 sample_root ∅ (bs "a") (bs "abc") (bs "..."))
    as (l & m1 & m2 & l' & m3 & o & o' & _ & _ & _ & _ & _ & _ & _ & R & R');
    [apply reached_mount|vm_compute; reflexivity|reflexivity|reflexivity|reflexivity
    |by intros [|]|split; reflexivity|reflexivity|].
  exists l, m3. split; [exact R|]. exists l'. exact R'.
Defined.
