(* ===== verification/Extend.v ===== *)
(** * Operations on nested buckets: src/src/extend.rs

    The entry points of user programs that keep their own data in the
    database: sets of operations on a bucket, given by a path, and user
    functions that run inside a transaction. Buckets hold pairs and other
    buckets, so the database is seen here through another interface than in
    [Store]: the class [NestedDb]. A handle of a bucket is its path. *)

From S2P Require Import Prelude Bytes Common Store.

(** [jammdb::Data]: a pair, or a bucket (whose name is the key). *)
Inductive Data := KeyValue (value : bytes) | SubBucket.

(** ** The interface of the database *)

Class NestedDb (D : Type) := {
  (** [DB::tx] and [Tx::commit]. *)
  nb_begin : D -> option JammError;
  nb_commit : D -> D -> option JammError;
  (** [get] under the bucket at a path; the root is the empty path. *)
  nb_get : D -> list bytes -> bytes -> option Data;
  (** [put] and [delete] fail on the key of a bucket, [create_bucket] on a
      key in use, [delete_bucket] on anything but a bucket. *)
  nb_put : D -> list bytes -> bytes -> bytes -> option D;
  nb_create : D -> list bytes -> bytes -> option D;
  nb_delete : D -> list bytes -> bytes -> option D;
  nb_delete_bucket : D -> list bytes -> bytes -> option D;
  (** [cursor]: the content of a bucket. *)
  nb_cursor : D -> list bytes -> list (bytes * Data);
  (** How deep the buckets under a path are nested. *)
  nb_depth : D -> list bytes -> nat }.

(** The buckets under the path are nested less than [n] deep. *)
Fixpoint shallow {D} `{NestedDb D} (n : nat) (d : D) (p : list bytes) : Prop :=
  match n with
  | O => False
  | S n => forall k, nb_get d p k = Some SubBucket -> shallow n d (p ++ [k])
  end.

(** The bucket at the path exists. *)
Definition live {D} `{NestedDb D} (d : D) (p : list bytes) : Prop :=
  p = [] \/ exists p0 k, p = p0 ++ [k] /\ nb_get d p0 k = Some SubBucket.

(** The documented behaviour; the writes are on a bucket a handle exists
    for. *)
Class NestedDbLaws (D : Type) `{NestedDb D} : Prop := {
  nb_put_spec : forall d p k v, live d p ->
    match nb_put d p k v with
    | Some d' => nb_get d p k <> Some SubBucket /\
        forall p' k', nb_get d' p' k' =
          if decide (p' = p /\ k' = k) then Some (KeyValue v) else nb_get d p' k'
    | None => nb_get d p k = Some SubBucket
    end;
  nb_create_spec : forall d p k, live d p ->
    match nb_create d p k with
    | Some d' => nb_get d p k = None /\
        forall p' k', nb_get d' p' k' =
          if decide (p' = p /\ k' = k) then Some SubBucket else nb_get d p' k'
    | None => is_Some (nb_get d p k)
    end;
  nb_delete_spec : forall d p k,
    match nb_delete d p k with
    | Some d' => (exists v, nb_get d p k = Some (KeyValue v)) /\
        forall p' k', nb_get d' p' k' =
          if decide (p' = p /\ k' = k) then None else nb_get d p' k'
    | None => forall v, nb_get d p k <> Some (KeyValue v)
    end;
  nb_delete_bucket_spec : forall d p k,
    match nb_delete_bucket d p k with
    | Some d' => nb_get d p k = Some SubBucket /\
        forall p' k', nb_get d' p' k' =
          if decide ((p ++ [k]) `prefix_of` (p' ++ [k'])) then None else nb_get d p' k'
    | None => nb_get d p k <> Some SubBucket
    end;
  (** What is under a bucket that is not there is not there either. *)
  nb_closed : forall d p k q k',
    nb_get d p k <> Some SubBucket -> nb_get d (p ++ k :: q) k' = None;
  nb_cursor_nodup : forall d p, NoDup (nb_cursor d p).*1;
  nb_cursor_elem : forall d p k x, (k, x) ∈ nb_cursor d p <-> nb_get d p k = Some x;
  nb_depth_ok : forall d p, shallow (S (nb_depth d p)) d p }.

(** The fault-free store. *)
Class NestedReliable (D : Type) `{NestedDb D} : Prop := {
  nb_begin_ok : forall d, nb_begin d = None;
  nb_commit_ok : forall d d', nb_commit d d' = None }.

(** ** The operations of the [dbop] crate *)

#[warnings="-register-all"] Inductive Operate :=
  | RenameKey (old_key new_key : bytes)
  | AddKey (map : list (bytes * bytes))
  | AddBucket (key : bytes) (other : option (list Operate))
  | DeleteKey (keys : list bytes)
  | Read (keys : list bytes) (buf_addr buf_size : Z)
  | StepInto (key : bytes) (other : option (list Operate)).

(** The memory of the caller: [Read] writes through an address. *)
Definition memory := Z -> Byte.byte.

Definition poke (m : memory) (addr : Z) (l : bytes) : memory := fun a =>
  match l !! Z.to_nat (a - addr) with
  | Some b => if addr <=? a then b else m a
  | None => m a
  end.

(** ** The body of a transaction

    The state is the working copy and the memory; [None] is a panic, which
    drops the transaction. *)
Section extend.
Context {D : Type} `{NestedDb D}.

Definition Ex (A : Type) : Type := D * memory -> option (A * (D * memory)).

#[export] Instance ex_ret : MRet Ex := fun A a s => Some (a, s).
#[export] Instance ex_bind : MBind Ex := fun A B f m s =>
  match m s with Some (a, s') => f a s' | None => None end.

Definition ex_unwrap {A} (o : option A) : Ex A := fun s => a ← o; Some (a, s).
Definition ex_look {A} (f : D -> A) : Ex A := fun s => Some (f (fst s), s).
(** [unwrap()] of a change of the database. *)
Definition ex_change (f : D -> option D) : Ex unit := fun s =>
  d ← f (fst s); Some (tt, (d, snd s)).

(** [bucket.get_bucket(k).is_ok()], and its [unwrap()]. *)
Definition has_bucket (p : list bytes) (k : bytes) : Ex bool :=
  ex_look (fun d => match nb_get d p k with Some SubBucket => true | _ => false end).
Definition get_bucket (p : list bytes) (k : bytes) : Ex (list bytes) :=
  b ← has_bucket p k; ex_unwrap (if b : bool then Some (p ++ [k]) else None).

Fixpoint for_each {A} (f : A -> Ex unit) (l : list A) : Ex unit :=
  match l with [] => mret tt | a :: l => f a;; for_each f l end.

(** The body of the loop of [copy_bucket_data_recursive]; [copy] copies a
    bucket inside. *)
Definition copy_pair (copy : list bytes -> list bytes -> Ex unit) (old_bucket new_bucket : list bytes)
    (data : bytes * Data) : Ex unit :=
  match data with
  | (k, KeyValue v) => ex_change (fun d => nb_put d new_bucket k v)
  | (k, SubBucket) =>
      ex_change (fun d => nb_create d new_bucket k);;
      old ← get_bucket old_bucket k;
      copy old (new_bucket ++ [k])
  end.

(** The recursion goes one bucket deeper each time, [fuel] bounds the
    depth. *)
Fixpoint copy_bucket_data_recursive (fuel : nat) (old_bucket new_bucket : list bytes) : Ex unit :=
  match fuel with
  | O => ex_unwrap None
  | S fuel =>
      pairs ← ex_look (fun d => nb_cursor d old_bucket);
      for_each (copy_pair (copy_bucket_data_recursive fuel) old_bucket new_bucket) pairs
  end.

(** [Operate::RenameKey]. *)
Definition rename_key (bucket : list bytes) (old_key new_key : bytes) : Ex unit :=
  old ← ex_look (fun d => nb_get d bucket old_key);
  match old with
  | None => mret tt
  | Some value =>
      if bool_decide (old_key = new_key) then mret tt
      else
        new ← ex_look (fun d => nb_get d bucket new_key);
        match new with
        | Some _ => mret tt
        | None =>
            match value with
            | KeyValue v => ex_change (fun d => nb_put d bucket new_key v)
            | SubBucket =>
                ex_change (fun d => nb_create d bucket new_key);;
                old_bucket ← get_bucket bucket old_key;
                fuel ← ex_look (fun d => nb_depth d old_bucket);
                copy_bucket_data_recursive (S fuel) old_bucket (bucket ++ [new_key]);;
                ex_change (fun d => nb_delete_bucket d bucket old_key)
            end
        end
  end.

(** [Operate::Read]: the values one after the other, as much as fits. *)
Fixpoint read_keys (bucket : list bytes) (keys : list bytes) (buf_addr buf_size offset : Z) :
  Ex unit :=
  match keys with
  | [] => mret tt
  | key :: keys =>
      x ← ex_look (fun d => nb_get d bucket key);
      v ← ex_unwrap (match x with Some (KeyValue v) => Some v | _ => None end);
      let len := Z.min (buf_size - offset) (zlen v) in
      (fun s : D * memory =>
         Some (tt, (fst s, poke (snd s) (buf_addr + offset) (take (Z.to_nat len) v))));;
      read_keys bucket keys buf_addr buf_size (offset + len)
  end.

(** One operation on the bucket; a set of them is run in order. *)
Fixpoint execute_one (bucket : list bytes) (i : Operate) : Ex unit :=
  let fix all (bucket : list bytes) (l : list Operate) : Ex unit :=
    match l with [] => mret tt | i :: l => execute_one bucket i;; all bucket l end in
  match i with
  | RenameKey old_key new_key => rename_key bucket old_key new_key
  | AddKey map => for_each (fun kv : bytes * bytes =>
      ex_change (fun d => nb_put d bucket kv.1 kv.2)) map
  | AddBucket key other =>
      present ← has_bucket bucket key;
      if present : bool then mret tt
      else
        ex_change (fun d => nb_create d bucket key);;
        match other with Some l => all (bucket ++ [key]) l | None => mret tt end
  | DeleteKey keys => for_each (fun key => ex_change (fun d => nb_delete d bucket key)) keys
  | Read keys buf_addr buf_size => read_keys bucket keys buf_addr buf_size 0
  | StepInto key other =>
      new_bucket ← get_bucket bucket key;
      match other with Some l => all new_bucket l | None => mret tt end
  end.

Fixpoint execute_operate_real (bucket : list bytes) (operate : list Operate) : Ex unit :=
  match operate with
  | [] => mret tt
  | i :: operate => execute_one bucket i;; execute_operate_real bucket operate
  end.

(** The sets inside a set are run by the same function. *)
Lemma execute_step_into bucket key l :
  execute_one bucket (StepInto key (Some l)) =
  new_bucket ← get_bucket bucket key; execute_operate_real new_bucket l.
Proof. reflexivity. Qed.

(** [str::split(":")]. *)
Fixpoint split_colon (cur s : bytes) : list bytes :=
  match s with
  | [] => [cur]
  | c :: s => if bool_decide (c = Byte.x3a) then cur :: split_colon [] s
              else split_colon (cur ++ [c]) s
  end.

(** [get_bucket(..).unwrap()] along a path. *)
Fixpoint walk (bucket : list bytes) (path : list bytes) : Ex (list bytes) :=
  match path with
  | [] => mret bucket
  | k :: path => bucket ← get_bucket bucket k; walk bucket path
  end.

(** A write transaction with [unwrap()] of its beginning and its commit. *)
Definition ex_tx {A} (body : Ex A) : Ex A := fun s =>
  match nb_begin (fst s) with
  | Some _ => None
  | None =>
      match body s with
      | Some (a, (d, m)) =>
          match nb_commit (fst s) d with Some _ => None | None => Some (a, (d, m)) end
      | None => None
      end
  end.

Definition execute_operate (bucket : bytes) (operate : list Operate) : Ex Z :=
  ex_tx (p ← walk [] (split_colon [] bucket); execute_operate_real p operate;; mret 0).

(** The user's function gets the last component, the bucket before it and a
    buffer. *)
Definition execute {R} (key : bytes) (func : bytes -> list bytes -> bytes -> Ex (R * bytes))
    (buf : bytes) : Ex (R * bytes) :=
  let component := split_colon [] key in
  ex_tx (
    first ← ex_unwrap (head component);
    bucket ← get_bucket [] first;
    bucket ← walk bucket (take (length component - 2) (tail component));
    last ← ex_unwrap (last component);
    func last bucket buf).

(** The error is a message. *)
Definition extend_create_global_bucket (key : bytes) : Ex (bytes + unit) := fun s =>
  match nb_begin (fst s) with
  | Some _ => None
  | None =>
      match nb_create (fst s) [] key with
      | None => Some (inl (bs "create bucket failed"), s)
      | Some d =>
          match nb_commit (fst s) d with
          | Some _ => None
          | None => Some (inr tt, (d, snd s))
          end
      end
  end.
End extend.

(** ** Facts *)

Section facts.
Context {D : Type} `{NestedDb D, !NestedDbLaws D, !NestedReliable D}.
Implicit Types (d : D) (p q : list bytes) (k : bytes) (m : memory).

Lemma ex_bind_ok {A B} (x : Ex (D := D) A) (f : A -> Ex B) s a s' :
  x s = Some (a, s') -> (x ≫= f) s = f a s'.
Proof. intros E. unfold mbind, ex_bind. by rewrite E. Qed.

Lemma change_ok (f : D -> option D) d d' m : f d = Some d' -> ex_change f (d, m) = Some (tt, (d', m)).
Proof. intros E. unfold ex_change. cbn. by rewrite E. Qed.

Lemma nested_bucket_ok d m p k :
  nb_get d p k = Some SubBucket -> get_bucket p k (d, m) = Some (p ++ [k], (d, m)).
Proof. intros E. unfold get_bucket, has_bucket, ex_look, mbind, ex_bind. cbn. by rewrite E. Qed.

(** Below the path [new]. *)
Definition under (new p : list bytes) : Prop := new `prefix_of` p.

Lemma under_app new q : under new (new ++ q).
Proof. apply prefix_app_r. done. Qed.

(** Paths neither of which is below the other. *)
Definition apart (a b : list bytes) : Prop := ~ a `prefix_of` b /\ ~ b `prefix_of` a.

Lemma apart_under a b q : apart a b -> ~ under b (a ++ q).
Proof.
  intros [H1 H2] H3. destruct (prefix_weak_total b a (a ++ q)); [done|apply under_app|done..].
Qed.

Lemma apart_snoc a b k k' : apart a b -> apart (a ++ [k]) (b ++ [k']).
Proof.
  intros Hab. split; intros H1.
  - apply (apart_under b a [k']); [split; apply Hab|]. by eapply prefix_app_l.
  - apply (apart_under a b [k]); [done|]. by eapply prefix_app_l.
Qed.

Lemma shallow_ext n d d' p :
  (forall q k, nb_get d' (p ++ q) k = nb_get d (p ++ q) k) -> shallow n d p -> shallow n d' p.
Proof.
  revert p. induction n as [|n IH]; intros p He; [done|]. cbn. intros Hs k Hk. apply IH.
  - intros q k'. rewrite <- (assoc_L app). apply He.
  - apply Hs. pose proof (He [] k) as E. rewrite app_nil_r in E. by rewrite <- E.
Qed.

(** What has been copied from [old] to [new] when the pairs [l] are left. *)
Record copied d (old new : list bytes) (l : list (bytes * Data)) (d1 : D) : Prop := {
  cp_frame : forall p k, ~ under new p -> nb_get d1 p k = nb_get d p k;
  cp_done : forall k, k ∉ l.*1 -> nb_get d1 new k = nb_get d old k /\
    forall q k', nb_get d1 (new ++ k :: q) k' = nb_get d (old ++ k :: q) k';
  cp_left : forall k, k ∈ l.*1 -> nb_get d1 new k = None /\
    forall q k', nb_get d1 (new ++ k :: q) k' = None }.

Lemma longer (a : list bytes) k q : a ++ k :: q <> a.
Proof. intros E. apply (f_equal length) in E. rewrite length_app in E. cbn in E. lia. Qed.

Lemma copied_live d old new l d1 : copied d old new l d1 -> live d new -> live d1 new.
Proof.
  intros Hc [->|(p0 & k & -> & Hg)]; [by left|]. right. exists p0, k. split; [done|].
  rewrite (cp_frame _ _ _ _ _ Hc); [done|]. intros Hu%prefix_length.
  rewrite length_app in Hu. cbn in Hu. lia.
Qed.

(** One pair is copied. *)
Lemma copied_pair d old new k v l d1 d2 :
  copied d old new ((k, KeyValue v) :: l) d1 -> k ∉ l.*1 -> live d1 new ->
  nb_get d old k = Some (KeyValue v) -> nb_put d1 new k v = Some d2 ->
  copied d old new l d2.
Proof.
  intros [Hf Hd Hl] Hk Hlive Hg Hp. pose proof (nb_put_spec d1 new k v Hlive) as Hs. rewrite Hp in Hs.
  destruct Hs as [_ Hs]. destruct (Hl k) as [Hn Hu]; [by left|]. split.
  - intros p k' Hp'. rewrite Hs, decide_False; [by apply Hf|].
    intros [-> _]. by apply Hp'.
  - intros k0 Hk0. destruct (decide (k0 = k)) as [->|Hne].
    + split; [by rewrite Hs, decide_True|]. intros q k'.
      rewrite Hs, decide_False by (intros [E _]; by apply longer in E).
      rewrite Hu. symmetry. apply nb_closed. congruence.
    + destruct (Hd k0) as [E1 E2]; [by apply not_elem_of_cons|]. split.
      * by rewrite Hs, decide_False by (intros [_ ?]; done).
      * intros q k'. by rewrite Hs, decide_False by (intros [E _]; by apply longer in E).
  - intros k0 Hk0. destruct (Hl k0) as [E1 E2]; [by right|]. split.
    + rewrite Hs, decide_False; [done|]. intros [_ ->]. done.
    + intros q k'. by rewrite Hs, decide_False by (intros [E _]; by apply longer in E).
Qed.

(** One bucket is copied. *)
Lemma copied_bucket d old new k l d1 d2 d3 :
  copied d old new ((k, SubBucket) :: l) d1 -> k ∉ l.*1 -> apart old new -> live d1 new ->
  nb_get d old k = Some SubBucket -> nb_create d1 new k = Some d2 ->
  (forall q k', nb_get d3 ((new ++ [k]) ++ q) k' = nb_get d2 ((old ++ [k]) ++ q) k') ->
  (forall p k', ~ under (new ++ [k]) p -> nb_get d3 p k' = nb_get d2 p k') ->
  copied d old new l d3.
Proof.
  intros [Hf Hd Hl] Hk Hap Hlive Hg Hc Hin Hout. pose proof (nb_create_spec d1 new k Hlive) as Hs.
  rewrite Hc in Hs. destruct Hs as [_ Hs].
  assert (Hnew : ~ under (new ++ [k]) new).
  { intros Hu%prefix_length. rewrite length_app in Hu. cbn in Hu. lia. }
  assert (Hother : forall k0 q, k0 <> k -> ~ under (new ++ [k]) (new ++ k0 :: q)).
  { intros k0 q Hne Hu%prefix_app_inv. apply Hne. symmetry. by apply (prefix_cons_inv_1 k k0 [] q). }
  split.
  - intros p k' Hp. rewrite Hout.
    + rewrite Hs, decide_False; [by apply Hf|]. intros [-> _]. by apply Hp.
    + intros Hu. apply Hp. by eapply prefix_app_l.
  - intros k0 Hk0. destruct (decide (k0 = k)) as [->|Hne].
    + split; [by rewrite Hout, Hs, decide_True|]. intros q k'.
      specialize (Hin q k'). rewrite <- !(assoc_L app) in Hin. cbn in Hin. rewrite Hin.
      assert (Ho : ~ under new (old ++ k :: q)) by (by apply apart_under).
      rewrite Hs, decide_False; [by apply Hf|]. intros [E _]. apply Ho. by rewrite E.
    + destruct (Hd k0) as [E1 E2]; [by apply not_elem_of_cons|]. split.
      * rewrite Hout, Hs, decide_False by (try done; intros [_ ?]; done). done.
      * intros q k'. rewrite Hout by (by apply Hother).
        by rewrite Hs, decide_False by (intros [E _]; by apply longer in E).
  - intros k0 Hk0. destruct (Hl k0) as [E1 E2]; [by right|].
    assert (Hne : k0 <> k) by (intros ->; done). split.
    + rewrite Hout, Hs, decide_False by (try done; intros [_ ?]; done). done.
    + intros q k'. rewrite Hout by (by apply Hother).
      by rewrite Hs, decide_False by (intros [E _]; by apply longer in E).
Qed.

(** ** Copying and renaming buckets *)

(** Copying a bucket to an empty one: everything below [old] is then below
    [new] as well, and nothing else has changed. *)
Definition is_copy d (old new : list bytes) d' : Prop :=
  (forall q k, nb_get d' (new ++ q) k = nb_get d (old ++ q) k) /\
  (forall p k, ~ under new p -> nb_get d' p k = nb_get d p k).

Lemma copied_start d old new :
  (forall q k, nb_get d (new ++ q) k = None) -> copied d old new (nb_cursor d old) d.
Proof.
  intros He. split; [done|..].
  - intros k Hk. assert (Hn : nb_get d old k = None).
    { destruct (nb_get d old k) as [x|] eqn:E; [|done]. destruct Hk.
      apply nb_cursor_elem in E. by apply (list_elem_of_fmap_2 fst) in E. }
    split; [by rewrite Hn, <- (app_nil_r new)|]. intros q k'.
    rewrite He, nb_closed; [done|congruence].
  - intros k _. split; [by rewrite <- (app_nil_r new)|]. intros q k'. apply He.
Qed.

Lemma copied_end d old new d' : copied d old new [] d' -> is_copy d old new d'.
Proof.
  intros [Hf Hd _]. split; [|done]. intros [|k0 q] k.
  - rewrite !app_nil_r. apply (Hd k). by apply not_elem_of_nil.
  - apply (Hd k0). by apply not_elem_of_nil.
Qed.

(** A bucket that has been made, in which [old] can be copied on. *)
Lemma made_apart d old new d1 k d2 l :
  copied d old new l d1 -> apart old new -> live d1 new -> nb_create d1 new k = Some d2 ->
  nb_get d old k = Some SubBucket -> k ∈ l.*1 ->
  (forall q k', nb_get d2 ((old ++ [k]) ++ q) k' = nb_get d ((old ++ [k]) ++ q) k') /\
  nb_get d2 old k = Some SubBucket /\ live d2 (new ++ [k]) /\
  (forall q k', nb_get d2 ((new ++ [k]) ++ q) k' = None).
Proof.
  intros Hc Hap Hlive Ec Hg Hk. pose proof (nb_create_spec d1 new k Hlive) as Hs. rewrite Ec in Hs.
  destruct Hs as [_ Hs]. split_and!.
  - intros q k'. rewrite <- !(assoc_L app). rewrite Hs, decide_False.
    + apply (cp_frame _ _ _ _ _ Hc). by apply apart_under.
    + intros [E _]. apply (apart_under old new ([k] ++ q) Hap). by rewrite E.
  - pose proof (apart_under old new [] Hap) as Ho. rewrite app_nil_r in Ho.
    rewrite Hs, decide_False; [by rewrite (cp_frame _ _ _ _ _ Hc)|].
    intros [-> _]. by apply Ho.
  - right. exists new, k. split; [done|]. by rewrite Hs, decide_True.
  - intros q k'. rewrite <- (assoc_L app). cbn. rewrite Hs, decide_False.
    + by apply (cp_left _ _ _ _ _ Hc k).
    + intros [E _]. by apply longer in E.
Qed.

(** The loop, when the recursion copies what is [n] deep. *)
Lemma copy_loop n copy d m old new l d1 :
  (forall d old new, shallow n d old -> apart old new -> live d new ->
    (forall q k, nb_get d (new ++ q) k = None) ->
    exists d', copy old new (d, m) = Some (tt, (d', m)) /\ is_copy d old new d') ->
  shallow (S n) d old -> apart old new -> live d new -> copied d old new l d1 -> NoDup l.*1 ->
  (forall k x, (k, x) ∈ l -> nb_get d old k = Some x) ->
  exists d', for_each (copy_pair copy old new) l (d1, m) = Some (tt, (d', m)) /\
    copied d old new [] d'.
Proof.
  intros Hcopy Hsh Hap Hlive. revert d1.
  induction l as [|[k x] l IHl]; intros d1 Hc1 Hnd Hin; [by exists d1|].
  apply NoDup_cons in Hnd as [Hk Hnd]. cbn in Hk. cbn [for_each].
  pose proof (copied_live _ _ _ _ _ Hc1 Hlive) as Hlive1.
  pose proof (Hin k x ltac:(by left)) as Hg.
  assert (Hin' : forall k x, (k, x) ∈ l -> nb_get d old k = Some x) by (intros; apply Hin; by right).
  destruct (cp_left _ _ _ _ _ Hc1 k) as [Hn Hu]; [by left|]. destruct x as [v|].
  - pose proof (nb_put_spec d1 new k v Hlive1) as Hs. destruct (nb_put d1 new k v) as [d2|] eqn:Ep;
      [|congruence].
    erewrite ex_bind_ok by (by apply change_ok).
    apply IHl; [|done..]. by eapply copied_pair.
  - destruct (nb_create d1 new k) as [d2|] eqn:Ec.
    2: { pose proof (nb_create_spec d1 new k Hlive1) as Hs. rewrite Ec, Hn in Hs. by destruct Hs. }
    destruct (made_apart d old new d1 k d2 ((k, SubBucket) :: l)) as (Hold & Hg2 & Hl2 & Hnew);
      [done..|by left|].
    destruct (Hcopy d2 (old ++ [k]) (new ++ [k])) as (d3 & Hrun & Hcp & Hfr); [|by apply apart_snoc|done|done|].
    { eapply shallow_ext; [exact Hold|by apply Hsh]. }
    erewrite ex_bind_ok.
    2: { cbn [copy_pair]. erewrite ex_bind_ok by (by apply change_ok).
         erewrite ex_bind_ok by (by apply nested_bucket_ok). exact Hrun. }
    apply IHl; [|done..]. by eapply copied_bucket.
Qed.

Lemma copy_runs fuel d m old new :
  shallow fuel d old -> apart old new -> live d new -> (forall q k, nb_get d (new ++ q) k = None) ->
  exists d', copy_bucket_data_recursive fuel old new (d, m) = Some (tt, (d', m)) /\
    is_copy d old new d'.
Proof.
  revert d old new. induction fuel as [|fuel IH]; intros d old new Hsh Hap Hlive He; [done|].
  cbn [copy_bucket_data_recursive]. erewrite ex_bind_ok by reflexivity. cbn [fst].
  destruct (copy_loop fuel (copy_bucket_data_recursive fuel) d m old new (nb_cursor d old) d)
    as (d' & E & Hd'); [done|done|done|done|by apply copied_start|apply nb_cursor_nodup
    |intros; by apply nb_cursor_elem|].
  exists d'. split; [exact E|by apply copied_end].
Qed.

Lemma live_get d p k x : nb_get d p k = Some x -> live d p.
Proof.
  intros Hg. destruct p as [|k0 p0 _] using rev_ind; [by left|]. right. exists p0, k0.
  split; [done|]. destruct (nb_get d p0 k0) as [[v|]|] eqn:E; [|done|];
    rewrite (nb_closed d p0 k0 [] k) in Hg by congruence; done.
Qed.

Lemma not_under_snoc p k : ~ under (p ++ [k]) p.
Proof. intros Hu%prefix_length. rewrite length_app in Hu. cbn in Hu. lia. Qed.

Lemma siblings_apart p k k' : k <> k' -> apart (p ++ [k]) (p ++ [k']).
Proof.
  intros Hne. split; intros Hu%prefix_app_inv; apply Hne.
  - by apply (prefix_cons_inv_1 k k' [] []).
  - symmetry. by apply (prefix_cons_inv_1 k' k [] []).
Qed.

(** C40: Renaming a bucket moves all that is in it. For a bucket at [old_key] and
    an unused [new_key] the operation ends without a panic; afterwards
    everything that was below the old key, at any depth, is below the new
    one and nothing is below the old one, and all other keys of the
    database are as before. *)
Theorem rename_bucket_moves d m p old_key new_key :
  nb_get d p old_key = Some SubBucket -> nb_get d p new_key = None ->
  exists d',
    execute_one p (RenameKey old_key new_key) (d, m) = Some (tt, (d', m)) /\
    nb_get d' p new_key = Some SubBucket /\ nb_get d' p old_key = None /\
    (forall q k, nb_get d' (p ++ new_key :: q) k = nb_get d (p ++ old_key :: q) k) /\
    (forall q k, nb_get d' (p ++ old_key :: q) k = None) /\
    (forall p' k, ~ under (p ++ [old_key]) (p' ++ [k]) -> ~ under (p ++ [new_key]) (p' ++ [k]) ->
      nb_get d' p' k = nb_get d p' k).
Proof.
  intros Ho Hn. assert (Hne : old_key <> new_key) by congruence.
  pose proof (nb_create_spec d p new_key (live_get _ _ _ _ Ho)) as Hc.
  destruct (nb_create d p new_key) as [d1|] eqn:Ec; [|rewrite Hn in Hc; by destruct Hc].
  destruct Hc as [_ Hc].
  assert (Ho1 : nb_get d1 p old_key = Some SubBucket) by (by rewrite Hc, decide_False by (intros [_ ?]; done)).
  destruct (copy_runs (S (nb_depth d1 (p ++ [old_key]))) d1 m (p ++ [old_key]) (p ++ [new_key]))
    as (d2 & Hrun & Hin & Hout).
  { apply nb_depth_ok. }
  { by apply siblings_apart. }
  { right. exists p, new_key. split; [done|]. by rewrite Hc, decide_True. }
  { intros q k. rewrite <- (assoc_L app). cbn.
    rewrite Hc, decide_False by (intros [E _]; by apply longer in E).
    apply nb_closed. congruence. }
  pose proof (nb_delete_bucket_spec d2 p old_key) as Hd.
  destruct (nb_delete_bucket d2 p old_key) as [d3|] eqn:Ed.
  2: { rewrite Hout in Hd by apply not_under_snoc. congruence. }
  destruct Hd as [_ Hd].
  assert (Hsib : forall q k, ~ under (p ++ [old_key]) ((p ++ new_key :: q) ++ [k])).
  { intros q k Hu. apply (apart_under (p ++ [new_key]) (p ++ [old_key]) (q ++ [k]));
      [by apply siblings_apart|]. by rewrite <- !(assoc_L app) in *. }
  exists d3. split_and!.
  - cbn [execute_one]. unfold rename_key. erewrite ex_bind_ok by reflexivity. cbn [fst].
    rewrite Ho, bool_decide_eq_false_2 by done. erewrite ex_bind_ok by reflexivity. cbn [fst].
    rewrite Hn. erewrite ex_bind_ok by (by apply change_ok).
    erewrite ex_bind_ok by (by apply nested_bucket_ok). erewrite ex_bind_ok by reflexivity.
    cbn [fst]. erewrite ex_bind_ok by exact Hrun. by apply change_ok.
  - rewrite Hd, decide_False, Hout, Hc, decide_True by (try done; try apply not_under_snoc;
      intros Hu%prefix_app_inv; apply Hne; by apply (prefix_cons_inv_1 old_key new_key [] [])).
    done.
  - by rewrite Hd, decide_True.
  - intros q k. rewrite Hd, decide_False by apply Hsib.
    specialize (Hin q k). rewrite <- !(assoc_L app) in Hin. cbn in Hin. rewrite Hin.
    by rewrite Hc, decide_False by (intros [E _]; by apply longer in E).
  - intros q k. rewrite Hd, decide_True; [done|].
    rewrite <- (assoc_L app). apply prefix_app, (prefix_cons old_key [] _), prefix_nil.
  - intros p' k Ho' Hn'. rewrite Hd, decide_False by done. rewrite Hout.
    + rewrite Hc, decide_False; [done|]. intros [-> ->]. by apply Hn'.
    + intros Hu. apply Hn'. by apply prefix_app_r.
Qed.

(** Renaming a pair copies it. For a pair at [old_key] and an unused
    [new_key] the operation reports success, and afterwards the value is
    under both keys: the old one is never deleted. *)
Theorem rename_pair_copies d m p old_key new_key v :
  nb_get d p old_key = Some (KeyValue v) -> nb_get d p new_key = None ->
  exists d',
    execute_one p (RenameKey old_key new_key) (d, m) = Some (tt, (d', m)) /\
    nb_get d' p new_key = Some (KeyValue v) /\ nb_get d' p old_key = Some (KeyValue v) /\
    (forall p' k, p' <> p \/ k <> new_key -> nb_get d' p' k = nb_get d p' k).
Proof.
  intros Ho Hn. assert (Hne : old_key <> new_key) by congruence.
  pose proof (nb_put_spec d p new_key v (live_get _ _ _ _ Ho)) as Hp.
  destruct (nb_put d p new_key v) as [d'|] eqn:Ep; [|congruence]. destruct Hp as [_ Hp].
  exists d'. split_and!.
  - cbn [execute_one]. unfold rename_key. erewrite ex_bind_ok by reflexivity. cbn [fst].
    rewrite Ho, bool_decide_eq_false_2 by done. erewrite ex_bind_ok by reflexivity. cbn [fst].
    rewrite Hn. by apply change_ok.
  - by rewrite Hp, decide_True.
  - by rewrite Hp, decide_False by (intros [_ ?]; done).
  - intros p' k Hk. rewrite Hp, decide_False; [done|]. intros [-> ->]. by destruct Hk.
Qed.

(** ** Reading into the caller's buffer *)

Lemma poke_poke m addr l1 l2 a :
  poke (poke m addr l1) (addr + zlen l1) l2 a = poke m addr (l1 ++ l2) a.
Proof.
  unfold poke. destruct (Z.leb_spec addr a) as [Ha|Ha].
  - destruct (decide (a < addr + zlen l1)) as [Hin|Hin].
    + rewrite (lookup_app_l l1) by (unfold zlen in *; lia).
      rewrite Zleb_f by lia. by destruct (l2 !! _).
    + rewrite (lookup_app_r l1) by (unfold zlen in *; lia).
      rewrite (lookup_ge_None_2 l1) by (unfold zlen in *; lia).
      rewrite Zleb_t by lia.
      by replace (Z.to_nat (a - addr) - length l1)%nat with (Z.to_nat (a - (addr + zlen l1)))
        by (unfold zlen; lia).
  - pose proof (zlen_nonneg l1). rewrite Zleb_f by lia.
    by destruct (l2 !! _), (l1 !! _), ((l1 ++ l2) !! _).
Qed.

Lemma read_keys_runs d p keys vs buf_addr buf_size offset m :
  Forall2 (fun key v => nb_get d p key = Some (KeyValue v)) keys vs -> offset <= buf_size ->
  exists m', read_keys p keys buf_addr buf_size offset (d, m) = Some (tt, (d, m')) /\
    forall a, m' a = poke m (buf_addr + offset) (take (Z.to_nat (buf_size - offset)) (concat vs)) a.
Proof.
  intros HF. revert offset m.
  induction HF as [|key v keys vs Hg _ IH]; intros offset m Ho; cbn [read_keys concat].
  - exists m. split; [done|]. intros a. unfold poke. by rewrite take_nil.
  - pose proof (zlen_nonneg v). set (len := Z.min (buf_size - offset) (zlen v)).
    destruct (IH (offset + len) (poke m (buf_addr + offset) (take (Z.to_nat len) v)))
      as (m' & E & Hm'); [lia|].
    exists m'. split.
    + erewrite ex_bind_ok by reflexivity. cbn [fst]. rewrite Hg.
      erewrite ex_bind_ok by reflexivity. by erewrite ex_bind_ok by reflexivity.
    + intros a. rewrite Hm'.
      assert (El : zlen (take (Z.to_nat len) v) = len)
        by (unfold zlen in *; rewrite length_take; lia).
      replace (buf_addr + (offset + len)) with (buf_addr + offset + zlen (take (Z.to_nat len) v))
        by lia.
      rewrite poke_poke. f_equal. rewrite take_app. f_equal.
      * destruct (decide (zlen v <= buf_size - offset)).
        -- rewrite !take_ge by (unfold len, zlen in *; lia). done.
        -- f_equal. unfold len. lia.
      * f_equal. unfold len, zlen in *. lia.
Qed.

(** [Read] fills the caller's buffer with the values of the keys one after
    the other. When every key has a value the operation ends without a
    panic and leaves the database as it is; the memory from the address on
    holds the concatenation of the values cut at the size of the buffer,
    and no byte outside it has changed. *)
Theorem read_concatenates d m p keys vs buf_addr buf_size :
  Forall2 (fun key v => nb_get d p key = Some (KeyValue v)) keys vs -> 0 <= buf_size ->
  exists m', execute_one p (Read keys buf_addr buf_size) (d, m) = Some (tt, (d, m')) /\
    (forall i : nat, Z.of_nat i < buf_size -> (i < length (concat vs))%nat ->
      Some (m' (buf_addr + Z.of_nat i)) = concat vs !! i) /\
    (forall a, a < buf_addr \/ buf_addr + buf_size <= a -> m' a = m a).
Proof.
  intros HF Hs. destruct (read_keys_runs d p keys vs buf_addr buf_size 0 m HF Hs) as (m' & E & Hm').
  exists m'. split_and!; [exact E|..].
  - intros i Hi Hl. rewrite Hm'. unfold poke. rewrite Zleb_t by lia.
    replace (Z.to_nat _) with i by lia. rewrite lookup_take_lt by lia.
    destruct (concat vs !! i) eqn:Ei; [done|]. apply lookup_ge_None in Ei. lia.
  - intros a Ha. rewrite Hm'. unfold poke. rewrite Z.add_0_r, Z.sub_0_r.
    destruct (take _ _ !! _) as [b|] eqn:Eb; [|done].
    apply lookup_take_Some in Eb as [_ Hlt]. rewrite Zleb_f; [done|]. lia.
Qed.
End facts.

(** ** A concrete database

    A map from paths: a pair at the path of its bucket and its key, [None] at
    the path of a bucket. Only what hangs together with the root counts. *)

Abbreviation nestdb := (gmap (list bytes) (option bytes)).

(** The paths above and including [p], without the root. *)
Definition inits (p : list bytes) : list (list bytes) :=
  (fun n => take (S n) p) <$> seq 0 (length p).

Definition alive (d : nestdb) (p : list bytes) : bool :=
  forallb (fun q => bool_decide (d !! q = Some None)) (inits p).

Definition nest_get (d : nestdb) (p : list bytes) (k : bytes) : option Data :=
  if alive d p
  then match d !! (p ++ [k]) with
       | Some (Some v) => Some (KeyValue v)
       | Some None => Some SubBucket
       | None => None
       end
  else None.

(** The map without what is strictly below a path. *)
Definition prune (x : list bytes) (d : nestdb) : nestdb :=
  filter (fun qv : list bytes * option bytes => ~ (x `prefix_of` qv.1)) d.

Definition nest_keys (d : nestdb) : list bytes :=
  remove_dups (omap (fun qv : list bytes * option bytes => last qv.1) (map_to_list d)).

#[export] Instance nestdb_nested : NestedDb nestdb := {
  nb_begin _ := None;
  nb_commit _ _ := None;
  nb_get := nest_get;
  nb_put d p k v :=
    match nest_get d p k with Some SubBucket => None | _ => Some (<[p ++ [k] := Some v]> d) end;
  nb_create d p k :=
    match nest_get d p k with
    | Some _ => None
    | None => Some (<[p ++ [k] := None]> (prune (p ++ [k]) d))
    end;
  nb_delete d p k :=
    match nest_get d p k with Some (KeyValue _) => Some (base.delete (p ++ [k]) d) | _ => None end;
  nb_delete_bucket d p k :=
    match nest_get d p k with Some SubBucket => Some (prune (p ++ [k]) d) | _ => None end;
  nb_cursor d p :=
    (fun k => (k, default SubBucket (nest_get d p k))) <$>
    filter (fun k => is_Some (nest_get d p k)) (nest_keys d);
  nb_depth d _ := max_list ((fun qv => length qv.1) <$> map_to_list d) }.

#[export] Instance nestdb_reliable : NestedReliable nestdb.
Proof. by split. Qed.

Lemma prefix_snoc (q p : list bytes) k : q `prefix_of` p ++ [k] -> q `prefix_of` p \/ q = p ++ [k].
Proof.
  intros [r E]. destruct r as [|x r _] using rev_ind.
  - right. by rewrite app_nil_r in E.
  - left. rewrite (assoc_L app) in E. apply app_inj_tail in E as [-> _]. by exists r.
Qed.

Lemma alive_spec d p :
  alive d p = true <-> forall q, q <> [] -> q `prefix_of` p -> d !! q = Some None.
Proof.
  unfold alive. rewrite forallb_forall. split.
  - intros Hd q Hq [r ->]. specialize (Hd q). rewrite <- list_elem_of_In, bool_decide_eq_true in Hd.
    apply Hd, list_elem_of_fmap. exists (length q - 1)%nat.
    assert (0 < length q)%nat by (destruct q; [done|cbn; lia]).
    split; [|apply elem_of_seq; rewrite length_app; lia].
    replace (S (length q - 1)) with (length q) by lia. by rewrite take_app_length.
  - intros Hd q. unfold inits. rewrite <- list_elem_of_In, list_elem_of_fmap.
    intros (n & -> & [_ Hn]%elem_of_seq). apply bool_decide_eq_true_2, Hd.
    + destruct p; [cbn in Hn; lia|done].
    + apply prefix_take.
Qed.

Lemma alive_ext d d' p :
  (forall q, q <> [] -> q `prefix_of` p -> d !! q = Some None <-> d' !! q = Some None) ->
  alive d p = alive d' p.
Proof.
  intros He. apply eq_true_iff_eq. rewrite !alive_spec. split; intros Hd q Hq Hp; apply He; auto.
Qed.

Lemma alive_above d p q : alive d (p ++ q) = true -> alive d p = true.
Proof.
  rewrite !alive_spec. intros Hd r Hr Hp. apply Hd; [done|]. by apply prefix_app_r.
Qed.

Lemma alive_live d p : live d p -> alive d p = true.
Proof.
  intros [->|(p0 & k & -> & Hg)]; [done|]. cbn in Hg. unfold nest_get in Hg.
  destruct (alive d p0) eqn:Ea; [|done]. apply alive_spec. intros q Hq Hp.
  apply prefix_snoc in Hp as [Hp| ->].
  - by apply (proj1 (alive_spec d p0)).
  - by destruct (d !! _) as [[v|]|].
Qed.

Lemma snoc_eq (p p' : list bytes) k k' : p ++ [k] = p' ++ [k'] <-> p = p' /\ k = k'.
Proof. split; [by intros [? [= ?]]%app_inj_2|by intros [-> ->]]. Qed.

Lemma prune_lookup x d q : prune x d !! q = if decide (x `prefix_of` q) then None else d !! q.
Proof.
  unfold prune. case_decide as Hp.
  - apply map_lookup_filter_None. right. intros v _ Hn. by apply Hn.
  - destruct (d !! q) as [v|] eqn:E.
    + by apply map_lookup_filter_Some.
    + apply map_lookup_filter_None. by left.
Qed.

(** What the map has at a live bucket's key. *)
Lemma nest_get_live (d : nestdb) p k :
  alive d p = true ->
  nest_get d p k = match d !! (p ++ [k]) with
                   | Some (Some v) => Some (KeyValue v) | Some None => Some SubBucket | None => None
                   end.
Proof. intros E. unfold nest_get. by rewrite E. Qed.

(** A change at one path that neither makes nor loses a bucket. *)
Lemma nest_get_change (d d' : nestdb) p k x :
  alive d p = true -> d !! (p ++ [k]) <> Some None -> d' !! (p ++ [k]) <> Some None ->
  (forall q, q <> p ++ [k] -> d' !! q = d !! q) ->
  match d' !! (p ++ [k]) with
  | Some (Some v) => Some (KeyValue v) | Some None => Some SubBucket | None => None
  end = x ->
  forall p' k', nest_get d' p' k' = if decide (p' = p /\ k' = k) then x else nest_get d p' k'.
Proof.
  intros Ha Hx Hx' Hs Hv p' k'.
  assert (He : forall p, alive d' p = alive d p).
  { intros p0. apply alive_ext. intros q _ _. destruct (decide (q = p ++ [k])) as [->|Hq];
      [done|by rewrite Hs]. }
  unfold nest_get. rewrite He. case_decide as E.
  - destruct E as [-> ->]. by rewrite Ha.
  - rewrite Hs; [done|]. rewrite snoc_eq. done.
Qed.

Lemma nest_put_law (d : nestdb) p k v : live d p ->
  match nb_put d p k v with
  | Some d' => nb_get d p k <> Some SubBucket /\
      forall p' k', nb_get d' p' k' =
        if decide (p' = p /\ k' = k) then Some (KeyValue v) else nb_get d p' k'
  | None => nb_get d p k = Some SubBucket
  end.
Proof.
  intros Ha%alive_live. cbn.
  assert (Hput : d !! (p ++ [k]) <> Some None -> forall p' k',
    nest_get (<[p ++ [k] := Some v]> d) p' k' =
    if decide (p' = p /\ k' = k) then Some (KeyValue v) else nest_get d p' k').
  { intros Hx. apply nest_get_change; [done|done|by rewrite lookup_insert_eq| |].
    - intros q Hq. by rewrite lookup_insert_ne.
    - by rewrite lookup_insert_eq. }
  pose proof (nest_get_live d p k Ha) as Hg.
  destruct (nest_get d p k) as [[v'|]|] eqn:E; [|done|]; split; try done; apply Hput;
    intros Ex; by rewrite Ex in Hg.
Qed.

Lemma nest_create_law (d : nestdb) p k : live d p ->
  match nb_create d p k with
  | Some d' => nb_get d p k = None /\
      forall p' k', nb_get d' p' k' =
        if decide (p' = p /\ k' = k) then Some SubBucket else nb_get d p' k'
  | None => is_Some (nb_get d p k)
  end.
Proof.
  intros Ha%alive_live. cbn. destruct (nest_get d p k) as [x|] eqn:E; [by eexists|].
  split; [done|]. rewrite nest_get_live in E by done.
  assert (Hx : d !! (p ++ [k]) = None) by (by destruct (d !! (p ++ [k])) as [[v|]|]).
  set (d' := <[p ++ [k] := None]> (prune (p ++ [k]) d)). intros p' k'.
  assert (Hd' : forall q, ~ (p ++ [k]) `prefix_of` q -> d' !! q = d !! q).
  { intros q Hq. unfold d'. rewrite lookup_insert_ne by (by intros <-).
    by rewrite prune_lookup, decide_False. }
  assert (He : forall q, ~ (p ++ [k]) `prefix_of` q -> alive d' q = alive d q).
  { intros q Hq. apply alive_ext. intros r _ Hr. rewrite Hd'; [done|].
    intros Hu. apply Hq. by etrans. }
  case_decide as Epk.
  - destruct Epk as [-> ->]. unfold nest_get. rewrite He by apply prefix_snoc_not.
    rewrite Ha. unfold d'. by rewrite lookup_insert_eq.
  - destruct (decide ((p ++ [k]) `prefix_of` p')) as [Hu|Hu].
    + assert (Hdead : alive d p' = false).
      { apply not_true_iff_false. rewrite alive_spec. intros Hal.
        rewrite (Hal (p ++ [k])) in Hx; [done|by destruct p|done]. }
      unfold nest_get. rewrite Hdead. unfold d'.
      rewrite lookup_insert_ne, prune_lookup, decide_True.
      * by destruct (alive (<[_ := _]> _) p').
      * by apply prefix_app_r.
      * rewrite snoc_eq. intros [E1 E2]. by apply Epk.
    + unfold nest_get. rewrite He by done. destruct (alive d p'); [|done].
      rewrite Hd'; [done|]. intros [?|E']%prefix_snoc; [done|]. apply snoc_eq in E' as [E1 E2]. by apply Epk.
Qed.

Lemma nest_delete_law (d : nestdb) p k :
  match nb_delete d p k with
  | Some d' => (exists v, nb_get d p k = Some (KeyValue v)) /\
      forall p' k', nb_get d' p' k' =
        if decide (p' = p /\ k' = k) then None else nb_get d p' k'
  | None => forall v, nb_get d p k <> Some (KeyValue v)
  end.
Proof.
  cbn. destruct (nest_get d p k) as [[v|]|] eqn:E; [|done|done]. split; [by exists v|].
  unfold nest_get in E. destruct (alive d p) eqn:Ha; [|done].
  apply nest_get_change; [done| |by rewrite lookup_delete_eq| |].
  - by destruct (d !! (p ++ [k])) as [[w|]|].
  - intros q Hq. by rewrite lookup_delete_ne.
  - by rewrite lookup_delete_eq.
Qed.

Lemma nest_delete_bucket_law (d : nestdb) p k :
  match nb_delete_bucket d p k with
  | Some d' => nb_get d p k = Some SubBucket /\
      forall p' k', nb_get d' p' k' =
        if decide ((p ++ [k]) `prefix_of` (p' ++ [k'])) then None else nb_get d p' k'
  | None => nb_get d p k <> Some SubBucket
  end.
Proof.
  cbn. destruct (nest_get d p k) as [[v|]|] eqn:E; [done| |done]. split; [done|].
  intros p' k'. unfold nest_get. rewrite prune_lookup. case_decide as Hu; [by case_match|].
  assert (He : alive (prune (p ++ [k]) d) p' = alive d p').
  { apply alive_ext. intros q _ Hq. rewrite prune_lookup, decide_False; [done|].
    intros Hr. apply Hu. etrans; [exact Hr|]. by apply prefix_app_r. }
  by rewrite He.
Qed.

Lemma nest_closed_law (d : nestdb) p k q k' :
  nb_get d p k <> Some SubBucket -> nb_get d (p ++ k :: q) k' = None.
Proof.
  cbn. intros Hn. unfold nest_get at 1. destruct (alive d (p ++ k :: q)) eqn:Ha; [|done].
  destruct Hn. rewrite nest_get_live by (by eapply alive_above).
  rewrite (proj1 (alive_spec d (p ++ k :: q)) Ha (p ++ [k])); [done|by destruct p|].
  apply prefix_app, (prefix_cons k [] q), prefix_nil.
Qed.

Lemma nest_keys_spec (d : nestdb) p k : is_Some (nest_get d p k) -> k ∈ nest_keys d.
Proof.
  intros Hs. unfold nest_keys. rewrite elem_of_remove_dups. apply list_elem_of_omap.
  unfold nest_get in Hs. destruct (alive d p); [|by destruct Hs].
  destruct (d !! (p ++ [k])) as [x|] eqn:E; [|by destruct Hs].
  exists (p ++ [k], x). split; [by apply elem_of_map_to_list|]. cbn. apply last_snoc.
Qed.

Lemma nest_shallow (n : nat) (d : nestdb) (p : list bytes) :
  (0 < n)%nat -> (nb_depth d p < n + length p)%nat -> shallow n d p.
Proof.
  revert p. induction n as [|n IH]; intros p Hn Hd; [lia|]. cbn [shallow]. intros k Hk.
  assert (Hlen : (length (p ++ [k]) <= nb_depth d p)%nat).
  { cbn. cbn in Hk. unfold nest_get in Hk. destruct (alive d p); [|done].
    destruct (d !! (p ++ [k])) as [x|] eqn:E; [|done].
    apply max_list_elem_of_le, list_elem_of_fmap. exists (p ++ [k], x).
    split; [done|by apply elem_of_map_to_list]. }
  rewrite length_app in Hlen. cbn [length] in Hlen.
  apply IH; [lia|]. rewrite length_app. cbn [length]. change (nb_depth d (p ++ [k])) with (nb_depth d p).
  lia.
Qed.

#[export] Instance nestdb_laws : NestedDbLaws nestdb.
Proof.
  split.
  - apply nest_put_law.
  - apply nest_create_law.
  - apply nest_delete_law.
  - apply nest_delete_bucket_law.
  - apply nest_closed_law.
  - intros d p. cbn. rewrite <- list_fmap_compose. cbn.
    rewrite (list_fmap_ext _ id) by done. rewrite list_fmap_id.
    apply NoDup_filter, NoDup_remove_dups.
  - intros d p k x. cbn. rewrite list_elem_of_fmap. split.
    + intros (k0 & [= -> ->] & [[y Hy] _]%list_elem_of_filter). by rewrite Hy.
    + intros Hg. exists k. rewrite Hg. split; [done|]. apply list_elem_of_filter.
      split; [by eexists|]. apply nest_keys_spec with p. by eexists.
  - intros d p. apply nest_shallow; lia.
Qed.

(** ** Witnesses *)

(** The bucket [u] with the pair [x] and the bucket [b], in it the pair [k]. *)
Definition user_db : nestdb :=
  {[ [bs "u"] := None; [bs "u"; bs "x"] := Some (bs "12"); [bs "u"; bs "b"] := None;
     [bs "u"; bs "b"; bs "k"] := Some (bs "345") ]}.

Definition zero_memory : memory := fun _ => Byte.x00.

Lemma rename_bucket_moves_witness :
  exists d', execute_one [bs "u"] (RenameKey (bs "b") (bs "c")) (user_db, zero_memory) =
      Some (tt, (d', zero_memory)) /\
    nb_get d' [bs "u"; bs "c"] (bs "k") = Some (KeyValue (bs "345")) /\
    nb_get d' [bs "u"; bs "b"] (bs "k") = None.
Proof.
  destruct (rename_bucket_moves user_db zero_memory [bs "u"] (bs "b") (bs "c"))
    as (d' & E & _ & _ & Hm & Ho & _); [vm_compute; reflexivity|vm_compute; reflexivity|].
  exists d'. split; [exact E|]. split; [|exact (Ho [] (bs "k"))].
  specialize (Hm [] (bs "k")). cbn [app] in Hm. rewrite Hm. vm_compute. reflexivity.
Defined.

Lemma rename_pair_copies_witness :
  exists d', execute_one [bs "u"] (RenameKey (bs "x") (bs "y")) (user_db, zero_memory) =
      Some (tt, (d', zero_memory)) /\
    nb_get d' [bs "u"] (bs "y") = Some (KeyValue (bs "12")) /\
    nb_get d' [bs "u"] (bs "x") = Some (KeyValue (bs "12")).
Proof.
  destruct (rename_pair_copies user_db zero_memory [bs "u"] (bs "x") (bs "y") (bs "12"))
    as (d' & E & Hn & Ho & _); [vm_compute; reflexivity|vm_compute; reflexivity|].
  exists d'. split; [exact E|split; [exact Hn|exact Ho]].
Defined.

Lemma read_concatenates_witness :
  exists m', execute_one [bs "u"] (Read [bs "x"; bs "x"] 100 3) (user_db, zero_memory) =
      Some (tt, (user_db, m')) /\
    Some (m' 102) = bs "1212" !! 2%nat /\ m' 103 = Byte.x00.
Proof.
  destruct (read_concatenates user_db zero_memory [bs "u"] [bs "x"; bs "x"] [bs "12"; bs "12"] 100 3)
    as (m' & E & Hin & Hout);
    [repeat constructor; vm_compute; reflexivity|lia|].
  exists m'. split; [exact E|]. split.
  - apply (Hin 2%nat); [lia|cbn; lia].
  - apply (Hout 103). right. lia.
Defined.

(** A whole set of operations on a path. *)
Example execute_sample :
  (fun r : option (Z * (nestdb * memory)) => match r with
     | Some (code, (d, _)) => (code, nb_get d [bs "u"; bs "b"; bs "n"] (bs "key"))
     | None => (-1, None) end)
   (execute_operate (bs "u:b")
     [AddBucket (bs "n") (Some [AddKey [(bs "old", bs "1")]; RenameKey (bs "old") (bs "key")]);
      DeleteKey [bs "k"]] (user_db, zero_memory)) = (0, Some (KeyValue (bs "1"))).
Proof. vm_compute. reflexivity. Qed.
