(* ===== verification/DiskFile.v ===== *)
(** * The file under the FUSE daemon's database: src/src/fuse/mkfs.rs

    [jammdb] reaches its file through traits the repository implements on a
    file of the host: opening, reading, writing, seeking, growing, and a
    memory map that hands out pages. The host's file is the standard
    library's; each call has the host's answer as an argument: whether it
    succeeds, and for reads and writes how many bytes it moves, which may be
    fewer than it was asked for. *)

From S2P Require Import Prelude Bytes Common.

(** [std::fs::File]: the contents and the cursor. *)
Record HostFile := MkHostFile { h_data : bytes; h_pos : Z }.

Inductive SeekFrom := Start (x : Z) | End (x : Z) | Current (x : Z).

(** [core2::io::ErrorKind::Other] with its message, or a result. *)
Definition IOResult (A : Type) : Type := bytes + A.

(** [set_len]: cuts, or fills with zeros. *)
Definition set_len (new_size : Z) (f : HostFile) : HostFile :=
  MkHostFile (take (Z.to_nat new_size) (h_data f) ++
              replicate (Z.to_nat new_size - length (h_data f)) Byte.x00) (h_pos f).

(** The host's [seek]: a position that is negative or does not fit its
    64-bit signed offset is refused. *)
Definition host_seek (pos : SeekFrom) (f : HostFile) : option (Z * HostFile) :=
  let p := match pos with
           | Start x => x
           | End x => zlen (h_data f) + x
           | Current x => h_pos f + x
           end in
  if (p <? 0) || (2 ^ 63 <=? p) then None else Some (p, MkHostFile (h_data f) p).

(** The host's [read] moves at most [most] bytes of those there are into the
    front of the buffer. *)
Definition host_read (most : nat) (buf : bytes) (f : HostFile) : Z * bytes * HostFile :=
  let piece := take (Nat.min most (length buf)) (drop (Z.to_nat (h_pos f)) (h_data f)) in
  (zlen piece, piece ++ drop (length piece) buf,
   MkHostFile (h_data f) (h_pos f + zlen piece)).

(** The host's [write] takes at most [most] bytes of the buffer; unless it
    takes none, a gap before the cursor is filled with zeros. *)
Definition host_write (most : nat) (buf : bytes) (f : HostFile) : Z * HostFile :=
  let piece := take most buf in
  if (length piece =? 0)%nat then (0, f) else
  let old := h_data f ++ replicate (Z.to_nat (h_pos f + zlen piece) - length (h_data f)) Byte.x00 in
  (zlen piece, MkHostFile (splice old (h_pos f) piece) (h_pos f + zlen piece)).

(** ** [FakeFile] *)

Record FakeFile := MkFakeFile { fk_file : HostFile; fk_size : Z }.

Definition fake_new (file : HostFile) : FakeFile := MkFakeFile file (zlen (h_data file)).

(** [MyOpenOptions::<S>::open]: the file gets the size [S]; a failure of the
    host panics. *)
Definition options_open (S : Z) (opened : option HostFile) (ok : bool) : option FakeFile :=
  file ← opened;
  if ok then Some (fake_new (set_len S file)) else None.

Definition fake_seek (ok : bool) (pos : SeekFrom) (f : FakeFile) : IOResult Z * FakeFile :=
  match (if ok then host_seek pos (fk_file f) else None) with
  | Some (p, file) => (inr p, MkFakeFile file (fk_size f))
  | None => (inl (bs "seek error"), f)
  end.

(** [moves] is [None] when the host fails. *)
Definition fake_read (moves : option nat) (buf : bytes) (f : FakeFile) :
  IOResult (Z * bytes) * FakeFile :=
  match moves with
  | Some most =>
      let '(n, buf, file) := host_read most buf (fk_file f) in
      (inr (n, buf), MkFakeFile file (fk_size f))
  | None => (inl (bs "read error"), f)
  end.

Definition fake_write (moves : option nat) (buf : bytes) (f : FakeFile) : IOResult Z * FakeFile :=
  match moves with
  | Some most =>
      let '(n, file) := host_write most buf (fk_file f) in (inr n, MkFakeFile file (fk_size f))
  | None => (inl (bs "write error"), f)
  end.

(** [flush] and [sync_all] answer ok and do nothing. *)
Definition fake_flush (f : FakeFile) : IOResult unit * FakeFile := (inr tt, f).
Definition fake_sync_all (f : FakeFile) : IOResult unit * FakeFile := (inr tt, f).
Definition fake_size (f : FakeFile) : Z := fk_size f.

Definition fake_metadata (ok : bool) (f : FakeFile) : IOResult Z :=
  if ok then inr (zlen (h_data (fk_file f))) else inl (bs "metadata error").

Definition fake_allocate (ok : bool) (new_size : Z) (f : FakeFile) : IOResult unit * FakeFile :=
  if new_size <? fk_size f then (inr tt, f)
  else if ok then (inr tt, MkFakeFile (set_len new_size (fk_file f)) new_size)
  else (inl (bs "allocate error"), f).

(** ** The memory map

    [MMAP] is a [Once]: the length mapped by the first call, for the rest of
    the process. The map shows the bytes the file has. A failure of [mmap]
    panics inside it. *)
Definition Mmap := option Z.

Definition do_map (ok : bool) (f : FakeFile) (m : Mmap) : option Mmap :=
  match m with
  | Some _ => Some m
  | None => if ok then Some (Some (zlen (h_data (fk_file f)))) else None
  end.

(** [IndexByPageID::index] and [len]. *)
Definition mmap_index (m : Mmap) (f : FakeFile) (page_id page_size : Z) : option bytes :=
  len ← m;
  map ← slice (h_data (fk_file f)) 0 len;
  let start := w64 (page_id * page_size) in
  slice map start (w64 (start + page_size)).

Definition mmap_len (m : Mmap) : option Z := m.

(** ** Facts *)

Lemma set_len_len n f : 0 <= n -> zlen (h_data (set_len n f)) = n.
Proof.
  intros Hn. unfold zlen. cbn. rewrite length_app, length_take, length_replicate. lia.
Qed.

(** The memory map does not grow with the file. Once the file was mapped at
    a length, mapping again changes nothing; a page inside that length shows
    the bytes the file has now, but after [fake_allocate] has made the file
    longer, a page that ends beyond the mapped length panics although the
    file has it. *)
Theorem map_misses_growth f m new_size page_id page_size :
  do_map true f None = Some m ->
  zlen (h_data (fk_file f)) = fk_size f -> fk_size f <= new_size ->
  0 <= page_id -> 0 < page_size -> (page_id + 1) * page_size < 2 ^ 64 ->
  exists f',
    fake_allocate true new_size f = (inr tt, f') /\
    zlen (h_data (fk_file f')) = new_size /\ do_map true f' m = Some m /\
    ((page_id + 1) * page_size <= fk_size f ->
      mmap_index m f' page_id page_size =
      slice (h_data (fk_file f)) (page_id * page_size) ((page_id + 1) * page_size)) /\
    (fk_size f < (page_id + 1) * page_size -> mmap_index m f' page_id page_size = None).
Proof.
  intros [= <-] Hs Hn Hi Hp Hb. pose proof (zlen_nonneg (h_data (fk_file f))) as H0.
  set (data := h_data (fk_file f)) in *. exists (MkFakeFile (set_len new_size (fk_file f)) new_size).
  assert (Hpre : take (Z.to_nat (zlen data)) (h_data (set_len new_size (fk_file f))) = data).
  { cbn. fold data. rewrite take_app_le by (rewrite length_take; unfold zlen in *; lia).
    rewrite take_take. apply take_ge. unfold zlen in *. lia. }
  assert (Hidx : mmap_index (Some (zlen data))
      (MkFakeFile (set_len new_size (fk_file f)) new_size) page_id page_size =
    slice data (page_id * page_size) ((page_id + 1) * page_size)).
  { unfold mmap_index. cbn [mbind option_bind fk_file].
    rewrite slice_ok by (try rewrite set_len_len; lia). cbn [mbind option_bind].
    rewrite Z.sub_0_r. change (Z.to_nat 0) with 0%nat. rewrite drop_0, Hpre.
    rewrite !w64_small; [f_equal; lia|..]; unfold is_u64; rewrite ?w64_small;
      unfold is_u64; nia. }
  split_and!.
  - unfold fake_allocate. by rewrite Zltb_f by lia.
  - apply set_len_len. lia.
  - done.
  - intros _. apply Hidx.
  - intros Hlt. rewrite Hidx. unfold slice.
    rewrite (Zleb_f _ (zlen data)) by lia. by rewrite andb_false_r.
Qed.

(** Growing can cut: the recorded size does not follow the writes, so that a
    size between it and the length of the file is set as the new length, and
    the bytes behind it are lost. *)
Theorem allocate_cuts f new_size :
  fk_size f <= new_size < zlen (h_data (fk_file f)) -> 0 <= new_size ->
  exists f', fake_allocate true new_size f = (inr tt, f') /\
    h_data (fk_file f') = take (Z.to_nat new_size) (h_data (fk_file f)) /\
    zlen (h_data (fk_file f')) < zlen (h_data (fk_file f)).
Proof.
  intros [Hs Hn] H0. unfold fake_allocate. rewrite Zltb_f by lia. eexists. split; [done|].
  split; [|cbn [fk_file]; rewrite set_len_len; lia]. cbn.
  replace (_ - _)%nat with 0%nat by (unfold zlen in *; lia). apply app_nil_r.
Qed.

(** ** Witnesses *)

Definition sample_disk : FakeFile := fake_new (MkHostFile (bs "0123456789abcdef") 0).

Lemma map_misses_growth_witness :
  exists f', fake_allocate true 32 sample_disk = (inr tt, f') /\
    mmap_index (Some 16) f' 1 8 = Some (bs "89abcdef") /\ mmap_index (Some 16) f' 2 8 = None.
Proof.
  destruct (map_misses_growth sample_disk (Some 16) 32 1 8) as (f' & E & _ & _ & H1 & _);
    [reflexivity|reflexivity|vm_compute; discriminate|lia|lia|lia|].
  destruct (map_misses_growth sample_disk (Some 16) 32 2 8) as (f'' & E' & _ & _ & _ & H2);
    [reflexivity|reflexivity|vm_compute; discriminate|lia|lia|lia|].
  exists f'. split; [exact E|]. split.
  - rewrite H1 by (vm_compute; discriminate). reflexivity.
  - rewrite E in E'. injection E' as <-. apply H2. vm_compute. reflexivity.
Defined.
