(* ===== verification/Log.v ===== *)
(** * The data log: src/src/log_manager.rs and src/src/models.rs

    The transactional engine keeps the contents of files outside the
    database: every write is appended to a log on a block device, and the
    metadata of an inode maps ranges of the file to positions of the log. The
    device is a parameter, the trait [BlockDevice]; [BlockDeviceLaws] state the
    behaviour of a disk of fixed size, and [RamDisk] of
    src/src/rvfs_test.rs satisfies them. *)

From S2P Require Import Prelude Bytes Common.

(** ** The device *)

(** [read_at] fills a buffer and returns a length, [write_at] returns how
    much it wrote. *)
Class BlockDevice (B : Type) := {
  read_at : B -> Z -> bytes -> outcome (Z * bytes);
  write_at : B -> Z -> bytes -> outcome Z * B;
  dev_size : B -> Z }.

(** The number of bytes of a transfer of [len] bytes at [pos] of a disk of
    [size] bytes. *)
Definition room (size pos len : Z) : Z := Z.max 0 (Z.min len (size - pos)).

(** A disk: [dev_data] is what it holds. Transfers stop at its end. *)
Class BlockDeviceLaws (B : Type) `{BlockDevice B} := {
  dev_data : B -> bytes;
  dev_size_ok : forall b, dev_size b = zlen (dev_data b);
  read_at_ok : forall b pos buf, 0 <= pos ->
    read_at b pos buf =
    let len := room (zlen (dev_data b)) pos (zlen buf) in
    Ok (len, splice buf 0 (take (Z.to_nat len) (drop (Z.to_nat pos) (dev_data b))));
  write_at_ok : forall b pos v, 0 <= pos ->
    exists b', write_at b pos v = (Ok (room (zlen (dev_data b)) pos (zlen v)), b') /\
      dev_data b' =
      if pos <=? zlen (dev_data b)
      then splice (dev_data b) pos (take (Z.to_nat (room (zlen (dev_data b)) pos (zlen v))) v)
      else dev_data b }.

(** A node of the VFS that stands for a device, as far as the adapters use
    it; the errors of the VFS are not told apart. [VfsBlockDeviceAdapter] of
    src/src/rvfs_adapter.rs makes a block device of it. *)
Class VfsNode (V : Type) := {
  vfs_read_at : V -> Z -> bytes -> outcome (Z * bytes);
  vfs_write_at : V -> Z -> bytes -> outcome Z * V;
  vfs_size : V -> outcome Z }.

#[export] Instance VfsBlockDeviceAdapter {V} `{VfsNode V} : BlockDevice V := {
  read_at := fun inode pos buf => map_err Io (vfs_read_at inode pos buf);
  write_at := fun inode pos buf =>
    let '(r, inode) := vfs_write_at inode pos buf in (map_err Io r, inode);
  dev_size := fun inode => match vfs_size inode with Ok size => size | _ => 0 end }.

(** [RamDisk]. *)
Definition RamDisk : Type := bytes.

Definition ramdisk_read_at (data : RamDisk) (offset : Z) (buf : bytes) : outcome (Z * bytes) :=
  if zlen data <=? offset then Ok (0, buf)
  else
    let end_ := Z.min (offset + zlen buf) (zlen data) in
    let len := end_ - offset in
    match chunk ← slice data offset end_; copy_into buf 0 len chunk with
    | Some buf => Ok (len, buf)
    | None => Panic
    end.

Definition ramdisk_write_at (data : RamDisk) (offset : Z) (buf : bytes) :
  outcome Z * RamDisk :=
  if zlen data <=? offset then (Ok 0, data)
  else
    let end_ := Z.min (offset + zlen buf) (zlen data) in
    let len := end_ - offset in
    match chunk ← slice buf 0 len; copy_into data offset end_ chunk with
    | Some data => (Ok len, data)
    | None => (Panic, data)
    end.

#[export] Instance ramdisk : VfsNode RamDisk := {
  vfs_read_at := ramdisk_read_at;
  vfs_write_at := ramdisk_write_at;
  vfs_size := fun data => Ok (zlen data) }.

(** ** The log manager *)

Record LogManager (B : Type) := MkLog { device : B; next_append_pos : Z }.
Arguments MkLog {B} device next_append_pos.
Arguments device {B} l.
Arguments next_append_pos {B} l.

(** The eight steps of a byte. *)
Definition crc32_step (crc : Z) : Z :=
  if negb (Z.land crc 1 =? 0) then Z.lxor (Z.shiftr crc 1) 0xEDB88320 else Z.shiftr crc 1.

Definition crc32_byte (crc : Z) (byte : Byte.byte) : Z :=
  Nat.iter 8 crc32_step (Z.lxor crc (byte_val byte)).

Definition crc32 (data : bytes) : Z :=
  Z.lxor (fold_left crc32_byte data 0xFFFFFFFF) 0xFFFFFFFF.

Section log.
Context {B : Type} `{BlockDevice B}.

(** [append_data]: the count that [write_at] returns is not looked at. *)
Definition append_data (l : LogManager B) (data : bytes) : outcome Z * LogManager B :=
  let current_pos := next_append_pos l in
  match write_at (device l) current_pos data with
  | (Ok _, dev) => (Ok current_pos, MkLog dev (w64 (current_pos + zlen data)))
  | (Err e, dev) => (Err e, MkLog dev current_pos)
  | (Panic, dev) => (Panic, MkLog dev current_pos)
  end.

Definition read_data (l : LogManager B) (pos : Z) (buf : bytes) : outcome (Z * bytes) :=
  read_at (device l) pos buf.
End log.

(** ** The metadata of an inode *)

Record Extent := MkExtent { x_off : Z; x_ptr : Z; x_len : Z; x_crc : Z }.

Record InodeMetadata := MkMeta {
  m_ino : Z; m_size : Z; m_mode : Z; m_nlink : Z; m_extents : list Extent;
  m_atime : Z; m_mtime : Z }.

Definition meta_size (z : Z) (m : InodeMetadata) : InodeMetadata :=
  MkMeta (m_ino m) z (m_mode m) (m_nlink m) (m_extents m) (m_atime m) (m_mtime m).
Definition meta_extents (l : list Extent) (m : InodeMetadata) : InodeMetadata :=
  MkMeta (m_ino m) (m_size m) (m_mode m) (m_nlink m) l (m_atime m) (m_mtime m).
Definition meta_nlink (z : Z) (m : InodeMetadata) : InodeMetadata :=
  MkMeta (m_ino m) (m_size m) (m_mode m) z (m_extents m) (m_atime m) (m_mtime m).

#[export] Instance Extent_eq_dec : EqDecision Extent.
Proof. solve_decision. Defined.

#[export] Instance Extent_countable : Countable Extent.
Proof.
  refine (inj_countable' (fun x => (x_off x, x_ptr x, x_len x, x_crc x))
    (fun '(a, b, c, d) => MkExtent a b c d) _). by intros [].
Defined.

#[export] Instance InodeMetadata_eq_dec : EqDecision InodeMetadata.
Proof. solve_decision. Defined.

#[export] Instance InodeMetadata_countable : Countable InodeMetadata.
Proof.
  refine (inj_countable'
    (fun m => (m_ino m, m_size m, m_mode m, m_nlink m, m_extents m, m_atime m, m_mtime m))
    (fun '(a, b, c, d, x, f, g) => MkMeta a b c d x f g) _). by intros [].
Defined.

(** ** Facts *)

Lemma room_le size pos len : 0 <= len -> 0 <= room size pos len <= len.
Proof. unfold room. lia. Qed.

Lemma room_all size pos len : 0 <= len -> pos + len <= size -> room size pos len = len.
Proof. unfold room. lia. Qed.

#[export] Instance ramdisk_laws : BlockDeviceLaws RamDisk.
Proof.
  refine {| dev_data := fun b : RamDisk => b |}.
  - done.
  - intros b pos buf Hpos. cbn. unfold ramdisk_read_at, room.
    pose proof (zlen_nonneg buf). destruct (Z.leb_spec (zlen b) pos) as [Hle|Hlt].
    { replace (Z.max 0 _) with 0 by lia.
      change (Z.to_nat 0) with 0%nat. by rewrite take_0, splice_nil. }
    replace (Z.max 0 _) with (Z.min (pos + zlen buf) (zlen b) - pos) by lia.
    rewrite slice_ok by lia. cbn [mbind option_bind].
    rewrite copy_into_ok; [done|lia| |lia]. unfold zlen in *. lens.
  - intros b pos v Hpos. cbn. unfold ramdisk_write_at, room. pose proof (zlen_nonneg v).
    destruct (Z.leb_spec (zlen b) pos) as [Hle|Hlt].
    { eexists. split; [cbn [map_err]; do 2 f_equal; lia|].
      destruct (Z.leb_spec pos (zlen b)); [|done].
      replace (Z.max 0 _) with 0 by lia.
      change (Z.to_nat 0) with 0%nat. by rewrite take_0, splice_nil. }
    rewrite slice_ok by lia. cbn [mbind option_bind].
    rewrite copy_into_ok; [|lia| |lia].
    + eexists. split; [cbn [map_err]; do 2 f_equal; lia|]. rewrite Zleb_t by lia. rewrite drop_0.
      do 2 f_equal. lia.
    + unfold zlen in *. lens.
Defined.
