(* ===== verification/Engine.v ===== *)
(** * The transactional engine: src/src/tx_engine.rs

    Files as extents of the data log, indexed by metadata in the database:
    the bucket [inodes] maps inode numbers to encoded metadata, the bucket
    [dir_<ino>] the names of a directory to inode numbers. A write appends
    its data to the log before the transaction that makes it visible. The
    encoding ([serde_json]) is a parameter. *)

From S2P Require Import Prelude Bytes Common Store MapDb Log.

(** [serialize] and [deserialize] of [serde_json], with the law the code
    relies on: what is encoded is decoded. *)
Class MetaCodec := {
  meta_encode : InodeMetadata -> option bytes;
  meta_decode : bytes -> option InodeMetadata;
  meta_decode_encode : forall m v, meta_encode m = Some v -> meta_decode v = Some m }.

Record Engine (D B : Type) := MkEngine { e_db : D; e_log : LogManager B }.
Arguments MkEngine {D B} e_db e_log.
Arguments e_db {D B} e.
Arguments e_log {D B} e.

Definition Eng (D B A : Type) : Type := Engine D B -> outcome A * Engine D B.

Section ops.
Context {D B : Type}.

#[export] Instance eng_ret : MRet (Eng D B) := fun A a e => (Ok a, e).
#[export] Instance eng_bind : MBind (Eng D B) := fun A A' f m e =>
  match m e with
  | (Ok a, e') => f a e'
  | (Err x, e') => (Err x, e')
  | (Panic, e') => (Panic, e')
  end.

Definition eng_log {A} (f : LogManager B -> outcome A * LogManager B) : Eng D B A := fun e =>
  let '(r, l) := f (e_log e) in (r, MkEngine (e_db e) l).

Context `{JammDb D, BlockDevice B, MetaCodec}.

(** [begin_batch()], a body and [tx.commit().map_err(|_| Io)?]. *)
Definition batch {A} (body : Tx D A) : Eng D B A := fun e =>
  match body (e_db e) with
  | Ok (a, d') =>
      match db_commit (e_db e) d' with
      | Some _ => (Err Io, e)
      | None => (Ok a, MkEngine d' (e_log e))
      end
  | Err x => (Err x, e)
  | Panic => (Panic, e)
  end.

(** [tx(false).map_err(|_| Io)?] and a body that ends the transaction. *)
Definition view {A} (body : Tx D A) : Eng D B A := fun e =>
  match db_begin (e_db e) false with
  | Some _ => (Err Io, e)
  | None =>
      match body (e_db e) with
      | Ok (a, _) => (Ok a, e)
      | Err x => (Err x, e)
      | Panic => (Panic, e)
      end
  end.

(** [ok_or(x)?] and [map_err(|_| x)?] of an option. *)
Definition tx_ok_or {A} (x : DbfsError) (o : option A) : Tx D A :=
  match o with Some a => mret a | None => tx_fail x end.

Definition inodes : Tx D bytes := tx_map_err NotFound (get_bucket (bs "inodes")).

Definition serialize (m : InodeMetadata) : Tx D bytes := tx_ok_or Other (meta_encode m).
Definition deserialize (v : bytes) : Tx D InodeMetadata := tx_ok_or Other (meta_decode v).

Definition load_meta (bucket : bytes) (ino : Z) : Tx D InodeMetadata :=
  kv ← get_kv bucket (u64_be ino);
  v ← tx_ok_or NotFound kv;
  deserialize v.

Definition store_meta (bucket : bytes) (ino : Z) (m : InodeMetadata) : Tx D unit :=
  v ← serialize m; put bucket (u64_be ino) v.

(** The metadata after a write of [data] at [offset], stored at [p_ptr]. *)
Definition extend_meta (offset p_ptr : Z) (data : bytes) (m : InodeMetadata) : InodeMetadata :=
  let m := meta_extents (m_extents m ++ [MkExtent offset p_ptr (zlen data) (crc32 data)]) m in
  meta_size (Z.max (m_size m) (w64 (offset + zlen data))) m.

Definition write_file_transactional (ino offset : Z) (data : bytes) : Eng D B unit :=
  p_ptr ← eng_log (fun l => append_data l data);
  batch (
    bucket ← inodes;
    meta ← load_meta bucket ino;
    store_meta bucket ino (extend_meta offset p_ptr data meta)).

(** [for extent in &meta.extents] of [read_file]. *)
Fixpoint read_extents (log : LogManager B) (extents : list Extent) (offset read_len : Z)
    (buf : bytes) (total_read : Z) : outcome (Z * bytes) :=
  match extents with
  | [] => Ok (total_read, buf)
  | x :: extents =>
      if read_len <=? total_read then Ok (total_read, buf)
      else
        let extent_end := w64 (x_off x + x_len x) in
        let request_end := w64 (offset + read_len) in
        if (x_off x <? request_end) && (offset <? extent_end) then
          let overlap_start := Z.max (x_off x) offset in
          let overlap_end := Z.min extent_end request_end in
          let extent_offset := overlap_start - x_off x in
          let buf_offset := overlap_start - offset in
          let copy_len := w64 (overlap_end - overlap_start) in
          '(_, temp_buf) ← read_data log (w64 (x_ptr x + extent_offset))
                             (replicate (Z.to_nat copy_len) Byte.x00);
          buf ← unwrap (copy_into buf buf_offset (w64 (buf_offset + copy_len)) temp_buf);
          read_extents log extents offset read_len buf
            (Z.max total_read (w64 (buf_offset + copy_len)))
        else read_extents log extents offset read_len buf total_read
  end.

Definition eng_read {A} (f : LogManager B -> outcome A) : Eng D B A := fun e =>
  (f (e_log e), e).

Definition read_file (ino offset : Z) (buf : bytes) : Eng D B (Z * bytes) :=
  meta ← view (bucket ← inodes; load_meta bucket ino);
  if m_size meta <=? offset then mret (0, buf)
  else
    let read_len := Z.min (zlen buf) (m_size meta - offset) in
    eng_read (fun log => read_extents log (m_extents meta) offset read_len buf 0).

(** The keys of [inodes] are eight bytes long or the scan fails. *)
Fixpoint scan_inodes (pairs : list (bytes * bytes)) (max_ino : Z) : Tx D Z :=
  match pairs with
  | [] => mret max_ino
  | (key, _) :: pairs =>
      ino ← tx_ok_or Other (if (length key =? 8)%nat then Some (from_be key) else None);
      scan_inodes pairs (if max_ino <? ino then ino else max_ino)
  end.

Definition new_meta (ino mode : Z) : InodeMetadata := MkMeta ino 0 mode 1 [] 0 0.

Definition allocate_inode (mode : Z) : Eng D B Z :=
  batch (
    bucket ← inodes;
    pairs ← kv_pairs bucket;
    max_ino ← scan_inodes pairs 1;
    let new_ino := w64 (max_ino + 1) in
    store_meta bucket new_ino (new_meta new_ino mode);;
    mret new_ino).

Definition dir_bucket (ino : Z) : bytes := bs "dir_" ++ usize_to_string ino.

Definition add_dentry (parent_ino : Z) (name : bytes) (child_ino : Z) : Eng D B unit :=
  batch (
    bucket ← tx_map_err Io (get_or_create_bucket (dir_bucket parent_ino));
    put bucket name (u64_be child_ino)).

(** [u64::from_be_bytes(value.try_into()..)]. *)
Definition ino_of_value (v : bytes) : Tx D Z :=
  tx_ok_or Other (if (length v =? 8)%nat then Some (from_be v) else None).

Definition lookup_dentry (parent_ino : Z) (name : bytes) : Eng D B Z :=
  view (
    bucket ← tx_map_err NotFound (get_bucket (dir_bucket parent_ino));
    kv ← get_kv bucket name;
    val ← tx_ok_or NotFound kv;
    ino_of_value val).

(** The names are kept as bytes: [String::from_utf8] of a stored name
    succeeds. *)
Definition list_dentries (parent_ino start_index : Z) : Eng D B (option (bytes * Z)) :=
  view (
    present ← tx_has (dir_bucket parent_ino);
    if (present : bool) then
      pairs ← kv_pairs (dir_bucket parent_ino);
      match pairs !! Z.to_nat start_index with
      | Some (name, v) => ino ← ino_of_value v; mret (Some (name, ino))
      | None => mret None
      end
    else mret None).

Definition delete_dentry (parent_ino : Z) (name : bytes) : Eng D B unit :=
  batch (
    bucket ← tx_map_err NotFound (get_bucket (dir_bucket parent_ino));
    tx_map_err Io (delete bucket name)).

(** [let _ = tx.delete_bucket(..)]: a missing bucket is no error. *)
Definition drop_if_present (b : bytes) : Tx D unit :=
  present ← tx_has b; if (present : bool) then delete_bucket b else mret tt.

Definition delete_inode (ino : Z) : Eng D B unit :=
  batch (
    bucket ← inodes;
    tx_map_err Io (delete bucket (u64_be ino));;
    drop_if_present (dir_bucket ino)).

Definition update_metadata (meta : InodeMetadata) : Eng D B unit :=
  batch (bucket ← inodes; store_meta bucket (m_ino meta) meta).

Definition get_metadata (ino : Z) : Eng D B InodeMetadata :=
  view (bucket ← inodes; load_meta bucket ino).

(** The extents kept by a truncation to [new_size]. *)
Fixpoint cut_extents (new_size : Z) (extents : list Extent) : list Extent :=
  match extents with
  | [] => []
  | x :: extents =>
      if x_off x <? new_size then
        (if new_size <? w64 (x_off x + x_len x)
         then MkExtent (x_off x) (x_ptr x) (new_size - x_off x) (x_crc x)
         else x) :: cut_extents new_size extents
      else cut_extents new_size extents
  end.

Definition truncate_meta (new_size : Z) (m : InodeMetadata) : InodeMetadata :=
  meta_size new_size
    (if new_size <? m_size m then meta_extents (cut_extents new_size (m_extents m)) m else m).

Definition truncate_file (ino new_size : Z) : Eng D B unit :=
  batch (
    bucket ← inodes;
    meta ← load_meta bucket ino;
    store_meta bucket ino (truncate_meta new_size meta)).

(** [read_from_log]: its [while] loop; [fuel] bounds the rounds. *)
Definition covers (current_offset : Z) (x : Extent) : bool :=
  (x_off x <=? current_offset) && (current_offset <? w64 (x_off x + x_len x)).

Fixpoint log_loop (fuel : nat) (log : LogManager B) (meta : InodeMetadata)
    (bytes_read current_offset buf_pos : Z) (buf : bytes) : outcome (Z * bytes) :=
  match fuel with
  | O => Panic
  | S fuel =>
      if (buf_pos <? zlen buf) && (current_offset <? m_size meta) then
        match List.find (covers current_offset) (m_extents meta) with
        | Some x =>
            let off_in_extent := current_offset - x_off x in
            let len_in_extent := Z.min (x_len x - off_in_extent) (zlen buf - buf_pos) in
            '(_, chunk) ← read_data log (w64 (x_ptr x + off_in_extent))
                            (take (Z.to_nat len_in_extent) (drop (Z.to_nat buf_pos) buf));
            buf ← unwrap (copy_into buf buf_pos (buf_pos + len_in_extent) chunk);
            log_loop fuel log meta (bytes_read + len_in_extent)
              (w64 (current_offset + len_in_extent)) (buf_pos + len_in_extent) buf
        | None => Ok (bytes_read, buf)
        end
      else Ok (bytes_read, buf)
  end.

Definition read_from_log (log : LogManager B) (meta : InodeMetadata) (offset : Z)
    (buf : bytes) : outcome (Z * bytes) :=
  if m_size meta <=? offset then Ok (0, buf)
  else log_loop (S (length buf)) log meta 0 offset 0 buf.
End ops.

(** ** Files that were written from front to back

    The extents of such a file tile it; its contents are what the log holds
    under them. *)

Section files.
Context {B : Type} `{BlockDeviceLaws B}.
Implicit Types (l : LogManager B).

Definition log_data (l : LogManager B) : bytes := dev_data (device l).

Definition extent_bytes (l : LogManager B) (x : Extent) : bytes :=
  take (Z.to_nat (x_len x)) (drop (Z.to_nat (x_ptr x)) (log_data l)).

Definition extent_ok (l : LogManager B) (x : Extent) : Prop :=
  0 <= x_len x /\ 0 <= x_ptr x /\ x_ptr x + x_len x <= next_append_pos l.

Inductive tiled (l : LogManager B) : Z -> list Extent -> bytes -> Prop :=
  | tiled_nil s : tiled l s [] []
  | tiled_cons s x xs c :
      x_off x = s -> extent_ok l x -> tiled l (s + x_len x) xs c ->
      tiled l s (x :: xs) (extent_bytes l x ++ c).

Lemma tiled_step l s x xs c c0 :
  x_off x = s -> extent_ok l x -> tiled l (s + x_len x) xs c -> c0 = extent_bytes l x ++ c ->
  tiled l s (x :: xs) c0.
Proof. intros Hx Hok Ht ->. by constructor. Qed.

(** The log's end lies on the device. *)
Definition log_ok (l : LogManager B) : Prop :=
  0 <= next_append_pos l <= zlen (log_data l) /\ zlen (log_data l) < 2 ^ 64.

Lemma zlen_extent l x : log_ok l -> extent_ok l x -> zlen (extent_bytes l x) = x_len x.
Proof. unfold log_ok, extent_ok, extent_bytes, zlen. intros. lens. Qed.

Lemma read_data_in l pos n :
  log_ok l -> 0 <= pos -> 0 <= n -> pos + n <= next_append_pos l ->
  read_data l pos (replicate (Z.to_nat n) Byte.x00) =
  Ok (n, take (Z.to_nat n) (drop (Z.to_nat pos) (log_data l))).
Proof.
  intros [Hl _] Hp Hn Hb. unfold read_data. rewrite read_at_ok by done. cbv zeta.
  change (dev_data (device l)) with (log_data l).
  assert (E : zlen (replicate (Z.to_nat n) Byte.x00) = n) by (unfold zlen; lens).
  rewrite E, room_all by lia. rewrite splice_all; [done|]. unfold zlen in *. lens.
Qed.

(** The part of the window [O..O+R] before the position [s]. *)
Definition before (O R s : Z) : Z := Z.max 0 (Z.min R (s - O)).

Section window.
Context (l : LogManager B) (C buf : bytes) (O R : Z).
Hypothesis Hl : log_ok l.
Hypothesis HO : 0 <= O.
Hypothesis HR : 0 <= R /\ R <= zlen buf /\ O + R <= zlen C.
Hypothesis HC : zlen C < 2 ^ 64.

Definition window_buf (s : Z) : bytes :=
  splice buf 0 (take (Z.to_nat (before O R s)) (drop (Z.to_nat O) C)).

Lemma window_copy s s' :
  0 <= s -> s <= s' <= zlen C -> s < O + R -> O < s' ->
  let start := Z.max s O in
  let n := Z.min s' (O + R) - start in
  copy_into (window_buf s) (start - O) (start - O + n)
    (take (Z.to_nat n) (drop (Z.to_nat start) C)) = Some (window_buf s').
Proof.
  intros Hs Hs' Hlt Hgt start n.
  assert (E1 : before O R s = start - O) by (unfold before, start; lia).
  assert (E2 : before O R s' = start - O + n) by (unfold before, n, start; lia).
  assert (Hn : 0 <= n) by (unfold n, start; lia).
  assert (Hst : 0 <= start - O /\ start - O + n <= R) by (unfold n, start; lia).
  assert (HL : zlen (take (Z.to_nat n) (drop (Z.to_nat start) C)) = n)
    by (unfold zlen in *; lens).
  rewrite copy_into_ok; [|lia|lia|].
  - unfold window_buf. rewrite E1, E2. rewrite splice_app.
    + do 2 f_equal. replace (Z.to_nat (start - O + n)) with (Z.to_nat (start - O) + Z.to_nat n)%nat
        by lia. rewrite <- take_drop_app. do 2 f_equal. f_equal. lia.
    + lia.
    + unfold zlen in *. lens.
    + unfold zlen in *. lens.
  - unfold window_buf. rewrite splice_len; [lia|lia|]. rewrite E1. unfold zlen in *. lens.
Qed.

Lemma read_tiled s xs c :
  tiled l s xs c -> 0 <= s -> s + zlen c = zlen C -> c = drop (Z.to_nat s) C ->
  read_extents l xs O R (window_buf s) (before O R s) = Ok (R, window_buf (zlen C)).
Proof.
  intros Ht. induction Ht as [s|s x xs c Hx Hok Ht IH]; intros Hs Hlen Hc.
  - cbn. cbn in Hlen. unfold zlen in Hlen at 1. cbn in Hlen.
    replace s with (zlen C) by lia. f_equal. f_equal. unfold before. lia.
  - cbn [read_extents]. pose proof (zlen_extent l x Hl Hok) as Hxl.
    pose proof (zlen_nonneg c) as Hcn. rewrite zlen_app, Hxl in Hlen.
    destruct Hok as (Hn & Hp & Hb).
    assert (Hbx : extent_bytes l x = take (Z.to_nat (x_len x)) (drop (Z.to_nat s) C)).
    { rewrite <- Hc, take_app_le by (unfold zlen in Hxl; lia).
      rewrite take_ge; [done|]. unfold zlen in Hxl. lia. }
    assert (Hc' : c = drop (Z.to_nat (s + x_len x)) C).
    { replace (Z.to_nat (s + x_len x)) with (Z.to_nat s + Z.to_nat (x_len x))%nat by lia.
      rewrite <- drop_drop, <- Hc, drop_app_ge by (unfold zlen in Hxl; lia).
      replace (_ - _)%nat with 0%nat; [done|]. unfold zlen in Hxl. lia. }
    destruct (Z.leb_spec R (before O R s)) as [Hdone|Hmore].
    { f_equal. assert (before O R s = R) as E by (unfold before in *; lia).
      assert (before O R (zlen C) = R) as E2 by (unfold before in *; lia).
      unfold window_buf. by rewrite E, E2. }
    rewrite Hx. rewrite !w64_small by (unfold is_u64; lia).
    assert (Hlt : s < O + R) by (unfold before in Hmore; lia).
    rewrite (Zltb_t s) by done. cbn [andb].
    destruct (Z.ltb_spec O (s + x_len x)) as [Hov|Hno].
    + pose proof (window_copy s (s + x_len x) Hs ltac:(lia) Hlt Hov) as Hcopy. cbv zeta in Hcopy.
      set (start := Z.max s O) in *. set (n := Z.min (s + x_len x) (O + R) - start) in *.
      assert (Hst : s <= start /\ 0 <= n /\ start + n <= s + x_len x) by (unfold n, start; lia).
      destruct Hl as [Hnext Hsize].
      rewrite (w64_small n), !w64_small by (unfold is_u64; lia).
      rewrite read_data_in by (done || lia). cbn [mbind outcome_bind].
      replace (take _ (drop _ (log_data l))) with (take (Z.to_nat n) (drop (Z.to_nat start) C)).
      2: { replace (Z.to_nat start) with (Z.to_nat s + Z.to_nat (start - s))%nat by lia.
           replace (Z.to_nat (x_ptr x + (start - s)))
             with (Z.to_nat (x_ptr x) + Z.to_nat (start - s))%nat by lia.
           eapply take_drop_sub; [symmetry; exact Hbx|lia]. }
      rewrite Hcopy. cbn [unwrap mbind outcome_bind].
      replace (Z.max _ _) with (before O R (s + x_len x)) by (unfold before, n, start; lia).
      apply IH; [lia|lia|done].
    + assert (E : before O R s = before O R (s + x_len x)) by (unfold before; lia).
      unfold window_buf in IH |- *. rewrite E. apply IH; [lia|lia|done].
Qed.
End window.
(** Reading a window of a tiled file. *)
Lemma read_extents_tiled l xs C buf O R :
  log_ok l -> tiled l 0 xs C -> zlen C < 2 ^ 64 -> 0 <= O ->
  0 <= R -> R <= zlen buf -> O + R <= zlen C ->
  read_extents l xs O R buf 0 =
  Ok (R, splice buf 0 (take (Z.to_nat R) (drop (Z.to_nat O) C))).
Proof.
  intros Hl Ht HC HO HR Hb Hw.
  pose proof (read_tiled l C buf O R Hl HO ltac:(done) HC 0 xs C Ht ltac:(done) ltac:(lia)
    ltac:(by rewrite drop_0)) as E.
  unfold window_buf in E.
  replace (before O R 0) with 0 in E by (unfold before; lia).
  replace (before O R (zlen C)) with R in E by (unfold before; lia).
  change (Z.to_nat 0) with 0%nat in E. rewrite take_0, splice_nil in E. exact E.
Qed.

(** The extent that covers a position of a tiled file. *)
Lemma find_tiled l s xs C0 C p :
  log_ok l -> tiled l s xs C -> 0 <= s -> s <= p -> p < s + zlen C ->
  s + zlen C < 2 ^ 64 -> C = drop (Z.to_nat s) C0 ->
  exists x, List.find (covers p) xs = Some x /\ extent_ok l x /\
    x_off x <= p /\ p < x_off x + x_len x /\ x_off x + x_len x <= s + zlen C /\ 0 <= x_off x /\
    extent_bytes l x = take (Z.to_nat (x_len x)) (drop (Z.to_nat (x_off x)) C0).
Proof.
  intros Hl Ht. induction Ht as [s|s x xs c Hx Hok Ht IH]; intros Hs Hp Hlt HU HC.
  { change (zlen (@nil Byte.byte)) with 0 in Hlt. lia. }
  pose proof (zlen_extent l x Hl Hok) as Hxl. pose proof (zlen_nonneg c).
  rewrite zlen_app, Hxl in *. pose proof Hok as (Hn & _). cbn [List.find].
  unfold covers at 1. rewrite Hx, w64_small by (unfold is_u64; lia). rewrite Zleb_t by lia.
  destruct (Z.ltb_spec p (s + x_len x)) as [Hin|Hout]; cbn [andb].
  - exists x. split_and!; try done; [lia..|]. rewrite Hx, <- HC.
    rewrite take_app_le by (unfold zlen in Hxl; lia).
    rewrite take_ge; [done|]. unfold zlen in Hxl. lia.
  - destruct IH as (y & Hy & Hyok & ? & ? & ? & ? & ?); [lia|lia|lia|lia| |].
    + replace (Z.to_nat (s + x_len x)) with (Z.to_nat s + Z.to_nat (x_len x))%nat by lia.
      rewrite <- drop_drop, <- HC, drop_app_ge by (unfold zlen in Hxl; lia).
      replace (_ - _)%nat with 0%nat; [done|]. unfold zlen in Hxl. lia.
    + exists y. split_and!; try done; lia.
Qed.

Lemma read_data_over l pos v :
  log_ok l -> 0 <= pos -> pos + zlen v <= next_append_pos l ->
  read_data l pos v = Ok (zlen v, take (length v) (drop (Z.to_nat pos) (log_data l))).
Proof.
  intros [Hl _] Hp Hb. unfold read_data. rewrite read_at_ok by done. cbv zeta.
  change (dev_data (device l)) with (log_data l). pose proof (zlen_nonneg v).
  rewrite room_all by lia. unfold zlen at 2. rewrite Nat2Z.id.
  rewrite splice_all; [done|]. unfold zlen in *. lens.
Qed.

(** The loop of [read_from_log]: every round reads at least one byte, so one
    round for each byte of the buffer and one more are enough. *)
Lemma log_loop_ok fuel l m C buf O p :
  let R := room (zlen C) O (zlen buf) in
  log_ok l -> tiled l 0 (m_extents m) C -> m_size m = zlen C -> zlen C < 2 ^ 64 ->
  0 <= O -> 0 <= p <= R -> R - p < Z.of_nat fuel ->
  log_loop fuel l m p (O + p) p (splice buf 0 (take (Z.to_nat p) (drop (Z.to_nat O) C))) =
  Ok (R, splice buf 0 (take (Z.to_nat R) (drop (Z.to_nat O) C))).
Proof.
  intros R Hl Ht Hsz HU HO. revert p. induction fuel as [|fuel IH]; intros p Hp Hf; [lia|].
  pose proof (zlen_nonneg buf) as Hb. pose proof (zlen_nonneg C) as HCn.
  assert (HR : R <= zlen buf) by (unfold R, room; lia).
  assert (HL : zlen (take (Z.to_nat p) (drop (Z.to_nat O) C)) = p).
  { unfold R, room, zlen in *. lens. }
  assert (HB : zlen (splice buf 0 (take (Z.to_nat p) (drop (Z.to_nat O) C))) = zlen buf)
    by (apply splice_len; lia).
  cbn [log_loop]. rewrite HB, Hsz.
  destruct (Z.eq_dec p R) as [->|Hne].
  { destruct (_ && _) eqn:E; [|done]. zbool. unfold R, room in *. lia. }
  rewrite !Zltb_t by (unfold R, room in *; lia). cbn [andb].
  destruct (find_tiled l 0 (m_extents m) C C (O + p)) as (x & -> & Hok & H1 & H2 & H3 & H4 & H5);
    [done|done|lia|lia|unfold R, room in *; lia|lia|by rewrite drop_0|].
  set (n := Z.min (x_len x - (O + p - x_off x)) (zlen buf - p)).
  assert (Hn : 0 < n /\ p + n <= R) by (unfold n, R, room in *; lia).
  destruct Hok as (_ & Hptr & Hend). destruct Hl as [Hnext Hdev].
  set (chunk := take (Z.to_nat n) (drop (Z.to_nat p) _)).
  assert (Hc : zlen chunk = n) by (unfold chunk, zlen in *; lens).
  rewrite (w64_small (x_ptr x + _)) by (unfold is_u64; lia).
  rewrite read_data_over by (done || lia). cbn [mbind outcome_bind].
  replace (length chunk) with (Z.to_nat n) by (unfold zlen in Hc; lia).
  replace (take _ (drop _ (log_data l))) with (take (Z.to_nat n) (drop (Z.to_nat (O + p)) C)).
  2: { replace (Z.to_nat (O + p)) with (Z.to_nat (x_off x) + Z.to_nat (O + p - x_off x))%nat by lia.
       replace (Z.to_nat (x_ptr x + _))
         with (Z.to_nat (x_ptr x) + Z.to_nat (O + p - x_off x))%nat by lia.
       eapply take_drop_sub; [symmetry; exact H5|unfold n; lia]. }
  assert (Hv : zlen (take (Z.to_nat n) (drop (Z.to_nat (O + p)) C)) = n)
    by (unfold R, room, zlen in *; lens).
  rewrite copy_into_ok by lia. cbn [unwrap mbind outcome_bind].
  rewrite splice_app by lia.
  replace (Z.to_nat (O + p)) with (Z.to_nat O + Z.to_nat p)%nat by lia.
  rewrite take_drop_app, <- Z2Nat.inj_add by lia.
  rewrite w64_small by (unfold is_u64, R, room in *; lia).
  rewrite <- Z.add_assoc. apply IH; lia.
Qed.

(** ** Appending *)

(** [l'] is the log [l] with more data after its end. *)
Record grows (l l' : LogManager B) : Prop := {
  grow_pos : next_append_pos l <= next_append_pos l';
  grow_data : take (Z.to_nat (next_append_pos l)) (log_data l') =
              take (Z.to_nat (next_append_pos l)) (log_data l) }.

Lemma extent_grows l l' x :
  grows l l' -> extent_ok l x -> extent_ok l' x /\ extent_bytes l' x = extent_bytes l x.
Proof.
  intros [Hp Hd] (H1 & H2 & H3). split; [unfold extent_ok; lia|].
  unfold extent_bytes.
  apply (take_drop_sub _ _ 0 0 (Z.to_nat (next_append_pos l)) (Z.to_nat (x_ptr x))).
  - by rewrite !drop_0.
  - lia.
Qed.

Lemma tiled_grows l l' s xs c : grows l l' -> tiled l s xs c -> tiled l' s xs c.
Proof.
  intros Hg. induction 1 as [|s x xs c Hx Hok Ht IH]; [constructor|].
  destruct (extent_grows _ _ _ Hg Hok) as [Hok' <-]. by constructor.
Qed.

Lemma tiled_snoc l s xs c x :
  log_ok l -> tiled l s xs c -> x_off x = s + zlen c -> extent_ok l x ->
  tiled l s (xs ++ [x]) (c ++ extent_bytes l x).
Proof.
  intros Hl Ht Hx Hok. induction Ht as [s|s y ys c Hy Hyok Ht IH]; cbn [app].
  - rewrite <- (app_nil_r (extent_bytes l x)). constructor; [|done|constructor].
    rewrite Hx. unfold zlen. cbn. lia.
  - rewrite <- app_assoc. constructor; [done|done|]. apply IH.
    rewrite Hx, zlen_app, zlen_extent by done. lia.
Qed.

(** Cutting a tiled file. *)
Lemma cut_none l s xs c n : tiled l s xs c -> n <= s -> cut_extents n xs = [].
Proof.
  induction 1 as [|s x xs c Hx (Hn & _) Ht IH]; intros Hle; [done|]. cbn.
  rewrite Hx, Zltb_f by lia. apply IH. lia.
Qed.

Lemma cut_tiled l s xs c n :
  log_ok l -> tiled l s xs c -> 0 <= s -> s <= n -> s + zlen c < 2 ^ 64 ->
  tiled l s (cut_extents n xs) (take (Z.to_nat (n - s)) c).
Proof.
  intros Hl Ht. revert n. induction Ht as [s|s x xs c Hx Hok Ht IH]; intros n Hs Hn HU.
  { rewrite take_nil. constructor. }
  pose proof (zlen_extent l x Hl Hok) as Hxl. rewrite zlen_app, Hxl in HU.
  pose proof (zlen_nonneg c). destruct Hok as (Hlen & Hptr & Hend). cbn [cut_extents].
  rewrite Hx, w64_small by (unfold is_u64; lia).
  destruct (Z.ltb_spec s n) as [Hlt|Hge].
  2: { replace (Z.to_nat (n - s)) with 0%nat by lia. rewrite take_0.
       rewrite (cut_none _ _ _ _ _ Ht) by lia. constructor. }
  destruct (Z.ltb_spec n (s + x_len x)) as [Hin|Hout].
  - rewrite (cut_none _ _ _ _ _ Ht) by lia.
    eapply tiled_step; [done|unfold extent_ok; cbn; lia|constructor|].
    rewrite app_nil_r, take_app_le by (unfold zlen in Hxl; lia).
    unfold extent_bytes. cbn [x_len x_ptr]. rewrite take_take. f_equal. lia.
  - rewrite take_app_ge by (unfold zlen in Hxl; lia).
    eapply tiled_step; [done|done|apply IH; lia|]. do 2 f_equal. unfold zlen in Hxl. lia.
Qed.

Lemma append_data_ok l v :
  log_ok l -> next_append_pos l + zlen v <= zlen (log_data l) ->
  exists l', append_data l v = (Ok (next_append_pos l), l') /\
    next_append_pos l' = next_append_pos l + zlen v /\ log_ok l' /\ grows l l' /\
    take (length v) (drop (Z.to_nat (next_append_pos l)) (log_data l')) = v.
Proof.
  intros [Hl Hsz] Hfit. pose proof (zlen_nonneg v) as Hv.
  destruct (write_at_ok (device l) (next_append_pos l) v ltac:(lia)) as (dev & E & Hd).
  change (dev_data (device l)) with (log_data l) in *.
  rewrite Zleb_t, room_all in Hd by lia.
  rewrite take_ge in Hd by (unfold zlen; lia).
  unfold append_data. rewrite E.
  exists (MkLog dev (w64 (next_append_pos l + zlen v))). split; [done|].
  cbn [next_append_pos]. rewrite w64_small by (unfold is_u64; lia).
  unfold log_ok, log_data in *. cbn [device next_append_pos] in *. rewrite Hd.
  split_and!; [done|lia| |by rewrite splice_len by lia| |].
  - rewrite splice_len by lia. lia.
  - split; cbn [next_append_pos]; [lia|]. unfold log_data. cbn [device]. rewrite Hd.
    unfold splice. rewrite take_app_le by (unfold zlen in *; lens).
    rewrite take_take. f_equal. lia.
  - unfold splice. rewrite drop_app_ge by (unfold zlen in *; lens).
    replace (_ - _)%nat with 0%nat by (unfold zlen in *; lens).
    rewrite drop_0. by rewrite take_app_length.
Qed.
End files.

(** ** The operations *)

Lemma eng_bind_ok {D B A A'} (m : Eng D B A) (f : A -> Eng D B A') e a e' :
  m e = (Ok a, e') -> (m ≫= f) e = f a e'.
Proof. intros E. unfold mbind, eng_bind. by rewrite E. Qed.

Section facts.
Context {D B : Type} `{JammDb D, !JammDbLaws D, BlockDeviceLaws B, MetaCodec}.
Implicit Types (e : Engine D B).

(** The metadata stored for an inode. *)
Definition meta_at (d : D) (ino : Z) (m : InodeMetadata) : Prop :=
  exists v, db_get d (bs "inodes") (u64_be ino) = Some v /\ meta_decode v = Some m.

(** The inode [ino] is a file written from front to back that holds [C]. *)
Record file_at e (ino : Z) (m : InodeMetadata) (C : bytes) : Prop := {
  fa_meta : meta_at (e_db e) ino m;
  fa_tiled : tiled (e_log e) 0 (m_extents m) C;
  fa_size : m_size m = zlen C;
  fa_u64 : zlen C < 2 ^ 64 }.

Lemma inodes_ok d ino m : meta_at d ino m -> inodes d = Ok (bs "inodes", d).
Proof.
  intros (v & Hv & _). unfold inodes, tx_map_err.
  by rewrite (get_bucket_ok _ _ (db_has_some _ _ _ _ Hv)).
Qed.

Lemma load_meta_ok d ino m : meta_at d ino m -> load_meta (bs "inodes") ino d = Ok (m, d).
Proof.
  intros (v & Hv & Hm). unfold load_meta, get_kv, mbind, tx_bind. rewrite Hv. cbn.
  unfold deserialize. by rewrite Hm.
Qed.

Lemma view_meta_ok `{!Reliable D} e ino m :
  meta_at (e_db e) ino m ->
  view (B := B) (bucket ← inodes; load_meta bucket ino) e = (Ok m, e).
Proof.
  intros Hm. unfold view. rewrite begin_ok.
  rewrite (tx_bind_ok _ _ _ _ _ (inodes_ok _ _ _ Hm)). by rewrite (load_meta_ok _ _ _ Hm).
Qed.

Lemma batch_ok `{!Reliable D} {A} (body : Tx D A) e a d' :
  body (e_db e) = Ok (a, d') -> batch body e = (Ok a, MkEngine d' (e_log e)).
Proof. intros E. unfold batch. by rewrite E, commit_ok. Qed.

(** A batch that fails, in its body or in its commit, changes nothing. *)
Lemma batch_same {A} (body : Tx D A) e r e' :
  batch body e = (r, e') -> failed r -> e' = e.
Proof.
  unfold batch. destruct (body _) as [[a d']| |]; [|by intros [= _ <-]..].
  destruct (db_commit _ _); intros [= <- <-] Hf; [done|]. destruct Hf.
Qed.

Lemma batch_log {A} (body : Tx D A) e : e_log (batch body e).2 = e_log e.
Proof.
  unfold batch. destruct (body _) as [[a d']| |]; [|done..]. by destruct (db_commit _ _).
Qed.

Definition put_meta (d : D) (ino : Z) (v : bytes) : D := db_put d (bs "inodes") (u64_be ino) v.

(** Loading, changing and storing the metadata of an inode. *)
Lemma change_meta_ok d ino m g v :
  meta_at d ino m -> meta_encode (g m) = Some v ->
  (bucket ← inodes; meta ← load_meta bucket ino; store_meta bucket ino (g meta)) d =
  Ok (tt, put_meta d ino v).
Proof.
  intros Hm Hv. rewrite (tx_bind_ok _ _ _ _ _ (inodes_ok _ _ _ Hm)).
  rewrite (tx_bind_ok _ _ _ _ _ (load_meta_ok _ _ _ Hm)).
  unfold store_meta, serialize, mbind, tx_bind. by rewrite Hv.
Qed.

Lemma meta_at_new d ino m v :
  db_has d (bs "inodes") = true -> meta_encode m = Some v -> meta_at (put_meta d ino v) ino m.
Proof.
  intros Hh Hv. exists v. split; [by apply db_get_put_eq|by apply meta_decode_encode].
Qed.

Lemma meta_at_put d ino v j m :
  is_u64 ino -> is_u64 j -> j <> ino -> meta_at d j m -> meta_at (put_meta d ino v) j m.
Proof.
  intros Hi Hj Hne (w & Hw & Hm). exists w. split; [|done].
  unfold put_meta. rewrite db_get_put_key; [done|]. intros E. apply Hne. by apply usize_be_inj.
Qed.

Lemma meta_at_has d ino m : meta_at d ino m -> db_has d (bs "inodes") = true.
Proof. intros (v & Hv & _). by apply (db_has_some _ _ _ _ Hv). Qed.

Lemma file_at_grows e e' ino m C :
  meta_at (e_db e') ino m -> grows (e_log e) (e_log e') -> file_at e ino m C ->
  file_at e' ino m C.
Proof. intros Hm Hg [_ Ht ? ?]. split; [done|by eapply tiled_grows|done|done]. Qed.

(** Whatever the device does with it, an append leaves the data before the
    end of the log. *)
Lemma append_data_grows l v :
  log_ok l -> next_append_pos l + zlen v < 2 ^ 64 -> grows l (append_data l v).2.
Proof.
  intros [Hl Hsz] Hfit. pose proof (zlen_nonneg v) as Hv.
  destruct (write_at_ok (device l) (next_append_pos l) v ltac:(lia)) as (dev & E & Hd).
  unfold append_data. rewrite E. cbn [snd]. split; cbn [next_append_pos].
  - rewrite w64_small by (unfold is_u64; lia). lia.
  - unfold log_data in *. cbn [device]. rewrite Hd.
    rewrite Zleb_t by lia. unfold splice. rewrite take_app_le by (unfold zlen in *; lens).
    rewrite take_take. f_equal. lia.
Qed.

(** A write: the data is appended and the metadata extended. *)
Lemma log_write_runs `{!Reliable D} e ino m offset data v :
  meta_at (e_db e) ino m -> log_ok (e_log e) ->
  next_append_pos (e_log e) + zlen data <= zlen (log_data (e_log e)) ->
  meta_encode (extend_meta offset (next_append_pos (e_log e)) data m) = Some v ->
  exists l', write_file_transactional ino offset data e =
      (Ok tt, MkEngine (put_meta (e_db e) ino v) l') /\
    next_append_pos l' = next_append_pos (e_log e) + zlen data /\ log_ok l' /\
    grows (e_log e) l' /\
    take (length data) (drop (Z.to_nat (next_append_pos (e_log e))) (log_data l')) = data.
Proof.
  intros Hm Hl Hfit Hv.
  destruct (append_data_ok (e_log e) data Hl Hfit) as (l' & E & Hpos & Hl' & Hg & Hdata).
  exists l'. split; [|done]. unfold write_file_transactional.
  erewrite eng_bind_ok by (unfold eng_log; by rewrite E).
  apply (batch_ok _ (MkEngine (e_db e) l')). cbn [e_db].
  apply (change_meta_ok _ _ m (extend_meta _ _ _) _ Hm Hv).
Qed.

Lemma read_file_runs `{!Reliable D} e ino m C offset buf :
  file_at e ino m C -> log_ok (e_log e) -> 0 <= offset ->
  read_file ino offset buf e =
  (Ok (room (zlen C) offset (zlen buf),
       splice buf 0 (take (Z.to_nat (room (zlen C) offset (zlen buf)))
                       (drop (Z.to_nat offset) C))), e).
Proof.
  intros [Hm Ht Hsz Hu] Hl Ho. pose proof (zlen_nonneg buf). pose proof (zlen_nonneg C).
  unfold read_file. erewrite eng_bind_ok by (by apply view_meta_ok). rewrite Hsz.
  destruct (Z.leb_spec (zlen C) offset) as [Hle|Hlt].
  - unfold room. replace (Z.max 0 _) with 0 by lia.
    change (Z.to_nat 0) with 0%nat. by rewrite take_0, splice_nil.
  - unfold eng_read. rewrite (read_extents_tiled _ _ C) by (done || lia).
    unfold room. by replace (Z.max 0 _) with (Z.min (zlen buf) (zlen C - offset)) by lia.
Qed.
(** Reading a file written from front to back returns its bytes: as many as fit in
    the buffer and remain after the offset, at the front of the buffer, whose rest is
    kept; past the end it returns 0. The engine is unchanged. *)
Theorem read_file_contents `{!Reliable D} e ino m C offset buf :
  file_at e ino m C -> log_ok (e_log e) -> 0 <= offset ->
  read_file ino offset buf e =
  (Ok (room (zlen C) offset (zlen buf),
       splice buf 0 (take (Z.to_nat (room (zlen C) offset (zlen buf)))
                       (drop (Z.to_nat offset) C))), e).
Proof. apply read_file_runs. Qed.


(** Truncating a file to a smaller size keeps exactly the bytes before it, stores
    the metadata, and keeps every other file and the log. *)
Theorem truncate_file_cuts `{!Reliable D} e ino m C n v :
  file_at e ino m C -> log_ok (e_log e) -> is_u64 ino -> 0 <= n <= zlen C ->
  meta_encode (truncate_meta n m) = Some v ->
  exists e', truncate_file ino n e = (Ok tt, e') /\
    file_at e' ino (truncate_meta n m) (take (Z.to_nat n) C) /\ e_log e' = e_log e /\
    forall j k C', is_u64 j -> j <> ino -> file_at e j k C' -> file_at e' j k C'.
Proof.
  intros [Hm Ht Hsz Hu] Hl Hino Hn Hv.
  exists (MkEngine (put_meta (e_db e) ino v) (e_log e)). split_and!; [| |done|].
  - apply (batch_ok _ e). by apply change_meta_ok with (m := m).
  - split; cbn [e_db e_log].
    + apply meta_at_new; [by apply (meta_at_has _ _ _ Hm)|done].
    + unfold truncate_meta. cbn [meta_size m_extents]. rewrite Hsz.
      destruct (Z.ltb_spec n (zlen C)).
      * cbn [meta_extents m_extents]. replace n with (n - 0) at 2 by lia.
        by apply cut_tiled; try lia.
      * by rewrite take_ge by (unfold zlen in *; lia).
    + cbn. unfold zlen in *. lens.
    + unfold zlen in *. lens.
  - intros j k C' Hj Hne Hf. refine (file_at_grows e (MkEngine _ _) _ _ _ _ _ Hf); [|by split].
    apply meta_at_put; [done..|]. exact (fa_meta _ _ _ _ Hf).
Qed.

(** A write that fails, whatever the step and whatever the database answers, leaves
    the database as it was and every file with its contents, although its data may be on
    the device. *)
Theorem write_fails_cleanly e ino offset data r e' :
  log_ok (e_log e) -> next_append_pos (e_log e) + zlen data < 2 ^ 64 ->
  write_file_transactional ino offset data e = (r, e') -> failed r ->
  e_db e' = e_db e /\ forall j m C, file_at e j m C -> file_at e' j m C.
Proof.
  intros Hl Hfit E Hf. pose proof (append_data_grows _ data Hl Hfit) as Hg.
  assert (HE : e_db e' = e_db e /\ e_log e' = (append_data (e_log e) data).2).
  { revert E. unfold write_file_transactional, mbind at 1, eng_bind, eng_log.
    destruct (append_data _ _) as [[p| |] l']; cbn [snd]; [|by intros [= _ <-]..].
    intros E. by rewrite (batch_same _ _ _ _ E Hf). }
  destruct HE as [Hd Hlog]. split; [done|]. intros j m C Hfile.
  refine (file_at_grows e e' _ _ _ _ _ Hfile); [|by rewrite Hlog].
  rewrite Hd. exact (fa_meta _ _ _ _ Hfile).
Qed.

Lemma read_extents_app l xs ys O R buf t t' b :
  read_extents l xs O R buf t = Ok (t', b) -> R <= t' ->
  read_extents l (xs ++ ys) O R buf t = Ok (t', b).
Proof.
  revert buf t. induction xs as [|x xs IH]; intros buf t; cbn [app read_extents].
  - intros [= <- <-] Hr. destruct ys; [done|]. cbn. by rewrite Zleb_t.
  - destruct (R <=? t); [done|]. destruct (_ && _); [|by apply IH].
    destruct (read_data _ _ _) as [[n temp]| |]; [|done..]. cbn [mbind outcome_bind].
    destruct (copy_into _ _ _ _); [|done]. cbn [unwrap mbind outcome_bind]. apply IH.
Qed.


(** The two readers agree: on a file written from front to back [read_file] returns
    what [read_from_log] returns for its metadata, and the loop of the latter ends
    within one round for each byte of the buffer. *)
Theorem read_from_log_agrees `{!Reliable D} e ino m C offset buf :
  file_at e ino m C -> log_ok (e_log e) -> 0 <= offset ->
  read_file ino offset buf e = (read_from_log (e_log e) m offset buf, e).
Proof.
  intros Hfile Hl Ho. rewrite (read_file_runs e ino m C) by done. f_equal.
  destruct Hfile as [_ Ht Hsz Hu]. unfold read_from_log. rewrite Hsz.
  pose proof (zlen_nonneg buf). pose proof (zlen_nonneg C).
  destruct (Z.leb_spec (zlen C) offset) as [Hle|Hlt].
  - unfold room. replace (Z.max 0 _) with 0 by lia.
    change (Z.to_nat 0) with 0%nat. by rewrite take_0, splice_nil.
  - pose proof (log_loop_ok (S (length buf)) (e_log e) m C buf offset 0) as E.
    cbv zeta in E. change (Z.to_nat 0) with 0%nat in E.
    rewrite take_0, splice_nil, Z.add_0_r in E. symmetry.
    apply E; try done; unfold room, zlen in *; lia.
Qed.

(** The scan of [allocate_inode]. *)
Lemma scan_inodes_ok pairs max (d : D) :
  (forall k v, (k, v) ∈ pairs -> length k = 8%nat) ->
  exists n, scan_inodes pairs max d = Ok (n, d) /\ max <= n /\
    (forall k v, (k, v) ∈ pairs -> from_be k <= n) /\
    (n = max \/ exists k v, (k, v) ∈ pairs /\ from_be k = n).
Proof.
  revert max. induction pairs as [|[k v] pairs IH]; intros max Hk.
  - exists max. split_and!; [done|lia| |by left]. by intros k v ?%elem_of_nil.
  - cbn [scan_inodes]. rewrite (proj2 (Nat.eqb_eq _ _)) by (eapply Hk; left).
    cbn [tx_ok_or]. erewrite tx_bind_ok by done.
    destruct (IH (if max <? from_be k then from_be k else max)) as (n & E & Hle & Hall & Hfrom).
    { intros k' v' Hin. eapply Hk. right. exact Hin. }
    exists n. split; [exact E|].
    assert (HM : max <= n /\ from_be k <= n).
    { destruct (Z.ltb_spec max (from_be k)); lia. }
    split_and!; [lia| |].
    + intros k' v' [[= -> ->]|Hin]%elem_of_cons; [lia|by eapply Hall].
    + destruct Hfrom as [Hn|(k' & v' & Hin & Hn)].
      * destruct (Z.ltb_spec max (from_be k)); [|by left].
        right. exists k, v. split; [left|done].
      * right. exists k', v'. split; [by right|done].
Qed.

Lemma allocate_runs `{!Reliable D} e mode :
  db_has (e_db e) (bs "inodes") = true ->
  (forall k v, db_get (e_db e) (bs "inodes") k = Some v ->
    length k = 8%nat /\ from_be k < 2 ^ 64 - 1) ->
  (forall ino, is_Some (meta_encode (new_meta ino mode))) ->
  exists ino e', allocate_inode mode e = (Ok ino, e') /\ 1 < ino < 2 ^ 64 /\
    db_get (e_db e) (bs "inodes") (u64_be ino) = None /\
    file_at e' ino (new_meta ino mode) [] /\ e_log e' = e_log e /\
    forall j m C, is_u64 j -> file_at e j m C -> file_at e' j m C.
Proof.
  intros Hh Hkeys Henc.
  destruct (scan_inodes_ok (db_pairs (e_db e) (bs "inodes")) 1 (e_db e)) as (n & E & Hle & Hall & Hfrom).
  { intros k v Hin%db_pairs_elem. by apply (Hkeys k v). }
  assert (Hn : n < 2 ^ 64 - 1).
  { destruct Hfrom as [->|(k & v & Hin%db_pairs_elem & <-)]; [done|]. by apply (Hkeys k v). }
  destruct (Henc (n + 1)) as [v Hv].
  exists (n + 1), (MkEngine (put_meta (e_db e) (n + 1) v) (e_log e)).
  assert (Hnone : db_get (e_db e) (bs "inodes") (u64_be (n + 1)) = None).
  { destruct (db_get _ _ _) as [w|] eqn:Ew; [|done].
    apply db_pairs_elem, Hall in Ew. unfold u64_be in Ew. rewrite from_to_be in Ew.
    change (256 ^ Z.of_nat 8) with (2 ^ 64) in Ew. rewrite Z.mod_small in Ew by lia. lia. }
  split_and!; [|lia|lia|done| |done|].
  - apply (batch_ok _ e). erewrite tx_bind_ok.
    2: { unfold inodes, tx_map_err. by rewrite (get_bucket_ok _ _ Hh). }
    erewrite tx_bind_ok by done. erewrite tx_bind_ok by exact E.
    rewrite (w64_small (n + 1)) by (unfold is_u64; lia).
    erewrite tx_bind_ok; [done|]. unfold store_meta, serialize. by rewrite Hv.
  - split; cbn; [by apply meta_at_new|constructor|done|done].
  - intros j m C Hj Hf.
    refine (file_at_grows e (MkEngine _ _) _ _ _ _ _ Hf); [|by split].
    destruct (fa_meta _ _ _ _ Hf) as (w & Hw & Hm). exists w. split; [|done].
    cbn [e_db]. unfold put_meta. rewrite db_get_put_key; [done|].
    intros Ek. by rewrite Ek, Hnone in Hw.
Qed.

(** [allocate_inode] returns a number above 1 that no inode has, stores an empty
    file under it and keeps every other file. *)
Theorem allocate_inode_fresh `{!Reliable D} e mode :
  db_has (e_db e) (bs "inodes") = true ->
  (forall k v, db_get (e_db e) (bs "inodes") k = Some v ->
    length k = 8%nat /\ from_be k < 2 ^ 64 - 1) ->
  (forall ino, is_Some (meta_encode (new_meta ino mode))) ->
  exists ino e', allocate_inode mode e = (Ok ino, e') /\ 1 < ino < 2 ^ 64 /\
    db_get (e_db e) (bs "inodes") (u64_be ino) = None /\
    file_at e' ino (new_meta ino mode) [] /\ e_log e' = e_log e /\
    forall j m C, is_u64 j -> file_at e j m C -> file_at e' j m C.
Proof. apply allocate_runs. Qed.
End facts.

(** ** Witnesses *)

#[export] Instance plain_meta : MetaCodec.
Proof.
  refine {| meta_encode := fun m => Some (plain_encode m);
            meta_decode := plain_decode |}.
  intros m v [= <-]. apply plain_decode_encode.
Defined.

(** An engine with no inode and a log that starts at the tenth byte of a
    small disk. *)
Definition empty_engine : Engine mapdb RamDisk :=
  MkEngine {[bs "inodes" := ∅]} (MkLog (replicate 100 Byte.x2e) 10).

Definition new_engine : Engine mapdb RamDisk := (allocate_inode 0x81A4 empty_engine).2.
Definition hello : bytes := bs "hello".
Definition hello_engine : Engine mapdb RamDisk := (write_file_transactional 2 0 hello new_engine).2.

Definition hello_meta : InodeMetadata :=
  extend_meta 0 10 hello (new_meta 2 0x81A4).

Lemma hello_ok : file_at hello_engine 2 hello_meta hello /\ log_ok (e_log hello_engine).
Proof.
  split.
  - split; [|  |done|done].
    + exists (plain_encode hello_meta). split; [vm_compute; reflexivity|].
      apply plain_decode_encode.
    + cbn [m_extents hello_meta extend_meta meta_size meta_extents new_meta app].
      eapply tiled_step; [done| |constructor|vm_compute; reflexivity].
      split_and!; by_eval.
  - split; by_eval.
Qed.

Definition scratch_buf (n : nat) : bytes := replicate n Byte.x2e.

Lemma read_file_contents_witness :
  read_file 2 1 (scratch_buf 6) hello_engine = (Ok (4, bs "ello.."), hello_engine).
Proof.
  refine (read_file_contents hello_engine 2 hello_meta hello 1 (scratch_buf 6) _ _ _).
  - apply hello_ok.
  - apply hello_ok.
  - done.
Defined.

Lemma read_from_log_agrees_witness :
  read_file 2 1 (scratch_buf 6) hello_engine =
  (read_from_log (e_log hello_engine) hello_meta 1 (scratch_buf 6), hello_engine).
Proof.
  refine (read_from_log_agrees hello_engine 2 hello_meta hello 1 (scratch_buf 6) _ _ _).
  - apply hello_ok.
  - apply hello_ok.
  - done.
Defined.


(** A write to an inode that does not exist. *)
Definition lost_write : outcome unit * Engine mapdb RamDisk :=
  write_file_transactional 9 0 (bs "x") hello_engine.

Lemma lost_write_fails : lost_write.1 = Err NotFound.
Proof. vm_compute. reflexivity. Qed.

Lemma write_fails_cleanly_witness :
  lost_write.1 = Err NotFound /\ e_db lost_write.2 = e_db hello_engine /\
  file_at lost_write.2 2 hello_meta hello.
Proof.
  split; [apply lost_write_fails|].
  destruct (write_fails_cleanly hello_engine 9 0 (bs "x") lost_write.1 lost_write.2)
    as [Hd Hf].
  - apply hello_ok.
  - by_eval.
  - apply surjective_pairing.
  - rewrite lost_write_fails. exact I.
  - split; [exact Hd|]. apply Hf, hello_ok.
Defined.


Lemma allocate_inode_fresh_witness :
  exists ino e', allocate_inode 0x81A4 empty_engine = (Ok ino, e') /\
    file_at e' ino (new_meta ino 0x81A4) [].
Proof.
  destruct (allocate_inode_fresh empty_engine 0x81A4) as (ino & e' & E & _ & _ & Hf & _).
  - done.
  - intros k v Hk. change (({[bs "inodes" := ∅]} : mapdb) !! bs "inodes" ≫= (.!! k) = Some v) in Hk.
    rewrite lookup_singleton_eq in Hk. cbn [mbind option_bind] in Hk. by rewrite lookup_empty in Hk.
  - intros ino. by eexists.
  - by exists ino, e'.
Defined.

Lemma truncate_file_cuts_witness :
  exists e', truncate_file 2 3 hello_engine = (Ok tt, e') /\
    file_at e' 2 (truncate_meta 3 hello_meta) (bs "hel").
Proof.
  destruct (truncate_file_cuts hello_engine 2 hello_meta hello 3
    (plain_encode (truncate_meta 3 hello_meta))) as (e' & E & Hf & _).
  - apply hello_ok.
  - apply hello_ok.
  - done.
  - done.
  - reflexivity.
  - exists e'. split; [exact E|exact Hf].
Defined.
