(* ===== verification/Adapter.v ===== *)
(** * The VFS adapter of the transactional engine: src/src/rvfs_adapter.rs

    Inodes, the super block, mounting and the cache of dentries, on top of
    [Engine]. The traits and types are those of the [vfscore] crate; an inode
    object is its number, since it only adds the engine it shares with the
    others. The database library and the log share one device: the library
    keeps to the first 32 MiB, so the model has them apart. *)

From S2P Require Import Prelude Bytes Common Store MapDb Log Engine.

(** The errors of [vfscore] the adapter uses. *)
Inductive VfsError := VInvalid | VIoError | VNotDir | VNoEntry | VNotEmpty.

Inductive VfsNodeType := VUnknown | VFile | VDir | VBlockDevice | VOther.

#[export] Instance VfsNodeType_eq_dec : EqDecision VfsNodeType.
Proof. solve_decision. Defined.

Record VfsDirEntry := MkVfsDirEntry { ve_ino : Z; ve_ty : VfsNodeType; ve_name : bytes }.

(** The fields of [VfsFileStat] that are set, and those of [InodeAttr] that
    are read. *)
Record VfsFileStat := MkStat {
  st_size : Z; st_ino : Z; st_mode : Z; st_nlink : Z; st_uid : Z; st_gid : Z;
  st_atime : Z; st_mtime : Z; st_ctime : Z }.

Record InodeAttr := MkInodeAttr { ia_mode : Z; ia_size : Z; ia_atime : Z; ia_mtime : Z }.

(** ** The file under the database: [JammdbFileAdapter] *)

Inductive SeekFrom := SeekStart (s : Z) | SeekEnd (e : Z) | SeekCurrent (c : Z).

(** The two other methods of a node the file adapter calls. *)
Class VfsFileNode (V : Type) := {
  vfs_fsync : V -> outcome unit * V;
  vfs_truncate : V -> Z -> outcome unit * V }.

Record JammdbFileAdapter (V : Type) := MkFileAdapter { fa_inode : V; fa_pos : Z }.
Arguments MkFileAdapter {V} fa_inode fa_pos.
Arguments fa_inode {V} j.
Arguments fa_pos {V} j.

Section file_adapter.
Context {V : Type} `{VfsNode V}.

Definition file_read (f : JammdbFileAdapter V) (buf : bytes) :
  outcome (Z * bytes) * JammdbFileAdapter V :=
  match vfs_read_at (fa_inode f) (fa_pos f) buf with
  | Ok (n, buf) => (Ok (n, buf), MkFileAdapter (fa_inode f) (w64 (fa_pos f + n)))
  | Err e => (Err e, f)
  | Panic => (Panic, f)
  end.

Definition file_write (f : JammdbFileAdapter V) (buf : bytes) :
  outcome Z * JammdbFileAdapter V :=
  match vfs_write_at (fa_inode f) (fa_pos f) buf with
  | (Ok n, inode) => (Ok n, MkFileAdapter inode (w64 (fa_pos f + n)))
  | (Err e, inode) => (Err e, MkFileAdapter inode (fa_pos f))
  | (Panic, inode) => (Panic, MkFileAdapter inode (fa_pos f))
  end.

(** [get_attr().map(|a| a.st_size).unwrap_or(0)]. *)
Definition file_size (f : JammdbFileAdapter V) : Z :=
  match vfs_size (fa_inode f) with Ok size => size | _ => 0 end.

(** The sums are on [i64]; the cast back to [u64] wraps. *)
Definition file_seek (f : JammdbFileAdapter V) (pos : SeekFrom) : Z * JammdbFileAdapter V :=
  let size := file_size f in
  let new_pos := match pos with
                 | SeekStart s => s
                 | SeekEnd e => w64 (size + e)
                 | SeekCurrent c => w64 (fa_pos f + c)
                 end in
  (new_pos, MkFileAdapter (fa_inode f) new_pos).

(** [MetaData { len }]. *)
Definition file_metadata (f : JammdbFileAdapter V) : outcome Z := vfs_size (fa_inode f).

Context `{!VfsFileNode V}.

Definition file_sync_all (f : JammdbFileAdapter V) : outcome unit * JammdbFileAdapter V :=
  let '(r, inode) := vfs_fsync (fa_inode f) in (r, MkFileAdapter inode (fa_pos f)).

Definition file_allocate (f : JammdbFileAdapter V) (new_size : Z) :
  outcome unit * JammdbFileAdapter V :=
  let '(r, inode) := vfs_truncate (fa_inode f) new_size in (r, MkFileAdapter inode (fa_pos f)).
End file_adapter.

(** [JammdbOpenOptions]: the path is not looked at, a file starts at 0. *)
Definition options_open {V} (dev : V) : outcome (JammdbFileAdapter V) := Ok (MkFileAdapter dev 0).

(** ** The cache of dentries: [DbfsDentry]

    The dentries are shared objects: a store of them by identity, with the
    identity of the next one. *)

Record DbfsDentry := MkDentry {
  dn_parent : option nat; dn_inode : Z; dn_name : bytes;
  dn_mnt : option (nat * Z); dn_children : gmap bytes nat }.

Record dentries := Dentries { dn_store : gmap nat DbfsDentry; dn_next : nat }.

Definition dentry_new (inode : Z) (parent : option nat) (name : bytes) (s : dentries) :
  nat * dentries :=
  (dn_next s, Dentries (<[dn_next s := MkDentry parent inode name None ∅]> (dn_store s))
                       (S (dn_next s))).

Definition with_children (f : gmap bytes nat -> gmap bytes nat) (x : DbfsDentry) : DbfsDentry :=
  MkDentry (dn_parent x) (dn_inode x) (dn_name x) (dn_mnt x) (f (dn_children x)).

Definition dentry_find (self : nat) (path : bytes) (s : dentries) : option nat :=
  x ← dn_store s !! self; dn_children x !! path.

Definition dentry_insert (self : nat) (name : bytes) (child : Z) (s : dentries) :
  nat * dentries :=
  let '(id, s) := dentry_new child (Some self) name s in
  (id, Dentries (alter (with_children <[name := id]>) self (dn_store s)) (dn_next s)).

Definition dentry_remove (self : nat) (name : bytes) (s : dentries) : option nat * dentries :=
  (dentry_find self name s,
   Dentries (alter (with_children (base.delete name)) self (dn_store s)) (dn_next s)).

Definition dentry_set_parent (self parent : nat) (s : dentries) : dentries :=
  Dentries (alter (fun x => MkDentry (Some parent) (dn_inode x) (dn_name x) (dn_mnt x)
                              (dn_children x)) self (dn_store s)) (dn_next s).

Definition dentry_set_mount (self : nat) (mnt : option (nat * Z)) (s : dentries) : dentries :=
  Dentries (alter (fun x => MkDentry (dn_parent x) (dn_inode x) (dn_name x) mnt
                              (dn_children x)) self (dn_store s)) (dn_next s).

(** [to_mount_point] and [clear_mount_point]. *)
Definition dentry_to_mount_point (self root : nat) (mount_flag : Z) : dentries -> dentries :=
  dentry_set_mount self (Some (root, mount_flag)).
Definition dentry_clear_mount_point (self : nat) : dentries -> dentries :=
  dentry_set_mount self None.

(** ** The operations of an inode *)

Section ops.
Context {D B : Type} `{JammDb D, BlockDevice B, MetaCodec}.

(** An operation whose error is a [VfsError]. *)
Definition Vfs (A : Type) : Type := Eng D B (VfsError + A).

Definition vfs_ret {A} (a : A) : Vfs A := mret (inr a).
Definition vfs_err {A} (x : VfsError) : Vfs A := mret (inl x).
Definition vfs_bind {A A'} (m : Vfs A) (f : A -> Vfs A') : Vfs A' :=
  mbind (M := Eng D B) (fun r : VfsError + A =>
    match r with inr a => f a | inl x => vfs_err x end) m.
(** [.map_err(|_| x)]. *)
Definition vfs_of {A} (x : VfsError) (m : Eng D B A) : Vfs A := fun e =>
  match m e with
  | (Ok a, e') => (Ok (inr a), e')
  | (Err _, e') => (Ok (inl x), e')
  | (Panic, e') => (Panic, e')
  end.
End ops.

Notation "x <=- m ; f" := (vfs_bind m (fun x => f))
  (at level 20, m at level 100, f at level 200, right associativity).

Definition is_dir_meta (m : InodeMetadata) : bool := Z.land (m_mode m) 0xF000 =? 0x4000.

Definition node_type (m : InodeMetadata) : VfsNodeType :=
  if is_dir_meta m then VDir else VFile.

Section inode.
Context {D B : Type} `{JammDb D, BlockDevice B, MetaCodec}.
Abbreviation Vfs := (Vfs (D := D) (B := B)).

Definition inode_write_at (self offset : Z) (buf : bytes) : Vfs Z :=
  _ <=- vfs_of VIoError (write_file_transactional self offset buf);
  vfs_ret (zlen buf).

Definition inode_read_at (self offset : Z) (buf : bytes) : Vfs (Z * bytes) :=
  vfs_of VIoError (read_file self offset buf).

Definition inode_readdir (self start_index : Z) : Vfs (option VfsDirEntry) :=
  meta <=- vfs_of VIoError (get_metadata self);
  if negb (is_dir_meta meta) then vfs_err VNotDir
  else
    entry <=- vfs_of VIoError (list_dentries self start_index);
    match entry with
    | Some (name, ino) =>
        child_meta <=- vfs_of VIoError (get_metadata ino);
        vfs_ret (Some (MkVfsDirEntry ino (node_type child_meta) name))
    | None => vfs_ret None
    end.

Definition inode_node_perm (self : Z) : Eng D B Z := fun e =>
  match get_metadata self e with
  | (Ok meta, e') => (Ok (w16 (Z.land (m_mode meta) 0x1FF)), e')
  | (Err _, e') => (Ok 0, e')
  | (Panic, e') => (Panic, e')
  end.

Definition inode_get_attr (self : Z) : Vfs VfsFileStat :=
  meta <=- vfs_of VIoError (get_metadata self);
  vfs_ret {| st_size := m_size meta; st_ino := self; st_mode := m_mode meta;
             st_nlink := m_nlink meta; st_uid := 0; st_gid := 0; st_atime := m_atime meta;
             st_mtime := m_mtime meta; st_ctime := m_mtime meta |}.

Definition inode_set_attr (self : Z) (attr : InodeAttr) : Vfs unit :=
  meta <=- vfs_of VIoError (get_metadata self);
  vfs_of VIoError (update_metadata
    (MkMeta (m_ino meta) (ia_size attr) (ia_mode attr) (m_nlink meta) (m_extents meta)
       (ia_atime attr) (ia_mtime attr))).

Definition inode_type (self : Z) : Eng D B VfsNodeType := fun e =>
  match get_metadata self e with
  | (Ok meta, e') => (Ok (node_type meta), e')
  | (Err _, e') => (Ok VUnknown, e')
  | (Panic, e') => (Panic, e')
  end.

(** [create] makes a regular file whatever the type asked for. *)
Definition inode_make (type_bits self : Z) (name : bytes) (perm : Z) : Vfs Z :=
  let mode := Z.lor type_bits perm in
  new_ino <=- vfs_of VIoError (allocate_inode mode);
  _ <=- vfs_of VIoError (add_dentry self name new_ino);
  vfs_ret new_ino.

Definition inode_create (self : Z) (name : bytes) (_ty : VfsNodeType) (perm : Z)
    (_rdev : option Z) : Vfs Z := inode_make 0x8000 self name perm.
Definition inode_mkdir (self : Z) (name : bytes) (perm : Z) : Vfs Z :=
  inode_make 0x4000 self name perm.

Definition inode_lookup (self : Z) (name : bytes) : Vfs Z :=
  vfs_of VNoEntry (lookup_dentry self name).

Definition inode_unlink (self : Z) (name : bytes) : Vfs unit :=
  child_ino <=- vfs_of VNoEntry (lookup_dentry self name);
  _ <=- vfs_of VIoError (delete_dentry self name);
  child_meta <=- vfs_of VIoError (get_metadata child_ino);
  let child_meta := if 0 <? m_nlink child_meta
                    then meta_nlink (m_nlink child_meta - 1) child_meta else child_meta in
  if m_nlink child_meta =? 0 then vfs_of VIoError (delete_inode child_ino)
  else vfs_of VIoError (update_metadata child_meta).

Definition inode_rmdir (self : Z) (name : bytes) : Vfs unit :=
  child_ino <=- vfs_of VNoEntry (lookup_dentry self name);
  child_meta <=- vfs_of VIoError (get_metadata child_ino);
  if negb (is_dir_meta child_meta) then vfs_err VNotDir
  else
    entry <=- vfs_of VIoError (list_dentries child_ino 0);
    match entry with
    | Some _ => vfs_err VNotEmpty
    | None =>
        _ <=- vfs_of VIoError (delete_dentry self name);
        vfs_of VIoError (delete_inode child_ino)
    end.

Definition inode_truncate (self len : Z) : Vfs unit :=
  vfs_of VIoError (truncate_file self len).

(** [new_parent]: the number of the new parent when it is an inode of this
    file system. *)
Definition inode_rename_to (self : Z) (old_name : bytes) (new_parent : option Z)
    (new_name : bytes) : Vfs unit :=
  ino <=- vfs_of VNoEntry (lookup_dentry self old_name);
  match new_parent with
  | None => vfs_err VInvalid
  | Some new_parent =>
      _ <=- vfs_of VIoError (add_dentry new_parent new_name ino);
      vfs_of VIoError (delete_dentry self old_name)
  end.

(** ** Mounting *)

(** The bytes of the device left to the database. *)
Definition db_reserved_size : Z := 32 * 1024 * 1024.

Definition VFS_MAGIC : Z := 0x44424653.

Definition root_meta : InodeMetadata := MkMeta 1 0 0x41ED 2 [] 0 0.

(** Making the buckets of a new file system. *)
Definition mount_tx (size : Z) : Tx D unit :=
  present ← tx_has (bs "inodes");
  if (present : bool) then mret tt else
    bucket ← create_bucket (bs "inodes");
    sb_bucket ← create_bucket (bs "super_blk");
    put sb_bucket (bs "magic") (u32_be VFS_MAGIC);;
    put sb_bucket (bs "disk_size") (u64_be size);;
    meta_data ← tx_unwrap (meta_encode root_meta);
    put bucket (u64_be 1) meta_data;;
    root_dir ← create_bucket (bs "dir_1");
    put root_dir (bs ".") (u64_be 1);;
    put root_dir (bs "..") (u64_be 1).

(** [mount]: [first] and [again] are what [DB::open] of the library returns
    on the device; the engine of a failed mount is dropped. *)
Definition mount (dev : option (VfsNodeType * B)) (first again : option D) :
  outcome (VfsError + Engine D B) :=
  match dev with
  | None => Ok (inl VInvalid)
  | Some (ty, adapter) =>
      if negb (bool_decide (ty = VBlockDevice)) then Ok (inl VInvalid)
      else
        let db := match first with
                  | Some db => inr db
                  | None =>
                      if dev_size adapter <? 4096 then inl VInvalid
                      else match again with Some db => inr db | None => inl VIoError end
                  end in
        match db with
        | inl x => Ok (inl x)
        | inr db =>
            let log_manager := MkLog adapter db_reserved_size in
            match batch (mount_tx (dev_size adapter)) (MkEngine db log_manager) with
            | (Ok _, e) => Ok (inr e)
            | (Err _, _) => Ok (inl VIoError)
            | (Panic, _) => Panic
            end
        end
  end.
End inode.

(** [stat_fs] and [root_inode] are constant. *)
Record VfsFsStat := MkFsStat {
  vf_type : Z; vf_bsize : Z; vf_blocks : Z; vf_bfree : Z; vf_bavail : Z; vf_files : Z;
  vf_ffree : Z; vf_namelen : Z; vf_frsize : Z; vf_flags : Z }.

Definition stat_fs : VfsFsStat :=
  {| vf_type := VFS_MAGIC; vf_bsize := 4096; vf_blocks := 0; vf_bfree := 0; vf_bavail := 0;
     vf_files := 0; vf_ffree := 0; vf_namelen := 255; vf_frsize := 4096; vf_flags := 0 |}.

Definition root_inode : Z := 1.

(** ** What the operations promise *)

Section facts.
Context {D B : Type} `{JammDb D, !JammDbLaws D, !Reliable D, BlockDeviceLaws B, MetaCodec}.
Implicit Types (d : D) (e : Engine D B).

Lemma vfs_of_ok {A} x (m : Eng D B A) e a e' :
  m e = (Ok a, e') -> vfs_of x m e = (Ok (inr a), e').
Proof. intros E. unfold vfs_of. by rewrite E. Qed.

Lemma vfs_of_err {A} x (m : Eng D B A) e y e' :
  m e = (Err y, e') -> vfs_of x m e = (Ok (inl x), e').
Proof. intros E. unfold vfs_of. by rewrite E. Qed.

Lemma vfs_bind_ok {A A'} (m : Vfs (D := D) (B := B) A) (f : A -> Vfs A') e a e' :
  m e = (Ok (inr a), e') -> vfs_bind m f e = f a e'.
Proof. intros E. unfold vfs_bind. by rewrite (eng_bind_ok _ _ _ _ _ E). Qed.

(** [d'] is [d] with the pair of [k] in the bucket [b] set to [v]. *)
Record sets (b k : bytes) (v : option bytes) (d d' : D) : Prop := {
  sets_at : db_get d' b k = v;
  sets_ne : forall b' k', b' <> b \/ k' <> k -> db_get d' b' k' = db_get d b' k' }.

Lemma sets_meta b k v d d' ino m :
  b <> bs "inodes" -> sets b k v d d' -> meta_at d ino m -> meta_at d' ino m.
Proof.
  intros Hb [_ Hs] (w & Hw & Hm). exists w. rewrite Hs; [done|]. left. by apply not_eq_sym.
Qed.

Lemma dir_inodes p : dir_bucket p <> bs "inodes".
Proof. key_neq. Qed.

Lemma dir_bucket_inj p q : is_u64 p -> is_u64 q -> dir_bucket p = dir_bucket q -> p = q.
Proof.
  intros Hp Hq E. apply app_inv_head in E.
  pose proof (parse_usize_to_string p Hp) as E1. rewrite E, parse_usize_to_string in E1 by done.
  congruence.
Qed.

Lemma add_dentry_runs p name c e :
  exists d', add_dentry p name c e = (Ok tt, MkEngine d' (e_log e)) /\
    sets (dir_bucket p) name (Some (u64_be c)) (e_db e) d'.
Proof.
  unfold add_dentry. set (b := dir_bucket p).
  destruct (db_has (e_db e) b) eqn:Hh.
  - exists (db_put (e_db e) b name (u64_be c)). split.
    + apply batch_ok. erewrite tx_bind_ok; [done|].
      unfold tx_map_err, get_or_create_bucket. by rewrite Hh.
    + split; [by apply db_get_put_eq|]. intros. by apply db_get_put_ne.
  - destruct (db_create_some _ _ Hh) as [d1 Hc].
    exists (db_put d1 b name (u64_be c)). split.
    + apply batch_ok. erewrite tx_bind_ok; [done|].
      unfold tx_map_err, get_or_create_bucket, create_bucket. by rewrite Hh, Hc.
    + split.
      * apply db_get_put_eq. rewrite (db_has_create _ _ _ _ Hc).
        by rewrite bool_decide_eq_true_2.
      * intros b' k' Hne. rewrite db_get_put_ne by done.
        rewrite (db_get_create _ _ _ _ _ Hc). case_bool_decide as Hb; [|done].
        subst b'. by rewrite db_get_missing.
Qed.

Lemma lookup_dentry_runs p name c e :
  is_u64 c -> db_get (e_db e) (dir_bucket p) name = Some (u64_be c) ->
  lookup_dentry p name e = (Ok c, e).
Proof.
  intros Hc Hg. unfold lookup_dentry, view. rewrite begin_ok.
  erewrite tx_bind_ok.
  2: { unfold tx_map_err. by rewrite (get_bucket_ok _ _ (db_has_some _ _ _ _ Hg)). }
  unfold get_kv, mbind, tx_bind. rewrite Hg. cbn [tx_ok_or mret tx_ret].
  unfold ino_of_value, u64_be. rewrite length_to_be, Nat.eqb_refl, from_to_be.
  by rewrite Z.mod_small.
Qed.

Lemma lookup_dentry_missing p name e :
  db_get (e_db e) (dir_bucket p) name = None -> lookup_dentry p name e = (Err NotFound, e).
Proof.
  intros Hg. unfold lookup_dentry, view. rewrite begin_ok.
  unfold mbind at 1, tx_bind at 1, tx_map_err, get_bucket.
  destruct (db_has _ _); [|done]. unfold get_kv, mbind, tx_bind. by rewrite Hg.
Qed.

Lemma delete_dentry_runs p name v e :
  db_get (e_db e) (dir_bucket p) name = Some v ->
  exists d', delete_dentry p name e = (Ok tt, MkEngine d' (e_log e)) /\
    sets (dir_bucket p) name None (e_db e) d'.
Proof.
  intros Hg. destruct (db_delete_some _ _ _ _ Hg) as [d' Hd]. exists d'. split.
  - apply batch_ok. erewrite tx_bind_ok.
    2: { unfold tx_map_err. by rewrite (get_bucket_ok _ _ (db_has_some _ _ _ _ Hg)). }
    unfold tx_map_err. by rewrite (delete_ok _ _ _ _ Hd).
  - split; [by apply (db_get_delete_eq _ _ _ _ Hd)|].
    intros b' k' Hne. by apply (db_get_delete_ne _ _ _ _ _ _ Hd).
Qed.

Lemma get_metadata_runs e ino m :
  meta_at (e_db e) ino m -> get_metadata ino e = (Ok m, e).
Proof. apply view_meta_ok. Qed.

(** The entry [name] of [p] names [c]. *)
Definition entry_at e (p : Z) (name : bytes) (c : Z) : Prop :=
  is_u64 c /\ db_get (e_db e) (dir_bucket p) name = Some (u64_be c).

(** C36: A file made by [create] is found by [lookup] under its name, its attributes are
    those of an empty regular file with the permission asked for and one link, its
    number was not in use, and every file keeps its contents. *)
Theorem create_then_found e p name ty perm rdev :
  db_has (e_db e) (bs "inodes") = true ->
  (forall k v, db_get (e_db e) (bs "inodes") k = Some v ->
    length k = 8%nat /\ from_be k < 2 ^ 64 - 1) ->
  (forall ino, is_Some (meta_encode (new_meta ino (Z.lor 0x8000 perm)))) ->
  exists ino e', inode_create p name ty perm rdev e = (Ok (inr ino), e') /\
    inode_lookup p name e' = (Ok (inr ino), e') /\
    inode_get_attr ino e' =
      (Ok (inr (MkStat 0 ino (Z.lor 0x8000 perm) 1 0 0 0 0 0)), e') /\
    db_get (e_db e) (bs "inodes") (u64_be ino) = None /\
    forall j m C, is_u64 j -> file_at e j m C -> file_at e' j m C.
Proof.
  intros Hh Hk Henc.
  destruct (allocate_runs e (Z.lor 0x8000 perm) Hh Hk Henc)
    as (ino & e1 & E1 & Hr & Hnone & Hf1 & Hlog & Hfiles).
  destruct (add_dentry_runs p name ino e1) as (d2 & E2 & Hs).
  assert (Hu : is_u64 ino) by (unfold is_u64; lia).
  exists ino, (MkEngine d2 (e_log e1)). split_and!; [| | |done|].
  - unfold inode_create, inode_make. rewrite (vfs_bind_ok _ _ _ _ _ (vfs_of_ok _ _ _ _ _ E1)).
    by rewrite (vfs_bind_ok _ _ _ _ _ (vfs_of_ok _ _ _ _ _ E2)).
  - apply vfs_of_ok, lookup_dentry_runs; [done|]. apply (sets_at _ _ _ _ _ Hs).
  - unfold inode_get_attr. erewrite vfs_bind_ok.
    2: { apply vfs_of_ok, get_metadata_runs.
         apply (sets_meta _ _ _ _ _ _ _ (dir_inodes p) Hs), Hf1. }
    done.
  - intros j m C Hj Hf. specialize (Hfiles _ _ _ Hj Hf).
    refine (file_at_grows e1 (MkEngine _ _) _ _ _ _ _ Hfiles); [|by split].
    apply (sets_meta _ _ _ _ _ _ _ (dir_inodes p) Hs), Hfiles.
Qed.

(** [rename_to] makes the new name refer to the inode and removes the old one, and
    keeps every other entry; when both are the same name of the same directory the entry
    is lost, since the new entry is deleted with the old. *)
Theorem rename_to_moves e p q old_name new_name c :
  entry_at e p old_name c -> is_u64 p -> is_u64 q ->
  exists e', inode_rename_to p old_name (Some q) new_name e = (Ok (inr tt), e') /\
    inode_lookup p old_name e' = (Ok (inl VNoEntry), e') /\
    (q <> p \/ new_name <> old_name ->
      inode_lookup q new_name e' = (Ok (inr c), e')) /\
    forall r name x, is_u64 r -> (r <> p \/ name <> old_name) -> (r <> q \/ name <> new_name) ->
      entry_at e r name x -> entry_at e' r name x.
Proof.
  intros [Hc Hg] Hp Hq.
  destruct (add_dentry_runs q new_name c e) as (d1 & E1 & [Hat1 Hne1]).
  assert (Hold : exists v, db_get d1 (dir_bucket p) old_name = Some v).
  { destruct (decide (dir_bucket p = dir_bucket q /\ old_name = new_name)) as [[-> ->]|Hd].
    - by eexists.
    - exists (u64_be c). rewrite Hne1; [done|].
      destruct (decide (dir_bucket p = dir_bucket q)); [right|left]; [|done]. tauto. }
  destruct Hold as [v Hv].
  destruct (delete_dentry_runs p old_name v (MkEngine d1 (e_log e)) Hv) as (d2 & E2 & [Hat2 Hne2]).
  cbn [e_db e_log] in *.
  exists (MkEngine d2 (e_log e)). split_and!.
  - unfold inode_rename_to.
    rewrite (vfs_bind_ok _ _ _ _ _ (vfs_of_ok _ _ _ _ _ (lookup_dentry_runs _ _ _ _ Hc Hg))).
    rewrite (vfs_bind_ok _ _ _ _ _ (vfs_of_ok _ _ _ _ _ E1)). by apply vfs_of_ok.
  - eapply vfs_of_err. by apply lookup_dentry_missing.
  - intros Hne. apply vfs_of_ok, lookup_dentry_runs; [done|]. cbn [e_db].
    rewrite Hne2; [exact Hat1|]. destruct Hne as [Hne|Hne]; [left|by right].
    intros E. by apply dir_bucket_inj in E.
  - intros r name x Hr Hne Hne' [Hx Hgx]. split; [done|]. cbn [e_db].
    rewrite Hne2, Hne1; [done| |].
    + destruct Hne' as [?|?]; [left|by right]. intros E. by apply dir_bucket_inj in E.
    + destruct Hne as [?|?]; [left|by right]. intros E. by apply dir_bucket_inj in E.
Qed.

Lemma delete_inode_runs e c m :
  is_u64 c -> meta_at (e_db e) c m ->
  exists d', delete_inode c e = (Ok tt, MkEngine d' (e_log e)) /\
    db_get d' (bs "inodes") (u64_be c) = None /\
    (db_has d' (bs "inodes") = true) /\
    forall b k, b <> dir_bucket c -> b <> bs "inodes" \/ k <> u64_be c ->
      db_get d' b k = db_get (e_db e) b k.
Proof.
  intros Hc Hm. pose proof Hm as (v & Hv & _).
  destruct (db_delete_some _ _ _ _ Hv) as [d1 Hd].
  assert (HB : exists d', drop_if_present (dir_bucket c) d1 = Ok (tt, d') /\
    db_has d' (bs "inodes") = true /\
    forall b k, b <> dir_bucket c -> db_get d' b k = db_get d1 b k).
  { assert (Hi : db_has d1 (bs "inodes") = true).
    { rewrite (db_has_delete _ _ _ _ _ Hd). by apply (meta_at_has _ _ _ Hm). }
    unfold drop_if_present, tx_has, mbind, tx_bind.
    destruct (db_has d1 (dir_bucket c)) eqn:Eh.
    - destruct (db_drop_some _ _ Eh) as [d2 Hdrop]. exists d2. unfold delete_bucket.
      rewrite Hdrop. split_and!; [done| |].
      + rewrite (db_has_drop _ _ _ _ Hdrop), bool_decide_eq_false_2; [by rewrite Hi|].
        apply not_eq_sym, dir_inodes.
      + intros b k Hb. rewrite (db_get_drop _ _ _ _ _ Hdrop).
        by rewrite bool_decide_eq_false_2.
    - by exists d1. }
  destruct HB as (d' & E & Hi & Hg). exists d'. split_and!; [|  |done|].
  - apply (batch_ok _ e). rewrite (tx_bind_ok _ _ _ _ _ (inodes_ok _ _ _ Hm)).
    erewrite tx_bind_ok; [exact E|]. unfold tx_map_err. by rewrite (delete_ok _ _ _ _ Hd).
  - rewrite Hg by (apply not_eq_sym, dir_inodes). apply (db_get_delete_eq _ _ _ _ Hd).
  - intros b k Hb Hne. rewrite Hg by done. by apply (db_get_delete_ne _ _ _ _ _ _ Hd).
Qed.

Lemma get_metadata_missing e ino :
  db_has (e_db e) (bs "inodes") = true -> db_get (e_db e) (bs "inodes") (u64_be ino) = None ->
  get_metadata ino e = (Err NotFound, e).
Proof.
  intros Hh Hg. unfold get_metadata, view. rewrite begin_ok.
  erewrite tx_bind_ok.
  2: { unfold inodes, tx_map_err. by rewrite (get_bucket_ok _ _ Hh). }
  unfold load_meta, get_kv, mbind, tx_bind. by rewrite Hg.
Qed.

(** Removing the only name of an inode removes the entry and the inode: [lookup]
    and [get_attr] fail afterwards, and every other file keeps its contents. *)
Theorem unlink_removes e p name c m :
  entry_at e p name c -> is_u64 p -> c <> p -> meta_at (e_db e) c m -> m_nlink m = 1 ->
  exists e', inode_unlink p name e = (Ok (inr tt), e') /\
    inode_lookup p name e' = (Ok (inl VNoEntry), e') /\
    inode_get_attr c e' = (Ok (inl VIoError), e') /\
    forall j k C, is_u64 j -> j <> c -> file_at e j k C -> file_at e' j k C.
Proof.
  intros [Hc Hg] Hp Hcp Hm Hn.
  destruct (delete_dentry_runs p name _ e Hg) as (d1 & E1 & Hs).
  pose proof (sets_meta _ _ _ _ _ _ _ (dir_inodes p) Hs Hm) as Hm1.
  destruct (delete_inode_runs (MkEngine d1 (e_log e)) c m Hc Hm1) as (d2 & E2 & Hnone & Hi & Hne).
  cbn [e_db e_log] in *. exists (MkEngine d2 (e_log e)).
  assert (Hother : forall b k, b <> dir_bucket c -> b <> bs "inodes" \/ k <> u64_be c ->
    db_get d2 b k = db_get d1 b k) by done.
  split_and!.
  - unfold inode_unlink.
    rewrite (vfs_bind_ok _ _ _ _ _ (vfs_of_ok _ _ _ _ _ (lookup_dentry_runs _ _ _ _ Hc Hg))).
    rewrite (vfs_bind_ok _ _ _ _ _ (vfs_of_ok _ _ _ _ _ E1)).
    rewrite (vfs_bind_ok _ _ _ _ _ (vfs_of_ok _ _ _ _ _
      (get_metadata_runs (MkEngine d1 (e_log e)) c m Hm1))).
    rewrite Hn. cbn. by apply vfs_of_ok.
  - eapply vfs_of_err, lookup_dentry_missing. cbn [e_db]. rewrite Hother.
    + apply (sets_at _ _ _ _ _ Hs).
    + intros E. by apply dir_bucket_inj in E.
    + left. apply dir_inodes.
  - unfold inode_get_attr, vfs_bind. erewrite eng_bind_ok.
    2: { eapply vfs_of_err. by apply get_metadata_missing. }
    done.
  - intros j k C Hj Hjc Hf. refine (file_at_grows e (MkEngine _ _) _ _ _ _ _ Hf); [|by split].
    destruct (fa_meta _ _ _ _ Hf) as (w & Hw & Hk). exists w. split; [|done]. cbn [e_db].
    rewrite Hother.
    + rewrite (sets_ne _ _ _ _ _ Hs); [done|]. left. apply not_eq_sym, dir_inodes.
    + apply not_eq_sym, dir_inodes.
    + right. intros E. by apply usize_be_inj in E.
Qed.

(** Mounting a device that holds a file system. *)
Lemma mount_runs (dev : B) d again :
  db_has d (bs "inodes") = true ->
  mount (Some (VBlockDevice, dev)) (Some d) again = Ok (inr (MkEngine d (MkLog dev db_reserved_size))).
Proof.
  intros Hh. unfold mount. cbn [bool_decide negb]. rewrite bool_decide_eq_true_2 by done.
  cbn [negb]. erewrite batch_ok; [done|].
  unfold mount_tx, tx_has, mbind, tx_bind. cbn [e_db]. by rewrite Hh.
Qed.

(** Mounting restarts the log. After a file whose data is the first of the log, a
    mount and a write of the same length to another inode, the first file holds the data
    written to the other one. *)
Theorem mount_overwrites_log e ino m C x j mj data v again :
  file_at e ino m C -> m_extents m = [x] -> x_ptr x = db_reserved_size -> log_ok (e_log e) ->
  is_u64 ino -> is_u64 j -> j <> ino -> meta_at (e_db e) j mj -> zlen data = zlen C ->
  meta_encode (extend_meta 0 db_reserved_size data mj) = Some v ->
  exists e1 e2,
    mount (Some (VBlockDevice, device (e_log e))) (Some (e_db e)) again = Ok (inr e1) /\
    inode_write_at j 0 data e1 = (Ok (inr (zlen data)), e2) /\
    file_at e2 ino m data.
Proof.
  intros [Hm Ht Hsz Hu] Hx Hptr Hl Hino Hj Hne Hmj Hlen Hv. rewrite Hx in Ht.
  inversion Ht as [|s x' xs c Hoff Hok Hnil]; subst. inversion Hnil; subst. clear Ht Hnil.
  rewrite app_nil_r, zlen_extent in * by done. destruct Hl as [Hnext Hdev].
  pose proof Hok as (Hxl & _ & Hend).
  set (e1 := MkEngine (e_db e) (MkLog (device (e_log e)) db_reserved_size)).
  assert (HR : 0 <= db_reserved_size) by done.
  assert (Hl1 : log_ok (e_log e1)).
  { split; [|exact Hdev]. unfold e1, log_data in *. cbn [e_log device next_append_pos]. lia. }
  destruct (log_write_runs e1 j mj 0 data v Hmj Hl1) as (l2 & E & Hpos & Hl2 & _ & Hdata).
  { unfold e1, log_data in *. cbn [e_log device next_append_pos]. lia. }
  { exact Hv. }
  exists e1, (MkEngine (put_meta (e_db e) j v) l2). split_and!.
  - by apply mount_runs, (meta_at_has _ _ _ Hm).
  - unfold inode_write_at. by erewrite vfs_bind_ok by (by apply vfs_of_ok).
  - unfold e1 in Hpos, Hdata. cbn [e_log next_append_pos] in Hpos, Hdata.
    split; cbn [e_db e_log].
    + apply meta_at_put; [done..|by apply not_eq_sym|done].
    + rewrite Hx. eapply tiled_step; [done| |constructor|].
      * unfold extent_ok. lia.
      * rewrite app_nil_r. unfold extent_bytes. rewrite Hptr.
        replace (Z.to_nat (x_len x)) with (length data) by (unfold zlen in Hlen; lia). done.
    + rewrite Hsz. lia.
    + rewrite Hlen. done.
Qed.
End facts.

(** ** Witnesses *)

Definition created : Engine mapdb RamDisk := (inode_create 1 (bs "a") VFile 0x1A4 None empty_engine).2.

Lemma created_entry : entry_at created 1 (bs "a") 2.
Proof. split; [done|]. vm_compute. reflexivity. Qed.

Lemma created_meta : meta_at (e_db created) 2 (new_meta 2 0x81A4).
Proof.
  exists (plain_encode (new_meta 2 0x81A4)). split; [vm_compute; reflexivity|].
  apply plain_decode_encode.
Qed.

Lemma create_then_found_witness :
  exists ino e', inode_create 1 (bs "a") VFile 0x1A4 None empty_engine = (Ok (inr ino), e') /\
    inode_lookup 1 (bs "a") e' = (Ok (inr ino), e').
Proof.
  destruct (create_then_found empty_engine 1 (bs "a") VFile 0x1A4 None)
    as (ino & e' & E1 & E2 & _).
  - done.
  - intros k v Hk. change (({[bs "inodes" := ∅]} : mapdb) !! bs "inodes" ≫= (.!! k) = Some v) in Hk.
    rewrite lookup_singleton_eq in Hk. cbn [mbind option_bind] in Hk. by rewrite lookup_empty in Hk.
  - intros ino. by eexists.
  - exists ino, e'. split; [exact E1|exact E2].
Defined.

Lemma rename_to_moves_witness :
  exists e', inode_rename_to 1 (bs "a") (Some 1) (bs "b") created = (Ok (inr tt), e') /\
    inode_lookup 1 (bs "a") e' = (Ok (inl VNoEntry), e') /\
    inode_lookup 1 (bs "b") e' = (Ok (inr 2), e').
Proof.
  destruct (rename_to_moves created 1 1 (bs "a") (bs "b") 2) as (e' & E1 & E2 & E3 & _).
  - apply created_entry.
  - done.
  - done.
  - exists e'. split; [exact E1|]. split; [exact E2|]. apply E3. right. key_neq.
Defined.

Lemma unlink_removes_witness :
  exists e', inode_unlink 1 (bs "a") created = (Ok (inr tt), e') /\
    inode_get_attr 2 e' = (Ok (inl VIoError), e').
Proof.
  destruct (unlink_removes created 1 (bs "a") 2 (new_meta 2 0x81A4)) as (e' & E1 & _ & E2 & _).
  - apply created_entry.
  - done.
  - done.
  - apply created_meta.
  - done.
  - exists e'. split; [exact E1|exact E2].
Defined.

(** A disk whose log holds the five bytes of the inode 2; the inode 3 is
    empty. *)
Definition big_disk : RamDisk := replicate (Z.to_nat (db_reserved_size + 64)) Byte.x2e.
Definition big_extent : Extent := MkExtent 0 db_reserved_size 5 (crc32 (bs ".....")).
Definition big_meta : InodeMetadata := meta_size 5 (meta_extents [big_extent] (new_meta 2 0x81A4)).

Definition big_db : mapdb :=
  {[bs "inodes" := <[u64_be 2 := plain_encode big_meta]>
                     {[u64_be 3 := plain_encode (new_meta 3 0x81A4)]}]}.

Definition big_engine : Engine mapdb RamDisk :=
  MkEngine big_db (MkLog big_disk (db_reserved_size + 5)).

Lemma big_meta_at : meta_at (D := mapdb) big_db 2 big_meta /\
  meta_at (D := mapdb) big_db 3 (new_meta 3 0x81A4).
Proof.
  split; eexists; (split; [|apply plain_decode_encode]).
  - vm_compute. reflexivity.
  - vm_compute. reflexivity.
Qed.

Lemma chunk_replicate (k p n : Z) (x : Byte.byte) :
  0 <= k -> 0 <= p -> p + k <= n ->
  take (Z.to_nat k) (drop (Z.to_nat p) (replicate (Z.to_nat n) x)) = replicate (Z.to_nat k) x.
Proof. intros. rewrite drop_replicate, take_replicate. f_equal. lia. Qed.

Lemma big_engine_ok : file_at big_engine 2 big_meta (bs ".....") /\ log_ok (e_log big_engine).
Proof.
  assert (HZ : zlen big_disk = db_reserved_size + 64).
  { unfold zlen, big_disk. rewrite length_replicate, Z2Nat.id; [done|]. unfold db_reserved_size. lia. }
  split.
  - split.
    + apply big_meta_at.
    + apply (tiled_step _ 0 big_extent [] []).
      * reflexivity.
      * unfold extent_ok, big_extent, big_engine. cbn [x_len x_ptr e_log next_append_pos].
        unfold db_reserved_size. lia.
      * constructor.
      * rewrite app_nil_r. unfold extent_bytes, big_extent, log_data, big_engine.
        cbn [x_len x_ptr e_log device]. change (dev_data big_disk) with big_disk.
        unfold big_disk. rewrite chunk_replicate; [reflexivity|done| |];
          unfold db_reserved_size; lia.
    + reflexivity.
    + reflexivity.
  - unfold log_ok, big_engine, log_data. cbn [e_log next_append_pos device].
    change (dev_data big_disk) with big_disk. rewrite HZ. unfold db_reserved_size. lia.
Qed.

Lemma mount_overwrites_log_witness :
  exists e1 e2,
    mount (Some (VBlockDevice, big_disk)) (Some big_db) None = Ok (inr e1) /\
    inode_write_at 3 0 (bs "other") e1 = (Ok (inr 5), e2) /\
    file_at e2 2 big_meta (bs "other").
Proof.
  destruct (mount_overwrites_log big_engine 2 big_meta (bs ".....") big_extent 3
    (new_meta 3 0x81A4) (bs "other")
    (plain_encode (extend_meta 0 db_reserved_size (bs "other") (new_meta 3 0x81A4))) None)
    as (e1 & e2 & E1 & E2 & E3).
  - apply big_engine_ok.
  - reflexivity.
  - reflexivity.
  - apply big_engine_ok.
  - by_eval.
  - by_eval.
  - discriminate.
  - apply big_meta_at.
  - reflexivity.
  - reflexivity.
  - exists e1, e2. split; [exact E1|]. split; [exact E2|exact E3].
Defined.
