(* ===== verification/Wal.v ===== *)
(** * The write-ahead log: src/src/operation.rs and src/src/wal.rs

    The operations of a transaction, how each is applied to the file system
    below, and the log they are written to first: frames of a four-byte
    little-endian length and an encoded entry, on a storage behind the trait
    [WalStorage]. The functions [crate::common::dbfs_*] that [apply] calls are
    not in the repository, and the encoding is [serde_json]: both are
    parameters. [MockStorage] of src/src/dbfs_test.rs is a storage that
    satisfies the laws. *)

From S2P Require Import Prelude Bytes Common.

(** ** Operations *)

Inductive TransactionOperation :=
  | OpWrite (ino offset : Z) (data : bytes)
  | OpCreate (parent_ino : Z) (name : bytes) (uid gid perm : Z) (dev : option Z)
  | OpDelete (parent_ino : Z) (name : bytes)
  | OpRename (old_parent_ino : Z) (old_name : bytes) (new_parent_ino : Z) (new_name : bytes)
  | OpMkdir (parent_ino : Z) (name : bytes) (uid gid perm : Z)
  | OpTruncate (ino length : Z).

(** The file system below, as [apply] calls it: each call changes it and may
    fail. *)
Class BottomFs (F : Type) := {
  dbfs_write : Z -> bytes -> Z -> F -> (DbfsError + unit) * F;
  dbfs_create : Z -> bytes -> Z -> Z -> DbfsTimeSpec -> Z -> option bytes -> option Z ->
    F -> (DbfsError + unit) * F;
  dbfs_unlink : Z -> Z -> Z -> bytes -> option Z -> DbfsTimeSpec ->
    F -> (DbfsError + unit) * F;
  dbfs_rename : Z -> bytes -> Z -> bytes -> Z -> DbfsTimeSpec -> F -> (DbfsError + unit) * F;
  dbfs_truncate : Z -> Z -> DbfsTimeSpec -> F -> (DbfsError + unit) * F }.

(** [{:?}] of an error. *)
Definition error_debug (e : DbfsError) : bytes :=
  match e with
  | PermissionDenied => bs "PermissionDenied" | NotFound => bs "NotFound"
  | AccessError => bs "AccessError" | FileExists => bs "FileExists"
  | InvalidArgument => bs "InvalidArgument" | NoSpace => bs "NoSpace"
  | RangeError => bs "RangeError" | NameTooLong => bs "NameTooLong"
  | NoSys => bs "NoSys" | NotEmpty => bs "NotEmpty" | Io => bs "Io"
  | NotSupported => bs "NotSupported" | NoData => bs "NoData" | Other => bs "Other"
  end.

Definition describe {F} (msg : bytes) (r : (DbfsError + unit) * F) : (bytes + unit) * F :=
  match r with
  | (inl e, s) => (inl (msg ++ error_debug e), s)
  | (inr _, s) => (inr tt, s)
  end.

Definition apply {F} `{BottomFs F} (op : TransactionOperation) (s : F) : (bytes + unit) * F :=
  let now := TimeSpec 0 0 in
  match op with
  | OpWrite ino offset data => describe (bs "Write error: ") (dbfs_write ino data offset s)
  | OpCreate parent_ino name uid gid perm dev =>
      describe (bs "Create error: ")
        (dbfs_create parent_ino name uid gid now (Perm.from_bits_truncate perm) None dev s)
  | OpDelete parent_ino name =>
      describe (bs "Delete error: ") (dbfs_unlink 0 0 parent_ino name None now s)
  | OpRename old_parent_ino old_name new_parent_ino new_name =>
      describe (bs "Rename error: ")
        (dbfs_rename old_parent_ino old_name new_parent_ino new_name 0 now s)
  | OpMkdir parent_ino name uid gid perm =>
      describe (bs "Mkdir error: ")
        (dbfs_create parent_ino name uid gid now
           (Perm.from_bits_truncate (Z.lor perm Perm.S_IFDIR)) None None s)
  | OpTruncate ino length =>
      describe (bs "Truncate error: ") (dbfs_truncate ino length now s)
  end.

(** ** The log *)

Record WalEntry := MkEntry { txn_id : Z; operation : TransactionOperation }.

(** [serde_json::to_vec] and [from_slice]. *)
Class EntryCodec := {
  entry_encode : WalEntry -> bytes + bytes;
  entry_decode : bytes -> option WalEntry;
  entry_decode_encode : forall e v, entry_encode e = inr v -> entry_decode v = Some e }.

(** The error is a message; [read] returns the filled buffer. *)
Class WalStorage (S : Type) := {
  wal_write : S -> Z -> bytes -> (bytes + unit) * S;
  wal_read : S -> Z -> bytes -> bytes + bytes;
  wal_truncate : S -> Z -> (bytes + unit) * S;
  wal_flush : S -> bytes + unit }.

Record WriteAheadLog (S : Type) := MkWal {
  entries : list WalEntry; storage : option S; next_offset : Z }.
Arguments MkWal {S} entries storage next_offset.
Arguments entries {S} w.
Arguments storage {S} w.
Arguments next_offset {S} w.

(** [resize(end, 0)] when the storage is shorter, and the copy. *)
Definition file_write_at (data : bytes) (offset : Z) (v : bytes) : bytes :=
  splice (data ++ replicate (Z.to_nat (offset + zlen v) - length data) Byte.x00) offset v.

(** A file: [wal_data] is what it holds. *)
Class WalStorageLaws (S : Type) `{WalStorage S} := {
  wal_data : S -> bytes;
  wal_write_ok : forall s offset v, 0 <= offset ->
    exists s', wal_write s offset v = (inr tt, s') /\
      wal_data s' = file_write_at (wal_data s) offset v;
  wal_read_ok : forall s offset v, 0 <= offset -> offset + zlen v <= zlen (wal_data s) ->
    wal_read s offset v =
    inr (take (length v) (drop (Z.to_nat offset) (wal_data s)));
  wal_read_end : forall s offset v, 0 <= offset -> zlen (wal_data s) < offset + zlen v ->
    exists msg, wal_read s offset v = inl msg;
  wal_truncate_ok : forall s n, 0 <= n ->
    exists s', wal_truncate s n = (inr tt, s') /\
      wal_data s' = take (Z.to_nat n) (wal_data s);
  wal_flush_ok : forall s, wal_flush s = inr tt }.

(** [MockStorage]. *)
Definition MockStorage : Type := bytes.

#[export] Instance mock_storage : WalStorage MockStorage := {
  wal_write := fun s offset v => (inr tt, file_write_at s offset v);
  wal_read := fun s offset v =>
    if zlen s <? offset + zlen v then inl (bs "Read out of bounds")
    else inr (take (length v) (drop (Z.to_nat offset) s));
  wal_truncate := fun s n => (inr tt, take (Z.to_nat n) s);
  wal_flush := fun _ => inr tt }.

#[export] Instance mock_storage_laws : WalStorageLaws MockStorage.
Proof.
  refine {| wal_data := fun s : MockStorage => s |}.
  - intros s offset v _. by eexists.
  - intros s offset v Ho Hle. cbn. by rewrite Zltb_f.
  - intros s offset v Ho Hlt. cbn. rewrite Zltb_t by done. by eexists.
  - intros s n _. by eexists.
  - done.
Defined.

Definition MAX_ENTRY : Z := 1024 * 1024.

Section ops.
Context {S : Type} `{WalStorage S, EntryCodec}.
Abbreviation Wal := (WriteAheadLog S).

Definition wal_new : Wal := MkWal [] None 0.
Definition set_storage (st : S) (w : Wal) : Wal := MkWal (entries w) (Some st) (next_offset w).

(** [append]: the offset moves after each of the two writes. *)
Definition append (txn_id : Z) (op : TransactionOperation) (w : Wal) : (bytes + unit) * Wal :=
  let entry := MkEntry txn_id op in
  match entry_encode entry with
  | inl msg => (inl msg, w)
  | inr data =>
      match storage w with
      | None => (inr tt, MkWal (entries w ++ [entry]) None (next_offset w))
      | Some st =>
          let size_bytes := to_le 4 (w32 (zlen data)) in
          match wal_write st (next_offset w) size_bytes with
          | (inl msg, st) => (inl msg, MkWal (entries w) (Some st) (next_offset w))
          | (inr _, st) =>
              let offset := w64 (next_offset w + 4) in
              match wal_write st offset data with
              | (inl msg, st) => (inl msg, MkWal (entries w) (Some st) offset)
              | (inr _, st) =>
                  (inr tt, MkWal (entries w ++ [entry]) (Some st) (w64 (offset + zlen data)))
              end
          end
      end
  end.

Definition flush (w : Wal) : bytes + unit :=
  match storage w with Some st => wal_flush st | None => inr tt end.

(** The [loop] of [recover]; [fuel] bounds its rounds, [None] means that it
    has not ended. *)
Fixpoint recover_loop (fuel : nat) (st : S) (offset : Z) (recovered : list WalEntry) :
  option (list WalEntry * Z) :=
  match fuel with
  | O => None
  | Datatypes.S fuel =>
      match wal_read st offset (replicate 4 Byte.x00) with
      | inl _ => Some (recovered, offset)
      | inr size_buf =>
          let size := from_le size_buf in
          if (size =? 0) || (MAX_ENTRY <? size) then Some (recovered, offset)
          else
            let offset := w64 (offset + 4) in
            match wal_read st offset (replicate (Z.to_nat size) Byte.x00) with
            | inl _ => Some (recovered, offset)
            | inr data =>
                recover_loop fuel st (w64 (offset + size))
                  (match entry_decode data with
                   | Some entry => recovered ++ [entry]
                   | None => recovered
                   end)
            end
      end
  end.

Definition recover (fuel : nat) (w : Wal) : option (list WalEntry * Wal) :=
  match storage w with
  | None => Some ([], MkWal (entries w) None 0)
  | Some st =>
      '(recovered, offset) ← recover_loop fuel st 0 [];
      Some (recovered, MkWal (entries w) (Some st) offset)
  end.

Definition checkpoint (w : Wal) : (bytes + unit) * Wal :=
  match storage w with
  | None => (inr tt, w)
  | Some st =>
      match wal_truncate st 0 with
      | (inl msg, st) => (inl msg, MkWal (entries w) (Some st) (next_offset w))
      | (inr _, st) => (inr tt, MkWal (entries w) (Some st) 0)
      end
  end.

(** [clear_txn]: the error of the checkpoint is only logged. *)
Definition clear_txn (id : Z) (w : Wal) : Wal :=
  let kept := filter (fun e => txn_id e <> id) (entries w) in
  let w := MkWal kept (storage w) (next_offset w) in
  match kept with [] => (checkpoint w).2 | _ => w end.
End ops.

(** ** What the storage holds *)

Definition frame (data : bytes) : bytes := to_le 4 (w32 (zlen data)) ++ data.
Definition frames (ds : list bytes) : bytes := ds ≫= frame.

(** The lengths [recover] accepts. *)
Definition readable (data : bytes) : Prop := 0 < zlen data <= MAX_ENTRY.

Lemma zlen_frame d : zlen (frame d) = 4 + zlen d.
Proof. unfold frame, zlen. lens. Qed.

Lemma frames_app ds ds' : frames (ds ++ ds') = frames ds ++ frames ds'.
Proof. apply bind_app. Qed.

Lemma zlen_frames_cons d ds : zlen (frames (d :: ds)) = 4 + zlen d + zlen (frames ds).
Proof. unfold frames. cbn [mbind list_bind]. by rewrite zlen_app, zlen_frame. Qed.

(** A read in the middle of what is stored. *)
Section facts.
Context {S : Type} `{WalStorageLaws S, EntryCodec}.
Implicit Types (st : S).

Lemma read_part st pre v rest buf :
  wal_data st = pre ++ v ++ rest -> length buf = length v ->
  wal_read st (zlen pre) buf = inr v.
Proof.
  intros E Hb. rewrite wal_read_ok; rewrite ?E.
  - f_equal. rewrite drop_app_ge by (unfold zlen; lia).
    replace (_ - _)%nat with 0%nat by (unfold zlen; lia).
    rewrite drop_0, Hb. by rewrite take_app_length.
  - unfold zlen. lia.
  - rewrite !zlen_app. pose proof (zlen_nonneg rest). unfold zlen in *. lia.
Qed.

Lemma read_short st pre v buf :
  wal_data st = pre ++ v -> (length v < length buf)%nat ->
  exists msg, wal_read st (zlen pre) buf = inl msg.
Proof.
  intros E Hb. apply wal_read_end; [unfold zlen; lia|]. rewrite E, zlen_app. unfold zlen. lia.
Qed.

Lemma frame_size (d : bytes) : zlen d < 2 ^ 32 -> from_le (to_le 4 (w32 (zlen d))) = zlen d.
Proof.
  intros Hd. pose proof (zlen_nonneg d). rewrite from_to_le.
  rewrite w32_small by (unfold is_u32; lia). by apply Z.mod_small.
Qed.

(** One round on a whole frame. *)
Lemma recover_frame fuel st pre d e rest acc :
  wal_data st = pre ++ frame d ++ rest -> zlen (wal_data st) < 2 ^ 64 -> readable d ->
  entry_encode e = inr d ->
  recover_loop (Datatypes.S fuel) st (zlen pre) acc =
  recover_loop fuel st (zlen (pre ++ frame d)) (acc ++ [e]).
Proof.
  intros E HU Hr He. cbn [recover_loop]. unfold frame in E.
  pose proof Hr as [Hr1 Hr2]. unfold MAX_ENTRY in Hr2.
  rewrite (read_part st pre (to_le 4 (w32 (zlen d))) (d ++ rest))
    by (first [by rewrite E, <- ?app_assoc|by rewrite length_replicate, length_to_le]).
  rewrite frame_size by lia. rewrite Zeqb_ne, Zltb_f by (unfold MAX_ENTRY; lia). cbn [orb].
  rewrite E, !zlen_app in HU. pose proof (zlen_nonneg rest). pose proof (zlen_nonneg pre).
  assert (H4 : zlen (to_le 4 (w32 (zlen d))) = 4) by (unfold zlen; lens).
  rewrite (w64_small (zlen pre + 4)) by (unfold is_u64; lia).
  replace (zlen pre + 4) with (zlen (pre ++ to_le 4 (w32 (zlen d)))) by (rewrite zlen_app; lia).
  rewrite (read_part st _ d rest).
  - rewrite (entry_decode_encode _ _ He). f_equal.
    rewrite w64_small by (unfold is_u64; rewrite zlen_app; lia).
    unfold frame. rewrite !zlen_app. lia.
  - rewrite E. by rewrite <- !app_assoc.
  - rewrite length_replicate. unfold zlen. lia.
Qed.

Lemma recover_frames fuel st pre es ds rest acc :
  wal_data st = pre ++ frames ds ++ rest -> zlen (wal_data st) < 2 ^ 64 ->
  Forall2 (fun e d => entry_encode e = inr d) es ds -> Forall readable ds ->
  recover_loop (length es + fuel) st (zlen pre) acc =
  recover_loop fuel st (zlen (pre ++ frames ds)) (acc ++ es).
Proof.
  intros E HU Henc. revert pre acc E. induction Henc as [|e d es ds He Henc IH];
    intros pre acc E Hr.
  { cbn. by rewrite !app_nil_r. }
  apply Forall_cons in Hr as [Hd Hr]. cbn [length Nat.add].
  change (frames (d :: ds)) with (frame d ++ frames ds) in *.
  rewrite (recover_frame _ _ _ d e (frames ds ++ rest))
    by (first [done|by rewrite E, <- !app_assoc]).
  rewrite (IH (pre ++ frame d)); [by rewrite <- !app_assoc| |done].
  rewrite E. by rewrite <- !app_assoc.
Qed.

(** The places where the loop stops: the end, a header or an entry that is cut,
    a length that is not accepted. Behind a header whose entry is missing the
    offset has moved on. *)
Lemma recover_header fuel st pre d x acc :
  wal_data st = pre ++ to_le 4 (w32 (zlen d)) ++ x -> zlen x < zlen d ->
  zlen (wal_data st) < 2 ^ 64 - 4 -> readable d ->
  recover_loop (Datatypes.S fuel) st (zlen pre) acc = Some (acc, zlen pre + 4).
Proof.
  intros E Hx HU [Hr1 Hr2]. cbn [recover_loop]. unfold MAX_ENTRY in Hr2.
  assert (H4 : length (to_le 4 (w32 (zlen d))) = 4%nat) by lens.
  rewrite (read_part st pre (to_le 4 (w32 (zlen d))) x)
    by (first [by rewrite E|by rewrite length_replicate, length_to_le]).
  rewrite frame_size by lia. rewrite Zeqb_ne, Zltb_f by (unfold MAX_ENTRY; lia). cbn [orb].
  rewrite E, !zlen_app in HU. pose proof (zlen_nonneg pre).
  rewrite (w64_small (zlen pre + 4)) by (unfold is_u64, zlen in *; lia).
  replace (zlen pre + 4) with (zlen (pre ++ to_le 4 (w32 (zlen d))))
    by (unfold zlen in *; rewrite length_app; lia).
  destruct (read_short st (pre ++ to_le 4 (w32 (zlen d))) x
    (replicate (Z.to_nat (zlen d)) Byte.x00)) as [msg ->].
  - rewrite E. by rewrite <- app_assoc.
  - unfold zlen in *. lens.
  - done.
Qed.

Lemma recover_cut fuel st pre d m acc :
  wal_data st = pre ++ take m (frame d) -> (m < length (frame d))%nat ->
  zlen (wal_data st) < 2 ^ 64 - 4 -> readable d ->
  recover_loop (Datatypes.S fuel) st (zlen pre) acc =
  Some (acc, if decide (m < 4)%nat then zlen pre else zlen pre + 4).
Proof.
  intros E Hm HU Hr. unfold frame in *.
  assert (H4 : length (to_le 4 (w32 (zlen d))) = 4%nat) by lens.
  destruct (decide (m < 4)%nat) as [Hlt|Hge].
  - cbn [recover_loop].
    destruct (read_short st pre (take m (to_le 4 (w32 (zlen d)) ++ d)) (replicate 4 Byte.x00) E)
      as [msg ->]; [lens|done].
  - rewrite take_app_ge, H4 in E by lia. apply (recover_header _ _ _ d _ _ E); [|done|done].
    rewrite length_app, H4 in Hm. unfold zlen. lens.
Qed.

Lemma recover_end fuel st pre acc :
  wal_data st = pre -> recover_loop (Datatypes.S fuel) st (zlen pre) acc = Some (acc, zlen pre).
Proof.
  intros E. cbn [recover_loop].
  destruct (read_short st pre [] (replicate 4 Byte.x00)) as [msg ->]; [by rewrite app_nil_r| |done].
  cbn. lia.
Qed.

Lemma recover_refused fuel st pre d rest acc :
  wal_data st = pre ++ frame d ++ rest -> zlen d < 2 ^ 32 -> ~ readable d ->
  recover_loop (Datatypes.S fuel) st (zlen pre) acc = Some (acc, zlen pre).
Proof.
  intros E Hd Hr. cbn [recover_loop]. unfold frame in E.
  rewrite (read_part st pre (to_le 4 (w32 (zlen d))) (d ++ rest))
    by (first [by rewrite E, <- ?app_assoc|by rewrite length_replicate, length_to_le]).
  rewrite frame_size by done. pose proof (zlen_nonneg d).
  assert (HB : (zlen d =? 0) || (MAX_ENTRY <? zlen d) = true).
  { unfold readable in Hr. apply orb_true_iff. rewrite Z.eqb_eq, Z.ltb_lt. lia. }
  by rewrite HB.
Qed.

(** The log [w] has written the entries [es], encoded as [ds], to its
    storage. *)
Record wal_holds (w : WriteAheadLog S) (es : list WalEntry) (ds : list bytes) : Prop := {
  wh_data : exists st, storage w = Some st /\ wal_data st = frames ds;
  wh_offset : next_offset w = zlen (frames ds);
  wh_codes : Forall2 (fun e d => entry_encode e = inr d) es ds;
  wh_u64 : zlen (frames ds) < 2 ^ 64 - 4 }.

Lemma file_write_over (a b v : bytes) :
  file_write_at (a ++ b) (zlen a) v = a ++ v ++ drop (length v) b.
Proof.
  unfold file_write_at, splice, zlen. rewrite Nat2Z.id, <- app_assoc.
  rewrite take_app_length. f_equal. f_equal.
  rewrite drop_app_ge by lia.
  replace (_ + _ - _)%nat with (length v) by lia.
  destruct (decide (length v <= length b)%nat).
  - replace (_ - _)%nat with 0%nat by lens. by rewrite app_nil_r.
  - rewrite !drop_ge by lens. done.
Qed.

(** An append in the middle of what is stored writes over what follows. *)
Lemma append_over w st a b id op d :
  storage w = Some st -> wal_data st = a ++ b -> next_offset w = zlen a ->
  entry_encode (MkEntry id op) = inr d -> zlen a + 4 + zlen d < 2 ^ 64 - 4 ->
  exists st', append id op w =
      (inr tt, MkWal (entries w ++ [MkEntry id op]) (Some st') (zlen (a ++ frame d))) /\
    wal_data st' = a ++ frame d ++ drop (length (frame d)) b.
Proof.
  intros Est Ed Hoff He Hfit. unfold append. rewrite He, Est, Hoff.
  pose proof (zlen_nonneg a) as H0'. pose proof (zlen_nonneg d) as Hdn.
  set (h := to_le 4 (w32 (zlen d))).
  destruct (wal_write_ok st (zlen a) h H0') as (st1 & -> & E1).
  rewrite Ed, file_write_over in E1.
  assert (H4 : zlen h = 4) by (unfold h, zlen; lens).
  rewrite (w64_small (_ + 4)) by (unfold is_u64; lia).
  replace (zlen a + 4) with (zlen (a ++ h)) by (rewrite zlen_app; lia).
  destruct (wal_write_ok st1 (zlen (a ++ h)) d (zlen_nonneg _)) as (st2 & -> & E2).
  rewrite E1, (app_assoc a), file_write_over, drop_drop in E2.
  exists st2. split.
  - do 2 f_equal. unfold frame. fold h. rewrite !zlen_app. rewrite w64_small by (unfold is_u64; lia). lia.
  - rewrite E2. unfold frame. fold h. rewrite length_app, <- !app_assoc. done.
Qed.

Lemma append_holds w es ds id op d :
  wal_holds w es ds -> entry_encode (MkEntry id op) = inr d ->
  zlen (frames ds) + 4 + zlen d < 2 ^ 64 - 4 ->
  exists w', append id op w = (inr tt, w') /\
    entries w' = entries w ++ [MkEntry id op] /\
    wal_holds w' (es ++ [MkEntry id op]) (ds ++ [d]).
Proof.
  intros [(st & Est & Ed) Hoff Hc HU] He Hfit.
  destruct (append_over w st (frames ds) [] id op d) as (st' & -> & E);
    [done|by rewrite app_nil_r|done..|].
  assert (E' : frames ds ++ frame d = frames (ds ++ [d])).
  { rewrite frames_app. unfold frames at 3. cbn [mbind list_bind]. by rewrite app_nil_r. }
  rewrite drop_nil, app_nil_r, E' in E. rewrite E'.
  eexists. split; [done|]. split; [done|]. split; cbn [storage next_offset].
  - by exists st'.
  - done.
  - apply Forall2_app; [done|]. by constructor.
  - rewrite <- E', zlen_app, zlen_frame. lia.
Qed.

(** The entries before a header that has lost its own. *)
Lemma recover_behind fuel w st es ds d x :
  storage w = Some st -> wal_data st = frames ds ++ to_le 4 (w32 (zlen d)) ++ x ->
  zlen x < zlen d -> zlen (wal_data st) < 2 ^ 64 - 4 ->
  Forall2 (fun e d => entry_encode e = inr d) es ds -> Forall readable ds -> readable d ->
  (length es < fuel)%nat ->
  recover fuel w = Some (es, MkWal (entries w) (Some st) (zlen (frames ds) + 4)).
Proof.
  intros Est Ed Hx HU Hc Hr Hd Hf. unfold recover. rewrite Est.
  replace fuel with (length es + Datatypes.S (fuel - length es - 1))%nat by lia.
  change 0 with (zlen (@nil Byte.byte)).
  rewrite (recover_frames _ st [] es ds _ [] Ed) by (done || lia). cbn [app].
  by rewrite (recover_header _ _ _ d x).
Qed.

Lemma recover_holds fuel w es ds :
  wal_holds w es ds -> Forall readable ds -> (length es < fuel)%nat ->
  recover fuel w = Some (es, w).
Proof.
  intros [(st & Est & Ed) Hoff Hc HU] Hr Hf. unfold recover. rewrite Est.
  replace fuel with (length es + Datatypes.S (fuel - length es - 1))%nat by lia.
  change 0 with (zlen (@nil Byte.byte)).
  rewrite (recover_frames _ st [] es ds []) by (rewrite ?Ed, ?app_nil_r; done || lia).
  cbn [app]. rewrite recover_end by done. cbn [mbind option_bind].
  by rewrite <- Hoff, <- Est; destruct w.
Qed.

(** What was appended to the log is recovered: with every entry of an accepted
    length, [recover] returns the entries in order and leaves the log as it was. *)
Theorem recover_returns_appended fuel w es ds :
  wal_holds w es ds -> Forall readable ds -> (length es < fuel)%nat ->
  recover fuel w = Some (es, w).
Proof. apply recover_holds. Qed.

(** An entry longer than 1 MiB can be appended, but recovery stops at it: it and the
    entries after it are lost, and the next append writes over them. *)
Lemma recover_stops_at_large fuel w es e es' ds d ds' :
  wal_holds w (es ++ e :: es') (ds ++ d :: ds') -> length es = length ds ->
  Forall readable ds -> MAX_ENTRY < zlen d < 2 ^ 32 -> (length es < fuel)%nat ->
  exists w', recover fuel w = Some (es, w') /\ next_offset w' = zlen (frames ds).
Proof.
  intros [(st & Est & Ed) Hoff Hc HU] Hl Hr Hd Hf. unfold recover. rewrite Est.
  replace fuel with (length es + Datatypes.S (fuel - length es - 1))%nat by lia.
  apply Forall2_app_inv in Hc as [Hc _]; [|done].
  rewrite frames_app in Ed. change 0 with (zlen (@nil Byte.byte)).
  rewrite (recover_frames _ st [] es ds (frames (d :: ds')));
    [|done|rewrite Ed, <- frames_app; lia|done|done].
  cbn [app]. rewrite (recover_refused _ st (frames ds) d (frames ds'));
    [|done|lia|unfold readable; lia].
  cbn [mbind option_bind]. eexists. split; [done|]. done.
Qed.

(** What is left of the frames when the storage is cut. *)
Lemma take_frames n ds :
  exists k rest, take n (frames ds) = frames (take k ds) ++ rest /\ (k <= length ds)%nat /\
    ((k = length ds /\ rest = []) \/
     exists d m, ds !! k = Some d /\ rest = take m (frame d) /\ (m < length (frame d))%nat /\
       length (frames (take k ds)) = (n - m)%nat /\ (m <= n)%nat).
Proof.
  revert n. induction ds as [|d ds IH]; intros n.
  { exists 0%nat, []. split_and!; [apply take_nil|cbn; lia|]. by left. }
  change (frames (d :: ds)) with (frame d ++ frames ds).
  destruct (decide (n < length (frame d))%nat) as [Hlt|Hge].
  - exists 0%nat, (take n (frame d)). rewrite take_app_le by lia.
    split_and!; [done|lia|]. right. exists d, n. split_and!; try done. cbn. lia.
  - destruct (IH (n - length (frame d))%nat) as (k & rest & E & Hk & Hrest).
    exists (Datatypes.S k), rest. rewrite take_app_ge by lia. rewrite E.
    cbn [take length]. change (frames (d :: take k ds)) with (frame d ++ frames (take k ds)).
    rewrite app_assoc. split_and!; [done|lia|].
    destruct Hrest as [[-> ->]|(d' & m & Hd' & -> & Hm & Hlen & Hmn)]; [by left|].
    right. exists d', m. split_and!; try done; [|lia]. rewrite length_app. lia.
Qed.

(** What is recovered of frames that were cut, and where the log goes on: after a
    header whose entry is missing the offset stays behind the header. *)
Lemma recover_torn fuel w st es ds n :
  storage w = Some st -> wal_data st = take n (frames ds) ->
  Forall2 (fun e d => entry_encode e = inr d) es ds -> Forall readable ds ->
  zlen (frames ds) < 2 ^ 64 - 4 -> (length es < fuel)%nat ->
  exists k rest off, recover fuel w = Some (take k es, MkWal (entries w) (Some st) off) /\
    (k <= length es)%nat /\ wal_data st = frames (take k ds) ++ rest /\
    ((k = length ds /\ rest = [] /\ off = zlen (frames ds)) \/
     exists d m, ds !! k = Some d /\ rest = take m (frame d) /\ (m < length (frame d))%nat /\
       length (frames (take k ds)) = (n - m)%nat /\ (m <= n)%nat /\
       off = if decide (m < 4)%nat then zlen (frames (take k ds))
             else zlen (frames (take k ds)) + 4).
Proof.
  intros Est Ed Hc Hr HU Hf. destruct (take_frames n ds) as (k & rest & E & Hk & Hrest).
  pose proof (Forall2_length _ _ _ Hc) as Hlen. rewrite E in Ed.
  assert (HB : zlen (wal_data st) < 2 ^ 64 - 4).
  { rewrite Ed, <- E. unfold zlen in *. rewrite length_take. lia. }
  assert (Hlk : length (take k es) = k) by (rewrite length_take; lia).
  replace fuel with (length (take k es) + Datatypes.S (fuel - k - 1))%nat by lia.
  assert (Hrun : recover_loop (length (take k es) + Datatypes.S (fuel - k - 1)) st 0 [] =
    recover_loop (Datatypes.S (fuel - k - 1)) st (zlen (frames (take k ds))) (take k es)).
  { change 0 with (zlen (@nil Byte.byte)).
    rewrite (recover_frames _ st [] (take k es) (take k ds) rest); [done|done|lia| |].
    - by apply Forall2_take.
    - by apply Forall_take. }
  exists k, rest. unfold recover. rewrite Est, Hrun.
  destruct Hrest as [[-> ->]|(d & m & Hd & -> & Hm & Hlm & Hmn)].
  - rewrite app_nil_r in Ed. rewrite (recover_end _ _ _ _ Ed).
    eexists. split; [done|]. split; [lia|]. split; [by rewrite app_nil_r|]. left.
    by rewrite take_ge by lia.
  - rewrite (recover_cut _ st (frames (take k ds)) d m); [|done|done|lia|].
    2: by apply (Forall_lookup_1 _ _ _ _ Hr Hd).
    eexists. split; [done|]. split; [lia|]. split; [done|]. right. by exists d, m.
Qed.

(** C25: After a crash that kept only a part of what was written to the storage,
    [recover] returns exactly the entries whose frames are whole: a prefix of those
    appended. *)
Theorem recover_after_torn_write fuel w st es ds n :
  storage w = Some st -> wal_data st = take n (frames ds) ->
  Forall2 (fun e d => entry_encode e = inr d) es ds -> Forall readable ds ->
  zlen (frames ds) < 2 ^ 64 - 4 -> (length es < fuel)%nat ->
  exists k w', recover fuel w = Some (take k es, w') /\
    (length (frames (take k ds)) <= n)%nat /\
    ((k < length ds)%nat -> (n < length (frames (take (Datatypes.S k) ds)))%nat).
Proof.
  intros Est Ed Hc Hr HU Hf.
  destruct (recover_torn fuel w st es ds n Est Ed Hc Hr HU Hf)
    as (k & rest & off & -> & Hk & E & Hrest).
  exists k. eexists. split; [done|]. rewrite E in Ed. apply (f_equal length) in Ed.
  rewrite length_app, length_take in Ed.
  destruct Hrest as [(-> & -> & _)|(d & m & Hd & -> & Hm & Hlm & Hmn & _)].
  - cbn in Ed. split; lia.
  - split; [lia|]. intros _. rewrite (take_S_r _ _ _ Hd), frames_app, length_app.
    unfold frames at 2. cbn [mbind list_bind]. rewrite app_nil_r. lia.
Qed.

(** Recovery ends on every storage, whatever it holds: each round moves on by at
    least five bytes, so more rounds than the storage has bytes are never needed. *)
Theorem recover_ends fuel w :
  (forall st, storage w = Some st ->
    zlen (wal_data st) < 2 ^ 64 - 2 ^ 33 /\ zlen (wal_data st) < Z.of_nat fuel) ->
  exists r, recover fuel w = Some r.
Proof.
  intros Hw. unfold recover. destruct (storage w) as [st|]; [|by eexists].
  destruct (Hw st eq_refl) as [HU Hf]. clear Hw.
  assert (HL : forall fuel offset acc, 0 <= offset ->
    zlen (wal_data st) - offset < Z.of_nat fuel -> offset <= zlen (wal_data st) ->
    exists r, recover_loop fuel st offset acc = Some r).
  { clear fuel Hf. induction fuel as [|fuel IH]; intros offset acc H0' Hf Hle; [lia|].
    cbn [recover_loop].
    destruct (Z.le_gt_cases (offset + 4) (zlen (wal_data st))) as [Hin|Hout].
    2: { destruct (wal_read_end st offset (replicate 4 Byte.x00)) as [msg ->];
         [done|by cbn|by eexists]. }
    rewrite wal_read_ok by (done || by cbn). cbn [length replicate].
    set (size := from_le _). destruct (_ || _); [by eexists|].
    assert (Hs : 0 <= size < 2 ^ 32).
    { unfold size, from_le. pose proof (from_be_range (rev (take 4 (drop (Z.to_nat offset)
        (wal_data st))))) as HR. unfold zlen in HR. rewrite length_rev, length_take, length_drop in HR.
      replace (4 `min` _)%nat with 4%nat in HR by (unfold zlen in *; lia). exact HR. }
    rewrite (w64_small (offset + 4)) by (unfold is_u64; lia).
    assert (Hbuf : zlen (replicate (Z.to_nat size) Byte.x00) = size) by (unfold zlen; lens).
    destruct (Z.le_gt_cases (offset + 4 + size) (zlen (wal_data st))) as [Hin2|Hout2].
    - rewrite wal_read_ok by lia. rewrite w64_small by (unfold is_u64; lia). apply IH; lia.
    - destruct (wal_read_end st (offset + 4) (replicate (Z.to_nat size) Byte.x00)) as [msg ->];
        [lia|lia|by eexists]. }
  destruct (HL fuel 0 []) as [[recovered offset] ->]; [lia|lia|apply zlen_nonneg|].
  by eexists.
Qed.
End facts.

(** ** Witnesses *)

#[export] Instance TransactionOperation_eq_dec : EqDecision TransactionOperation.
Proof. solve_decision. Defined.

#[export] Instance TransactionOperation_countable : Countable TransactionOperation.
Proof.
  refine (inj_countable'
    (fun op => match op with
     | OpWrite a b c => inl (a, b, c)
     | OpCreate a b c d e f => inr (inl (a, b, c, d, e, f))
     | OpDelete a b => inr (inr (inl (a, b)))
     | OpRename a b c d => inr (inr (inr (inl (a, b, c, d))))
     | OpMkdir a b c d e => inr (inr (inr (inr (inl (a, b, c, d, e)))))
     | OpTruncate a b => inr (inr (inr (inr (inr (a, b)))))
     end)
    (fun x => match x with
     | inl (a, b, c) => OpWrite a b c
     | inr (inl (a, b, c, d, e, f)) => OpCreate a b c d e f
     | inr (inr (inl (a, b))) => OpDelete a b
     | inr (inr (inr (inl (a, b, c, d)))) => OpRename a b c d
     | inr (inr (inr (inr (inl (a, b, c, d, e))))) => OpMkdir a b c d e
     | inr (inr (inr (inr (inr (a, b))))) => OpTruncate a b
     end) _). by intros [].
Defined.

#[export] Instance WalEntry_eq_dec : EqDecision WalEntry.
Proof. solve_decision. Defined.

#[export] Instance WalEntry_countable : Countable WalEntry.
Proof.
  refine (inj_countable' (fun e => (txn_id e, operation e)) (fun '(a, b) => MkEntry a b) _).
  by intros [].
Defined.

#[export] Instance plain_entry : EntryCodec.
Proof.
  refine {| entry_encode := fun e => inr (plain_encode e); entry_decode := plain_decode |}.
  intros e v [= <-]. apply plain_decode_encode.
Defined.

Definition sample_ops : list TransactionOperation := [OpWrite 1 0 (bs "x"); OpTruncate 1 0].
Definition sample_entries : list WalEntry := MkEntry 1 <$> sample_ops.
Definition sample_codes : list bytes := plain_encode <$> sample_entries.

Definition written_wal : WriteAheadLog MockStorage :=
  MkWal sample_entries (Some (frames sample_codes)) (zlen (frames sample_codes)).

Lemma sample_readable : Forall readable sample_codes.
Proof. repeat constructor; by_eval. Qed.

Lemma sample_encoded :
  Forall2 (fun e d => entry_encode e = inr d) sample_entries sample_codes.
Proof. repeat constructor. Qed.

Lemma written_wal_holds : wal_holds written_wal sample_entries sample_codes.
Proof.
  split; [by eexists|done|apply sample_encoded|by_eval].
Qed.

Lemma recover_returns_appended_witness :
  recover 3 written_wal = Some (sample_entries, written_wal).
Proof.
  refine (recover_returns_appended 3 written_wal sample_entries sample_codes _ _ _).
  - apply written_wal_holds.
  - apply sample_readable.
  - by_eval.
Defined.

(** The storage after a crash that lost the last three bytes. *)
Definition torn_length : nat := length (frames sample_codes) - 3.
Definition torn_wal : WriteAheadLog MockStorage :=
  MkWal [] (Some (take torn_length (frames sample_codes))) 0.

Lemma recover_after_torn_write_witness :
  exists k w', recover 3 torn_wal = Some (take k sample_entries, w') /\
    ((k < 2)%nat ->
     (torn_length < length (frames (take (S k) sample_codes)))%nat).
Proof.
  destruct (recover_after_torn_write 3 torn_wal (take torn_length (frames sample_codes))
    sample_entries sample_codes torn_length) as (k & w' & E & _ & Hk).
  - reflexivity.
  - reflexivity.
  - apply sample_encoded.
  - apply sample_readable.
  - by_eval.
  - by_eval.
  - exists k, w'. split; [exact E|exact Hk].
Defined.

Lemma recover_ends_witness :
  exists r, recover 100 (MkWal [] (Some (bs "not a log" : MockStorage)) 0) = Some r.
Proof.
  refine (recover_ends 100 (MkWal [] (Some (bs "not a log" : MockStorage)) 0) _).
  intros st [= <-]. split; by_eval.
Defined.
