(* ===== verification/Transaction.v ===== *)
(** * Transactions over the write-ahead log: src/src/transaction.rs

    Operations are recorded in memory, written to the log and flushed, and
    only then applied to the file system below; replaying the log after a
    crash applies them again. The locks serialise the calls, so each is one
    step here. *)

From S2P Require Import Prelude Bytes Common Wal.

Record Transaction := MkTxn { t_id : Z; t_ops : list TransactionOperation }.

Definition record_op (op : TransactionOperation) (t : Transaction) : Transaction :=
  MkTxn (t_id t) (t_ops t ++ [op]).

(** The manager with the file system its operations are applied to. *)
Record Manager (S F : Type) := MkManager {
  tm_wal : WriteAheadLog S; tm_next : Z; tm_fs : F }.
Arguments MkManager {S F} tm_wal tm_next tm_fs.
Arguments tm_wal {S F} m.
Arguments tm_next {S F} m.
Arguments tm_fs {S F} m.

Section ops.
Context {S F : Type} `{WalStorage S, EntryCodec, BottomFs F}.
Abbreviation TM := (Manager S F).

(** [TransactionManager::new], over a file system. *)
Definition manager_new (fs : F) : TM := MkManager wal_new 1 fs.
Definition set_wal_storage (st : S) (m : TM) : TM :=
  MkManager (set_storage st (tm_wal m)) (tm_next m) (tm_fs m).

Definition begin_transaction (m : TM) : Transaction * TM :=
  (MkTxn (tm_next m) [], MkManager (tm_wal m) (w64 (tm_next m + 1)) (tm_fs m)).

(** [for op in &txn.ops { wal.append(txn.id, op.clone())?; }]. *)
Fixpoint append_all (id : Z) (ops : list TransactionOperation) (w : WriteAheadLog S) :
  (bytes + unit) * WriteAheadLog S :=
  match ops with
  | [] => (inr tt, w)
  | op :: ops =>
      match append id op w with
      | (inl msg, w) => (inl msg, w)
      | (inr _, w) => append_all id ops w
      end
  end.

(** [for op in ops { op.apply()?; }]. *)
Fixpoint apply_all (ops : list TransactionOperation) (s : F) : (bytes + unit) * F :=
  match ops with
  | [] => (inr tt, s)
  | op :: ops =>
      match apply op s with
      | (inl msg, s) => (inl msg, s)
      | (inr _, s) => apply_all ops s
      end
  end.

(** The part before the atomic point. *)
Definition write_ahead (txn : Transaction) (w : WriteAheadLog S) :
  (bytes + unit) * WriteAheadLog S :=
  match append_all (t_id txn) (t_ops txn) w with
  | (inl msg, w) => (inl msg, w)
  | (inr _, w) => (flush w, w)
  end.

Definition commit_into_wal_only (txn : Transaction) (m : TM) : (bytes + unit) * TM :=
  let '(r, w) := write_ahead txn (tm_wal m) in (r, MkManager w (tm_next m) (tm_fs m)).

Definition commit (txn : Transaction) (m : TM) : (bytes + unit) * TM :=
  match write_ahead txn (tm_wal m) with
  | (inl msg, w) => (inl msg, MkManager w (tm_next m) (tm_fs m))
  | (inr _, w) =>
      match apply_all (t_ops txn) (tm_fs m) with
      | (inl msg, s) => (inl msg, MkManager w (tm_next m) s)
      | (inr _, s) => (inr tt, MkManager (clear_txn (t_id txn) w) (tm_next m) s)
      end
  end.

(** [replay]; [None] when [fuel] does not suffice for the log. *)
Definition replay (fuel : nat) (m : TM) : option ((bytes + unit) * TM) :=
  '(recovered, w) ← recover fuel (tm_wal m);
  let '(r, s) := apply_all (operation <$> recovered) (tm_fs m) in
  Some (r, MkManager w (tm_next m) s).

(** [rollback] drops the transaction. *)
Definition rollback (_txn : Transaction) (m : TM) : TM := m.
End ops.

Section facts.
Context {S F : Type} `{WalStorageLaws S, EntryCodec, BottomFs F}.
Implicit Types (m : Manager S F) (w : WriteAheadLog S).

(** The log is written ahead: when a commit has changed the file system below, all
    operations of the transaction had been appended and the log flushed before. *)
Theorem applied_only_after_log txn m :
  tm_fs (commit txn m).2 <> tm_fs m ->
  exists w, write_ahead txn (tm_wal m) = (inr tt, w) /\
    commit_into_wal_only txn m = (inr tt, MkManager w (tm_next m) (tm_fs m)).
Proof.
  unfold commit, commit_into_wal_only. destruct (write_ahead txn (tm_wal m)) as [[msg|[]] w].
  - intros Hne. by destruct Hne.
  - intros _. by exists w.
Qed.

Lemma append_all_holds id ops codes w es ds :
  wal_holds w es ds ->
  Forall2 (fun op d => entry_encode (MkEntry id op) = inr d) ops codes ->
  zlen (frames ds) + zlen (frames codes) < 2 ^ 64 - 4 ->
  exists w', append_all id ops w = (inr tt, w') /\
    entries w' = entries w ++ (MkEntry id <$> ops) /\
    wal_holds w' (es ++ (MkEntry id <$> ops)) (ds ++ codes).
Proof.
  intros Hw Hc. revert w es ds Hw. induction Hc as [|op d ops codes Hd Hc IH];
    intros w es ds Hw Hfit.
  { exists w. cbn. by rewrite !app_nil_r. }
  cbn [append_all fmap list_fmap]. rewrite zlen_frames_cons in Hfit.
  pose proof (zlen_nonneg (frames codes)).
  destruct (append_holds w es ds id op d Hw Hd ltac:(lia)) as (w1 & -> & E1 & Hw1).
  destruct (IH w1 _ _ Hw1) as (w2 & -> & E2 & Hw2).
  { rewrite frames_app, zlen_app, zlen_frames_cons. change (zlen (frames [])) with 0. lia. }
  exists w2. split; [done|]. rewrite E2, E1, <- !app_assoc. split; [done|].
  by rewrite <- !app_assoc in Hw2.
Qed.

Lemma write_ahead_holds txn codes w :
  wal_holds w [] [] ->
  Forall2 (fun op d => entry_encode (MkEntry (t_id txn) op) = inr d) (t_ops txn) codes ->
  zlen (frames codes) < 2 ^ 64 - 4 ->
  exists w', write_ahead txn w = (inr tt, w') /\
    entries w' = entries w ++ (MkEntry (t_id txn) <$> t_ops txn) /\
    wal_holds w' (MkEntry (t_id txn) <$> t_ops txn) codes.
Proof.
  intros Hw Hc Hfit.
  destruct (append_all_holds _ _ _ w [] [] Hw Hc) as (w' & E & Ee & Hw').
  { change (zlen (frames [])) with 0. lia. }
  exists w'. unfold write_ahead. rewrite E. split; [|done].
  destruct (wh_data _ _ _ Hw') as (st & Est & _). unfold flush. rewrite Est.
  by rewrite wal_flush_ok.
Qed.

(** The manager that starts again on the storage a crash left. *)
Definition restarted (m : Manager S F) : Manager S F :=
  MkManager (MkWal [] (storage (tm_wal m)) 0) 1 (tm_fs m).

Lemma replay_holds fuel m es ds :
  wal_holds (tm_wal m) es ds -> Forall readable ds -> (length es < fuel)%nat ->
  exists m', replay fuel (restarted m) = Some ((apply_all (operation <$> es) (tm_fs m)).1, m') /\
    tm_fs m' = (apply_all (operation <$> es) (tm_fs m)).2.
Proof.
  intros [(st & Est & Ed) Hoff Hc HU] Hr Hf. unfold replay, restarted. cbn [tm_wal tm_fs].
  assert (HE : exists w, recover fuel (MkWal [] (storage (tm_wal m)) 0) = Some (es, w)).
  { pose proof (recover_holds fuel (MkWal [] (Some st) (zlen (frames ds))) es ds) as E.
    rewrite Est. unfold recover in *. cbn [storage entries] in *.
    assert (Hh : wal_holds (MkWal [] (Some st) (zlen (frames ds))) es ds)
      by (split; [by exists st|done|done|done]).
    specialize (E Hh Hr Hf). destruct (recover_loop fuel st 0 []) as [[r o]|]; [|done].
    cbn [mbind option_bind] in *. injection E as -> _. by eexists. }
  destruct HE as [w ->]. cbn [mbind option_bind].
  destruct (apply_all _ _) as [r s]. eexists. by split.
Qed.

(** A log whose entries are all of one transaction is emptied. *)
Lemma clear_own id ops w es ds :
  wal_holds w es ds -> entries w = MkEntry id <$> ops ->
  wal_holds (clear_txn id w) [] [] /\ entries (clear_txn id w) = [].
Proof.
  intros Hw Ee. destruct (wh_data _ _ _ Hw) as (st & Est & Ed).
  assert (Hk : filter (fun e => txn_id e <> id) (entries w) = []).
  { apply filter_none. rewrite Ee. intros e (op & -> & _)%list_elem_of_fmap. cbn. tauto. }
  unfold clear_txn. rewrite Hk. unfold checkpoint. cbn [storage]. rewrite Est.
  destruct (wal_truncate_ok st 0 ltac:(lia)) as (st' & -> & E'). cbn [snd]. split; [|done].
  split; cbn; [|done|constructor|done]. exists st'. split; [done|].
  rewrite E'. by change (Z.to_nat 0) with 0%nat.
Qed.

(** C13: A crash between the log and the file system is repaired: from an empty log,
    committing a transaction, and writing it to the log only, restarting on the storage
    and replaying it, return the same result and leave the file system below in the same
    state; a commit that succeeds leaves the log empty again. *)
Theorem replay_completes_commit fuel txn m codes :
  wal_holds (tm_wal m) [] [] -> entries (tm_wal m) = [] ->
  Forall2 (fun op d => entry_encode (MkEntry (t_id txn) op) = inr d) (t_ops txn) codes ->
  Forall readable codes -> zlen (frames codes) < 2 ^ 64 - 4 ->
  (length (t_ops txn) < fuel)%nat ->
  exists r m1 m2 m3,
    commit txn m = (r, m1) /\
    commit_into_wal_only txn m = (inr tt, m2) /\ tm_fs m2 = tm_fs m /\
    replay fuel (restarted m2) = Some (r, m3) /\ tm_fs m3 = tm_fs m1 /\
    (r = inr tt -> wal_holds (tm_wal m1) [] [] /\ entries (tm_wal m1) = []).
Proof.
  intros Hw He Hc Hr Hfit Hf.
  destruct (write_ahead_holds txn codes (tm_wal m) Hw Hc Hfit) as (w & E & Ew & Hw').
  rewrite He in Ew. cbn [app] in Ew.
  set (m2 := MkManager w (tm_next m) (tm_fs m)).
  destruct (replay_holds fuel m2 _ _ Hw' Hr) as (m3 & E3 & Hfs).
  { by rewrite length_fmap. }
  assert (HO : operation <$> (MkEntry (t_id txn) <$> t_ops txn) = t_ops txn).
  { rewrite <- list_fmap_compose. apply list_fmap_id. }
  rewrite HO in E3, Hfs. cbn [m2 tm_fs] in E3, Hfs. unfold commit, commit_into_wal_only.
  rewrite E. destruct (apply_all (t_ops txn) (tm_fs m)) as [[msg|[]] s] eqn:Ea;
    cbn [fst snd] in *.
  - exists (inl msg). eexists _, m2, m3. split_and!; try done.
  - exists (inr tt). eexists _, m2, m3. split_and!; try done.
    intros _. cbn [tm_wal]. by apply (clear_own _ (t_ops txn) w _ _ Hw').
Qed.
End facts.

(** ** Witnesses *)

(** A file system below that notes the inodes written and truncated and has
    no names. *)
#[export] Instance note_fs : BottomFs (list Z) := {
  dbfs_write := fun ino _ _ s => (inr tt, s ++ [ino]);
  dbfs_create := fun _ _ _ _ _ _ _ _ s => (inl NoSys, s);
  dbfs_unlink := fun _ _ _ _ _ _ s => (inl NotFound, s);
  dbfs_rename := fun _ _ _ _ _ _ s => (inl NotFound, s);
  dbfs_truncate := fun ino _ _ s => (inr tt, s ++ [ino]) }.

Definition fresh_manager : Manager MockStorage (list Z) :=
  set_wal_storage ([] : MockStorage) (manager_new []).

Definition sample_txn : Transaction := MkTxn 1 sample_ops.

Lemma fresh_holds : wal_holds (tm_wal fresh_manager) [] [].
Proof. split; [by eexists|done|constructor|by_eval]. Qed.

Lemma replay_completes_commit_witness :
  exists r m1 m2 m3, commit sample_txn fresh_manager = (r, m1) /\
    commit_into_wal_only sample_txn fresh_manager = (inr tt, m2) /\
    replay 3 (restarted m2) = Some (r, m3) /\ tm_fs m3 = tm_fs m1.
Proof.
  destruct (replay_completes_commit 3 sample_txn fresh_manager sample_codes)
    as (r & m1 & m2 & m3 & E1 & E2 & _ & E3 & E4 & _).
  - apply fresh_holds.
  - reflexivity.
  - repeat constructor.
  - apply sample_readable.
  - by_eval.
  - by_eval.
  - exists r, m1, m2, m3. split; [exact E1|]. split; [exact E2|]. split; [exact E3|exact E4].
Defined.

Lemma applied_only_after_log_witness :
  exists w, commit_into_wal_only sample_txn fresh_manager =
    (inr tt, MkManager w 1 []).
Proof.
  destruct (applied_only_after_log sample_txn fresh_manager) as (w & _ & E).
  - vm_compute. discriminate.
  - exists w. exact E.
Defined.
