(* ===== verification/Crash.v ===== *)
(** * Crashes of a commit: src/src/transaction.rs over src/src/wal.rs

    A commit as the calls it makes, one step each, with what a crash between
    two of them, or in the middle of a write to the log, leaves behind: the
    file system below as the operations applied so far left it, and of the
    log what was flushed, or any prefix of what was written before the flush.
    A manager started on that disk replays the log; the theorems say what the
    replay makes of it. *)

From S2P Require Import Prelude Bytes Common Wal Transaction.

(** ** The steps of a commit *)

Inductive Stage :=
  | Logging (todo : list TransactionOperation)
  | Applying (todo : list TransactionOperation)
  | Finished (r : bytes + unit).

Record Config (S F : Type) := MkConfig {
  c_stage : Stage; c_wal : WriteAheadLog S; c_fs : F }.
Arguments MkConfig {S F} c_stage c_wal c_fs.
Arguments c_stage {S F} c.
Arguments c_wal {S F} c.
Arguments c_fs {S F} c.

Section machine.
Context {S F : Type} `{WalStorage S, EntryCodec, BottomFs F}.
Variable txn : Transaction.

(** One call of [commit]: an append, the flush, an operation, the clearing of
    the log; a call that fails ends it. *)
Inductive commit_step : Config S F -> Config S F -> Prop :=
  | step_append op todo w w' s :
      append (t_id txn) op w = (inr tt, w') ->
      commit_step (MkConfig (Logging (op :: todo)) w s) (MkConfig (Logging todo) w' s)
  | step_append_fails op todo w w' s msg :
      append (t_id txn) op w = (inl msg, w') ->
      commit_step (MkConfig (Logging (op :: todo)) w s) (MkConfig (Finished (inl msg)) w' s)
  | step_flush w s :
      flush w = inr tt ->
      commit_step (MkConfig (Logging []) w s) (MkConfig (Applying (t_ops txn)) w s)
  | step_flush_fails w s msg :
      flush w = inl msg ->
      commit_step (MkConfig (Logging []) w s) (MkConfig (Finished (inl msg)) w s)
  | step_apply op todo w s s' :
      apply op s = (inr tt, s') ->
      commit_step (MkConfig (Applying (op :: todo)) w s) (MkConfig (Applying todo) w s')
  | step_apply_fails op todo w s s' msg :
      apply op s = (inl msg, s') ->
      commit_step (MkConfig (Applying (op :: todo)) w s) (MkConfig (Finished (inl msg)) w s')
  | step_clear w s :
      commit_step (MkConfig (Applying []) w s)
        (MkConfig (Finished (inr tt)) (clear_txn (t_id txn) w) s).

Definition commit_start (m : Manager S F) : Config S F :=
  MkConfig (Logging (t_ops txn)) (tm_wal m) (tm_fs m).

Definition commit_reaches (m : Manager S F) (c : Config S F) : Prop :=
  rtc commit_step (commit_start m) c.

Lemma logging_runs todo w s r w' :
  append_all (t_id txn) todo w = (r, w') ->
  rtc commit_step (MkConfig (Logging todo) w s)
    (MkConfig (match r with inl msg => Finished (inl msg) | inr _ => Logging [] end) w' s).
Proof.
  revert w. induction todo as [|op todo IH]; intros w E; cbn [append_all] in E.
  { injection E as <- <-. done. }
  destruct (append (t_id txn) op w) as [[msg|[]] w1] eqn:Ea.
  - injection E as <- <-. apply rtc_once. by apply step_append_fails.
  - apply (rtc_l _ _ _ _ (step_append _ _ _ _ _ Ea)). by apply IH.
Qed.

Lemma applying_runs todo w s r s' :
  apply_all todo s = (r, s') ->
  rtc commit_step (MkConfig (Applying todo) w s)
    (MkConfig (match r with inl msg => Finished (inl msg) | inr _ => Applying [] end) w s').
Proof.
  revert s. induction todo as [|op todo IH]; intros s E; cbn [apply_all] in E.
  { injection E as <- <-. done. }
  destruct (apply op s) as [[msg|[]] s1] eqn:Ea.
  - injection E as <- <-. apply rtc_once. by eapply step_apply_fails.
  - eapply rtc_l; [by apply step_apply|]. by apply IH.
Qed.

Lemma logging_reaches l1 l2 w s w' :
  append_all (t_id txn) l1 w = (inr tt, w') ->
  rtc commit_step (MkConfig (Logging (l1 ++ l2)) w s) (MkConfig (Logging l2) w' s).
Proof.
  revert w. induction l1 as [|op l1 IH]; intros w E; cbn [append_all app] in *.
  { by injection E as <-. }
  destruct (append (t_id txn) op w) as [[msg|[]] w1] eqn:Ea; [done|].
  apply (rtc_l _ _ _ _ (step_append _ _ _ _ _ Ea)). by apply IH.
Qed.

(** The steps are the commit: it ends where they end. *)
Theorem commit_is_its_steps m :
  commit_reaches m
    (MkConfig (Finished (commit txn m).1) (tm_wal (commit txn m).2) (tm_fs (commit txn m).2)).
Proof.
  unfold commit_reaches, commit_start, commit, write_ahead.
  destruct (append_all (t_id txn) (t_ops txn) (tm_wal m)) as [[msg|[]] w] eqn:Ea;
    pose proof (logging_runs _ _ (tm_fs m) _ _ Ea) as HL; [exact HL|].
  etrans; [exact HL|].
  destruct (flush w) as [msg|[]] eqn:Ef.
  { apply rtc_once. by apply step_flush_fails. }
  eapply rtc_l; [by apply step_flush|].
  destruct (apply_all (t_ops txn) (tm_fs m)) as [[msg|[]] s] eqn:Es;
    pose proof (applying_runs _ w _ _ _ Es) as HA; [exact HA|].
  eapply rtc_r; [exact HA|]. apply step_clear.
Qed.

Lemma commit_step_det c c1 c2 : commit_step c c1 -> commit_step c c2 -> c1 = c2.
Proof. intros H1' H2'. inversion H1'; subst; inversion H2'; subst; congruence. Qed.

Lemma finished_stuck r w s c : ~ commit_step (MkConfig (Finished r) w s) c.
Proof. by inversion 1. Qed.
End machine.

(** ** What a crash leaves *)

Section crash.
Context {S F : Type} `{WalStorageLaws S, EntryCodec, BottomFs F}.
Implicit Types (m : Manager S F) (c : Config S F) (w : WriteAheadLog S).

(** The disk after a crash of the commit of [txn] by [m]. Before the flush the log
    may hold any prefix of what was written: a crash in the middle of an append is
    the configuration after it with a prefix that cuts the frame. The truncation of
    [step_clear] is not flushed: the log may be empty, or still what it was when
    the last operation had been applied. *)
Inductive crash_leaves (txn : Transaction) m c : S -> F -> Prop :=
  | leaves_prefix st st' n :
      storage (c_wal c) = Some st -> wal_data st' = take n (wal_data st) ->
      match c_stage c with Logging _ => True | _ => (length (wal_data st) <= n)%nat end ->
      crash_leaves txn m c st' (c_fs c)
  | leaves_uncleared w st st' :
      commit_reaches txn m (MkConfig (Applying []) w (c_fs c)) ->
      c = MkConfig (Finished (inr tt)) (clear_txn (t_id txn) w) (c_fs c) ->
      storage w = Some st -> wal_data st' = wal_data st ->
      crash_leaves txn m c st' (c_fs c).

(** A manager that starts on the disk: [new], over the file system, and
    [set_wal_storage]. *)
Definition booted (st : S) (s : F) : Manager S F := set_wal_storage st (manager_new s).

Lemma apply_all_app l1 l2 (s : F) :
  apply_all (l1 ++ l2) s =
  match apply_all l1 s with (inl msg, s) => (inl msg, s) | (inr _, s) => apply_all l2 s end.
Proof.
  revert s. induction l1 as [|op l1 IH]; intros s; [done|]. cbn [apply_all app].
  by destruct (apply op s) as [[msg|[]] s'].
Qed.

(** What [replay] makes of a log that was cut. *)
Lemma replay_torn fuel st (s : F) es ds n :
  wal_data st = take n (frames ds) ->
  Forall2 (fun e d => entry_encode e = inr d) es ds -> Forall readable ds ->
  zlen (frames ds) < 2 ^ 64 - 4 -> (length es < fuel)%nat ->
  exists k r m', replay fuel (booted st s) = Some (r, m') /\ (k <= length es)%nat /\
    (r, tm_fs m') = apply_all (operation <$> take k es) s /\
    storage (tm_wal m') = Some st /\ ((length (frames ds) <= n)%nat -> k = length es).
Proof.
  intros Ed Hc Hr HU Hf. unfold replay, booted, set_wal_storage, manager_new. cbn [tm_wal tm_next tm_fs].
  destruct (recover_torn fuel (set_storage st wal_new) st es ds n eq_refl Ed Hc Hr HU Hf)
    as (k & rest & off & -> & Hk & E & Hrest). cbn [mbind option_bind].
  destruct (apply_all (operation <$> take k es) s) as [r s'] eqn:Ea.
  exists k, r. eexists. split; [done|]. split; [done|]. split; [by rewrite Ea|].
  split; [done|]. intros Hn. pose proof (Forall2_length _ _ _ Hc).
  destruct Hrest as [(-> & _)|(d & j & Hd & _ & Hj & Hl & _)]; [done|].
  assert (length (frames (take k ds)) + length (frame d) <= length (frames ds))%nat; [|lia].
  rewrite <- (take_drop_middle ds k d Hd) at 2. rewrite frames_app, length_app.
  change (frames (d :: drop (Datatypes.S k) ds)) with (frame d ++ frames (drop (Datatypes.S k) ds)).
  rewrite length_app. lia.
Qed.

Lemma operations_of id (ops : list TransactionOperation) :
  operation <$> (MkEntry id <$> ops) = ops.
Proof. rewrite <- list_fmap_compose. apply list_fmap_id. Qed.

Section one.
Variables (txn : Transaction) (codes : list bytes) (m0 : Manager S F).
Hypothesis Hlog : wal_holds (tm_wal m0) [] [].
Hypothesis Hmem : entries (tm_wal m0) = [].
Hypothesis Hcodes :
  Forall2 (fun op d => entry_encode (MkEntry (t_id txn) op) = inr d) (t_ops txn) codes.
Hypothesis Hread : Forall readable codes.
Hypothesis Hfit : zlen (frames codes) < 2 ^ 64 - 4.
Abbreviation ops := (t_ops txn).
Abbreviation es := (MkEntry (t_id txn) <$> t_ops txn).

(** Where a commit that began on an empty log can be. *)
Inductive commit_at : Config S F -> Prop :=
  | at_logging k w :
      (k <= length ops)%nat -> wal_holds w (take k es) (take k codes) ->
      entries w = take k es ->
      commit_at (MkConfig (Logging (drop k ops)) w (tm_fs m0))
  | at_applying j w s :
      wal_holds w es codes -> entries w = es ->
      apply_all (take j ops) (tm_fs m0) = (inr tt, s) ->
      commit_at (MkConfig (Applying (drop j ops)) w s)
  | at_failed msg w s :
      wal_holds w es codes -> apply_all ops (tm_fs m0) = (inl msg, s) ->
      commit_at (MkConfig (Finished (inl msg)) w s)
  | at_done w s :
      wal_holds w [] [] -> apply_all ops (tm_fs m0) = (inr tt, s) ->
      commit_at (MkConfig (Finished (inr tt)) w s).

Lemma codes_length : length codes = length ops.
Proof. by rewrite (Forall2_length _ _ _ Hcodes). Qed.

Lemma frames_take_le k : zlen (frames (take k codes)) <= zlen (frames codes).
Proof.
  rewrite <- (take_drop k codes) at 2. rewrite frames_app, zlen_app.
  pose proof (zlen_nonneg (frames (drop k codes))). lia.
Qed.

Lemma commit_at_start : commit_at (commit_start txn m0).
Proof. by apply (at_logging 0); [lia|..]. Qed.

Lemma flush_holds w es' ds : wal_holds w es' ds -> flush w = inr tt.
Proof. intros [(st & Est & _) _ _ _]. unfold flush. rewrite Est. apply wal_flush_ok. Qed.

Lemma append_at k w op :
  wal_holds w (take k es) (take k codes) -> entries w = take k es -> ops !! k = Some op ->
  exists w', append (t_id txn) op w = (inr tt, w') /\
    wal_holds w' (take (Datatypes.S k) es) (take (Datatypes.S k) codes) /\
    entries w' = take (Datatypes.S k) es.
Proof.
  intros Hw Hent Hop. destruct (Forall2_lookup_l _ _ _ _ _ Hcodes Hop) as (d & Hd & He).
  assert (HE : es !! k = Some (MkEntry (t_id txn) op)) by (by rewrite list_lookup_fmap, Hop).
  rewrite (take_S_r _ _ _ HE), (take_S_r _ _ _ Hd).
  pose proof (frames_take_le (Datatypes.S k)) as HL. rewrite (take_S_r _ _ _ Hd) in HL.
  rewrite frames_app, zlen_app, zlen_frames_cons in HL. change (zlen (frames [])) with 0 in HL.
  destruct (append_holds w _ _ (t_id txn) op d Hw He) as (w' & Ea & Ee & Hw'); [lia|].
  exists w'. by rewrite Ee, Hent.
Qed.

Lemma drop_cons_lookup {A} (l : list A) k x l' :
  x :: l' = drop k l -> l !! k = Some x /\ l' = drop (Datatypes.S k) l.
Proof.
  intros E. pose proof (lookup_drop l k 0) as L. rewrite <- E, Nat.add_0_r in L. split; [done|].
  apply (f_equal (drop 1)) in E. rewrite drop_drop in E. cbn in E. rewrite drop_0 in E.
  by rewrite E, Nat.add_1_r.
Qed.

Lemma apply_step j op s :
  ops !! j = Some op -> apply_all (take j ops) (tm_fs m0) = (inr tt, s) ->
  apply_all (take (Datatypes.S j) ops) (tm_fs m0) = apply_all [op] s.
Proof. intros Hop E. by rewrite (take_S_r _ _ _ Hop), apply_all_app, E. Qed.

Lemma apply_stops j op s s' msg :
  ops !! j = Some op -> apply_all (take j ops) (tm_fs m0) = (inr tt, s) ->
  apply op s = (inl msg, s') -> apply_all ops (tm_fs m0) = (inl msg, s').
Proof.
  intros Hop E Ea. rewrite <- (take_drop_middle _ _ _ Hop), apply_all_app, E.
  cbn [apply_all]. by rewrite Ea.
Qed.

(** The head of what is left to do, by its position. *)
Ltac head_of_drop :=
  match goal with
  | H : _ :: _ = drop _ _ |- _ => destruct (drop_cons_lookup _ _ _ _ H) as [Hop ->]; clear H
  end.

Lemma commit_step_at c c' : commit_at c -> commit_step txn c c' -> commit_at c'.
Proof.
  intros Hat Hs. destruct Hat as [k w Hk Hw He|j w s Hw He Ha|msg w s Hw Ha|w s Hw Ha];
    inversion Hs as [op todo ? w' ? Ea|op todo ? w' ? msg' Ea|? ? Ef Ed|? ? msg' Ef Ed|
      op todo ? ? s' Ea|op todo ? ? s' msg' Ea|? ? Ed]; subst; try head_of_drop.
  - destruct (append_at k w op Hw He Hop) as (w1 & E1 & Hw1 & He1).
    rewrite Ea in E1. injection E1 as <-. apply at_logging; [|done|done].
    apply lookup_lt_Some in Hop. lia.
  - destruct (append_at k w op Hw He Hop) as (w1 & E1 & _). by rewrite Ea in E1.
  - apply (f_equal length) in Ed. rewrite length_drop in Ed. cbn in Ed.
    pose proof codes_length. rewrite !take_ge in * by (rewrite ?length_fmap; lia).
    by apply (at_applying 0).
  - by rewrite (flush_holds _ _ _ Hw) in Ef.
  - apply at_applying; [done|done|]. rewrite (apply_step j op s Hop Ha). cbn. by rewrite Ea.
  - apply at_failed; [done|]. by apply (apply_stops j op s).
  - apply (f_equal length) in Ed. rewrite length_drop in Ed. cbn in Ed.
    rewrite take_ge in Ha by lia. apply at_done; [|done].
    by apply (clear_own _ ops w _ _ Hw).
Qed.

Lemma reaches_at c : commit_reaches txn m0 c -> commit_at c.
Proof.
  intros Hr. unfold commit_reaches in Hr. remember (commit_start txn m0) as c0 eqn:E.
  pose proof commit_at_start as H0'. rewrite <- E in H0'. clear E.
  induction Hr as [|x y z Hs _ IH]; [done|]. apply IH. by apply (commit_step_at x).
Qed.

(** A restart on what is left of the log of the transaction. *)
Lemma replay_own fuel st (s : F) n :
  wal_data st = take n (frames codes) -> (length ops < fuel)%nat ->
  exists k r m', replay fuel (booted st s) = Some (r, m') /\ (k <= length ops)%nat /\
    (r, tm_fs m') = apply_all (take k ops) s /\ storage (tm_wal m') = Some st /\
    ((length (frames codes) <= n)%nat -> k = length ops).
Proof.
  intros Ed Hf.
  destruct (replay_torn fuel st s es codes n) as (k & r & m' & E & Hk & Ea & Est & Hall);
    [done| |done|done|by rewrite length_fmap|].
  { apply Forall2_fmap_l. apply Hcodes. }
  rewrite length_fmap in *. rewrite <- fmap_take, operations_of in Ea. by exists k, r, m'.
Qed.

Lemma replay_empty fuel st (s : F) :
  wal_data st = [] -> (0 < fuel)%nat ->
  exists m', replay fuel (booted st s) = Some (inr tt, m') /\ tm_fs m' = s.
Proof.
  intros Ed Hf.
  destruct (replay_torn fuel st s [] [] 0) as (k & r & m' & E & _ & Ea & _);
    [done|constructor|constructor|done|done|].
  rewrite take_nil in Ea. injection Ea as -> Es. by exists m'.
Qed.

(** Once the log is whole, everything in it is applied. *)
Lemma replay_whole fuel w st0 st (s : F) n :
  wal_holds w es codes -> storage w = Some st0 -> wal_data st = take n (wal_data st0) ->
  (length (wal_data st0) <= n)%nat -> (length ops < fuel)%nat ->
  exists r m', replay fuel (booted st s) = Some (r, m') /\ (r, tm_fs m') = apply_all ops s.
Proof.
  intros [(st1 & E1 & D1) _ _ _] Est Ed Hn Hf. rewrite Est in E1. injection E1 as <-.
  rewrite D1 in *. destruct (replay_own fuel st s n Ed Hf) as (k & r & m' & E & _ & Ea & _ & Hk).
  rewrite (Hk Hn), take_ge in Ea by lia. by exists r, m'.
Qed.

(** Before, a prefix. *)
Lemma replay_part fuel k w st0 st (s : F) n :
  wal_holds w (take k es) (take k codes) -> storage w = Some st0 ->
  wal_data st = take n (wal_data st0) -> (length ops < fuel)%nat ->
  exists k' r m', replay fuel (booted st s) = Some (r, m') /\ (k' <= length ops)%nat /\
    (r, tm_fs m') = apply_all (take k' ops) s.
Proof.
  intros [(st1 & E1 & D1) _ _ _] Est Ed Hf. rewrite Est in E1. injection E1 as <-.
  destruct (replay_own fuel st s (n `min` length (frames (take k codes))))
    as (k' & r & m' & E & Hk & Ea & _); [|done|by exists k', r, m'].
  rewrite Ed, D1, <- take_take. f_equal. rewrite <- (take_drop k codes) at 3.
  by rewrite frames_app, take_app_length.
Qed.

(** A commit can be cut after any number of its appends. *)
Lemma reaches_logging k :
  (k <= length ops)%nat ->
  exists w, commit_reaches txn m0 (MkConfig (Logging (drop k ops)) w (tm_fs m0)) /\
    wal_holds w (take k es) (take k codes).
Proof.
  intros Hk. pose proof (frames_take_le k).
  destruct (append_all_holds (t_id txn) (take k ops) (take k codes) (tm_wal m0) [] [] Hlog)
    as (w & E & _ & Hw).
  { by apply Forall2_take. }
  { change (zlen (frames [])) with 0. lia. }
  exists w. rewrite fmap_take in Hw. split; [|done]. unfold commit_reaches, commit_start.
  rewrite <- (take_drop k ops) at 1. by apply logging_reaches.
Qed.

(** A commit can be cut between its last operation and the clearing of the log. *)
Lemma reaches_applied s :
  apply_all ops (tm_fs m0) = (inr tt, s) ->
  exists w, commit_reaches txn m0 (MkConfig (Applying []) w s) /\ wal_holds w es codes.
Proof.
  intros Ha. destruct (reaches_logging (length ops)) as (w & Hreach & Hw); [done|].
  rewrite drop_all in Hreach. pose proof codes_length.
  rewrite !take_ge in Hw by (rewrite ?length_fmap; lia). exists w. split; [|done].
  unfold commit_reaches. etrans; [exact Hreach|].
  eapply rtc_l; [by apply step_flush, (flush_holds w _ _ Hw)|].
  exact (applying_runs txn _ w _ _ _ Ha).
Qed.
End one.

(** The restarted manager runs over [s2], which is what a restart makes of the
    file system the crash left. *)
Lemma crash_outcome fuel txn codes m c st s s2 :
  wal_holds (tm_wal m) [] [] -> entries (tm_wal m) = [] ->
  Forall2 (fun op d => entry_encode (MkEntry (t_id txn) op) = inr d) (t_ops txn) codes ->
  Forall readable codes -> zlen (frames codes) < 2 ^ 64 - 4 ->
  (length (t_ops txn) < fuel)%nat ->
  commit_reaches txn m c -> crash_leaves txn m c st s ->
  exists r m', replay fuel (booted st s2) = Some (r, m') /\
    match c_stage c with
    | Logging _ => s = tm_fs m /\ exists k, (k <= length (t_ops txn))%nat /\
        (r, tm_fs m') = apply_all (take k (t_ops txn)) s2
    | Applying todo => exists j, todo = drop j (t_ops txn) /\
        apply_all (take j (t_ops txn)) (tm_fs m) = (inr tt, s) /\
        (r, tm_fs m') = apply_all (t_ops txn) s2
    | Finished (inl msg) => apply_all (t_ops txn) (tm_fs m) = (inl msg, s) /\
        (r, tm_fs m') = apply_all (t_ops txn) s2
    | Finished (inr _) => apply_all (t_ops txn) (tm_fs m) = (inr tt, s) /\
        (wal_data st = [] -> r = inr tt /\ tm_fs m' = s2) /\
        (wal_data st <> [] -> (r, tm_fs m') = apply_all (t_ops txn) s2)
    end.
Proof.
  intros Hlog Hmem Hc Hr Hfit Hf Hreach Hcrash.
  destruct Hcrash as [st0 st n Est Ed Hn|w st0 st Happ Ec Est Ed].
  - destruct (reaches_at txn codes m Hlog Hmem Hc Hfit c Hreach)
      as [k w Hk Hw _|j w s Hw _ Ha|msg w s Hw Ha|w s Hw Ha]; cbn [c_stage c_wal c_fs] in *.
    + destruct (replay_part txn codes Hc Hr Hfit fuel k w st0 st s2 n Hw Est Ed Hf)
        as (k' & r & m' & E & Hk' & Ea). exists r, m'. split; [done|]. split; [done|].
      by exists k'.
    + destruct (replay_whole txn codes Hc Hr Hfit fuel w st0 st s2 n Hw Est Ed Hn Hf)
        as (r & m' & E & Ea). exists r, m'. split; [done|]. by exists j.
    + destruct (replay_whole txn codes Hc Hr Hfit fuel w st0 st s2 n Hw Est Ed Hn Hf)
        as (r & m' & E & Ea). by exists r, m'.
    + destruct Hw as [(st1 & E1 & D1) _ _ _]. rewrite Est in E1. injection E1 as <-.
      assert (Enil : wal_data st = []) by (rewrite Ed, D1; apply take_nil).
      destruct (replay_empty fuel st s2 Enil) as (m' & E & Es); [lia|by exists (inr tt), m'].
  - assert (Hdone : exists st1, wal_holds w (MkEntry (t_id txn) <$> t_ops txn) codes /\ storage w = Some st1 /\
      apply_all (t_ops txn) (tm_fs m) = (inr tt, c_fs c)).
    { remember (c_fs c) as sc eqn:Esc. clear Ec.
      pose proof (reaches_at txn codes m Hlog Hmem Hc Hfit _ Happ) as Hat.
      inversion Hat as [|j w' s' Hw _ Ha Ej| |]; subst. exists st0. split; [done|]. split; [done|].
      apply (f_equal length) in Ej. rewrite length_drop in Ej. cbn in Ej. by rewrite take_ge in Ha by lia. }
    destruct Hdone as (st1 & Hw & _ & Ha). rewrite Ec. cbn [c_stage].
    destruct (replay_whole txn codes Hc Hr Hfit fuel w st0 st s2 (length (wal_data st0)) Hw Est)
      as (r & m' & E & Ea); [by rewrite firstn_all|done|done|]. exists r, m'. split; [done|].
    split; [done|]. split; [|done]. intros Enil.
    destruct Hw as [(st2 & E2 & D2) _ _ _]. rewrite Est in E2. injection E2 as <-.
    destruct (replay_empty fuel st s2 Enil) as (m2 & E2 & Es); [lia|]. rewrite E in E2.
    by injection E2 as -> <-.
Qed.

(** C15: What a restart makes of a crash at any point of a commit. While the log is
    written, a prefix of the operations is applied; once it is flushed, all of them are
    applied, from the first, to whatever state the crash left; after a commit that
    succeeded, nothing is applied again if the clearing of the log reached the disk,
    and all of them if it did not: it is not flushed. *)
Theorem commit_crash_recovers fuel txn codes m c st s :
  wal_holds (tm_wal m) [] [] -> entries (tm_wal m) = [] ->
  Forall2 (fun op d => entry_encode (MkEntry (t_id txn) op) = inr d) (t_ops txn) codes ->
  Forall readable codes -> zlen (frames codes) < 2 ^ 64 - 4 ->
  (length (t_ops txn) < fuel)%nat ->
  commit_reaches txn m c -> crash_leaves txn m c st s ->
  exists r m', replay fuel (booted st s) = Some (r, m') /\
    match c_stage c with
    | Logging _ => s = tm_fs m /\ exists k, (k <= length (t_ops txn))%nat /\
        (r, tm_fs m') = apply_all (take k (t_ops txn)) (tm_fs m)
    | Applying todo => exists j, todo = drop j (t_ops txn) /\
        apply_all (take j (t_ops txn)) (tm_fs m) = (inr tt, s) /\
        (r, tm_fs m') = apply_all (t_ops txn) s
    | Finished (inl msg) => apply_all (t_ops txn) (tm_fs m) = (inl msg, s) /\
        (r, tm_fs m') = apply_all (t_ops txn) s
    | Finished (inr _) => apply_all (t_ops txn) (tm_fs m) = (inr tt, s) /\
        (wal_data st = [] -> r = inr tt /\ tm_fs m' = s) /\
        (wal_data st <> [] -> (r, tm_fs m') = apply_all (t_ops txn) s)
    end.
Proof.
  intros Hlog Hmem Hc Hr Hfit Hf Hreach Hcrash.
  destruct (crash_outcome fuel txn codes m c st s s Hlog Hmem Hc Hr Hfit Hf Hreach Hcrash)
    as (r & m' & E & Hm). exists r, m'. split; [exact E|].
  destruct (c_stage c); [|exact Hm..]. by destruct Hm as [-> Hk].
Qed.

(** A transaction is not atomic under a crash: for every prefix of its operations
    there is a crash of its commit after which a restart applies exactly that prefix. *)
Theorem crash_applies_any_prefix fuel txn codes m k :
  wal_holds (tm_wal m) [] [] -> entries (tm_wal m) = [] ->
  Forall2 (fun op d => entry_encode (MkEntry (t_id txn) op) = inr d) (t_ops txn) codes ->
  Forall readable codes -> zlen (frames codes) < 2 ^ 64 - 4 ->
  (length (t_ops txn) < fuel)%nat -> (k <= length (t_ops txn))%nat ->
  exists c st r m', commit_reaches txn m c /\ crash_leaves txn m c st (tm_fs m) /\
    replay fuel (booted st (tm_fs m)) = Some (r, m') /\
    (r, tm_fs m') = apply_all (take k (t_ops txn)) (tm_fs m).
Proof.
  intros Hlog Hmem Hc Hr Hfit Hf Hk.
  destruct (reaches_logging txn codes m Hlog Hc Hfit k Hk) as (w & Hreach & Hw).
  destruct Hw as [(st & Est & Ed) _ Hck Hu].
  destruct (replay_torn fuel st (tm_fs m) _ _ (length (frames (take k codes)))
    (eq_trans Ed (eq_sym (firstn_all _))) Hck) as (k' & r & m' & E & _ & Ea & _ & Hall).
  - by apply Forall_take.
  - done.
  - rewrite length_take, length_fmap. lia.
  - rewrite Hall, take_ge, <- fmap_take, operations_of in Ea by done.
    eexists _, st, r, m'. split; [exact Hreach|]. split; [|done].
    refine (leaves_prefix txn m (MkConfig _ w (tm_fs m)) st st (length (wal_data st)) _ _ _);
      [done|by rewrite firstn_all|done].
Qed.

(** ** Logs that are not emptied *)

(** [replay] leaves the log: another restart applies its operations again. *)
Theorem replay_applies_again fuel m es ds st :
  wal_data st = frames ds -> Forall2 (fun e d => entry_encode e = inr d) es ds ->
  Forall readable ds -> zlen (frames ds) < 2 ^ 64 - 4 -> (length es < fuel)%nat ->
  exists r1 m1 r2 m2,
    replay fuel (booted st (tm_fs m)) = Some (r1, m1) /\
    (r1, tm_fs m1) = apply_all (operation <$> es) (tm_fs m) /\
    storage (tm_wal m1) = Some st /\
    replay fuel (booted st (tm_fs m1)) = Some (r2, m2) /\
    (r2, tm_fs m2) = apply_all (operation <$> es) (tm_fs m1).
Proof.
  intros Ed Hc Hr HU Hf. pose proof (eq_trans Ed (eq_sym (firstn_all _))) as Ed'.
  assert (HR : forall s : F, exists r m', replay fuel (booted st s) = Some (r, m') /\
    (r, tm_fs m') = apply_all (operation <$> es) s /\ storage (tm_wal m') = Some st).
  { intros s. destruct (replay_torn fuel st s es ds _ Ed' Hc Hr HU Hf)
      as (k & r & m' & E & _ & Ea & Est & Hk).
    rewrite Hk, take_ge in Ea by done. by exists r, m'. }
  destruct (HR (tm_fs m)) as (r1 & m1 & E1 & Ea1 & Es1).
  destruct (HR (tm_fs m1)) as (r2 & m2 & E2 & Ea2 & _). by exists r1, m1, r2, m2.
Qed.

(** A commit whose log is on the disk, and what it leaves of the log. *)
Lemma commit_log txn codes m es ds :
  wal_holds (tm_wal m) es ds ->
  Forall2 (fun op d => entry_encode (MkEntry (t_id txn) op) = inr d) (t_ops txn) codes ->
  zlen (frames ds) + zlen (frames codes) < 2 ^ 64 - 4 ->
  exists w, write_ahead txn (tm_wal m) = (inr tt, w) /\
    entries w = entries (tm_wal m) ++ (MkEntry (t_id txn) <$> t_ops txn) /\
    wal_holds w (es ++ (MkEntry (t_id txn) <$> t_ops txn)) (ds ++ codes).
Proof.
  intros Hw Hc Hfit. unfold write_ahead.
  destruct (append_all_holds _ _ _ _ _ _ Hw Hc Hfit) as (w & -> & Ee & Hw').
  exists w. by rewrite (flush_holds _ _ _ Hw').
Qed.

(** What other transactions have in memory keeps the log. *)
Lemma clear_kept id w e es ds :
  wal_holds w es ds -> e ∈ entries w -> txn_id e <> id -> wal_holds (clear_txn id w) es ds.
Proof.
  intros [Hd Ho Hc Hu] He Hne. unfold clear_txn.
  destruct (filter _ (entries w)) as [|e' l] eqn:E; [|by split].
  exfalso. assert (Hin : e ∈ filter (fun e => txn_id e <> id) (entries w))
    by (by apply list_elem_of_filter).
  rewrite E in Hin. by apply elem_of_nil in Hin.
Qed.

(** C16: A commit that failed while it was applied stays in the log: when the next
    commit succeeds, a restart applies the operations of the failed one again, and
    then those of the successful one a second time. *)
Theorem failed_commit_replayed fuel m txn1 codes1 msg m1 txn2 codes2 m2 op :
  wal_holds (tm_wal m) [] [] -> entries (tm_wal m) = [] ->
  Forall2 (fun op d => entry_encode (MkEntry (t_id txn1) op) = inr d) (t_ops txn1) codes1 ->
  Forall2 (fun op d => entry_encode (MkEntry (t_id txn2) op) = inr d) (t_ops txn2) codes2 ->
  Forall readable (codes1 ++ codes2) -> zlen (frames (codes1 ++ codes2)) < 2 ^ 64 - 4 ->
  (length (t_ops txn1 ++ t_ops txn2) < fuel)%nat ->
  t_id txn1 <> t_id txn2 -> op ∈ t_ops txn1 ->
  commit txn1 m = (inl msg, m1) -> commit txn2 m1 = (inr tt, m2) ->
  exists r m3, replay fuel (restarted m2) = Some (r, m3) /\
    (r, tm_fs m3) = apply_all (t_ops txn1 ++ t_ops txn2) (tm_fs m2).
Proof.
  intros Hw Hent Hc1 Hc2 Hr Hfit Hf Hne Hop E1 E2.
  rewrite frames_app, zlen_app in Hfit.
  pose proof (zlen_nonneg (frames codes1)). pose proof (zlen_nonneg (frames codes2)).
  destruct (commit_log txn1 codes1 m [] [] Hw Hc1) as (w1 & F1 & Ee1 & Hw1).
  { change (zlen (frames [])) with 0. lia. }
  unfold commit in E1. rewrite F1 in E1.
  destruct (apply_all (t_ops txn1) (tm_fs m)) as [[msg1|[]] s1]; [|done].
  injection E1 as -> <-. cbn [app] in Hw1. rewrite Hent in Ee1. cbn [app] in Ee1.
  destruct (commit_log txn2 codes2 (MkManager w1 (tm_next m) s1) _ _ Hw1 Hc2)
    as (w2 & F2 & Ee2 & Hw2); [done|].
  unfold commit in E2. rewrite F2 in E2. cbn [tm_fs tm_next tm_wal] in *.
  destruct (apply_all (t_ops txn2) s1) as [[msg2|[]] s2]; [done|]. injection E2 as <-.
  destruct (replay_holds fuel (MkManager (clear_txn (t_id txn2) w2) (tm_next m) s2)
    ((MkEntry (t_id txn1) <$> t_ops txn1) ++ (MkEntry (t_id txn2) <$> t_ops txn2))
    (codes1 ++ codes2)) as (m3 & E3 & Efs); [|done|by rewrite length_app, !length_fmap, <- length_app|].
  - apply (clear_kept _ _ (MkEntry (t_id txn1) op)); [done| |done].
    rewrite Ee2, Ee1. apply elem_of_app. left. by apply list_elem_of_fmap_2.
  - eexists _, m3. split; [exact E3|]. rewrite Efs, fmap_app, !operations_of. cbn [tm_fs].
    by destruct (apply_all _ s2).
Qed.

(** ** A log that was cut behind a header *)

Lemma append_all_over id ops codes w st a b :
  storage w = Some st -> wal_data st = a ++ b -> next_offset w = zlen a ->
  Forall2 (fun op d => entry_encode (MkEntry id op) = inr d) ops codes ->
  zlen a + zlen (frames codes) < 2 ^ 64 - 4 ->
  exists st' w', append_all id ops w = (inr tt, w') /\ storage w' = Some st' /\
    wal_data st' = a ++ frames codes ++ drop (length (frames codes)) b.
Proof.
  intros Est Ed Hoff Hc. revert w st a b Est Ed Hoff.
  induction Hc as [|op d ops codes He Hc IH]; intros w st a b Est Ed Hoff Hfit.
  { exists st, w. by rewrite Ed. }
  rewrite zlen_frames_cons in Hfit. pose proof (zlen_nonneg (frames codes)).
  cbn [append_all].
  destruct (append_over w st a b id op d Est Ed Hoff He) as (st1 & -> & E1); [lia|].
  rewrite app_assoc in E1.
  destruct (IH (MkWal (entries w ++ [MkEntry id op]) (Some st1) (zlen (a ++ frame d)))
    st1 (a ++ frame d) (drop (length (frame d)) b) eq_refl E1 eq_refl) as (st2 & w2 & -> & E2 & D2).
  { rewrite zlen_app, zlen_frame. lia. }
  exists st2, w2. split; [done|]. split; [done|].
  change (frames (d :: codes)) with (frame d ++ frames codes).
  by rewrite D2, drop_drop, length_app, <- !app_assoc.
Qed.

(** C17: A restart on a log that was cut behind the header of an entry goes on behind that
    header, so what is flushed after it is lost: a transaction shorter than the missing
    entry is written to the log and flushed, the log answers no error, and the next
    restart applies nothing of it. *)
Theorem torn_log_loses_commit fuel st s es ds d x txn codes :
  wal_data st = frames ds ++ to_le 4 (w32 (zlen d)) ++ x -> zlen x < zlen d ->
  Forall2 (fun e d => entry_encode e = inr d) es ds -> Forall readable ds -> readable d ->
  Forall2 (fun op d => entry_encode (MkEntry (t_id txn) op) = inr d) (t_ops txn) codes ->
  zlen (frames codes) < zlen d -> zlen (frames ds) + 4 + zlen d < 2 ^ 64 - 4 ->
  (length es < fuel)%nat ->
  exists r1 m1 m2 r3 m3,
    replay fuel (booted st s) = Some (r1, m1) /\
    commit_into_wal_only txn m1 = (inr tt, m2) /\
    replay fuel (restarted m2) = Some (r3, m3) /\
    (r3, tm_fs m3) = apply_all (operation <$> es) (tm_fs m2).
Proof.
  intros Ed Hx Hc Hr Hd Hcodes Hshort HU Hf. set (h := to_le 4 (w32 (zlen d))) in *.
  assert (H4 : zlen h = 4) by (unfold h, zlen; lens).
  unfold replay at 1, booted, set_wal_storage, manager_new. cbn [tm_wal tm_next tm_fs].
  rewrite (recover_behind fuel (set_storage st wal_new) st es ds d x eq_refl Ed)
    by (done || (rewrite Ed, !zlen_app; lia)).
  change (entries (set_storage st wal_new)) with (@nil WalEntry).
  cbn [mbind option_bind]. destruct (apply_all (operation <$> es) s) as [r1 s1].
  set (w1 := MkWal [] (Some st) (zlen (frames ds) + 4)).
  destruct (append_all_over (t_id txn) (t_ops txn) codes w1 st (frames ds ++ h) x)
    as (st2 & w2 & Ew & Est2 & D2);
    [done|by rewrite Ed, <- app_assoc|cbn [w1 next_offset]; rewrite zlen_app; lia|done
    |rewrite zlen_app; lia|].
  eexists r1, (MkManager w1 1 s1), (MkManager w2 1 s1). unfold commit_into_wal_only, write_ahead.
  cbn [tm_wal tm_next tm_fs]. rewrite Ew. unfold flush.
  rewrite Est2, wal_flush_ok. destruct (apply_all (operation <$> es) s1) as [r3 s3] eqn:E3.
  do 2 eexists. split; [done|]. split; [done|]. unfold replay, restarted.
  cbn [tm_wal tm_next tm_fs].
  rewrite Est2, <- app_assoc in *.
  assert (Hx2 : zlen (frames codes ++ drop (length (frames codes)) x) < zlen d).
  { rewrite zlen_app. unfold zlen in *. rewrite length_drop. lia. }
  rewrite (recover_behind fuel (MkWal [] (Some st2) 0) st2 es ds d _ eq_refl D2)
    by (done || (rewrite D2, (zlen_app (frames ds)), (zlen_app h); lia)).
  cbn [mbind option_bind]. rewrite E3. by split.
Qed.

(** ** Replaying what was applied already *)

(** The operations applied before the crash are applied again: where the first of
    them is refused the second time, the replay ends there, and what the crash cut
    off is never applied. *)
Theorem replay_refused fuel st (s : F) op ops msg id codes :
  wal_data st = frames codes ->
  Forall2 (fun op d => entry_encode (MkEntry id op) = inr d) (op :: ops) codes ->
  Forall readable codes -> zlen (frames codes) < 2 ^ 64 - 4 ->
  (length (op :: ops) < fuel)%nat -> apply op s = (inl msg, s) ->
  exists m', replay fuel (booted st s) = Some (inl msg, m') /\ tm_fs m' = s.
Proof.
  intros Ed Hc Hr HU Hf Ha.
  destruct (replay_torn fuel st s (MkEntry id <$> op :: ops) codes (length (frames codes)))
    as (k & r & m' & E & _ & Ea & _ & Hk);
    [by rewrite firstn_all|by apply Forall2_fmap_l|done|done|by rewrite length_fmap|].
  rewrite Hk, take_ge, operations_of in Ea by done. cbn [apply_all] in Ea. rewrite Ha in Ea.
  injection Ea as -> Es. by exists m'.
Qed.

(** ** One operation that can be done twice *)

(** Any number of processes that replay the log one after the other over the file
    system; replaying leaves the log as it is. *)
Inductive restarts (fuel : nat) (st : S) (s : F) : F -> Prop :=
  | restarts_none : restarts fuel st s s
  | restarts_again s' r m' :
      restarts fuel st s s' -> replay fuel (booted st s') = Some (r, m') ->
      restarts fuel st s (tm_fs m').

Section twice.
Variables (fuel : nat) (id : Z) (op : TransactionOperation) (code : bytes) (m : Manager S F).
Hypothesis Hlog : wal_holds (tm_wal m) [] [].
Hypothesis Hmem : entries (tm_wal m) = [].
Hypothesis Hcode : entry_encode (MkEntry id op) = inr code.
Hypothesis Hread : readable code.
Hypothesis Hfuel : (1 < fuel)%nat.
Abbreviation before := (tm_fs m).
Abbreviation done_once := (apply op (tm_fs m)).2.
Hypothesis Htwice : (apply op done_once).2 = done_once.

Definition whole_or_not (s : F) : Prop := s = before \/ s = done_once.

Lemma apply_whole s : whole_or_not s -> whole_or_not (apply op s).2.
Proof. intros [->| ->]; right; [done|exact Htwice]. Qed.

Lemma apply_all_whole j s r s' :
  whole_or_not s -> (r, s') = apply_all (take j [op]) s -> whole_or_not s'.
Proof.
  intros Hs. destruct j as [|j]; cbn [take apply_all]; [by intros [= -> ->]|].
  pose proof (apply_whole s Hs) as Ha. rewrite take_nil. cbn [apply_all].
  by destruct (apply op s) as [[msg|[]] s1]; intros [= -> ->].
Qed.

Lemma apply_all_done s r s' :
  whole_or_not s -> (r, s') = apply_all [op] s -> s' = done_once.
Proof.
  intros Hs. cbn [apply_all]. assert (Ha : (apply op s).2 = done_once) by by destruct Hs as [->| ->].
  destruct (apply op s) as [[msg|[]] s1]; cbn in Ha; by intros [= -> ->].
Qed.

(** What a crash at [c] and restarts after it leave: once the operation is
    applied it stays so. *)
Definition left_by (c : Config S F) (s : F) : Prop :=
  match c_stage c with Finished _ => s = done_once | _ => whole_or_not s end.

Lemma left_by_whole c s : left_by c s -> whole_or_not s.
Proof. unfold left_by. destruct (c_stage c); [done|done|by right]. Qed.

(** What a restart over [s2] makes of the log after the crash. *)
Lemma crash_of_one c st s1 s2 :
  commit_reaches (MkTxn id [op]) m c -> crash_leaves (MkTxn id [op]) m c st s1 ->
  left_by c s1 /\
  exists r m', replay fuel (booted st s2) = Some (r, m') /\
    (left_by c s2 -> left_by c (tm_fs m') /\
      ((forall todo, c_stage c <> Logging todo) -> tm_fs m' = done_once)).
Proof.
  intros Hreach Hleft. assert (Hfit : zlen (frames [code]) < 2 ^ 64 - 4).
  { destruct Hread as [_ Hm]. unfold MAX_ENTRY in Hm. rewrite zlen_frames_cons.
    change (zlen (frames [])) with 0. lia. }
  destruct (crash_outcome fuel (MkTxn id [op]) [code] m c st s1 s2 Hlog Hmem ltac:(by constructor)
    ltac:(by constructor) Hfit Hfuel Hreach Hleft) as (r & m' & E & Hm). cbn [t_ops] in Hm.
  assert (H0' : whole_or_not before) by by left. unfold left_by.
  split; [|exists r, m'; split; [exact E|]; intros Hw2]; destruct (c_stage c) as [todo|todo|[msg|[]]].
  - by destruct Hm as [-> _].
  - destruct Hm as (j & _ & Eb & _). by eapply apply_all_whole; [exact H0'|symmetry; exact Eb].
  - destruct Hm as [Eb _]. by eapply apply_all_done; [exact H0'|symmetry; exact Eb].
  - destruct Hm as [Eb _]. by eapply apply_all_done; [exact H0'|symmetry; exact Eb].
  - destruct Hm as (_ & j & _ & Ea). split; [by eapply apply_all_whole|].
    intros Hn. by destruct (Hn todo).
  - destruct Hm as (j & _ & _ & Ea). pose proof (apply_all_done _ _ _ Hw2 Ea) as Ed.
    split; [by right|done].
  - destruct Hm as [_ Ea]. split; [|intros _]; by eapply apply_all_done; [right; exact Hw2|exact Ea].
  - destruct Hm as (_ & Hnil & Ea). enough (tm_fs m' = done_once) by done.
    destruct (decide (wal_data st = [])) as [En|En].
    + by destruct (Hnil En) as [_ ->].
    + by eapply apply_all_done; [right; exact Hw2|exact (Ea En)].
Qed.
End twice.

(** C14: An operation that can be done twice is done once or not at all. Where doing it
    again changes nothing of the file system below, whether it is then refused or
    not, and it is the only one of its transaction, logged from an empty log,
    then wherever the crash of its commit was and however often processes start on what
    it left and replay the log, the file system below is what it was before or what the
    operation makes of it, and the next replay ends in one of the two; in the
    second, once the log had been flushed before the crash. The log is never emptied by
    replaying. *)
Theorem crashed_operation_whole fuel id op code m c st s1 :
  wal_holds (tm_wal m) [] [] -> entries (tm_wal m) = [] ->
  entry_encode (MkEntry id op) = inr code -> readable code -> (1 < fuel)%nat ->
  (apply op (apply op (tm_fs m)).2).2 = (apply op (tm_fs m)).2 ->
  commit_reaches (MkTxn id [op]) m c -> crash_leaves (MkTxn id [op]) m c st s1 ->
  forall s2, restarts fuel st s1 s2 ->
    (s2 = tm_fs m \/ s2 = (apply op (tm_fs m)).2) /\
    exists r m', replay fuel (booted st s2) = Some (r, m') /\
      (tm_fs m' = tm_fs m \/ tm_fs m' = (apply op (tm_fs m)).2) /\
      ((forall todo, c_stage c <> Logging todo) -> tm_fs m' = (apply op (tm_fs m)).2).
Proof.
  intros Hlog Hmem Hc Hread Hf Htw Hreach Hleft s2 Hs2.
  assert (Hone : forall s, left_by op m c s1 /\ exists r m', replay fuel (booted st s) = Some (r, m') /\
    (left_by op m c s -> left_by op m c (tm_fs m') /\
      ((forall todo, c_stage c <> Logging todo) -> tm_fs m' = (apply op (tm_fs m)).2))).
  { intros s. by apply (crash_of_one fuel id op code m Hlog Hmem Hc Hread Hf Htw c st s1 s). }
  assert (Hw : left_by op m c s2).
  { induction Hs2 as [|s' r m' _ IH E]; [exact (proj1 (Hone s1))|].
    destruct (Hone s') as (_ & r0 & m0 & E0 & Hs). rewrite E in E0. injection E0 as <- <-. by apply Hs. }
  split; [by eapply left_by_whole|]. destruct (Hone s2) as (_ & r & m' & E & Hs).
  exists r, m'. split; [exact E|]. destruct (Hs Hw) as [Hw' Hd]. split; [by eapply left_by_whole|exact Hd].
Qed.
End crash.

(** ** Witnesses *)

(** The sample transaction, cut when its first operation has been applied. *)
Definition sample_half : Config MockStorage (list Z) :=
  MkConfig (Applying [OpTruncate 1 0]) (write_ahead sample_txn (tm_wal fresh_manager)).2 [1].

Lemma sample_half_reached : commit_reaches sample_txn fresh_manager sample_half.
Proof.
  unfold commit_reaches. eapply rtc_l; [by apply step_append|].
  eapply rtc_l; [by apply step_append|]. eapply rtc_l; [by apply step_flush|].
  apply rtc_once. by apply step_apply.
Qed.

Lemma sample_half_leaves : crash_leaves sample_txn fresh_manager sample_half (frames sample_codes : MockStorage) [1].
Proof.
  refine (leaves_prefix sample_txn fresh_manager sample_half (frames sample_codes) _ (length (frames sample_codes)) _ _ _).
  - by_eval.
  - by_eval.
  - exact (le_n _).
Qed.

Lemma commit_crash_recovers_witness :
  exists r m', replay 3 (booted (frames sample_codes : MockStorage) [1]) = Some (r, m') /\
    (r, tm_fs m') = apply_all sample_ops [1].
Proof.
  destruct (commit_crash_recovers 3 sample_txn sample_codes fresh_manager sample_half
    (frames sample_codes) [1]) as (r & m' & E & j & _ & _ & Ea).
  - apply fresh_holds.
  - reflexivity.
  - repeat constructor.
  - apply sample_readable.
  - by_eval.
  - by_eval.
  - apply sample_half_reached.
  - apply sample_half_leaves.
  - exists r, m'. split; [exact E|exact Ea].
Defined.

Lemma crash_applies_any_prefix_witness :
  exists (st : MockStorage) r m', replay 3 (booted st []) = Some (r, m') /\
    (r, tm_fs m') = (inr tt, [1]).
Proof.
  destruct (crash_applies_any_prefix 3 sample_txn sample_codes fresh_manager 1)
    as (c & st & r & m' & _ & _ & E & Ea).
  - apply fresh_holds.
  - reflexivity.
  - repeat constructor.
  - apply sample_readable.
  - by_eval.
  - by_eval.
  - by_eval.
  - exists st, r, m'. split; [exact E|exact Ea].
Defined.

(** A transaction whose second operation is refused, and one after it. *)
Definition refused_txn : Transaction := MkTxn 1 [OpWrite 1 0 (bs "x"); OpDelete 1 (bs "a")].
Definition later_txn : Transaction := MkTxn 2 [OpTruncate 3 0].
Definition codes_of (txn : Transaction) : list bytes :=
  (fun op => plain_encode (MkEntry (t_id txn) op)) <$> t_ops txn.

Lemma failed_commit_replayed_witness :
  exists m1 m2 r m3, (commit refused_txn fresh_manager).2 = m1 /\
    commit later_txn m1 = (inr tt, m2) /\ tm_fs m2 = [1; 3] /\
    replay 4 (restarted m2) = Some (r, m3) /\ tm_fs m3 = [1; 3; 1].
Proof.
  destruct (failed_commit_replayed 4 fresh_manager refused_txn (codes_of refused_txn)
    (bs "Delete error: NotFound") (commit refused_txn fresh_manager).2
    later_txn (codes_of later_txn) (commit later_txn (commit refused_txn fresh_manager).2).2
    (OpWrite 1 0 (bs "x"))) as (r & m3 & E & Ea).
  - apply fresh_holds.
  - reflexivity.
  - repeat constructor.
  - repeat constructor.
  - repeat constructor; by_eval.
  - by_eval.
  - by_eval.
  - discriminate.
  - constructor.
  - vm_compute. reflexivity.
  - vm_compute. reflexivity.
  - eexists _, _, r, m3. split; [reflexivity|]. split; [vm_compute; reflexivity|].
    split; [vm_compute; reflexivity|]. split; [exact E|].
    apply (f_equal snd) in Ea. cbn [snd] in Ea. rewrite Ea. vm_compute. reflexivity.
Defined.

(** An entry of which only the header was kept, and a shorter transaction. *)
Definition missing_entry : bytes :=
  plain_encode (MkEntry 1 (OpWrite 1 0 (replicate 64 Byte.x61))).

Lemma torn_log_loses_commit_witness :
  exists m1 m2 r3 m3,
    replay 1 (booted (to_le 4 (w32 (zlen missing_entry)) : MockStorage) []) = Some (inr tt, m1) /\
    commit_into_wal_only later_txn m1 = (inr tt, m2) /\
    replay 1 (restarted m2) = Some (r3, m3) /\ (r3, tm_fs m3) = (inr tt, []).
Proof.
  destruct (torn_log_loses_commit 1 (to_le 4 (w32 (zlen missing_entry)) : MockStorage) []
    [] [] missing_entry [] later_txn (codes_of later_txn)) as (r1 & m1 & m2 & r3 & m3 & E1 & E2 & E3 & Ea).
  - reflexivity.
  - by_eval.
  - constructor.
  - constructor.
  - split; by_eval.
  - repeat constructor.
  - by_eval.
  - by_eval.
  - by_eval.
  - exists m1, m2, r3, m3. vm_compute in E1. injection E1 as <- <-.
    vm_compute in E2. injection E2 as <-. split; [vm_compute; reflexivity|].
    split; [vm_compute; reflexivity|]. split; [exact E3|exact Ea].
Defined.

(** A file system below that notes which inodes were removed from it, once. *)
#[local] Instance removed_fs : BottomFs (gset bytes) := {
  dbfs_write := fun _ _ _ s => (inl NoSys, s);
  dbfs_create := fun _ _ _ _ _ _ _ _ s => (inl NoSys, s);
  dbfs_unlink := fun _ _ _ name _ _ s =>
    if decide (name ∈ s) then (inl NotFound, s) else (inr tt, {[name]} ∪ s);
  dbfs_rename := fun _ _ _ _ _ _ s => (inl NoSys, s);
  dbfs_truncate := fun _ _ _ s => (inl NoSys, s) }.

Definition removing_manager : Manager MockStorage (gset bytes) :=
  set_wal_storage ([] : MockStorage) (manager_new ∅).
Definition remove_code : bytes := plain_encode (MkEntry 1 (OpDelete 1 (bs "a"))).

(** The removal, cut when it has been done: two restarts are refused it and leave it. *)
Lemma crashed_operation_whole_witness :
  exists (st : MockStorage) s2, restarts 2 st {[bs "a"]} s2 /\ s2 = {[bs "a"]} :> gset bytes /\
    (s2 = (∅ : gset bytes) \/ s2 = (apply (OpDelete 1 (bs "a")) (∅ : gset bytes)).2).
Proof.
  assert (Hw0 : wal_holds (tm_wal removing_manager) [] []).
  { split; [by eexists|done|constructor|by_eval]. }
  assert (Hcodes : Forall2 (fun op d => entry_encode (MkEntry 1 op) = inr d) [OpDelete 1 (bs "a")] [remove_code])
    by by constructor.
  destruct (reaches_applied (MkTxn 1 [OpDelete 1 (bs "a")]) [remove_code] removing_manager Hw0 Hcodes
    ltac:(by_eval) {[bs "a"]}) as (w & Hreach & [(st & Est & Ed) _ _ _]); [by_eval|].
  pose proof (crashed_operation_whole 2 1 (OpDelete 1 (bs "a")) remove_code removing_manager
    (MkConfig (Applying []) w {[bs "a"]}) st {[bs "a"]} Hw0 eq_refl eq_refl ltac:(split; by_eval) (le_n _)
    ltac:(by_eval) Hreach) as Hall.
  assert (Hleft : crash_leaves (MkTxn 1 [OpDelete 1 (bs "a")]) removing_manager
    (MkConfig (Applying []) w {[bs "a"]}) st {[bs "a"]}).
  { apply (leaves_prefix _ _ (MkConfig _ w _) st st (length (wal_data st))); [exact Est|by rewrite firstn_all|exact (le_n _)]. }
  specialize (Hall Hleft).
  destruct (Hall _ (restarts_none 2 st {[bs "a"]})) as (_ & r & m' & E & _).
  exists st, (tm_fs m'). split; [by eapply restarts_again; [apply restarts_none|exact E]|].
  assert (Hend : tm_fs m' = {[bs "a"]}).
  { destruct (replay_refused 2 st {[bs "a"]} (OpDelete 1 (bs "a")) [] (bs "Delete error: NotFound") 1 [remove_code])
      as (m2 & E2 & Es); [exact Ed|done|by constructor; [split; by_eval|]|by_eval|by_eval|by_eval|].
    rewrite E in E2. by injection E2 as _ ->. }
  split; [exact Hend|]. exact (proj1 (Hall _ (restarts_again 2 st _ _ r m' (restarts_none 2 st _) E))).
Defined.
