(* ===== verification/Programs.v ===== *)
(** * Programs of the repository: src/src/dbfs_test.rs and src/examples/operate.rs

    The unit tests of the transaction manager and the example of the operation
    sets, run in the model. A test is its manager at the end, or [None] where
    it panics: at an [expect] that meets an error, or at an assertion. *)

From S2P Require Import Prelude Bytes Common Store Inode Wal Transaction Extend.

(** ** The tests of the transaction manager *)

Section tests.
Context {F : Type} `{EntryCodec, BottomFs F}.
Abbreviation TM := (Manager MockStorage F).

(** [TransactionManager::new] with an empty [MockStorage]. *)
Definition test_manager (fs : F) : TM := set_wal_storage ([] : MockStorage) (manager_new fs).

Definition expect (r : (bytes + unit) * TM) : option TM :=
  match r with (inr _, m) => Some m | (inl _, _) => None end.

(** A transaction with the one write of the tests. *)
Definition test_write (data : bytes) (m : TM) : Transaction * TM :=
  let '(txn, m) := begin_transaction m in
  (record_op (OpWrite 1 0 data) txn, m).

Definition test_transaction_recovery (fs : F) : option TM :=
  let '(txn, m) := test_write (bs "Recovery Data") (test_manager fs) in
  m ← expect (commit_into_wal_only txn m);
  r ← replay 2 m;
  expect r.

(** [assert!(storage.data.lock().len() > 0)]. *)
Definition test_transaction_atomicity (fs : F) : option TM :=
  let '(txn, m) := test_write (bs "Atomicity Test") (test_manager fs) in
  m ← expect (commit txn m);
  data ← storage (tm_wal m);
  if 0 <? zlen data then Some m else None.

Definition test_rollback_safety (fs : F) : option TM :=
  let '(txn, m) := test_write (bs "Should not persist") (manager_new fs) in
  Some (rollback txn m).

Lemma test_manager_holds fs : wal_holds (tm_wal (test_manager fs)) [] [].
Proof. split; [by eexists|done|constructor|by_eval]. Qed.

(** The first test passes whenever the encoding and the write below succeed, and the
    write is done exactly once. *)
Theorem recovery_test_passes fs fs' v :
  entry_encode (MkEntry 1 (OpWrite 1 0 (bs "Recovery Data"))) = inr v -> readable v ->
  dbfs_write 1 (bs "Recovery Data") 0 fs = (inr tt, fs') ->
  exists m, test_transaction_recovery fs = Some m /\ tm_fs m = fs'.
Proof.
  intros He Hv Hf. unfold test_transaction_recovery, test_write, test_manager.
  set (m0 := set_wal_storage _ (manager_new fs)).
  change (begin_transaction m0) with (MkTxn 1 [], MkManager (tm_wal m0) 2 fs). cbv iota.
  pose proof Hv as [Hv1 Hv2]. unfold MAX_ENTRY in Hv2.
  set (txn := record_op _ _).
  destruct (write_ahead_holds txn [v] (tm_wal m0) (test_manager_holds fs)) as (w & E & _ & Hw).
  { by constructor. }
  { rewrite zlen_frames_cons. change (zlen (frames [])) with 0. lia. }
  unfold commit_into_wal_only. cbn [tm_wal tm_fs tm_next]. rewrite E. cbn [expect mbind option_bind].
  unfold replay. cbn [tm_wal].
  rewrite (recover_holds 2 w _ _ Hw) by first [by constructor|cbn; lia].
  cbn [mbind option_bind fmap list_fmap txn record_op t_ops app operation apply_all tm_fs].
  unfold apply, describe. rewrite Hf. cbn [expect]. by eexists.
Qed.

(** The second test fails on every file system below: a commit that succeeds has emptied
    the log, which the test expects to hold data. *)
Theorem atomicity_test_fails fs v :
  entry_encode (MkEntry 1 (OpWrite 1 0 (bs "Atomicity Test"))) = inr v -> zlen v < 2 ^ 32 ->
  test_transaction_atomicity fs = None.
Proof.
  intros He Hv. unfold test_transaction_atomicity, test_write, test_manager.
  set (m0 := set_wal_storage _ (manager_new fs)).
  change (begin_transaction m0) with (MkTxn 1 [], MkManager (tm_wal m0) 2 fs). cbv iota.
  set (txn := record_op _ _).
  destruct (write_ahead_holds txn [v] (tm_wal m0) (test_manager_holds fs)) as (w & E & Ee & Hw).
  { by constructor. }
  { rewrite zlen_frames_cons. change (zlen (frames [])) with 0. lia. }
  unfold commit. cbn [tm_wal tm_fs tm_next]. rewrite E.
  destruct (apply_all (t_ops txn) fs) as [[msg|[]] s]; [done|]. cbn [expect mbind option_bind tm_wal].
  destruct (clear_own (t_id txn) (t_ops txn) w _ _ Hw Ee) as [[(st & Est & Ed) _ _ _] _].
  cbn [mbind option_bind]. etrans; [exact (f_equal (mbind _) Est)|].
  cbn. change (wal_data st) with st in Ed. by rewrite Ed.
Qed.

(** The third never touches the file system below. *)
Theorem rollback_test_passes fs :
  exists m, test_rollback_safety fs = Some m /\ tm_fs m = fs.
Proof. by eexists. Qed.
End tests.

(** ** The example of the operation sets *)

Section operate.
Context {D : Type} `{NestedDb D, SliceConfig}.

(** [get_or_create_bucket(k).unwrap()]. *)
Definition bucket_or_new (p : list bytes) (k : bytes) : Ex (list bytes) :=
  b ← has_bucket p k;
  (if b : bool then mret tt else ex_change (fun d => nb_create d p k));;
  mret (p ++ [k]).

Definition put_all (p : list bytes) (l : list (bytes * bytes)) : Ex unit :=
  for_each (fun kv : bytes * bytes => ex_change (fun d => nb_put d p kv.1 kv.2)) l.

Definition example_init_db : Ex unit := ex_tx (
  bucket ← bucket_or_new [] (bs "super_blk");
  put_all bucket [(bs "continue_number", usize_be 1); (bs "magic", u32_be 1111);
    (bs "blk_size", u32_be SLICE_SIZE); (bs "disk_size", u64_be (1024 * 1024 * 16))]).

Definition user_pairs : list (bytes * bytes) :=
  [(bs "name", bs "hello"); (bs "data1", bs "world"); (bs "data2", bs "world")].
Definition dir_pairs : list (bytes * bytes) :=
  [(bs "uid", bs "111"); (bs "gid", bs "222"); (bs "mode", bs "333")].

(** The first set, which fills [test], makes [dir1] and reads three values
    into the buffer at an address. *)
Definition first_set (buf : Z) : list Operate :=
  [AddKey user_pairs;
   AddBucket (bs "dir1") (Some [AddKey dir_pairs; AddBucket (bs "dir2") None]);
   Read [bs "name"; bs "data1"; bs "data2"] buf 20].

(** The second set renames the bucket and deletes a pair in it. *)
Definition second_set : list Operate :=
  [RenameKey (bs "dir1") (bs "dir2");
   StepInto (bs "dir2") (Some [DeleteKey [bs "mode"]])].

Definition operate_main (buf : Z) : Ex unit :=
  example_init_db;;
  r ← extend_create_global_bucket (bs "test");
  ex_unwrap (match r with inr _ => Some tt | inl _ => None end);;
  execute_operate (bs "test") (first_set buf);;
  execute_operate (bs "test") second_set;;
  mret tt.

(** One piece of [equal]: [get_kv(key).unwrap()] and the copy into the rest of
    the buffer. *)
Definition copy_value (p : list bytes) (key : bytes) (buf buf_len start : Z) : Ex Z :=
  x ← ex_look (fun d => nb_get d p key);
  v ← ex_unwrap (match x with Some (KeyValue v) => Some v | _ => None end);
  let min_ := Z.min (zlen v) (buf_len - start) in
  ((fun s => Some (start + min_, (fst s, poke (snd s) (buf + start) (take (Z.to_nat min_) v))))
     : Ex Z).

(** The statements of [equal] between the beginning of its transaction and its
    end, where it is dropped without a commit. *)
Definition equal_body (buf buf_len : Z) : Ex unit :=
  bucket ← get_bucket [] (bs "test");
  put_all bucket user_pairs;;
  start ← copy_value bucket (bs "name") buf buf_len 0;
  start ← copy_value bucket (bs "data1") buf buf_len start;
  _ ← copy_value bucket (bs "data2") buf buf_len start;
  ex_change (fun d => nb_create d bucket (bs "dir1"));;
  dir ← mret (bucket ++ [bs "dir1"]);
  put_all dir dir_pairs;;
  ex_change (fun d => nb_create d dir (bs "dir2")).
End operate.

(** ** The set and the code it stands for *)

Section agreement.
Context {D : Type} `{NestedDb D, !NestedDbLaws D}.
Implicit Types (d : D) (p : list bytes) (k : bytes) (m : memory).

Lemma bind_ok {A B} (x : Ex (D := D) A) (f : A -> Ex B) s a s' r :
  x s = Some (a, s') -> f a s' = r -> (x ≫= f) s = r.
Proof. intros E <-. unfold mbind, ex_bind. by rewrite E. Qed.

Lemma live_bucket d p k : nb_get d p k = Some SubBucket -> live d (p ++ [k]).
Proof. intros Hg. right. by exists p, k. Qed.

Lemma put_keeps d d' p k v p' : live d p -> nb_put d p k v = Some d' -> live d p' -> live d' p'.
Proof.
  intros Hl E [->|(p0 & k0 & -> & Hg)]; [by left|]. pose proof (nb_put_spec d p k v Hl) as Hs.
  rewrite E in Hs. destruct Hs as [Hn Hs]. apply live_bucket. rewrite Hs, decide_False; [done|].
  intros [-> ->]. by apply Hn.
Qed.

(** Pairs put one after the other, under keys of which none is a bucket. *)
Lemma put_all_runs l d p :
  live d p -> NoDup l.*1 -> Forall (fun k => nb_get d p k <> Some SubBucket) l.*1 ->
  exists d', (forall m, put_all p l (d, m) = Some (tt, (d', m))) /\ live d' p /\
    (forall k v, (k, v) ∈ l -> nb_get d' p k = Some (KeyValue v)) /\
    (forall p' k, p' <> p \/ k ∉ l.*1 -> nb_get d' p' k = nb_get d p' k).
Proof.
  revert d. induction l as [|[k v] l IH]; intros d Hl Hnd Hf.
  { exists d. split_and!; [done|done|by intros ?? ?%elem_of_nil|done]. }
  apply NoDup_cons in Hnd as [Hk Hnd]. apply Forall_cons in Hf as [Hg Hf].
  pose proof (nb_put_spec d p k v Hl) as Hs. cbn [fst snd fmap] in *.
  destruct (nb_put d p k v) as [d1|] eqn:E; [|done]. destruct Hs as [_ Hs].
  destruct (IH d1) as (d' & E' & Hl' & Hin & Hout); [by eapply put_keeps|done|..].
  { apply Forall_forall. intros k' Hk'. rewrite Hs, decide_False by (intros [_ ->]; done).
    by eapply Forall_forall in Hf. }
  exists d'. split_and!; [|done|..].
  - intros m. unfold put_all in *. cbn [for_each]. eapply bind_ok; [|apply E']. by apply change_ok.
  - intros k' v' [[= -> ->]|Hin']%elem_of_cons; [|by apply Hin].
    rewrite Hout by (by right). by rewrite Hs, decide_True.
  - intros p' k' Ho. rewrite Hout, Hs, decide_False; [done| |].
    + intros [-> ->]. destruct Ho as [Ho|Ho]; [done|]. apply Ho. by left.
    + destruct Ho as [Ho|Ho]; [by left|]. right. intros Hi. apply Ho. by right.
Qed.

Lemma create_new d p k :
  live d p -> nb_get d p k = None ->
  exists d', (forall m, ex_change (fun d => nb_create d p k) (d, m) = Some (tt, (d', m))) /\
    nb_get d' p k = Some SubBucket /\
    (forall p' k', p' <> p \/ k' <> k -> nb_get d' p' k' = nb_get d p' k').
Proof.
  intros Hl Hg. pose proof (nb_create_spec d p k Hl) as Hs.
  destruct (nb_create d p k) as [d'|] eqn:E; [|rewrite Hg in Hs; by destruct Hs].
  destruct Hs as [_ Hs]. exists d'. split_and!; [intros m; by apply change_ok|by rewrite Hs, decide_True|].
  intros p' k' Ho. rewrite Hs, decide_False; [done|]. intros [-> ->]. by destruct Ho.
Qed.

(** A value as the set and as [equal] read it. *)
Lemma read_keys_step d p k v keys buf n o m :
  nb_get d p k = Some (KeyValue v) ->
  read_keys p (k :: keys) buf n o (d, m) =
  let len := Z.min (n - o) (zlen v) in
  read_keys p keys buf n (o + len) (d, poke m (buf + o) (take (Z.to_nat len) v)).
Proof. intros E. cbn [read_keys]. unfold mbind, ex_bind, ex_look. cbn [fst]. by rewrite E. Qed.

Lemma copy_value_step d p k v buf n o m :
  nb_get d p k = Some (KeyValue v) ->
  copy_value p k buf n o (d, m) =
  let len := Z.min (n - o) (zlen v) in
  Some (o + len, (d, poke m (buf + o) (take (Z.to_nat len) v))).
Proof.
  intros E. unfold copy_value, mbind, ex_bind, ex_look. cbn [fst]. rewrite E. cbn.
  by rewrite (Z.min_comm (zlen v)).
Qed.

(** The databases on the way: after the pairs of [test], with [dir1], with its
    pairs, and at the end. *)
Lemma filling d (t := [bs "test"]) (dir := t ++ [bs "dir1"]) :
  nb_get d [] (bs "test") = Some SubBucket ->
  Forall (fun k => nb_get d t k <> Some SubBucket) user_pairs.*1 ->
  nb_get d t (bs "dir1") = None ->
  exists d1 d2 d3 d4,
    (forall m, put_all t user_pairs (d, m) = Some (tt, (d1, m))) /\
    nb_get d1 t (bs "dir1") = None /\
    (forall m, ex_change (fun d => nb_create d t (bs "dir1")) (d1, m) = Some (tt, (d2, m))) /\
    (forall m, put_all dir dir_pairs (d2, m) = Some (tt, (d3, m))) /\
    nb_get d3 dir (bs "dir2") = None /\
    (forall m, ex_change (fun d => nb_create d dir (bs "dir2")) (d3, m) = Some (tt, (d4, m))) /\
    (forall k v, (k, v) ∈ user_pairs ->
      nb_get d1 t k = Some (KeyValue v) /\ nb_get d4 t k = Some (KeyValue v)).
Proof.
  intros Ht Hn Hd.
  assert (Hl : live d t) by exact (live_bucket d [] (bs "test") Ht).
  destruct (put_all_runs user_pairs d t Hl) as (d1 & E1 & Hl1 & Hin1 & Hout1); [by_eval|done|].
  assert (Hd1 : nb_get d1 t (bs "dir1") = None).
  { rewrite Hout1; [done|]. right. by_eval. }
  destruct (create_new d1 t (bs "dir1") Hl1 Hd1) as (d2 & E2 & Hg2 & Hout2).
  assert (Hfree : forall k, nb_get d2 dir k = None).
  { intros k. rewrite Hout2 by (by left). apply (nb_closed d1 t (bs "dir1") []). by rewrite Hd1. }
  destruct (put_all_runs dir_pairs d2 dir) as (d3 & E3 & Hl3 & _ & Hout3);
    [by apply live_bucket|by_eval|by repeat constructor; rewrite Hfree|].
  assert (Hd3 : nb_get d3 dir (bs "dir2") = None).
  { rewrite Hout3; [done|]. right. by_eval. }
  destruct (create_new d3 dir (bs "dir2") Hl3 Hd3) as (d4 & E4 & _ & Hout4).
  exists d1, d2, d3, d4. split_and!; [done..|]. intros k v Hk. split; [by apply Hin1|].
  rewrite Hout4, Hout3, Hout2; [by apply Hin1| |by left|by left].
  right. intros ->. apply (list_elem_of_fmap_2 fst) in Hk. revert Hk. cbn [fst].
  apply (bool_decide_unpack (bs "dir1" ∉ user_pairs.*1)). vm_compute. exact I.
Qed.

(** On a database with the bucket [test], where the three names are no
    buckets and [dir1] is free, the first set leaves the database and the
    buffer exactly as the statements of [equal] do, which read before they
    make the bucket. *)
Theorem first_set_is_equal d m buf :
  nb_get d [] (bs "test") = Some SubBucket ->
  Forall (fun k => nb_get d [bs "test"] k <> Some SubBucket) user_pairs.*1 ->
  nb_get d [bs "test"] (bs "dir1") = None ->
  exists d' m',
    execute_operate_real [bs "test"] (first_set buf) (d, m) = Some (tt, (d', m')) /\
    equal_body buf 20 (d, m) = Some (tt, (d', m')).
Proof.
  intros Ht Hn Hd. destruct (filling d Ht Hn Hd)
    as (d1 & d2 & d3 & d4 & E1 & Hd1 & E2 & E3 & Hd3 & E4 & Hr).
  destruct (Hr (bs "name") (bs "hello")) as [R1 R1']; [by_eval|].
  destruct (Hr (bs "data1") (bs "world")) as [R2 R2']; [by_eval|].
  destruct (Hr (bs "data2") (bs "world")) as [R3 R3']; [by_eval|].
  exists d4. eexists. split.
  - unfold first_set. cbn [execute_operate_real].
    eapply bind_ok; [apply E1|]. eapply bind_ok.
    { cbn [execute_one]. eapply bind_ok; [unfold has_bucket, ex_look; cbn [fst]; by rewrite Hd1|].
      eapply bind_ok; [apply E2|]. eapply bind_ok; [apply E3|].
      eapply bind_ok; [|reflexivity].
      eapply bind_ok; [unfold has_bucket, ex_look; cbn [fst]; by rewrite Hd3|].
      by eapply bind_ok; [apply E4|]. }
    eapply bind_ok; [|reflexivity]. cbn [execute_one].
    rewrite (read_keys_step _ _ _ _ _ _ _ _ _ R1'). cbv zeta.
    rewrite (read_keys_step _ _ _ _ _ _ _ _ _ R2'). cbv zeta.
    rewrite (read_keys_step _ _ _ _ _ _ _ _ _ R3'). reflexivity.
  - unfold equal_body. eapply bind_ok.
    { unfold get_bucket, has_bucket, ex_look, mbind, ex_bind. cbn [fst]. by rewrite Ht. }
    eapply bind_ok; [apply E1|].
    eapply bind_ok; [exact (copy_value_step _ _ _ _ _ _ _ _ R1)|].
    eapply bind_ok; [exact (copy_value_step _ _ _ _ _ _ _ _ R2)|].
    eapply bind_ok; [exact (copy_value_step _ _ _ _ _ _ _ _ R3)|].
    eapply bind_ok; [apply E2|]. eapply bind_ok; [reflexivity|].
    eapply bind_ok; [apply E3|]. apply E4.
Qed.
End agreement.

(** ** The example on an empty database *)

Definition empty_db : nestdb := ∅.
Definition operate_run : option (unit * (nestdb * memory)) := operate_main 1000 (empty_db, zero_memory).

(** What the example prints: the buffer, and after the second set the bucket
    under its new name without the deleted pair. *)
Example operate_buffer :
  (fun r => match r with Some (_, (_, m)) => (fun i => m (1000 + Z.of_nat i)) <$> seq 0 20 | None => [] end)
    operate_run = bs "helloworldworld" ++ replicate 5 Byte.x00.
Proof. vm_compute. reflexivity. Qed.

Example operate_second_set :
  (fun r => match r with
     | Some (_, (d, _)) => Some (nb_get d [bs "test"] (bs "dir1"), nb_get d [bs "test"] (bs "dir2"),
         nb_get d [bs "test"; bs "dir2"] (bs "uid"), nb_get d [bs "test"; bs "dir2"] (bs "mode"),
         nb_get d [bs "test"; bs "dir2"] (bs "dir2"))
     | None => None end) operate_run =
  Some (None, Some SubBucket, Some (KeyValue (bs "111")), None, Some SubBucket).
Proof. vm_compute. reflexivity. Qed.
