(* ===== verification/Rvfs2Common.v ===== *)
(** * The database functions of the second VFS adapter: src/src/rvfs2/common.rs

    A second implementation of the operations, independent of the common
    layer. A node is a bucket as there, but the names of a directory are keys
    of the bucket themselves, next to "mode", "size" and the other
    attributes; the value of a name is the number in eight bytes; the data is
    kept in blocks "data_0", "data_1", ... of whatever was written.

    The errors of the database are [Err]; those the code makes itself
    ([DbfsResult::Err("...")]) are messages, [inl]. *)

From S2P Require Import Prelude Bytes Common Store Fuse.

(** The variants the module names ([File], [Dir], [Symlink]). *)
Inductive Rvfs2Type := R2File | R2Dir | R2Symlink.

#[export] Instance Rvfs2Type_eq_dec : EqDecision Rvfs2Type.
Proof. solve_decision. Defined.

(** The attributes [dbfs_get_attr] returns. *)
Record Rvfs2Attr := MkRvfs2Attr {
  r2_ino : Z; r2_size : Z; r2_mode : Z; r2_uid : Z; r2_gid : Z; r2_atime : DbfsTimeSpec;
  r2_mtime : DbfsTimeSpec; r2_ctime : DbfsTimeSpec; r2_hard_links : Z }.

Definition begins_with (p s : bytes) : bool := bool_decide (p `prefix_of` s).

(** [trim_start_matches("data_")] takes away every leading "data_". *)
Fixpoint trim_data (fuel : nat) (s : bytes) : bytes :=
  match fuel with
  | O => s
  | S fuel => if begins_with (bs "data_") s then trim_data fuel (drop 5 s) else s
  end.

(** [format!("data_{}", n)] for a [u64]. *)
Definition block_key (n : Z) : bytes := bs "data_" ++ usize_to_string n.

(** [from_utf8(key).unwrap_or("")]. *)
Definition key_text (k : bytes) : bytes := if utf8_ok k then k else [].

(** The prefixes of the keys that [dbfs_rmdir] and [dbfs_readdir] take for
    attributes. *)
Definition attr_prefixes : list bytes :=
  [bs "mode"; bs "size"; bs "uid"; bs "gid"; bs "atime"; bs "mtime"; bs "ctime";
   bs "hard_links"].
Definition attr_like (k : bytes) : bool := existsb (fun p => begins_with p k) attr_prefixes.

Section ops.
Context {D : Type} `{JammDb D}.

(** ** Transactions with messages *)

(** The body of a transaction that ends without [commit], or a look into the
    one that has begun. *)
Definition peek {A} (body : Tx D A) : Op D A := fun w =>
  match body (w_db w) with
  | Ok (a, _) => (Ok a, w)
  | Err e => (Err e, w)
  | Panic => (Panic, w)
  end.

(** [body; tx.commit()?; Ok(a)]; a message drops the transaction. *)
Definition str_commit {A} (body : Tx D (bytes + A)) : Op D (bytes + A) := fun w =>
  match body (w_db w) with
  | Ok (inr a, d) =>
      match db_commit (w_db w) d with
      | Some e => (Err (from_jamm e), w)
      | None => (Ok (inr a), set_db w d)
      end
  | Ok (inl msg, _) => (Ok (inl msg), w)
  | Err e => (Err e, w)
  | Panic => (Panic, w)
  end.

Definition str_write_tx {A} (body : Tx D (bytes + A)) : Op D (bytes + A) :=
  op_begin Question true;; str_commit body.
Definition str_read_tx {A} (body : Tx D (bytes + A)) : Op D (bytes + A) :=
  op_begin Question false;; peek body.

(** [bucket.get_kv(k).map(|kv| conv!(kv.value())).unwrap_or(z)]. *)
Definition field_or {A} (conv : bytes -> option A) (z : A) (h k : bytes) : Tx D A :=
  v ← get_kv h k;
  match v with Some v => tx_unwrap (conv v) | None => mret z end.

(** ** The operations *)

(** The buffer comes back with the bytes copied into it. The offset chooses
    the block, and no more. *)
Definition rvfs2_read (number : Z) (buf : bytes) (offset : Z) : Op D (Z * bytes) :=
  op_begin Question true;;
  peek (
    bucket ← get_bucket (usize_be number);
    v ← get_kv bucket (block_key (offset / 4096));
    match v with
    | Some value =>
        let bytes_to_read := Z.min (zlen buf) (zlen value) in
        piece ← tx_unwrap (slice value 0 bytes_to_read);
        buf ← tx_unwrap (copy_into buf 0 bytes_to_read piece);
        mret (bytes_to_read, buf)
    | None => mret (0, buf)
    end).

(** The part of [dbfs_write] behind [tx.commit()]. *)
Definition write_size (bucket buf : bytes) (offset : Z) : Tx D unit :=
  current_size ← field_or u64_of 0 bucket (bs "size");
  let new_size := Z.max current_size (w64 (offset + zlen buf)) in
  put bucket (bs "size") (u64_be new_size).

(** The size is put into the transaction after its commit: nothing commits
    it. *)
Definition rvfs2_write (number : Z) (buf : bytes) (offset : Z) : Op D Z :=
  write_tx Question Question (
    bucket ← get_bucket (usize_be number);
    put bucket (block_key (offset / 4096)) buf);;
  peek (write_size (usize_be number) buf offset);;
  mret (zlen buf).

Definition rvfs2_get_attr (number : Z) : Op D Rvfs2Attr :=
  op_begin Question true;;
  peek (
    bucket ← get_bucket (usize_be number);
    mode ← field_or (fun v => Perm.from_bits_truncate <$> u16_of v)
             (Perm.from_bits_truncate 0x1ED) bucket (bs "mode");
    size ← field_or u64_of 0 bucket (bs "size");
    uid ← field_or u32_of 0 bucket (bs "uid");
    gid ← field_or u32_of 0 bucket (bs "gid");
    atime ← field_or time_of_bytes time_default bucket (bs "atime");
    mtime ← field_or time_of_bytes time_default bucket (bs "mtime");
    ctime ← field_or time_of_bytes time_default bucket (bs "ctime");
    hard_links ← field_or u32_of 1 bucket (bs "hard_links");
    mret (MkRvfs2Attr number size mode uid gid atime mtime ctime hard_links)).

(** The keys of the blocks from [start_block] on. *)
Definition block_from (start_block : Z) (k : bytes) : bool :=
  let key := key_text k in
  begins_with (bs "data_") key &&
  match parse_usize (trim_data (length key) key) with
  | Some block_num => start_block <=? block_num
  | None => false
  end.

Fixpoint delete_all (bucket : bytes) (keys : list bytes) : Tx D unit :=
  match keys with
  | [] => mret tt
  | key :: keys => delete bucket key;; delete_all bucket keys
  end.

Definition truncate_blocks_tx (number size : Z) : Tx D unit :=
  bucket ← get_bucket (usize_be number);
  put bucket (bs "size") (u64_be size);;
  let start_block := w64 (w64 (size + 4096) - 1) / 4096 in
  pairs ← kv_pairs bucket;
  let blocks_to_remove := filter (fun k => block_from start_block k = true) pairs.*1 in
  delete_all bucket blocks_to_remove.

Definition rvfs2_truncate (number size : Z) : Op D unit :=
  write_tx Question Question (truncate_blocks_tx number size).

(** The name is free, or a message. *)
Definition name_free (parent : Z) (name msg : bytes) : Tx D (bytes + unit) :=
  parent_bucket ← get_bucket (usize_be parent);
  found ← get_kv parent_bucket name;
  mret (match found with Some _ => inl msg | None => inr tt end).

Definition type_flag (file_type : Rvfs2Type) : Z :=
  match file_type with
  | R2File => Perm.S_IFREG | R2Dir => Perm.S_IFDIR | R2Symlink => Perm.S_IFLNK
  end.

(** The attributes of a new node. *)
Definition put_attrs (new_inode : bytes) (mode size uid gid : Z) : Tx D unit :=
  let now := time_to_be_bytes time_default in
  put new_inode (bs "mode") (u16_be mode);;
  put new_inode (bs "size") (u64_be size);;
  put new_inode (bs "hard_links") (u32_be 1);;
  put new_inode (bs "uid") (u32_be uid);;
  put new_inode (bs "gid") (u32_be gid);;
  put new_inode (bs "atime") now;;
  put new_inode (bs "mtime") now;;
  put new_inode (bs "ctime") now.

Definition create_node_tx (ino parent : Z) (name : bytes) (file_type : Rvfs2Type)
    (uid gid mode : Z) : Tx D (bytes + Z) :=
  new_inode ← create_bucket (usize_be ino);
  put_attrs new_inode (Perm.union mode (type_flag file_type)) 0 uid gid;;
  let parent_bucket := usize_be parent in
  put parent_bucket name (usize_be ino);;
  tx_when (bool_decide (file_type = R2Dir))
    (parent_links ← field_or u32_of 2 parent_bucket (bs "hard_links");
     put parent_bucket (bs "hard_links") (u32_be (w32 (parent_links + 1))));;
  mret (inr ino).

(** The number is drawn inside the transaction, and stays drawn when it
    fails. *)
Definition rvfs2_create (parent : Z) (name : bytes) (file_type : Rvfs2Type)
    (uid gid mode : Z) : Op D (bytes + Z) :=
  op_begin Question true;;
  free ← peek (name_free parent name (bs "File exists"));
  match free with
  | inl msg => mret (inl msg)
  | inr _ =>
      ino ← fetch_next;
      str_commit (create_node_tx ino parent name file_type uid gid mode)
  end.

Definition rvfs2_lookup (parent : Z) (name : bytes) : Op D (option Z) :=
  op_begin Question false;;
  peek (
    parent_bucket ← get_bucket (usize_be parent);
    found ← get_kv parent_bucket name;
    match found with
    | Some v => ino ← tx_unwrap (usize_of v); mret (Some ino)
    | None => mret None
    end).

(** The number under a name, or a message. *)
Definition entry_number (parent : Z) (name msg : bytes) : Tx D (bytes + Z) :=
  parent_bucket ← get_bucket (usize_be parent);
  entry ← get_kv parent_bucket name;
  match entry with
  | None => mret (inl msg)
  | Some v => ino ← tx_unwrap (usize_of v); mret (inr ino)
  end.

(** Bodies that end with a message. *)
Definition msg_bind {A B} (m : Tx D (bytes + A)) (f : A -> Tx D (bytes + B)) :
  Tx D (bytes + B) :=
  r ← m; match r with inl msg => mret (inl msg) | inr a => f a end.

Definition link_node_tx (old_parent : Z) (old_name : bytes) (new_parent : Z)
    (new_name : bytes) : Tx D (bytes + unit) :=
  msg_bind (entry_number old_parent old_name (bs "Old file not found")) (fun ino =>
  msg_bind (name_free new_parent new_name (bs "New file already exists")) (fun _ =>
  put (usize_be new_parent) new_name (usize_be ino);;
  inode_bucket ← get_bucket (usize_be ino);
  links ← field_or u32_of 1 inode_bucket (bs "hard_links");
  put inode_bucket (bs "hard_links") (u32_be (w32 (links + 1)));;
  mret (inr tt))).

Definition rvfs2_link (old_parent : Z) (old_name : bytes) (new_parent : Z)
    (new_name : bytes) : StrOp D unit :=
  str_write_tx (link_node_tx old_parent old_name new_parent new_name).

Definition unlink_node_tx (parent : Z) (name : bytes) : Tx D (bytes + unit) :=
  msg_bind (entry_number parent name (bs "File not found")) (fun ino =>
  delete (usize_be parent) name;;
  inode_bucket ← get_bucket (usize_be ino);
  links ← field_or u32_of 1 inode_bucket (bs "hard_links");
  (if links <=? 1 then delete_bucket (usize_be ino)
   else put inode_bucket (bs "hard_links") (u32_be (w32 (links - 1))));;
  mret (inr tt)).

Definition rvfs2_unlink (parent : Z) (name : bytes) : StrOp D unit :=
  str_write_tx (unlink_node_tx parent name).

(** The keys [dbfs_readdir] takes for names; the value of each must have
    eight bytes. *)
Definition listed (k : bytes) : bool :=
  utf8_ok k && negb (begins_with (bs "data_") k) && negb (attr_like k).

Fixpoint list_names (pairs : list (bytes * bytes)) : option (list (bytes * Z)) :=
  match pairs with
  | [] => Some []
  | (k, v) :: pairs =>
      if listed k
      then ino ← usize_of v; rest ← list_names pairs; Some ((k, ino) :: rest)
      else list_names pairs
  end.

Definition rvfs2_readdir (parent : Z) : Op D (list (bytes * Z)) :=
  op_begin Question false;;
  peek (
    bucket ← get_bucket (usize_be parent);
    pairs ← kv_pairs bucket;
    tx_unwrap (list_names pairs)).

(** What was under the new name is not looked at. *)
Definition rename_node_tx (old_parent : Z) (old_name : bytes) (new_parent : Z)
    (new_name : bytes) : Tx D (bytes + unit) :=
  msg_bind (entry_number old_parent old_name (bs "Old file not found")) (fun ino =>
  delete (usize_be old_parent) old_name;;
  (if old_parent =? new_parent
   then put (usize_be old_parent) new_name (usize_be ino)
   else new_bucket ← get_bucket (usize_be new_parent);
        put new_bucket new_name (usize_be ino));;
  mret (inr tt)).

Definition rvfs2_rename (old_parent : Z) (old_name : bytes) (new_parent : Z)
    (new_name : bytes) (_flags : Z) : StrOp D unit :=
  str_write_tx (rename_node_tx old_parent old_name new_parent new_name).

(** The parent is looked for after the number is drawn; whether the name is
    free is not asked. *)
Definition symlink_node_tx (ino parent : Z) (name target : bytes) (uid gid : Z) :
  Tx D (bytes + Z) :=
  new_inode ← create_bucket (usize_be ino);
  let mode := Perm.union Perm.S_IFLNK (Perm.from_bits_truncate 0x1FF) in
  put_attrs new_inode mode (zlen target) uid gid;;
  put new_inode (bs "symlink_target") target;;
  parent_bucket ← get_bucket (usize_be parent);
  put parent_bucket name (usize_be ino);;
  mret (inr ino).

Definition rvfs2_symlink (parent : Z) (name target : bytes) (uid gid : Z) : Op D (bytes + Z) :=
  op_begin Question true;;
  ino ← fetch_next;
  str_commit (symlink_node_tx ino parent name target uid gid).

Definition rvfs2_readlink (ino : Z) : StrOp D bytes :=
  str_read_tx (
    bucket ← get_bucket (usize_be ino);
    v ← get_kv bucket (bs "symlink_target");
    mret (match v with
          | Some target =>
              if utf8_ok target then inr target else inl (bs "Invalid symlink target")
          | None => inl (bs "Not a symlink")
          end)).

(** A key that is not an attribute makes the directory a full one. *)
Definition looks_empty (pairs : list (bytes * bytes)) : bool :=
  forallb (fun kv => attr_like (key_text kv.1)) pairs.

(** The handle of a bucket that the transaction has deleted: using it is taken
    for a panic of the database. *)
Definition tx_live (bucket : bytes) : Tx D unit := fun d =>
  if db_has d bucket then Ok (tt, d) else Panic.

Definition rmdir_node_tx (parent : Z) (name : bytes) : Tx D (bytes + unit) :=
  msg_bind (entry_number parent name (bs "Directory not found")) (fun ino =>
  dir_bucket ← get_bucket (usize_be ino);
  pairs ← kv_pairs dir_bucket;
  if negb (looks_empty pairs) then mret (inl (bs "Directory not empty")) else
    delete (usize_be parent) name;;
    delete_bucket (usize_be ino);;
    tx_live (usize_be parent);;
    parent_links ← field_or u32_of 2 (usize_be parent) (bs "hard_links");
    put (usize_be parent) (bs "hard_links") (u32_be (w32 (parent_links - 1)));;
    mret (inr tt)).

Definition rvfs2_rmdir (parent : Z) (name : bytes) : StrOp D unit :=
  str_write_tx (rmdir_node_tx parent name).
(** ** What a look into a transaction returns *)

Lemma peek_ok {A} (body : Tx D A) (w : world D) a d : body (w_db w) = Ok (a, d) -> peek body w = (Ok a, w).
Proof. intros E. unfold peek. by rewrite E. Qed.
Lemma peek_err {A} (body : Tx D A) (w : world D) e : body (w_db w) = Err e -> peek body w = (Err e, w).
Proof. intros E. unfold peek. by rewrite E. Qed.
End ops.
