(* ===== verification/Rvfs2Tree.v ===== *)
(** * The file system the second adapter's functions promise

    What a database written by src/src/rvfs2/common.rs stands for: nodes with
    attributes, names, blocks and perhaps a target, and each operation of
    the module as a function on them. The keys of a bucket are told apart by
    [key_of]; [stored] is the value a node has under each of them, and
    [stands] relates a database and a file system. *)

From S2P Require Import Prelude Bytes Common Store MapDb Fuse Rvfs2Common.

(** ** Nodes and file systems *)

Record r2node := R2Node {
  rn_mode : Z; rn_size : Z; rn_links : Z; rn_uid : Z; rn_gid : Z;
  rn_target : option bytes; rn_names : gmap bytes Z; rn_blocks : gmap Z bytes }.

Definition rn_with_size (z : Z) (n : r2node) : r2node :=
  R2Node (rn_mode n) z (rn_links n) (rn_uid n) (rn_gid n) (rn_target n) (rn_names n)
    (rn_blocks n).
Definition rn_with_links (z : Z) (n : r2node) : r2node :=
  R2Node (rn_mode n) (rn_size n) z (rn_uid n) (rn_gid n) (rn_target n) (rn_names n)
    (rn_blocks n).
Definition rn_with_names (f : gmap bytes Z -> gmap bytes Z) (n : r2node) : r2node :=
  R2Node (rn_mode n) (rn_size n) (rn_links n) (rn_uid n) (rn_gid n) (rn_target n)
    (f (rn_names n)) (rn_blocks n).
Definition rn_with_blocks (f : gmap Z bytes -> gmap Z bytes) (n : r2node) : r2node :=
  R2Node (rn_mode n) (rn_size n) (rn_links n) (rn_uid n) (rn_gid n) (rn_target n)
    (rn_names n) (f (rn_blocks n)).

(** The nodes, and the number the next one gets. *)
Record r2fs := R2Fs { rs_nodes : gmap Z r2node; rs_next : Z }.

Definition rs_alter (f : r2node -> r2node) (ino : Z) (s : r2fs) : r2fs :=
  R2Fs (alter f ino (rs_nodes s)) (rs_next s).
Definition rs_insert (ino : Z) (n : r2node) (s : r2fs) : r2fs :=
  R2Fs (<[ino := n]> (rs_nodes s)) (rs_next s).
Definition rs_delete (ino : Z) (s : r2fs) : r2fs :=
  R2Fs (base.delete ino (rs_nodes s)) (rs_next s).
Definition rs_bump (s : r2fs) : r2fs := R2Fs (rs_nodes s) (w64 (rs_next s + 1)).

(** ** The keys of a bucket *)

Inductive r2key :=
  | KMode | KSize | KLinks | KUid | KGid | KAtime | KMtime | KCtime | KTarget
  | KBlock (i : Z) | KName | KOther.

Definition fixed_keys : list (bytes * r2key) :=
  [(bs "mode", KMode); (bs "size", KSize); (bs "hard_links", KLinks); (bs "uid", KUid);
   (bs "gid", KGid); (bs "atime", KAtime); (bs "mtime", KMtime); (bs "ctime", KCtime);
   (bs "symlink_target", KTarget)].

Fixpoint find_key (k : bytes) (l : list (bytes * r2key)) : option r2key :=
  match l with
  | [] => None
  | (k', c) :: l => if bool_decide (k = k') then Some c else find_key k l
  end.

Definition key_of (k : bytes) : r2key :=
  match find_key k fixed_keys with
  | Some c => c
  | None =>
      if begins_with (bs "data_") k
      then match parse_usize (drop 5 k) with
           | Some i => if bool_decide (k = block_key i) then KBlock i else KOther
           | None => KOther
           end
      else if utf8_ok k then KName else KOther
  end.

(** The names that are no keys of attributes, blocks or targets. *)
Definition good_name (name : bytes) : Prop := key_of name = KName.

#[export] Instance good_name_dec name : Decision (good_name name).
Proof. unfold good_name. destruct (key_of name); first [by left|by right]. Defined.

(** Names that begin like an attribute are entries as any other, but
    [dbfs_readdir] does not list them and [dbfs_rmdir] does not see them. *)
Definition visible (m : gmap bytes Z) : gmap bytes Z := filter (fun kv => attr_like kv.1 = false) m.

(** What a node has under a key. *)
Definition stored (n : r2node) (k : bytes) : option bytes :=
  match key_of k with
  | KMode => Some (u16_be (rn_mode n))
  | KSize => Some (u64_be (rn_size n))
  | KLinks => Some (u32_be (rn_links n))
  | KUid => Some (u32_be (rn_uid n))
  | KGid => Some (u32_be (rn_gid n))
  | KAtime | KMtime | KCtime => Some (time_to_be_bytes time_default)
  | KTarget => rn_target n
  | KBlock i => rn_blocks n !! i
  | KName => usize_be <$> rn_names n !! k
  | KOther => None
  end.

(** ** The operations *)

Section spec.
Implicit Types s : r2fs.

Definition spec_lookup (parent : Z) (name : bytes) (s : r2fs) : outcome (option Z) :=
  match rs_nodes s !! parent with
  | Some p => Ok (rn_names p !! name)
  | None => Err NoData
  end.

Definition spec_new (mode size uid gid : Z) (target : option bytes) : r2node :=
  R2Node mode size 1 uid gid target ∅ ∅.

Definition spec_create (parent : Z) (name : bytes) (file_type : Rvfs2Type)
    (uid gid mode : Z) (s : r2fs) : outcome (bytes + Z) * r2fs :=
  match rs_nodes s !! parent with
  | None => (Err NoData, s)
  | Some p =>
      match rn_names p !! name, rs_nodes s !! rs_next s with
      | Some _, _ => (Ok (inl (bs "File exists")), s)
      | None, Some _ => (Err FileExists, rs_bump s)
      | None, None =>
          let ino := rs_next s in
          let new := spec_new (Perm.union mode (type_flag file_type)) 0 uid gid None in
          let more := bool_decide (file_type = R2Dir) in
          (Ok (inr ino),
           rs_alter (fun p =>
             rn_with_links (if more then w32 (rn_links p + 1) else rn_links p)
               (rn_with_names (<[name := ino]>) p)) parent
             (rs_insert ino new (rs_bump s)))
      end
  end.

Definition spec_symlink (parent : Z) (name target : bytes) (uid gid : Z) (s : r2fs) :
  outcome (bytes + Z) * r2fs :=
  let ino := rs_next s in
  match rs_nodes s !! ino with
  | Some _ => (Err FileExists, rs_bump s)
  | None =>
      let new := spec_new (Z.lor Perm.S_IFLNK 0x1FF) (zlen target) uid gid (Some target) in
      let s' := rs_insert ino new (rs_bump s) in
      match rs_nodes s' !! parent with
      | None => (Err NoData, rs_bump s)
      | Some _ => (Ok (inr ino), rs_alter (rn_with_names (<[name := ino]>)) parent s')
      end
  end.

Definition spec_link (old_parent : Z) (old_name : bytes) (new_parent : Z)
    (new_name : bytes) (s : r2fs) : outcome (bytes + unit) * r2fs :=
  match spec_lookup old_parent old_name s with
  | Ok None => (Ok (inl (bs "Old file not found")), s)
  | Ok (Some ino) =>
      match spec_lookup new_parent new_name s with
      | Ok (Some _) => (Ok (inl (bs "New file already exists")), s)
      | Ok None =>
          match rs_nodes s !! ino with
          | None => (Err NoData, s)
          | Some _ =>
              (Ok (inr tt),
               rs_alter (fun n => rn_with_links (w32 (rn_links n + 1)) n) ino
                 (rs_alter (rn_with_names (<[new_name := ino]>)) new_parent s))
          end
      | Err e => (Err e, s)
      | Panic => (Panic, s)
      end
  | Err e => (Err e, s)
  | Panic => (Panic, s)
  end.

Definition spec_unlink (parent : Z) (name : bytes) (s : r2fs) :
  outcome (bytes + unit) * r2fs :=
  match spec_lookup parent name s with
  | Ok None => (Ok (inl (bs "File not found")), s)
  | Ok (Some ino) =>
      match rs_nodes s !! ino with
      | None => (Err NoData, s)
      | Some n =>
          let s := rs_alter (rn_with_names (base.delete name)) parent s in
          (Ok (inr tt),
           if rn_links n <=? 1 then rs_delete ino s
           else rs_alter (fun n => rn_with_links (rn_links n - 1) n) ino s)
      end
  | Err e => (Err e, s)
  | Panic => (Panic, s)
  end.

Definition spec_rename (old_parent : Z) (old_name : bytes) (new_parent : Z)
    (new_name : bytes) (s : r2fs) : outcome (bytes + unit) * r2fs :=
  match spec_lookup old_parent old_name s, rs_nodes s !! new_parent with
  | Ok None, _ => (Ok (inl (bs "Old file not found")), s)
  | Ok (Some ino), Some _ =>
      (Ok (inr tt),
       rs_alter (rn_with_names (<[new_name := ino]>)) new_parent
         (rs_alter (rn_with_names (base.delete old_name)) old_parent s))
  | Ok (Some _), None => (Err NoData, s)
  | Err e, _ => (Err e, s)
  | Panic, _ => (Panic, s)
  end.

(** A node without visible names, blocks or target. *)
Definition spec_empty (n : r2node) : bool :=
  bool_decide (visible (rn_names n) = ∅) && bool_decide (rn_blocks n = ∅)
  && bool_decide (rn_target n = None).

(** A directory that is entered in itself under a name that is not visible is
    deleted before its link count is set: a panic. *)
Definition spec_rmdir (parent : Z) (name : bytes) (s : r2fs) :
  outcome (bytes + unit) * r2fs :=
  match spec_lookup parent name s with
  | Ok None => (Ok (inl (bs "Directory not found")), s)
  | Ok (Some ino) =>
      match rs_nodes s !! ino with
      | None => (Err NoData, s)
      | Some n =>
          if spec_empty n
          then if ino =? parent then (Panic, s) else
               (Ok (inr tt),
                rs_alter (fun p =>
                  rn_with_links (w32 (rn_links p - 1)) (rn_with_names (base.delete name) p))
                  parent (rs_delete ino s))
          else (Ok (inl (bs "Directory not empty")), s)
      end
  | Err e => (Err e, s)
  | Panic => (Panic, s)
  end.

(** The block of an offset is replaced as a whole, and the size stays. *)
Definition spec_write (number : Z) (buf : bytes) (offset : Z) (s : r2fs) :
  outcome Z * r2fs :=
  match rs_nodes s !! number with
  | None => (Err NoData, s)
  | Some _ =>
      (Ok (zlen buf),
       rs_alter (rn_with_blocks (<[offset / 4096 := buf]>)) number s)
  end.

(** The blocks from the new end on go; the last one keeps its length. *)
Definition spec_truncate (number size : Z) (s : r2fs) : outcome unit * r2fs :=
  match rs_nodes s !! number with
  | None => (Err NoData, s)
  | Some _ =>
      let start := w64 (w64 (size + 4096) - 1) / 4096 in
      (Ok tt,
       rs_alter (fun n =>
         rn_with_size size (rn_with_blocks (filter (fun kv => kv.1 < start)) n)) number s)
  end.

Definition spec_read (number : Z) (buf : bytes) (offset : Z) (s : r2fs) :
  outcome (Z * bytes) :=
  match rs_nodes s !! number with
  | None => Err NoData
  | Some n =>
      match rn_blocks n !! (offset / 4096) with
      | Some v => let k := Z.min (zlen buf) (zlen v) in
                  Ok (k, splice buf 0 (take (Z.to_nat k) v))
      | None => Ok (0, buf)
      end
  end.

Definition spec_get_attr (number : Z) (s : r2fs) : outcome Rvfs2Attr :=
  match rs_nodes s !! number with
  | None => Err NoData
  | Some n => Ok (MkRvfs2Attr number (rn_size n) (rn_mode n) (rn_uid n) (rn_gid n)
                    time_default time_default time_default (rn_links n))
  end.

Definition spec_readlink (ino : Z) (s : r2fs) : outcome (bytes + bytes) :=
  match rs_nodes s !! ino with
  | None => Err NoData
  | Some n =>
      match rn_target n with
      | Some target =>
          if utf8_ok target then Ok (inr target) else Ok (inl (bs "Invalid symlink target"))
      | None => Ok (inl (bs "Not a symlink"))
      end
  end.

(** The visible names in their order. A target is listed as if it were a name: it
    must have eight bytes. *)
Definition spec_readdir (parent : Z) (s : r2fs) : outcome (list (bytes * Z)) :=
  match rs_nodes s !! parent with
  | None => Err NoData
  | Some p =>
      match rn_target p with
      | None => Ok (sorted_pairs (visible (rn_names p)))
      | Some target =>
          match usize_of target with
          | Some i => Ok (sorted_pairs (<[bs "symlink_target" := i]> (visible (rn_names p))))
          | None => Panic
          end
      end
  end.
End spec.

(** ** The relation to the database *)

(** Every number has its width. *)
Record r2node_ok (n : r2node) : Prop := {
  rk_mode : is_u16 (rn_mode n);
  rk_size : is_u64 (rn_size n);
  rk_links : is_u32 (rn_links n);
  rk_uid : is_u32 (rn_uid n);
  rk_gid : is_u32 (rn_gid n);
  rk_names : forall name ino, rn_names n !! name = Some ino -> good_name name /\ is_u64 ino;
  rk_blocks : forall i v, rn_blocks n !! i = Some v -> is_u64 i }.

#[export] Hint Resolve rk_mode rk_size rk_links rk_uid rk_gid : fs.

Section stands.
Context {D : Type} `{JammDb D}.

Definition holds (d : D) (b : bytes) (n : r2node) : Prop :=
  db_has d b = true /\ r2node_ok n /\ forall k, db_get d b k = stored n k.

(** The buckets named by numbers are the nodes. *)
Record stands_for (d : D) (nodes : gmap Z r2node) : Prop := {
  sf_node : forall ino n, nodes !! ino = Some n -> is_u64 ino /\ holds d (usize_be ino) n;
  sf_none : forall ino, is_u64 ino -> nodes !! ino = None -> db_has d (usize_be ino) = false }.

(** The database of [w] stands for [s]. *)
Record stands (w : world D) (s : r2fs) : Prop := {
  st_nodes : stands_for (w_db w) (rs_nodes s);
  st_next : w_next w = rs_next s;
  st_next_ok : is_u64 (rs_next s) }.
End stands.
