(* ===== verification/Rvfs2Facts.v ===== *)
(** * The second adapter's functions keep what they promise

    Each operation of src/src/rvfs2/common.rs, run on a database that stands
    for a file system of [Rvfs2Tree], returns what the operation on the file
    system returns and ends in a database that stands for its result. *)

From S2P Require Import Prelude Bytes Common Store MapDb Fuse Rvfs2Common Rvfs2Tree.

(** ** Keys *)

Lemma begins_with_app p s : begins_with p (p ++ s) = true.
Proof. apply bool_decide_eq_true_2. by exists s. Qed.

Lemma key_of_block i : is_u64 i -> key_of (block_key i) = KBlock i.
Proof.
  intros Hi. unfold key_of.
  replace (find_key (block_key i) fixed_keys) with (@None r2key).
  2: { unfold fixed_keys. cbn [find_key].
       by rewrite !bool_decide_eq_false_2 by (unfold block_key; key_neq). }
  replace (begins_with (bs "data_") (block_key i)) with true by (symmetry; apply begins_with_app).
  change (drop 5 (block_key i)) with (usize_to_string i).
  rewrite parse_usize_to_string by done. by rewrite bool_decide_eq_true_2.
Qed.

Lemma find_key_some k c l : find_key k l = Some c -> (k, c) ∈ l.
Proof.
  induction l as [|[k' c'] l IH]; cbn; [done|]. case_bool_decide as E.
  - intros [= ->]. subst. by left.
  - intros Hf. right. by apply IH.
Qed.

(** A key that is not a name and not unknown is determined by its kind. *)
Definition canonical (c : r2key) : option bytes :=
  match c with
  | KMode => Some (bs "mode") | KSize => Some (bs "size") | KLinks => Some (bs "hard_links")
  | KUid => Some (bs "uid") | KGid => Some (bs "gid") | KAtime => Some (bs "atime")
  | KMtime => Some (bs "mtime") | KCtime => Some (bs "ctime")
  | KTarget => Some (bs "symlink_target") | KBlock i => Some (block_key i)
  | KName | KOther => None
  end.

Lemma key_of_canonical k k' : canonical (key_of k) = Some k' -> k = k'.
Proof.
  unfold key_of. destruct (find_key k fixed_keys) as [c|] eqn:E.
  - apply find_key_some in E. unfold fixed_keys in E. set_unfold in E.
    intros Hc. repeat destruct E as [E|E]; try done; injection E as -> ->;
      by injection Hc.
  - destruct (begins_with _ _).
    + destruct (parse_usize _) as [i|]; [|done]. case_bool_decide as Hk; [|done]. intros [= <-]. exact Hk.
    + by destruct (utf8_ok k).
Qed.

Lemma key_of_inj k k' c : key_of k = c -> key_of k' = c -> canonical c <> None -> k = k'.
Proof.
  intros E1 E2 Hc. destruct (canonical c) as [x|] eqn:Ec; [|done].
  rewrite (key_of_canonical k x), (key_of_canonical k' x); [done|by rewrite E2|by rewrite E1].
Qed.

Lemma good_name_key name : good_name name ->
  utf8_ok name = true /\ begins_with (bs "data_") name = false.
Proof.
  unfold good_name, key_of. destruct (find_key name fixed_keys) as [c|] eqn:E.
  - apply find_key_some in E. unfold fixed_keys in E. set_unfold in E.
    intros ->. repeat destruct E as [E|E]; try done.
  - destruct (begins_with _ _).
    + destruct (parse_usize _) as [i|]; [|done]. by case_bool_decide.
    + by destruct (utf8_ok name).
Qed.

(** ** One pair of a node *)

(** Two nodes that agree but for the value under [k]. *)
Definition agree_but (k : bytes) (n n' : r2node) : Prop :=
  forall k', k' <> k -> stored n' k' = stored n k'.

Ltac agree_tac :=
  intros k' Hk; unfold stored; destruct (key_of k') eqn:E; try done;
  exfalso; apply Hk; eapply key_of_inj; [exact E|vm_compute; reflexivity|done].

Lemma agree_size z n : agree_but (bs "size") n (rn_with_size z n).
Proof. agree_tac. Qed.
Lemma agree_links z n : agree_but (bs "hard_links") n (rn_with_links z n).
Proof. agree_tac. Qed.

Lemma agree_names f name n :
  (forall m : gmap bytes Z, forall nm, nm <> name -> f m !! nm = m !! nm) ->
  agree_but name n (rn_with_names f n).
Proof. intros Hf k Hk. unfold stored. destruct (key_of k); try done. cbn. by rewrite Hf. Qed.

Lemma agree_block f i n : is_u64 i ->
  (forall m : gmap Z bytes, forall j, j <> i -> f m !! j = m !! j) ->
  agree_but (block_key i) n (rn_with_blocks f n).
Proof.
  intros Hi Hf k Hk. unfold stored. destruct (key_of k) as [| | | | | | | | |j| |] eqn:E; try done.
  cbn. apply Hf. intros ->. apply Hk. symmetry. eapply key_of_inj; [by apply key_of_block|exact E|done].
Qed.

(** ** Nodes after an update *)

Lemma r2ok_with_size z n : r2node_ok n -> is_u64 z -> r2node_ok (rn_with_size z n).
Proof. by intros [] ?; split. Qed.
Lemma ok_with_links z n : r2node_ok n -> is_u32 z -> r2node_ok (rn_with_links z n).
Proof. by intros [] ?; split. Qed.

Lemma ok_add_name name i n :
  r2node_ok n -> good_name name -> is_u64 i -> r2node_ok (rn_with_names (<[name := i]>) n).
Proof.
  intros [] Hg Hi. split; try done. cbn. intros nm j E.
  destruct (decide (nm = name)) as [->|Hne].
  - rewrite lookup_insert_eq in E. by injection E as <-.
  - rewrite lookup_insert_ne in E by done. eauto.
Qed.

Lemma ok_del_name name n : r2node_ok n -> r2node_ok (rn_with_names (base.delete name) n).
Proof.
  intros []. split; try done. cbn. intros nm j [_ E]%lookup_delete_Some. eauto.
Qed.

Lemma ok_add_block i v n :
  r2node_ok n -> is_u64 i -> r2node_ok (rn_with_blocks (<[i := v]>) n).
Proof.
  intros [] Hi. split; try done. cbn. intros j x E.
  destruct (decide (j = i)) as [->|Hne]; [done|].
  rewrite lookup_insert_ne in E by done. eauto.
Qed.

#[export] Hint Resolve r2ok_with_size ok_with_links ok_add_name ok_del_name ok_add_block
  agree_size agree_links : fs.

Lemma agree_add name i n : agree_but name n (rn_with_names (<[name := i]>) n).
Proof. apply agree_names. intros m nm Hn. by apply lookup_insert_ne. Qed.
Lemma agree_del name n : agree_but name n (rn_with_names (base.delete name) n).
Proof. apply agree_names. intros m nm Hn. by apply lookup_delete_ne. Qed.

Lemma stored_add name i n : good_name name ->
  stored (rn_with_names (<[name := i]>) n) name = Some (usize_be i).
Proof. intros Hg. unfold stored. rewrite Hg. cbn. by rewrite lookup_insert_eq. Qed.
Lemma stored_del name n : good_name name -> stored (rn_with_names (base.delete name) n) name = None.
Proof. intros Hg. unfold stored. rewrite Hg. cbn. by rewrite lookup_delete_eq. Qed.
Lemma stored_links z n : stored (rn_with_links z n) (bs "hard_links") = Some (u32_be z).
Proof. done. Qed.

#[export] Hint Resolve agree_add agree_del stored_add stored_del stored_links : fs.

Lemma alter_as_insert (f : r2node -> r2node) i (m : gmap Z r2node) n :
  m !! i = Some n -> alter f i m = <[i := f n]> m.
Proof.
  intros E. apply map_eq. intros j. destruct (decide (j = i)) as [->|Hne].
  - by rewrite lookup_alter_eq, lookup_insert_eq, E.
  - by rewrite lookup_alter_ne, lookup_insert_ne.
Qed.

(** ** The database and the nodes *)

Section db.
Context {D : Type} `{JammDbLaws D}.
Implicit Types (d : D) (m : gmap Z r2node) (n : r2node).

Lemma usize_be_ne i j : is_u64 i -> is_u64 j -> j <> i -> usize_be j <> usize_be i.
Proof. intros Hi Hj Hne E. by apply Hne, usize_be_inj. Qed.

(** A change of one bucket is a change of one node. *)
Lemma stands_for_upd d d' m ino n :
  stands_for d m -> is_u64 ino -> holds d' (usize_be ino) n ->
  (forall b, b <> usize_be ino -> db_has d' b = db_has d b) ->
  (forall b k, b <> usize_be ino -> db_get d' b k = db_get d b k) ->
  stands_for d' (<[ino := n]> m).
Proof.
  intros [Hn Hz] Hi Hh Hhas Hget. split.
  - intros j nj Hj. destruct (decide (j = ino)) as [->|Hne].
    + rewrite lookup_insert_eq in Hj. by injection Hj as <-.
    + rewrite lookup_insert_ne in Hj by done. destruct (Hn j nj Hj) as (Hj64 & Hb & Hok & Hk).
      assert (usize_be j <> usize_be ino) by (by apply usize_be_ne).
      split; [done|]. split_and!; [by rewrite Hhas|done|]. intros k. by rewrite Hget.
  - intros j Hj64 Hj. destruct (decide (j = ino)) as [->|Hne].
    + by rewrite lookup_insert_eq in Hj.
    + rewrite lookup_insert_ne in Hj by done. rewrite Hhas by (by apply usize_be_ne). by apply Hz.
Qed.

Lemma stands_has d m ino n :
  stands_for d m -> m !! ino = Some n -> db_has d (usize_be ino) = true.
Proof. intros [Hn _] E. by destruct (Hn _ _ E) as (_ & ? & _). Qed.

Lemma stands_get d m ino n k :
  stands_for d m -> m !! ino = Some n -> db_get d (usize_be ino) k = stored n k.
Proof. intros [Hn _] E. destruct (Hn _ _ E) as (_ & _ & _ & Hk). apply Hk. Qed.

Lemma stands_ok d m ino n : stands_for d m -> m !! ino = Some n -> is_u64 ino /\ r2node_ok n.
Proof. intros [Hn _] E. destruct (Hn _ _ E) as (? & _ & ? & _). done. Qed.

Lemma holds_put d b n n' k v :
  holds d b n -> r2node_ok n' -> stored n' k = Some v -> agree_but k n n' ->
  holds (db_put d b k v) b n'.
Proof.
  intros (Hb & _ & Hk) Hok Hv Ha. split_and!; [by rewrite db_has_put|done|].
  intros k'. rewrite db_get_put by done. case_bool_decide as E.
  - destruct E as [_ ->]. done.
  - rewrite Ha by tauto. apply Hk.
Qed.

Lemma holds_delete d d' b n n' k :
  holds d b n -> db_delete d b k = Some d' -> r2node_ok n' -> stored n' k = None ->
  agree_but k n n' -> holds d' b n'.
Proof.
  intros (Hb & _ & Hk) Hd Hok Hv Ha. split_and!; [|done|].
  - by rewrite (db_has_delete _ _ _ _ _ Hd).
  - intros k'. rewrite (db_get_delete _ _ _ _ _ _ Hd). case_bool_decide as E.
    + destruct E as [_ ->]. done.
    + rewrite Ha by tauto. apply Hk.
Qed.

Lemma stands_put d m ino n n' k v :
  stands_for d m -> m !! ino = Some n -> r2node_ok n' -> stored n' k = Some v ->
  agree_but k n n' -> stands_for (db_put d (usize_be ino) k v) (<[ino := n']> m).
Proof.
  intros Hs E Hok Hv Ha. destruct (sf_node _ _ Hs _ _ E) as [Hi Hh].
  apply (stands_for_upd d); [done|done|by apply (holds_put _ _ n)| |].
  - intros b _. apply db_has_put.
  - intros b k' Hb. apply db_get_put_ne. by left.
Qed.

Lemma stands_delete d d' m ino n n' k :
  stands_for d m -> m !! ino = Some n -> db_delete d (usize_be ino) k = Some d' ->
  r2node_ok n' -> stored n' k = None -> agree_but k n n' ->
  stands_for d' (<[ino := n']> m).
Proof.
  intros Hs E Hd Hok Hv Ha. destruct (sf_node _ _ Hs _ _ E) as [Hi Hh].
  apply (stands_for_upd d); [done|done|by apply (holds_delete d _ _ n _ k)| |].
  - intros b _. by apply (db_has_delete _ _ _ _ _ Hd).
  - intros b k' Hb. apply (db_get_delete_ne _ _ _ _ _ _ Hd). by left.
Qed.

Lemma stands_put_alter d m ino n f k v :
  stands_for d m -> m !! ino = Some n -> r2node_ok (f n) -> stored (f n) k = Some v ->
  agree_but k n (f n) -> stands_for (db_put d (usize_be ino) k v) (alter f ino m).
Proof. intros Hs E. intros. rewrite (alter_as_insert _ _ _ _ E). by eapply stands_put. Qed.

Lemma stands_drop d d' m ino :
  stands_for d m -> is_u64 ino -> db_drop d (usize_be ino) = Some d' ->
  stands_for d' (base.delete ino m).
Proof.
  intros [Hn Hz] Hi Hd. split.
  - intros j n Hj. apply lookup_delete_Some in Hj as [Hne Hj].
    destruct (Hn j n Hj) as (Hj64 & Hb & Hok & Hk).
    assert (usize_be j <> usize_be ino) by (by apply usize_be_ne).
    split; [done|]. split_and!; [|done|].
    + rewrite (db_has_drop _ _ _ _ Hd), bool_decide_eq_false_2 by done. by rewrite Hb.
    + intros k. by rewrite (db_get_drop _ _ _ _ _ Hd), bool_decide_eq_false_2 by done.
  - intros j Hj64 Hj. rewrite (db_has_drop _ _ _ _ Hd).
    destruct (decide (j = ino)) as [->|Hne].
    + by rewrite bool_decide_eq_true_2.
    + rewrite lookup_delete_ne in Hj by done. rewrite Hz by done. apply andb_false_r.
Qed.

(** ** Fields *)

Lemma field_or_ok {A} (conv : bytes -> option A) z d b k v x :
  db_get d b k = Some v -> conv v = Some x -> field_or conv z b k d = Ok (x, d).
Proof.
  intros E Ec. unfold field_or, mbind, tx_bind, get_kv. rewrite E. cbn. by rewrite Ec.
Qed.

Lemma get_names d m ino n name :
  stands_for d m -> m !! ino = Some n -> good_name name ->
  db_get d (usize_be ino) name = usize_be <$> rn_names n !! name.
Proof. intros Hs E Hg. rewrite (stands_get _ _ _ _ _ Hs E). unfold stored. by rewrite Hg. Qed.

Lemma get_links z d m ino n : stands_for d m -> m !! ino = Some n ->
  field_or u32_of z (usize_be ino) (bs "hard_links") d = Ok (rn_links n, d).
Proof.
  intros Hs E. destruct (stands_ok _ _ _ _ Hs E) as [_ Hok].
  eapply field_or_ok; [by rewrite (stands_get _ _ _ _ _ Hs E)|]. auto with fs.
Qed.

(** ** Steps of the operations *)

Lemma name_free_some d m parent p name msg :
  stands_for d m -> m !! parent = Some p -> good_name name ->
  name_free parent name msg d =
  Ok (match rn_names p !! name with Some _ => inl msg | None => inr tt end, d).
Proof.
  intros Hs E Hg. unfold name_free. erewrite tx_bind_ok by (eapply get_bucket_ok, stands_has; done).
  unfold mbind, tx_bind, get_kv. rewrite (get_names _ _ _ _ _ Hs E Hg).
  by destruct (rn_names p !! name).
Qed.

Lemma entry_number_some d m parent p name msg :
  stands_for d m -> m !! parent = Some p -> good_name name ->
  entry_number parent name msg d =
  Ok (match rn_names p !! name with Some i => inr i | None => inl msg end, d).
Proof.
  intros Hs E Hg. unfold entry_number. erewrite tx_bind_ok by (eapply get_bucket_ok, stands_has; done).
  unfold mbind, tx_bind, get_kv. rewrite (get_names _ _ _ _ _ Hs E Hg).
  destruct (rn_names p !! name) as [i|] eqn:Ei; [|done]. cbn.
  destruct (stands_ok _ _ _ _ Hs E) as [_ Hok]. destruct (rk_names _ Hok _ _ Ei) as [_ Hi].
  unfold tx_unwrap. by rewrite usize_of_be.
Qed.

Lemma no_bucket d m ino : stands_for d m -> is_u64 ino -> m !! ino = None ->
  get_bucket (usize_be ino) d = Err NoData.
Proof. intros Hs Hi E. by apply get_bucket_missing, (sf_none _ _ Hs). Qed.

Lemma name_free_none d m parent name msg :
  stands_for d m -> is_u64 parent -> m !! parent = None -> name_free parent name msg d = Err NoData.
Proof. intros Hs Hi E. unfold name_free. erewrite tx_bind_err; [done|]. by eapply no_bucket. Qed.

Lemma entry_number_none d m parent name msg :
  stands_for d m -> is_u64 parent -> m !! parent = None ->
  entry_number parent name msg d = Err NoData.
Proof. intros Hs Hi E. unfold entry_number. erewrite tx_bind_err; [done|]. by eapply no_bucket. Qed.

(** What a body did, against the result of the operation on the nodes. *)
Definition did {A} (s : r2fs) (r : outcome ((bytes + A) * D)) (q : outcome (bytes + A) * r2fs) :
  Prop :=
  match r with
  | Ok (inr a, d) => q.1 = Ok (inr a) /\ stands_for d (rs_nodes q.2) /\ rs_next q.2 = rs_next s
  | Ok (inl msg, _) => q = (Ok (inl msg), s)
  | Err e => q = (Err e, s)
  | Panic => q = (Panic, s)
  end.

(** An entry point ran as the operation on the file system says. *)
Definition ran {A} (r : outcome A * world D) (q : outcome A * r2fs) : Prop :=
  r.1 = q.1 /\ stands r.2 q.2.

Lemma stands_set_db (w : world D) s d s' :
  stands w s -> stands_for d (rs_nodes s') -> rs_next s' = rs_next s -> stands (set_db w d) s'.
Proof. intros [_ E Hu] Hd Hn. split; [done|by rewrite Hn|by rewrite Hn]. Qed.

Context `{!Reliable D}.

Lemma str_commit_ran {A} (body : Tx D (bytes + A)) w s q :
  stands w s -> did s (body (w_db w)) q -> ran (str_commit body w) q.
Proof.
  intros Hs Hd. unfold str_commit. destruct (body (w_db w)) as [[[msg|a] d]|e|]; cbn in Hd.
  - by subst q.
  - destruct Hd as (E & Hd & Hn). rewrite commit_ok. split; [done|]. by apply (stands_set_db _ s).
  - by subst q.
  - by subst q.
Qed.

Lemma str_write_ran {A} (body : Tx D (bytes + A)) w s q :
  stands w s -> did s (body (w_db w)) q -> ran (str_write_tx body w) q.
Proof.
  intros Hs Hd. unfold str_write_tx. unfold mbind, op_bind, op_begin. rewrite begin_ok.
  by apply (str_commit_ran _ _ s).
Qed.


(** The names of the first step of [link], [unlink], [rename] and [rmdir]. *)
Lemma entry_step {A} (f : Z -> Tx D (bytes + A)) d s parent name msg q :
  stands_for d (rs_nodes s) -> is_u64 parent -> good_name name ->
  (spec_lookup parent name s = Err NoData -> q = (Err NoData, s)) ->
  (spec_lookup parent name s = Ok None -> q = (Ok (inl msg), s)) ->
  (forall p i, rs_nodes s !! parent = Some p -> rn_names p !! name = Some i -> is_u64 i ->
     spec_lookup parent name s = Ok (Some i) -> did s (f i d) q) ->
  did s (msg_bind (entry_number parent name msg) f d) q.
Proof.
  unfold spec_lookup. intros Hs Hp Hg He Hm Hf. unfold msg_bind.
  destruct (rs_nodes s !! parent) as [p|] eqn:E.
  - erewrite tx_bind_ok by (eapply entry_number_some; done).
    destruct (rn_names p !! name) as [i|] eqn:Ei.
    + destruct (stands_ok _ _ _ _ Hs E) as [_ Hok]. destruct (rk_names _ Hok _ _ Ei) as [_ Hi].
      by apply (Hf p).
    + by apply Hm.
  - erewrite tx_bind_err by (eapply entry_number_none; done). by apply He.
Qed.

(** ** The operations *)

Lemma links_step d m i n :
  stands_for d m -> m !! i = Some n ->
  stands_for (db_put d (usize_be i) (bs "hard_links") (u32_be (w32 (rn_links n + 1))))
    (alter (fun n => rn_with_links (w32 (rn_links n + 1)) n) i m).
Proof.
  intros Hs E. destruct (stands_ok _ _ _ _ Hs E) as [_ Hok].
  eapply stands_put_alter; [done|done|auto with fs..].
Qed.

Lemma add_name_step d m parent p name i :
  stands_for d m -> m !! parent = Some p -> good_name name -> is_u64 i ->
  stands_for (db_put d (usize_be parent) name (usize_be i))
    (alter (rn_with_names (<[name := i]>)) parent m).
Proof.
  intros Hs E Hg Hi. destruct (stands_ok _ _ _ _ Hs E) as [_ Hok].
  eapply stands_put_alter; [done|done|auto with fs..].
Qed.

Lemma del_name_step d m parent p name i :
  stands_for d m -> m !! parent = Some p -> good_name name -> rn_names p !! name = Some i ->
  exists d', db_delete d (usize_be parent) name = Some d' /\
    stands_for d' (alter (rn_with_names (base.delete name)) parent m).
Proof.
  intros Hs E Hg Ei. destruct (stands_ok _ _ _ _ Hs E) as [_ Hok].
  destruct (db_delete_some d (usize_be parent) name (usize_be i)) as [d' Hd].
  { by rewrite (get_names _ _ _ _ _ Hs E Hg), Ei. }
  exists d'. split; [done|]. rewrite (alter_as_insert _ _ _ _ E).
  eapply stands_delete; [done|done|done|auto with fs..].
Qed.

Lemma link_did d s old_parent old_name new_parent new_name :
  stands_for d (rs_nodes s) -> is_u64 old_parent -> is_u64 new_parent ->
  good_name old_name -> good_name new_name ->
  did s (link_node_tx old_parent old_name new_parent new_name d)
    (spec_link old_parent old_name new_parent new_name s).
Proof.
  intros Hs Ho Hn Hg Hg'. unfold link_node_tx, spec_link.
  apply entry_step; [done..|by intros ->|by intros ->|].
  intros p i _ _ Hi ->. unfold msg_bind. unfold spec_lookup at 1.
  destruct (rs_nodes s !! new_parent) as [q|] eqn:E.
  2: { by erewrite tx_bind_err by (eapply name_free_none; done). }
  erewrite tx_bind_ok by (eapply name_free_some; done).
  destruct (rn_names q !! new_name) as [j|] eqn:Ej; [done|]. cbv beta iota.
  erewrite tx_bind_ok by reflexivity.
  pose proof (add_name_step _ _ _ _ _ i Hs E Hg' Hi) as Hs'.
  destruct (rs_nodes s !! i) as [n|] eqn:En.
  - set (m' := alter _ new_parent (rs_nodes s)) in *.
    assert (exists n', m' !! i = Some n') as [n' En'].
    { unfold m'. rewrite lookup_alter. case_decide; subst; [rewrite En; by eexists|by exists n]. }
    erewrite tx_bind_ok by (eapply get_bucket_ok, (stands_has _ _ _ _ Hs' En')).
    erewrite tx_bind_ok by (eapply get_links; done).
    split; [done|]. split; [|done]. by apply links_step.
  - assert (En' : alter (rn_with_names (<[new_name := i]>)) new_parent (rs_nodes s) !! i = None).
    { rewrite lookup_alter. by case_decide; subst; rewrite En. }
    by erewrite tx_bind_err by (eapply no_bucket; [exact Hs'|done|done]).
Qed.

Lemma alter_some (f : r2node -> r2node) i j (m : gmap Z r2node) :
  alter f i m !! j = (fun n => if decide (j = i) then f n else n) <$> m !! j.
Proof.
  rewrite lookup_alter. destruct (decide (i = j)) as [->|Hne]; destruct (m !! j); cbn;
    rewrite ?decide_True, ?decide_False by done; done.
Qed.

Lemma unlink_did d s parent name :
  stands_for d (rs_nodes s) -> is_u64 parent -> good_name name ->
  did s (unlink_node_tx parent name d) (spec_unlink parent name s).
Proof.
  intros Hs Hp Hg. unfold unlink_node_tx, spec_unlink.
  apply entry_step; [done..|by intros ->|by intros ->|].
  intros p i E Ei Hi ->. destruct (del_name_step _ _ _ _ _ _ Hs E Hg Ei) as (d1 & Hd & Hs1).
  erewrite tx_bind_ok by (by apply delete_ok).
  pose proof (alter_some (rn_with_names (base.delete name)) parent i (rs_nodes s)) as En'.
  destruct (rs_nodes s !! i) as [n|] eqn:En; cbn [fmap option_fmap option_map] in En'.
  2: { by erewrite tx_bind_err by (eapply no_bucket; [exact Hs1|done|done]). }
  erewrite tx_bind_ok by (eapply get_bucket_ok, (stands_has _ _ _ _ Hs1 En')).
  erewrite tx_bind_ok by (eapply get_links; done).
  replace (rn_links (if decide (i = parent) then _ else n)) with (rn_links n)
    by (by case_decide).
  destruct (Z.leb_spec (rn_links n) 1) as [Hle|Hgt].
  - destruct (db_drop_some d1 (usize_be i)) as [d2 Hd2]; [by eapply stands_has|].
    erewrite tx_bind_ok by (unfold delete_bucket; by rewrite Hd2).
    split; [done|]. split; [|done]. by eapply stands_drop.
  - erewrite tx_bind_ok by reflexivity. split; [done|]. split; [|done].
    destruct (stands_ok _ _ _ _ Hs En) as [_ Hok]. pose proof (rk_links _ Hok) as Hl.
    unfold is_u32 in Hl. rewrite w32_small by (unfold is_u32; lia).
    destruct (stands_ok _ _ _ _ Hs1 En') as [_ Hok'].
    cbn [rs_alter rs_nodes]. eapply stands_put_alter; [done|done| | |auto with fs].
    + apply ok_with_links; [done|]. unfold is_u32. case_decide; cbn; lia.
    + rewrite stored_links. by case_decide.
Qed.

Lemma rename_did d s old_parent old_name new_parent new_name :
  stands_for d (rs_nodes s) -> is_u64 old_parent -> is_u64 new_parent ->
  good_name old_name -> good_name new_name ->
  did s (rename_node_tx old_parent old_name new_parent new_name d)
    (spec_rename old_parent old_name new_parent new_name s).
Proof.
  intros Hs Ho Hn Hg Hg'. unfold rename_node_tx, spec_rename.
  apply entry_step; [done..|by intros ->|by intros ->|].
  intros p i E Ei Hi ->. destruct (del_name_step _ _ _ _ _ _ Hs E Hg Ei) as (d1 & Hd & Hs1).
  erewrite tx_bind_ok by (by apply delete_ok).
  pose proof (alter_some (rn_with_names (base.delete old_name)) old_parent new_parent
    (rs_nodes s)) as En'.
  destruct (Z.eqb_spec old_parent new_parent) as [<-|Hne].
  - rewrite E in *. erewrite tx_bind_ok by reflexivity. split; [done|]. split; [|done].
    by eapply add_name_step.
  - destruct (rs_nodes s !! new_parent) as [q|] eqn:Eq; cbn [fmap option_fmap option_map] in En'.
    + rewrite decide_False in En' by done.
      erewrite tx_bind_ok.
      2: { erewrite tx_bind_ok by (eapply get_bucket_ok, (stands_has _ _ _ _ Hs1 En')).
           reflexivity. }
      split; [done|]. split; [|done]. by eapply add_name_step.
    + erewrite tx_bind_err; [done|]. by erewrite tx_bind_err by (eapply no_bucket; done).
Qed.

Lemma visible_some (m : gmap bytes Z) nm i : m !! nm = Some i -> attr_like nm = false -> visible m <> ∅.
Proof.
  intros E Ha Hv. assert (Hn : visible m !! nm = Some i) by by apply map_lookup_filter_Some.
  by rewrite Hv, lookup_empty in Hn.
Qed.

Lemma attr_like_stored n k v : stored n k = Some v ->
  attr_like (key_text k) = false ->
  visible (rn_names n) <> ∅ \/ rn_blocks n <> ∅ \/ rn_target n <> None.
Proof.
  unfold stored. intros Hv.
  destruct (canonical (key_of k)) as [k'|] eqn:Ec.
  - apply key_of_canonical in Ec as Hk.
    destruct (key_of k) as [| | | | | | | | |i| |] eqn:E; cbn [canonical] in Ec; try discriminate Ec; injection Ec as Ec;
      rewrite <- Ec in Hk; subst k.
    1-8: intros Ha; vm_compute in Ha; discriminate Ha.
    + intros _. right. right. by rewrite Hv.
    + intros _. right. left. intros Hb. by rewrite Hb in Hv.
  - destruct (key_of k) eqn:E; try done. destruct (good_name_key k E) as [Hu _].
    unfold key_text. rewrite Hu. intros Ha. left.
    destruct (rn_names n !! k) as [i|] eqn:Ei; [|done]. by apply (visible_some _ k i).
Qed.

Lemma block_key_text i : 0 <= i ->
  key_text (block_key i) = block_key i /\ attr_like (block_key i) = false.
Proof.
  intros Hi. split.
  - unfold key_text. by rewrite utf8_ascii by
      (apply Forall_app; split; [by repeat constructor|by apply dec_digits_ascii]).
  - unfold attr_like, attr_prefixes. cbn [existsb]. unfold begins_with.
    by rewrite !bool_decide_eq_false_2 by (intros [r Hr]; unfold block_key in Hr; discriminate Hr).
Qed.

Lemma looks_empty_stored d m i n : stands_for d m -> m !! i = Some n ->
  looks_empty (db_pairs d (usize_be i)) = spec_empty n.
Proof.
  intros Hs E. destruct (stands_ok _ _ _ _ Hs E) as [_ Hok].
  assert (HP : forall k v, (k, v) ∈ db_pairs d (usize_be i) <-> stored n k = Some v).
  { intros k v. by rewrite db_pairs_elem, (stands_get _ _ _ _ _ Hs E). }
  assert (Hno : forall k v, stored n k = Some v -> attr_like (key_text k) = false ->
    looks_empty (db_pairs d (usize_be i)) = false).
  { intros k v Hv Ha. unfold looks_empty. apply not_true_iff_false. rewrite forallb_forall.
    intros Hall. assert (Hin : In (k, v) (db_pairs d (usize_be i)))
      by (by apply list_elem_of_In, HP).
    specialize (Hall (k, v) Hin). change (attr_like (key_text k) = true) in Hall.
    by rewrite Hall in Ha. }
  unfold spec_empty. destruct (decide (visible (rn_names n) = ∅)) as [En|En].
  2: { rewrite (bool_decide_eq_false_2 _ En). apply map_choose in En as (nm & j & Ej).
       apply map_lookup_filter_Some in Ej as [Ej Ha].
       destruct (rk_names _ Hok _ _ Ej) as [Hg _]. destruct (good_name_key _ Hg) as [Hu _].
       apply (Hno nm (usize_be j)); [unfold stored; by rewrite Hg, Ej|].
       unfold key_text. by rewrite Hu. }
  destruct (decide (rn_blocks n = ∅)) as [Eb|Eb].
  2: { rewrite (bool_decide_eq_false_2 _ Eb), andb_false_r.
       apply map_choose in Eb as (j & v & Ej). pose proof (rk_blocks _ Hok _ _ Ej) as Hj.
       apply (Hno (block_key j) v); [unfold stored; by rewrite key_of_block|].
       destruct (block_key_text j) as [-> ?]; [apply Hj|done]. }
  destruct (rn_target n) as [t|] eqn:Et.
  { rewrite !andb_false_r. by apply (Hno (bs "symlink_target") t). }
  rewrite En, Eb. unfold looks_empty. rewrite (proj2 (forallb_forall _ _)); [done|].
  intros [k v] Hin. apply list_elem_of_In, HP in Hin. change ((k, v).1) with k.
  destruct (attr_like (key_text k)) eqn:Ha; [done|].
  by destruct (attr_like_stored n k v Hin Ha) as [?|[?|?]].
Qed.

Lemma rmdir_nodes (f g : r2node -> r2node) i parent (m : gmap Z r2node) : i <> parent ->
  alter g parent (base.delete i (alter f parent m)) =
  alter (fun p => g (f p)) parent (base.delete i m).
Proof.
  intros Hne. apply map_eq. intros j. rewrite alter_some. symmetry. rewrite alter_some.
  destruct (decide (j = i)) as [->|Hji]; [by rewrite !lookup_delete_eq|].
  rewrite !lookup_delete_ne by done. rewrite alter_some. destruct (m !! j); cbn; [|done].
  by case_decide.
Qed.

Lemma rmdir_did d s parent name :
  stands_for d (rs_nodes s) -> is_u64 parent -> good_name name ->
  did s (rmdir_node_tx parent name d) (spec_rmdir parent name s).
Proof.
  intros Hs Hp Hg. unfold rmdir_node_tx, spec_rmdir.
  apply entry_step; [done..|by intros ->|by intros ->|].
  intros p i E Ei Hi ->.
  destruct (rs_nodes s !! i) as [n|] eqn:En.
  2: { by erewrite tx_bind_err by (eapply no_bucket; done). }
  erewrite tx_bind_ok by (eapply get_bucket_ok, (stands_has _ _ _ _ Hs En)).
  erewrite tx_bind_ok by reflexivity. rewrite (looks_empty_stored _ _ _ _ Hs En).
  destruct (spec_empty n) eqn:Ee; [|done]. cbn [negb].
  destruct (del_name_step _ _ _ _ _ _ Hs E Hg Ei) as (d1 & Hd & Hs1).
  erewrite tx_bind_ok by (by apply delete_ok).
  set (f := rn_with_names (base.delete name)) in *.
  assert (Hb1 : db_has d1 (usize_be i) = true).
  { rewrite (db_has_delete _ _ _ _ _ Hd). by eapply stands_has. }
  destruct (db_drop_some d1 (usize_be i)) as [d2 Hd2]; [exact Hb1|].
  erewrite tx_bind_ok by (unfold delete_bucket; by rewrite Hd2).
  destruct (Z.eqb_spec i parent) as [->|Hne].
  { erewrite tx_bind_panic; [done|]. unfold tx_live.
    by rewrite (db_has_drop _ _ _ _ Hd2), bool_decide_eq_true_2. }
  pose proof (stands_drop _ _ _ _ Hs1 Hi Hd2) as Hs2.
  assert (Ep : base.delete i (alter f parent (rs_nodes s)) !! parent = Some (f p)).
  { rewrite lookup_delete_ne by done. by rewrite alter_some, E; cbn; rewrite decide_True. }
  erewrite tx_bind_ok by (unfold tx_live; by rewrite (stands_has _ _ _ _ Hs2 Ep)).
  erewrite tx_bind_ok by (eapply get_links; done).
  erewrite tx_bind_ok by reflexivity. split; [done|]. split; [|done].
  cbn [rs_alter rs_delete rs_nodes snd].
  rewrite <- (rmdir_nodes f (fun p => rn_with_links (w32 (rn_links p - 1)) p)) by done.
  destruct (stands_ok _ _ _ _ Hs2 Ep) as [_ Hok2].
  eapply stands_put_alter; [done|exact Ep|auto with fs..].
Qed.

(** ** New nodes *)

Lemma ok_new mode size uid gid target :
  is_u16 mode -> is_u64 size -> is_u32 uid -> is_u32 gid ->
  r2node_ok (spec_new mode size uid gid target).
Proof. intros. split; try done; by intros ?? E; rewrite lookup_empty in E. Qed.

(** The attributes of a fresh bucket make it a node. *)
Lemma put_attrs_ok d b mode size uid gid :
  db_has d b = true -> (forall k, db_get d b k = None) ->
  exists d', put_attrs b mode size uid gid d = Ok (tt, d') /\
    (forall b', db_has d' b' = db_has d b') /\
    (forall b' k, b' <> b -> db_get d' b' k = db_get d b' k) /\
    (forall k, db_get d' b k = stored (spec_new mode size uid gid None) k).
Proof.
  intros Hb He. eexists. split; [reflexivity|]. split_and!.
  - intros b'. by rewrite !db_has_put.
  - intros b' k Hne. by rewrite !db_get_put_bucket by done.
  - intros k. rewrite !db_get_put by (rewrite ?db_has_put; done). rewrite He.
    unfold stored. destruct (canonical (key_of k)) as [k'|] eqn:Ec.
    + apply key_of_canonical in Ec as Hk.
      destruct (key_of k) as [| | | | | | | | |i| |] eqn:E; cbn [canonical] in Ec;
        try discriminate Ec; injection Ec as Ec; rewrite <- Ec in Hk; subst k;
        repeat (rewrite bool_decide_eq_false_2 by (intros [_ Hx]; discriminate Hx));
        try done; by rewrite bool_decide_eq_true_2.
    + rewrite !bool_decide_eq_false_2 by (intros [_ ->]; discriminate Ec).
      destruct (key_of k); try discriminate Ec; [cbn; by rewrite lookup_empty|done].
Qed.

Lemma new_bucket d m ino :
  stands_for d m -> is_u64 ino -> m !! ino = None ->
  exists d', create_bucket (usize_be ino) d = Ok (usize_be ino, d') /\
    (forall b, b <> usize_be ino -> db_has d' b = db_has d b) /\
    (forall b k, b <> usize_be ino -> db_get d' b k = db_get d b k) /\
    db_has d' (usize_be ino) = true /\ (forall k, db_get d' (usize_be ino) k = None).
Proof.
  intros Hs Hi E. pose proof (sf_none _ _ Hs _ Hi E) as Hno.
  destruct (db_create_some _ _ Hno) as [d' Hc]. exists d'. unfold create_bucket. rewrite Hc.
  split; [done|]. split_and!.
  - intros b Hb. by rewrite (db_has_create _ _ _ _ Hc), bool_decide_eq_false_2.
  - intros b k Hb. by rewrite (db_get_create _ _ _ _ _ Hc), bool_decide_eq_false_2.
  - by rewrite (db_has_create _ _ _ _ Hc), bool_decide_eq_true_2.
  - intros k. by rewrite (db_get_create _ _ _ _ _ Hc), bool_decide_eq_true_2.
Qed.

Lemma bucket_taken d m ino n : stands_for d m -> m !! ino = Some n ->
  create_bucket (usize_be ino) d = Err FileExists.
Proof.
  intros Hs E. unfold create_bucket.
  by rewrite (proj2 (db_create_None _ _) (stands_has _ _ _ _ Hs E)).
Qed.

(** A new node with its attributes. *)
Lemma new_node d m ino mode size uid gid :
  stands_for d m -> is_u64 ino -> m !! ino = None ->
  is_u16 mode -> is_u64 size -> is_u32 uid -> is_u32 gid ->
  exists d1 d2, create_bucket (usize_be ino) d = Ok (usize_be ino, d1) /\
    put_attrs (usize_be ino) mode size uid gid d1 = Ok (tt, d2) /\
    stands_for d2 (<[ino := spec_new mode size uid gid None]> m).
Proof.
  intros Hs Hi E Hm Hsz Hu Hg.
  destruct (new_bucket _ _ _ Hs Hi E) as (d1 & Hc & Hh & Hge & Hb & He).
  destruct (put_attrs_ok d1 _ mode size uid gid Hb He) as (d2 & Hp & Hh2 & Hge2 & Hst).
  exists d1, d2. split; [done|]. split; [done|].
  apply (stands_for_upd d); [done|done|split_and!; [by rewrite Hh2|by apply ok_new|done]| |].
  - intros b Hne. by rewrite Hh2, Hh.
  - intros b k Hne. by rewrite Hge2, Hge.
Qed.

Lemma type_flag_u16 t : is_u16 (type_flag t).
Proof. by destruct t. Qed.

Lemma create_did d s parent p name file_type uid gid mode :
  stands_for d (rs_nodes s) -> is_u64 (rs_next s) -> rs_nodes s !! parent = Some p ->
  good_name name -> rn_names p !! name = None ->
  is_u16 mode -> is_u32 uid -> is_u32 gid ->
  did (rs_bump s) (create_node_tx (rs_next s) parent name file_type uid gid mode d)
    (spec_create parent name file_type uid gid mode s).
Proof.
  intros Hs Hn E Hg Ename Hm Hu Hgi. unfold create_node_tx, spec_create. rewrite E, Ename.
  destruct (rs_nodes s !! rs_next s) as [x|] eqn:Ex.
  { by erewrite tx_bind_err by (eapply bucket_taken; done). }
  destruct (new_node _ _ _ (Perm.union mode (type_flag file_type)) 0 uid gid Hs Hn Ex)
    as (d1 & d2 & Hc & Ha & Hs2); [apply Perm.union_u16; [done|apply type_flag_u16]|done..|].
  erewrite tx_bind_ok by exact Hc. cbv beta. erewrite tx_bind_ok by exact Ha.
  cbv beta zeta. erewrite tx_bind_ok by reflexivity.
  assert (Hne : parent <> rs_next s) by (by intros ->; rewrite E in Ex).
  set (new := spec_new _ 0 uid gid None) in *.
  assert (E2 : <[rs_next s := new]> (rs_nodes s) !! parent = Some p)
    by (by rewrite lookup_insert_ne).
  pose proof (add_name_step _ _ _ _ _ (rs_next s) Hs2 E2 Hg Hn) as Hs3.
  destruct (stands_ok _ _ _ _ Hs E) as [_ Hok].
  destruct (bool_decide (file_type = R2Dir)) eqn:Et.
  - set (g := rn_with_names (<[name := rs_next s]>)) in *.
    assert (E3 : alter g parent (<[rs_next s := new]> (rs_nodes s)) !! parent = Some (g p)).
    { by rewrite alter_some, E2; cbn; rewrite decide_True. }
    erewrite tx_bind_ok.
    2: { unfold tx_when. erewrite tx_bind_ok by (eapply get_links; done). reflexivity. }
    split; [done|]. split; [|done]. cbn [rs_alter rs_insert rs_bump rs_nodes snd].
    rewrite (alter_as_insert _ _ _ _ E2).
    erewrite <- insert_insert_eq. rewrite <- (alter_as_insert g _ _ _ E2).
    eapply stands_put; [done|exact E3| | |].
    + apply ok_with_links; [by apply ok_add_name|auto with fs].
    + done.
    + apply agree_links.
  - erewrite tx_bind_ok by reflexivity. split; [done|]. split; [|done].
    cbn [rs_alter rs_insert rs_bump rs_nodes snd].
    rewrite (alter_as_insert _ _ _ _ E2). rewrite (alter_as_insert _ _ _ _ E2) in Hs3.
    by destruct p.
Qed.

Lemma stands_bump (w : world D) s : stands w s -> stands (set_next w (w64 (w_next w + 1))) (rs_bump s).
Proof. intros [Hs E Hn]. split; [done|cbn; by rewrite E|cbn; auto with fs]. Qed.

Lemma rvfs2_create_ran w s parent name file_type uid gid mode :
  stands w s -> is_u64 parent -> good_name name ->
  is_u16 mode -> is_u32 uid -> is_u32 gid ->
  ran (rvfs2_create parent name file_type uid gid mode w)
    (spec_create parent name file_type uid gid mode s).
Proof.
  intros Hs Hp Hg Hm Hu Hgi. pose proof (st_nodes _ _ Hs) as Hd. unfold rvfs2_create.
  erewrite op_bind_ok by (unfold op_begin; by rewrite begin_ok).
  destruct (rs_nodes s !! parent) as [p|] eqn:E.
  2: { erewrite op_bind_err by (eapply peek_err, name_free_none; done).
       unfold spec_create. by rewrite E. }
  erewrite op_bind_ok by (eapply peek_ok, name_free_some; done).
  destruct (rn_names p !! name) as [i|] eqn:Ei.
  { unfold spec_create. by rewrite E, Ei. }
  erewrite op_bind_ok by reflexivity. rewrite (st_next _ _ Hs).
  rewrite <- (st_next _ _ Hs) at 2. apply (str_commit_ran _ _ (rs_bump s)).
  - by apply stands_bump.
  - eapply create_did; try done. by apply (st_next_ok w).
Qed.

Lemma agree_target t mode size uid gid :
  agree_but (bs "symlink_target") (spec_new mode size uid gid None) (spec_new mode size uid gid (Some t)).
Proof. agree_tac. Qed.

Lemma symlink_did d s parent name target uid gid :
  stands_for d (rs_nodes s) -> is_u64 (rs_next s) -> is_u64 parent -> good_name name ->
  is_u64 (zlen target) -> is_u32 uid -> is_u32 gid ->
  did (rs_bump s) (symlink_node_tx (rs_next s) parent name target uid gid d)
    (spec_symlink parent name target uid gid s).
Proof.
  intros Hs Hn Hp Hg Ht Hu Hgi. unfold symlink_node_tx, spec_symlink.
  destruct (rs_nodes s !! rs_next s) as [x|] eqn:Ex.
  { by erewrite tx_bind_err by (eapply bucket_taken; done). }
  set (mode := Z.lor Perm.S_IFLNK 0x1FF).
  destruct (new_node _ _ _ mode (zlen target) uid gid Hs Hn Ex)
    as (d1 & d2 & Hc & Ha & Hs2); [by vm_compute|done..|].
  erewrite tx_bind_ok by exact Hc. cbv beta. cbv zeta. erewrite tx_bind_ok by exact Ha.
  erewrite tx_bind_ok by reflexivity.
  set (new := spec_new mode (zlen target) uid gid (Some target)).
  assert (Hs3 : stands_for (db_put d2 (usize_be (rs_next s)) (bs "symlink_target") target)
    (<[rs_next s := new]> (rs_nodes s))).
  { erewrite <- insert_insert_eq. eapply stands_put; [done|apply lookup_insert_eq| | |].
    - by apply ok_new.
    - done.
    - apply agree_target. }
  change (rs_nodes (rs_insert (rs_next s) new (rs_bump s))) with (<[rs_next s := new]> (rs_nodes s)).
  destruct (<[rs_next s := new]> (rs_nodes s) !! parent) as [p|] eqn:E.
  - erewrite tx_bind_ok by (eapply get_bucket_ok, stands_has; done).
    erewrite tx_bind_ok by reflexivity. split; [done|]. split; [|done].
    by eapply add_name_step.
  - by erewrite tx_bind_err by (eapply no_bucket; done).
Qed.

Lemma rvfs2_symlink_ran w s parent name target uid gid :
  stands w s -> is_u64 parent -> good_name name ->
  is_u64 (zlen target) -> is_u32 uid -> is_u32 gid ->
  ran (rvfs2_symlink parent name target uid gid w) (spec_symlink parent name target uid gid s).
Proof.
  intros Hs Hp Hg Ht Hu Hgi. unfold rvfs2_symlink.
  erewrite op_bind_ok by (unfold op_begin; by rewrite begin_ok).
  erewrite op_bind_ok by reflexivity. rewrite (st_next _ _ Hs).
  rewrite <- (st_next _ _ Hs) at 2. apply (str_commit_ran _ _ (rs_bump s)).
  - by apply stands_bump.
  - apply symlink_did; try done; [apply (st_nodes _ _ Hs)|by apply (st_next_ok w)].
Qed.

(** ** Contents *)

Lemma offset_block offset : is_u64 offset -> is_u64 (offset / 4096).
Proof. unfold is_u64. intros. split; [apply Z.div_pos; lia|apply Z.div_lt_upper_bound; lia]. Qed.

Lemma agree_add_block i v n : is_u64 i -> agree_but (block_key i) n (rn_with_blocks (<[i := v]>) n).
Proof. intros Hi. apply agree_block; [done|]. intros m j Hj. by apply lookup_insert_ne. Qed.

Lemma get_block d m ino n i : stands_for d m -> m !! ino = Some n -> is_u64 i ->
  db_get d (usize_be ino) (block_key i) = rn_blocks n !! i.
Proof. intros Hs E Hi. rewrite (stands_get _ _ _ _ _ Hs E). unfold stored. by rewrite key_of_block. Qed.

Lemma rvfs2_write_ran w s number buf offset :
  stands w s -> is_u64 number -> is_u64 offset ->
  ran (rvfs2_write number buf offset w) (spec_write number buf offset s).
Proof.
  intros Hs Hi Ho. pose proof (st_nodes _ _ Hs) as Hd. unfold rvfs2_write, spec_write.
  destruct (rs_nodes s !! number) as [n|] eqn:E.
  2: { erewrite op_bind_err; [done|]. apply write_tx_err.
       by erewrite tx_bind_err by (eapply no_bucket; done). }
  erewrite op_bind_ok.
  2: { apply write_tx_ok. erewrite tx_bind_ok by (eapply get_bucket_ok, stands_has; done). reflexivity. }
  destruct (stands_ok _ _ _ _ Hd E) as [_ Hok]. pose proof (offset_block _ Ho) as Hb.
  set (w' := set_db w _).
  assert (Hs' : stands_for (w_db w')
    (alter (rn_with_blocks (<[offset / 4096 := buf]>)) number (rs_nodes s))).
  { eapply stands_put_alter; [done|done|by apply ok_add_block| |by apply agree_add_block].
    unfold stored. rewrite key_of_block by done. cbn. by rewrite lookup_insert_eq. }
  assert (E' : alter (rn_with_blocks (<[offset / 4096 := buf]>)) number (rs_nodes s) !! number =
    Some (rn_with_blocks (<[offset / 4096 := buf]>) n)).
  { by rewrite alter_some, E; cbn; rewrite decide_True. }
  erewrite op_bind_ok.
  2: { eapply peek_ok. unfold write_size. erewrite tx_bind_ok; [reflexivity|].
       eapply field_or_ok; [by rewrite (stands_get _ _ _ _ _ Hs' E')|]. auto with fs. }
  split; [done|]. by apply (stands_set_db _ s).
Qed.

Lemma trim_step f k : begins_with (bs "data_") k = true ->
  trim_data (S f) k = trim_data f (drop 5 k).
Proof. intros E. cbn [trim_data]. by rewrite E. Qed.
Lemma trim_stop f k : begins_with (bs "data_") k = false -> trim_data f k = k.
Proof. intros E. destruct f; [done|]. cbn [trim_data]. by rewrite E. Qed.

Lemma block_from_block start i : is_u64 i -> block_from start (block_key i) = (start <=? i).
Proof.
  intros Hi. unfold block_from. destruct (block_key_text i) as [-> _]; [apply Hi|].
  replace (begins_with (bs "data_") (block_key i)) with true by (symmetry; apply begins_with_app).
  destruct (dec_digits_head 20 i) as (x & r & Ex & Hx); [lia|apply Hi|].
  replace (trim_data (length (block_key i)) (block_key i)) with (usize_to_string i).
  { by rewrite parse_usize_to_string. }
  symmetry. unfold block_key at 1. rewrite length_app. change (length (bs "data_")) with 5%nat.
  cbn [Nat.add]. rewrite trim_step by apply begins_with_app.
  change (drop 5 (block_key i)) with (usize_to_string i). apply trim_stop.
  unfold usize_to_string. rewrite Ex. unfold begins_with. rewrite bool_decide_eq_false_2; [done|].
  intros [y Hy]. apply (f_equal head) in Hy. cbn in Hy. injection Hy as Hy.
  apply (f_equal byte_val) in Hy. unfold digit_char in Hy. rewrite byte_val_of in Hy.
  rewrite Z.mod_small in Hy by lia. change (byte_val Byte.x64) with 100 in Hy. lia.
Qed.

(** Of the keys of a node, only the blocks are removed. *)
Lemma block_from_stored start n k v : r2node_ok n -> stored n k = Some v ->
  block_from start k = match key_of k with KBlock i => start <=? i | _ => false end.
Proof.
  intros Hok Hv. destruct (canonical (key_of k)) as [k'|] eqn:Ec.
  - apply key_of_canonical in Ec as Hk. unfold stored in Hv.
    destruct (key_of k) as [| | | | | | | | |i| |] eqn:E; cbn [canonical] in Ec;
      try discriminate Ec; injection Ec as Ec; rewrite <- Ec in Hk; subst k.
    1-9: by vm_compute.
    apply block_from_block. by apply (rk_blocks _ Hok i v).
  - unfold stored in Hv. destruct (key_of k) eqn:E; try done.
    destruct (good_name_key k E) as [Hu Hns]. unfold block_from, key_text. by rewrite Hu, Hns.
Qed.

Lemma delete_all_ok b keys d :
  NoDup keys -> (forall k, k ∈ keys -> is_Some (db_get d b k)) ->
  exists d', delete_all b keys d = Ok (tt, d') /\
    (forall b', db_has d' b' = db_has d b') /\
    (forall b' k, db_get d' b' k =
       if bool_decide (b' = b /\ k ∈ keys) then None else db_get d b' k).
Proof.
  revert d. induction keys as [|k keys IH]; intros d Hnd Hin.
  { exists d. split; [done|]. split; [done|]. intros b' k.
    rewrite bool_decide_eq_false_2; [done|]. intros [_ Hx]. by apply not_elem_of_nil in Hx. }
  apply NoDup_cons in Hnd as [Hk Hnd].
  destruct (Hin k) as [v Hv]; [by left|]. destruct (db_delete_some _ _ _ _ Hv) as [d1 Hd1].
  destruct (IH d1 Hnd) as (d2 & E2 & Hh & Hg).
  { intros k' Hk'. rewrite (db_get_delete _ _ _ _ _ _ Hd1). rewrite bool_decide_eq_false_2.
    - apply Hin. by right.
    - intros [_ ->]. done. }
  exists d2. split; [|split].
  - cbn [delete_all]. by erewrite tx_bind_ok by (by apply delete_ok).
  - intros b'. by rewrite Hh, (db_has_delete _ _ _ _ _ Hd1).
  - intros b' k'. rewrite Hg, (db_get_delete _ _ _ _ _ _ Hd1).
    repeat case_bool_decide; rewrite elem_of_cons in *; first [done|exfalso; intuition congruence].
Qed.

Lemma sorted_NoDup (l : list bytes) : StronglySorted key_lt l -> NoDup l.
Proof.
  induction 1 as [|k l Hs IH Hall]; [constructor|]. constructor; [|done].
  intros Hk. rewrite Forall_forall in Hall. specialize (Hall k Hk). unfold key_lt in Hall.
  by rewrite blt_irrefl in Hall.
Qed.

(** The pairs that stay when the blocks from [start] on go. *)
Definition cut_blocks (start : Z) (n : r2node) : r2node :=
  rn_with_blocks (filter (fun kv => kv.1 < start)) n.

Lemma ok_cut start n : r2node_ok n -> r2node_ok (cut_blocks start n).
Proof. intros []. split; try done. cbn. intros i v [Hv _]%map_lookup_filter_Some. eauto. Qed.

Lemma stored_cut start n k :
  r2node_ok n ->
  stored (cut_blocks start n) k =
  if bool_decide (is_Some (stored n k) /\ block_from start k = true) then None else stored n k.
Proof.
  intros Hok. destruct (stored n k) as [v|] eqn:Ek.
  - rewrite (block_from_stored start _ _ _ Hok Ek).
    unfold stored in *. destruct (key_of k) as [| | | | | | | | |i| |] eqn:Ekk;
      try (rewrite bool_decide_eq_false_2; [done|by intros [_ ?]]).
    cbn [cut_blocks rn_with_blocks rn_blocks]. rewrite map_lookup_filter, Ek. cbn.
    destruct (Z.leb_spec start i) as [Hle|Hlt].
    + rewrite option_guard_False by lia. by rewrite bool_decide_eq_true_2 by (split; [by eexists|done]).
    + rewrite option_guard_True by lia. by rewrite bool_decide_eq_false_2 by by intros [_ ?].
  - rewrite bool_decide_eq_false_2 by by intros [[? ?] _].
    unfold stored in *. destruct (key_of k) as [| | | | | | | | |i| |]; try done.
    cbn [cut_blocks rn_with_blocks rn_blocks]. by rewrite map_lookup_filter, Ek.
Qed.

(** The transaction on a bucket that holds a node. *)
Lemma truncate_blocks_done d m number size n :
  stands_for d m -> m !! number = Some n -> is_u64 number -> is_u64 size ->
  let start := w64 (w64 (size + 4096) - 1) / 4096 in
  exists d', truncate_blocks_tx number size d = Ok (tt, d') /\
    stands_for d' (<[number := cut_blocks start (rn_with_size size n)]> m).
Proof.
  intros Hd E Hi Hsz start. destruct (stands_ok _ _ _ _ Hd E) as [_ Hok].
  pose proof (r2ok_with_size size n Hok Hsz) as Hok1.
  assert (Hs1 : stands_for (db_put d (usize_be number) (bs "size") (u64_be size))
    (<[number := rn_with_size size n]> m)).
  { eapply stands_put; [done|done|done|done|apply agree_size]. }
  set (d1 := db_put _ _ _ _) in *.
  pose proof (lookup_insert_eq m number (rn_with_size size n)) as E1.
  set (keys := filter (fun k => block_from start k = true) (db_pairs d1 (usize_be number)).*1).
  assert (HG : forall k, db_get d1 (usize_be number) k = stored (rn_with_size size n) k).
  { intros k. apply (stands_get _ _ _ _ _ Hs1 E1). }
  assert (HK : forall k, k ∈ keys <-> is_Some (stored (rn_with_size size n) k) /\ block_from start k = true).
  { intros k. unfold keys. rewrite list_elem_of_filter, list_elem_of_fmap. split.
    - intros [Hb ([k' v] & -> & Hin)]. apply db_pairs_elem in Hin. rewrite HG in Hin.
      split; [by eexists|done].
    - intros [[v Hv] Hb]. split; [done|]. exists (k, v). split; [done|].
      apply db_pairs_elem. by rewrite HG. }
  destruct (delete_all_ok (usize_be number) keys d1) as (d2 & E2 & Hh & Hg).
  { apply NoDup_filter, sorted_NoDup, db_pairs_sorted. }
  { intros k Hk. apply HK in Hk. rewrite HG. tauto. }
  exists d2. split.
  { unfold truncate_blocks_tx. erewrite tx_bind_ok by (eapply get_bucket_ok, stands_has; done).
    erewrite tx_bind_ok by reflexivity. cbv beta zeta. by erewrite tx_bind_ok by reflexivity. }
  rewrite <- (insert_insert_eq m number (cut_blocks start (rn_with_size size n)) (rn_with_size size n)).
  apply (stands_for_upd d1); [exact Hs1|done| | |].
  - split_and!; [rewrite Hh; by apply (stands_has _ _ _ _ Hs1 E1)|by apply ok_cut|].
    intros k. rewrite Hg, HG, stored_cut by done.
    repeat case_bool_decide; try done; exfalso; rewrite HK in *; tauto.
  - intros b Hb. apply Hh.
  - intros b k Hb. rewrite Hg, bool_decide_eq_false_2; [done|]. by intros [? _].
Qed.

Lemma rvfs2_truncate_ran w s number size :
  stands w s -> is_u64 number -> is_u64 size ->
  ran (rvfs2_truncate number size w) (spec_truncate number size s).
Proof.
  intros Hs Hi Hsz. pose proof (st_nodes _ _ Hs) as Hd. unfold rvfs2_truncate, spec_truncate.
  destruct (rs_nodes s !! number) as [n|] eqn:E.
  - destruct (truncate_blocks_done _ _ number size n Hd E Hi Hsz) as (d' & E' & Hd').
    unfold ran. rewrite (write_tx_ok _ _ _ _ tt d' E'). split; [done|].
    apply (stands_set_db _ s); [done| |done]. cbn [snd rs_alter rs_nodes].
    by rewrite (alter_as_insert _ _ _ _ E).
  - unfold ran. rewrite (write_tx_err _ _ _ _ NoData); [done|]. unfold truncate_blocks_tx.
    by erewrite tx_bind_err by (eapply no_bucket; done).
Qed.
End db.
