(* ===== verification/Rvfs2Session.v ===== *)
(** * Requests to the second adapter's functions

    The reading operations of src/src/rvfs2/common.rs, and sequences of
    requests: every reply is the one the file system of [Rvfs2Tree] gives,
    and the database stands for that file system throughout. *)

From S2P Require Import Prelude Bytes Common Store MapDb Fuse Rvfs2Common Rvfs2Tree Rvfs2Facts.

Section reads.
Context {D : Type} `{JammDbLaws D, !Reliable D}.
Implicit Types (w : world D) (s : r2fs).

(** A look into the database that tells what the nodes tell. *)
Lemma peek_ran {A} wr (body : Tx D A) w s (q : outcome A) :
  stands w s ->
  match body (w_db w) with Ok (a, _) => q = Ok a | Err e => q = Err e | Panic => q = Panic end ->
  ran ((op_begin Question wr;; peek body) w) (q, s).
Proof.
  intros Hs Hq. unfold mbind, op_bind, op_begin. rewrite begin_ok. unfold peek.
  destruct (body (w_db w)) as [[a d]|e|]; by subst q.
Qed.

Lemma rvfs2_lookup_ran w s parent name :
  stands w s -> is_u64 parent -> good_name name ->
  ran (rvfs2_lookup parent name w) (spec_lookup parent name s, s).
Proof.
  intros Hs Hp Hg. pose proof (st_nodes _ _ Hs) as Hd. apply peek_ran; [done|].
  unfold spec_lookup. destruct (rs_nodes s !! parent) as [p|] eqn:E.
  2: { by erewrite tx_bind_err by (eapply no_bucket; done). }
  erewrite tx_bind_ok by (eapply get_bucket_ok, stands_has; done).
  unfold mbind, tx_bind, get_kv. rewrite (get_names _ _ _ _ _ Hd E Hg).
  destruct (rn_names p !! name) as [i|] eqn:Ei; [|done]. cbn.
  destruct (stands_ok _ _ _ _ Hd E) as [_ Hok]. destruct (rk_names _ Hok _ _ Ei) as [_ Hi].
  unfold tx_unwrap. by rewrite usize_of_be.
Qed.

Lemma rvfs2_read_ran w s number buf offset :
  stands w s -> is_u64 number -> is_u64 offset ->
  ran (rvfs2_read number buf offset w) (spec_read number buf offset s, s).
Proof.
  intros Hs Hi Ho. pose proof (st_nodes _ _ Hs) as Hd. apply peek_ran; [done|].
  unfold spec_read. destruct (rs_nodes s !! number) as [n|] eqn:E.
  2: { by erewrite tx_bind_err by (eapply no_bucket; done). }
  erewrite tx_bind_ok by (eapply get_bucket_ok, stands_has; done).
  erewrite tx_bind_ok by reflexivity. cbv beta.
  rewrite (get_block _ _ _ _ _ Hd E) by (by apply offset_block).
  destruct (rn_blocks n !! (offset / 4096)) as [v|]; [|done].
  pose proof (zlen_nonneg buf). pose proof (zlen_nonneg v). cbv zeta.
  rewrite slice_ok by lia. rewrite Z.sub_0_r. change (Z.to_nat 0) with 0%nat. rewrite drop_0.
  erewrite tx_bind_ok by apply tx_unwrap_some.
  rewrite copy_into_ok; [done|lia| |lia].
  unfold zlen. rewrite length_take_le; unfold zlen in *; lia.
Qed.

Lemma rvfs2_get_attr_ran w s number :
  stands w s -> is_u64 number ->
  ran (rvfs2_get_attr number w) (spec_get_attr number s, s).
Proof.
  intros Hs Hi. pose proof (st_nodes _ _ Hs) as Hd. apply peek_ran; [done|].
  unfold spec_get_attr. destruct (rs_nodes s !! number) as [n|] eqn:E.
  2: { by erewrite tx_bind_err by (eapply no_bucket; done). }
  destruct (stands_ok _ _ _ _ Hd E) as [_ Hok].
  assert (HF : forall A conv (z : A) k v x, stored n k = Some v -> conv v = Some x ->
    field_or conv z (usize_be number) k (w_db w) = Ok (x, w_db w)).
  { intros A conv z k v x Hk Hc. eapply field_or_ok; [|done].
    by rewrite (stands_get _ _ _ _ _ Hd E). }
  erewrite tx_bind_ok by (eapply get_bucket_ok, stands_has; done).
  erewrite tx_bind_ok.
  2: { eapply HF; [done|]. rewrite u16_of_be by auto with fs. cbn.
       rewrite Perm.from_bits_truncate_u16 by auto with fs. done. }
  erewrite tx_bind_ok by (eapply HF; [done|apply u64_of_be; auto with fs]).
  do 2 (erewrite tx_bind_ok by (eapply HF; [done|apply u32_of_be; auto with fs])).
  do 3 (erewrite tx_bind_ok by (eapply HF; [done|apply time_of_to; by vm_compute])).
  erewrite tx_bind_ok by (eapply HF; [done|apply u32_of_be; auto with fs]). done.
Qed.

Lemma rvfs2_readlink_ran w s ino :
  stands w s -> is_u64 ino -> ran (rvfs2_readlink ino w) (spec_readlink ino s, s).
Proof.
  intros Hs Hi. pose proof (st_nodes _ _ Hs) as Hd. apply peek_ran; [done|].
  unfold spec_readlink. destruct (rs_nodes s !! ino) as [n|] eqn:E.
  2: { by erewrite tx_bind_err by (eapply no_bucket; done). }
  erewrite tx_bind_ok by (eapply get_bucket_ok, stands_has; done).
  unfold mbind at 1, tx_bind, get_kv. rewrite (stands_get _ _ _ _ _ Hd E).
  change (stored n (bs "symlink_target")) with (rn_target n).
  destruct (rn_target n) as [t|]; [|done]. by destruct (utf8_ok t).
Qed.

(** ** Listing *)

(** The pairs that are listed, all of them with a number as value. *)
Lemma list_names_some (pairs : list (bytes * bytes)) (m : gmap bytes Z) :
  StronglySorted key_lt pairs.*1 ->
  (forall k v, (k, v) ∈ pairs -> listed k = true -> usize_of v = m !! k /\ is_Some (m !! k)) ->
  (forall k i, m !! k = Some i -> exists v, (k, v) ∈ pairs /\ listed k = true) ->
  list_names pairs = Some (sorted_pairs m).
Proof.
  intros Hs Hv Hm.
  assert (HL : exists l, list_names pairs = Some l /\ StronglySorted key_lt l.*1 /\
    (forall k, k ∈ l.*1 -> k ∈ pairs.*1) /\
    forall k i, (k, i) ∈ l <-> (exists v, (k, v) ∈ pairs /\ listed k = true) /\ m !! k = Some i).
  { clear Hm. induction pairs as [|[k v] pairs IH].
    { exists []. split; [done|]. split; [constructor|]. split; [done|]. intros k i. split.
      - by intros ?%not_elem_of_nil.
      - by intros [(v & ?%not_elem_of_nil & _) _]. }
    cbn in Hs. apply StronglySorted_inv in Hs as [Hs Hall].
    destruct IH as (l & El & Hsl & Hin & Hel); [done|intros k' v' ?; apply Hv; by right|].
    cbn [list_names]. destruct (listed k) eqn:Hk.
    - destruct (Hv k v ltac:(by left) Hk) as [Eu [i Ei]]. rewrite Eu, Ei, El. cbn [mbind option_bind].
      exists ((k, i) :: l). split; [done|]. split; [|split].
      + cbn. constructor; [done|]. rewrite Forall_forall in *. intros x Hx. by apply Hall, Hin.
      + cbn. intros x [->|Hx]%elem_of_cons; [by left|right; by apply Hin].
      + intros k' j. rewrite elem_of_cons, Hel. split.
        * intros [[= -> ->]|[(v' & Hp & Hl) ?]]; [split; [exists v; split; [by left|done]|done]|].
          split; [|done]. exists v'. split; [by right|done].
        * intros [(v' & [[= -> ->]|Hp]%elem_of_cons & Hl) Hj].
          -- left. congruence.
          -- right. split; [by exists v'|done].
    - exists l. split; [done|]. split; [done|]. split.
      + intros x Hx. cbn. right. by apply Hin.
      + intros k' j. rewrite Hel. split.
        * intros [(v' & Hp & Hl) ?]. split; [exists v'; split; [by right|done]|done].
        * intros [(v' & [[= -> ->]|Hp]%elem_of_cons & Hl) Hj]; [congruence|].
          split; [by exists v'|done]. }
  destruct HL as (l & -> & Hsl & _ & Hel). f_equal.
  apply sorted_pairs_unique; [done|apply sorted_pairs_sorted|].
  intros [k i]. rewrite sorted_pairs_elem, Hel. split; [tauto|].
  intros E. split; [by apply (Hm k i)|done].
Qed.

Lemma list_names_none (pairs : list (bytes * bytes)) k v :
  (k, v) ∈ pairs -> listed k = true -> usize_of v = None -> list_names pairs = None.
Proof.
  induction pairs as [|[k' v'] pairs IH]; [by intros ?%not_elem_of_nil|].
  intros [[= <- <-]|Hin]%elem_of_cons Hl Hu; cbn [list_names].
  - by rewrite Hl, Hu.
  - specialize (IH Hin Hl Hu). destruct (listed k'); [|done].
    rewrite IH. by destruct (usize_of v').
Qed.

(** Of the keys of a node, the visible names and the target are listed. *)
Lemma listed_stored n k v : r2node_ok n -> stored n k = Some v ->
  listed k = match key_of k with KName => negb (attr_like k) | KTarget => true | _ => false end.
Proof.
  intros Hok Hv. destruct (canonical (key_of k)) as [k'|] eqn:Ec.
  - apply key_of_canonical in Ec as Hk.
    destruct (key_of k) as [| | | | | | | | |i| |] eqn:E; cbn [canonical] in Ec;
      try discriminate Ec; injection Ec as Ec; rewrite <- Ec in Hk; subst k.
    1-9: by vm_compute.
    unfold listed. replace (begins_with (bs "data_") (block_key i)) with true
      by (symmetry; apply begins_with_app). by rewrite andb_false_r.
  - unfold stored in Hv. destruct (key_of k) eqn:E; try done.
    destruct (good_name_key k E) as [Hu Hd]. unfold listed. by rewrite Hu, Hd.
Qed.

Lemma rvfs2_readdir_ran w s parent :
  stands w s -> is_u64 parent -> ran (rvfs2_readdir parent w) (spec_readdir parent s, s).
Proof.
  intros Hs Hi. pose proof (st_nodes _ _ Hs) as Hd. apply peek_ran; [done|].
  unfold spec_readdir. destruct (rs_nodes s !! parent) as [n|] eqn:E.
  2: { by erewrite tx_bind_err by (eapply no_bucket; done). }
  erewrite tx_bind_ok by (eapply get_bucket_ok, stands_has; done).
  erewrite tx_bind_ok by reflexivity. destruct (stands_ok _ _ _ _ Hd E) as [_ Hok].
  set (pairs := db_pairs _ _).
  assert (HP : forall k v, (k, v) ∈ pairs <-> stored n k = Some v).
  { intros k v. unfold pairs. by rewrite db_pairs_elem, (stands_get _ _ _ _ _ Hd E). }
  assert (HN : forall name i, visible (rn_names n) !! name = Some i ->
    (name, usize_be i) ∈ pairs /\ listed name = true /\ usize_of (usize_be i) = Some i).
  { intros name i [Ei Ha]%map_lookup_filter_Some. destruct (rk_names _ Hok _ _ Ei) as [Hg H64].
    assert (Est : stored n name = Some (usize_be i)) by (unfold stored; by rewrite Hg, Ei).
    split; [by apply HP|]. split; [|auto with fs]. rewrite (listed_stored n _ _ Hok Est), Hg.
    change (attr_like name = false) in Ha. by rewrite Ha. }
  assert (HV : forall k v, stored n k = Some v -> listed k = true -> key_of k <> KTarget ->
    usize_of v = visible (rn_names n) !! k /\ is_Some (visible (rn_names n) !! k)).
  { intros k v Hst Hl Hk. rewrite (listed_stored n k v Hok Hst) in Hl.
    unfold stored in Hst. destruct (key_of k) eqn:Ek; try done. apply negb_true_iff in Hl.
    destruct (rn_names n !! k) as [j|] eqn:Ej; [|done]. injection Hst as <-.
    assert (Ev : visible (rn_names n) !! k = Some j) by by apply map_lookup_filter_Some.
    rewrite Ev. split; [apply (HN k j Ev)|done]. }
  assert (HS : StronglySorted key_lt pairs.*1) by apply db_pairs_sorted.
  destruct (rn_target n) as [t|] eqn:Et.
  - assert (HT : (bs "symlink_target", t) ∈ pairs) by (by apply HP).
    destruct (usize_of t) as [i|] eqn:Eu.
    2: { unfold tx_unwrap. by rewrite (list_names_none _ _ t HT). }
    rewrite (list_names_some _ (<[bs "symlink_target" := i]> (visible (rn_names n))) HS); [done| |].
    + intros k v Hin Hl. apply HP in Hin as Hst.
      destruct (decide (k = bs "symlink_target")) as [->|Hne].
      * rewrite lookup_insert_eq. change (rn_target n = Some v) in Hst.
        split; [congruence|done].
      * rewrite lookup_insert_ne by done. apply HV; [done..|]. intros Ek. apply Hne.
        apply key_of_canonical. by rewrite Ek.
    + intros k j [[<- _]|[Hne Ej]]%lookup_insert_Some; [by exists t|].
      destruct (HN k j Ej) as (? & ? & _). by eexists.
  - rewrite (list_names_some _ (visible (rn_names n)) HS); [done| |].
    + intros k v Hin Hl. apply HP in Hin as Hst. apply HV; [done..|]. intros Ek.
      unfold stored in Hst. rewrite Ek in Hst. congruence.
    + intros k j Ej. destruct (HN k j Ej) as (? & ? & _). by eexists.
Qed.
End reads.

(** ** Requests *)

Inductive r2req :=
  | RqCreate (parent : Z) (name : bytes) (file_type : Rvfs2Type) (uid gid mode : Z)
  | RqSymlink (parent : Z) (name target : bytes) (uid gid : Z)
  | RqLink (old_parent : Z) (old_name : bytes) (new_parent : Z) (new_name : bytes)
  | RqUnlink (parent : Z) (name : bytes)
  | RqRename (old_parent : Z) (old_name : bytes) (new_parent : Z) (new_name : bytes) (flags : Z)
  | RqRmdir (parent : Z) (name : bytes)
  | RqWrite (number : Z) (buf : bytes) (offset : Z)
  | RqTruncate (number size : Z)
  | RqRead (number : Z) (buf : bytes) (offset : Z)
  | RqLookup (parent : Z) (name : bytes)
  | RqGetAttr (number : Z)
  | RqReadlink (ino : Z)
  | RqReaddir (parent : Z).

Inductive r2rep :=
  | RpNumber (r : outcome (bytes + Z))
  | RpUnit (r : outcome (bytes + unit))
  | RpLen (r : outcome Z)
  | RpDone (r : outcome unit)
  | RpData (r : outcome (Z * bytes))
  | RpFound (r : outcome (option Z))
  | RpAttr (r : outcome Rvfs2Attr)
  | RpTarget (r : outcome (bytes + bytes))
  | RpNames (r : outcome (list (bytes * Z))).

Definition reply {A S} (f : outcome A -> r2rep) (r : outcome A * S) : r2rep * S := (f r.1, r.2).

Definition serve {D} `{JammDb D} (q : r2req) (w : world D) : r2rep * world D :=
  match q with
  | RqCreate parent name t uid gid mode => reply RpNumber (rvfs2_create parent name t uid gid mode w)
  | RqSymlink parent name target uid gid => reply RpNumber (rvfs2_symlink parent name target uid gid w)
  | RqLink op on np nn => reply RpUnit (rvfs2_link op on np nn w)
  | RqUnlink parent name => reply RpUnit (rvfs2_unlink parent name w)
  | RqRename op on np nn flags => reply RpUnit (rvfs2_rename op on np nn flags w)
  | RqRmdir parent name => reply RpUnit (rvfs2_rmdir parent name w)
  | RqWrite number buf offset => reply RpLen (rvfs2_write number buf offset w)
  | RqTruncate number size => reply RpDone (rvfs2_truncate number size w)
  | RqRead number buf offset => reply RpData (rvfs2_read number buf offset w)
  | RqLookup parent name => reply RpFound (rvfs2_lookup parent name w)
  | RqGetAttr number => reply RpAttr (rvfs2_get_attr number w)
  | RqReadlink ino => reply RpTarget (rvfs2_readlink ino w)
  | RqReaddir parent => reply RpNames (rvfs2_readdir parent w)
  end.

Definition spec_serve (q : r2req) (s : r2fs) : r2rep * r2fs :=
  match q with
  | RqCreate parent name t uid gid mode => reply RpNumber (spec_create parent name t uid gid mode s)
  | RqSymlink parent name target uid gid => reply RpNumber (spec_symlink parent name target uid gid s)
  | RqLink op on np nn => reply RpUnit (spec_link op on np nn s)
  | RqUnlink parent name => reply RpUnit (spec_unlink parent name s)
  | RqRename op on np nn _ => reply RpUnit (spec_rename op on np nn s)
  | RqRmdir parent name => reply RpUnit (spec_rmdir parent name s)
  | RqWrite number buf offset => reply RpLen (spec_write number buf offset s)
  | RqTruncate number size => reply RpDone (spec_truncate number size s)
  | RqRead number buf offset => (RpData (spec_read number buf offset s), s)
  | RqLookup parent name => (RpFound (spec_lookup parent name s), s)
  | RqGetAttr number => (RpAttr (spec_get_attr number s), s)
  | RqReadlink ino => (RpTarget (spec_readlink ino s), s)
  | RqReaddir parent => (RpNames (spec_readdir parent s), s)
  end.

(** The types of the arguments, and names that are no keys of attributes,
    blocks or targets. *)
Definition r2req_ok (q : r2req) : Prop :=
  match q with
  | RqCreate parent name _ uid gid mode =>
      is_u64 parent /\ good_name name /\ is_u16 mode /\ is_u32 uid /\ is_u32 gid
  | RqSymlink parent name target uid gid =>
      is_u64 parent /\ good_name name /\ is_u64 (zlen target) /\ is_u32 uid /\ is_u32 gid
  | RqLink op on np nn | RqRename op on np nn _ =>
      is_u64 op /\ is_u64 np /\ good_name on /\ good_name nn
  | RqUnlink parent name | RqRmdir parent name | RqLookup parent name =>
      is_u64 parent /\ good_name name
  | RqWrite number _ offset | RqRead number _ offset => is_u64 number /\ is_u64 offset
  | RqTruncate number size => is_u64 number /\ is_u64 size
  | RqGetAttr number | RqReadlink number | RqReaddir number => is_u64 number
  end.

Fixpoint serve_all {S} (f : r2req -> S -> r2rep * S) (qs : list r2req) (s : S) :
  list r2rep * S :=
  match qs with
  | [] => ([], s)
  | q :: qs =>
      let '(r, s) := f q s in
      let '(rs, s) := serve_all f qs s in (r :: rs, s)
  end.

Section sessions.
Context {D : Type} `{JammDbLaws D, !Reliable D}.

Lemma reply_ran {A} (f : outcome A -> r2rep) (r : outcome A * world D) q :
  ran r q -> (reply f r).1 = (reply f q).1 /\ stands (reply f r).2 (reply f q).2.
Proof. intros [E Hs]. cbn. by rewrite E. Qed.

Lemma serve_ran q (w : world D) s :
  stands w s -> r2req_ok q ->
  (serve q w).1 = (spec_serve q s).1 /\ stands (serve q w).2 (spec_serve q s).2.
Proof.
  intros Hs Hq. pose proof (st_nodes _ _ Hs) as Hd. destruct q; cbn [r2req_ok] in Hq; destruct_and?.
  - by apply reply_ran, rvfs2_create_ran.
  - by apply reply_ran, rvfs2_symlink_ran.
  - by apply reply_ran, (str_write_ran _ _ s), link_did.
  - by apply reply_ran, (str_write_ran _ _ s), unlink_did.
  - by apply reply_ran, (str_write_ran _ _ s), rename_did.
  - by apply reply_ran, (str_write_ran _ _ s), rmdir_did.
  - by apply reply_ran, rvfs2_write_ran.
  - by apply reply_ran, rvfs2_truncate_ran.
  - by apply (reply_ran RpData _ (_, s)), rvfs2_read_ran.
  - by apply (reply_ran RpFound _ (_, s)), rvfs2_lookup_ran.
  - by apply (reply_ran RpAttr _ (_, s)), rvfs2_get_attr_ran.
  - by apply (reply_ran RpTarget _ (_, s)), rvfs2_readlink_ran.
  - by apply (reply_ran RpNames _ (_, s)), rvfs2_readdir_ran.
Qed.

(** C4: The functions of the second adapter refine the file system of
    [Rvfs2Tree]. On a store whose transactions begin and commit, for every sequence of
    requests whose numbers have the width of their types and whose names are UTF-8, none
    of the nine fixed keys of a node ("mode", ..., "symlink_target") and do not begin
    with "data_", every reply, messages, errors and panics included, is the one the file
    system gives, and the database stands for the file system they lead to. Names that
    only begin like an attribute ("modem") are among them: they are entries that the
    listing leaves out and that do not keep a directory from being removed. *)
Theorem rvfs2_refines qs (w : world D) s :
  stands w s -> Forall r2req_ok qs ->
  (serve_all serve qs w).1 = (serve_all spec_serve qs s).1 /\
  stands (serve_all serve qs w).2 (serve_all spec_serve qs s).2.
Proof.
  intros Hs Hq. revert w s Hs. induction Hq as [|q qs Hq _ IH]; intros w s Hs; [done|].
  cbn [serve_all]. destruct (serve_ran q w s Hs Hq) as [E Hs'].
  destruct (serve q w) as [r w1], (spec_serve q s) as [r' s1]. cbn in E, Hs'. subst r'.
  specialize (IH w1 s1 Hs'). destruct (serve_all serve qs w1), (serve_all spec_serve qs s1).
  cbn in IH |- *. by destruct IH as [-> ?].
Qed.
End sessions.

(** ** Witnesses *)

(** A database with the root alone. *)
Definition root_fs2 : r2fs := R2Fs {[ 1 := spec_new 0x41ED 0 0 0 None ]} 2.
Definition root_world2 : world mapdb :=
  World (match (b ← create_bucket (usize_be 1); put_attrs b 0x41ED 0 0 0) (∅ : mapdb) with
         | Ok (_, d) => d
         | _ => ∅
         end) 2 ∅.

Lemma root_stands : stands root_world2 root_fs2.
Proof.
  assert (H0 : stands_for (∅ : mapdb) ∅) by (by split).
  destruct (new_node _ _ 1 0x41ED 0 0 0 H0) as (d1 & d2 & E1 & E2 & Hs); [by vm_compute..|].
  split; [|done|by vm_compute]. unfold root_world2. cbn [w_db].
  erewrite tx_bind_ok by exact E1. by rewrite E2.
Qed.

(** A directory, a file in it, a second name, a block, a rename, removals; the
    name "modem" is not listed, and the directory is removed with it. *)
Definition sample_reqs : list r2req :=
  [RqCreate 1 (bs "d") R2Dir 0 0 0x1ED; RqCreate 2 (bs "f") R2File 0 0 0x1A4;
   RqWrite 3 (bs "hello") 0; RqLink 2 (bs "f") 1 (bs "g"); RqRename 2 (bs "f") 1 (bs "h") 0;
   RqUnlink 1 (bs "g"); RqRename 1 (bs "h") 2 (bs "modem") 0;
   RqReaddir 1; RqReaddir 2; RqLookup 2 (bs "modem"); RqRead 3 [Byte.x00; Byte.x00] 0; RqGetAttr 3;
   RqRmdir 1 (bs "d"); RqLookup 1 (bs "d"); RqTruncate 3 0; RqRead 3 [Byte.x00] 0].

Lemma rvfs2_refines_witness :
  (serve_all serve sample_reqs root_world2).1 =
  [RpNumber (Ok (inr 2)); RpNumber (Ok (inr 3)); RpLen (Ok 5); RpUnit (Ok (inr tt));
   RpUnit (Ok (inr tt)); RpUnit (Ok (inr tt));
   RpUnit (Ok (inr tt)); RpNames (Ok [(bs "d", 2)]); RpNames (Ok []); RpFound (Ok (Some 3));
   RpData (Ok (2, bs "he"));
   RpAttr (Ok (MkRvfs2Attr 3 0 0x81A4 0 0 time_default time_default time_default 1));
   RpUnit (Ok (inr tt)); RpFound (Ok None); RpDone (Ok tt); RpData (Ok (0, [Byte.x00]))].
Proof.
  destruct (rvfs2_refines sample_reqs root_world2 root_fs2 root_stands) as [E _].
  - unfold sample_reqs. repeat constructor; by vm_compute.
  - rewrite E. by vm_compute.
Defined.
