(* ===== verification/Rvfs2Node.v ===== *)
(** * Nodes of the second VFS adapter: src/src/rvfs2

    Inodes (inode.rs), the super block (superblock.rs), dentries (dentry.rs),
    mounting (fstype.rs) and the log on an inode of another file system
    (mod.rs). Inodes, super blocks and dentries are shared objects ([Arc]), so
    the state is a heap of each next to the transaction manager, whose file
    system below is the database.

    inode.rs calls functions with signatures that common.rs of the module
    does not give them (and one, [dbfs_common_attr], that it does not
    import). They are parameters, the class [NodeCalls]; the common layer of
    the repository has functions of these signatures, and [Rvfs2Mount] runs
    the nodes on them. *)

From S2P Require Import Prelude Bytes Common Store Fuse FsCommon Wal Transaction Vfscore Rvfs2Common.

(** The functions as inode.rs calls them. *)
Class NodeCalls (D : Type) := {
  nc_attr : Z -> Op D DbfsAttr;
  nc_lookup : Z -> bytes -> Op D DbfsAttr;
  nc_create : Z -> bytes -> Z -> Z -> DbfsTimeSpec -> Z -> option bytes -> option Z -> Op D DbfsAttr;
  nc_link : Z -> Z -> Z -> Z -> bytes -> DbfsTimeSpec -> Op D unit;
  nc_readlink : Z -> bytes -> Op D (Z * bytes);
  nc_rmdir : Z -> Z -> Z -> bytes -> DbfsTimeSpec -> Op D unit }.

(** ** Objects *)

(** [i2_sb] is the address of a super block. *)
Record R2Inode := MkR2Inode {
  i2_sb : Z; i2_ino : Z; i2_type : VfsNodeType; i2_size : Z; i2_nlink : Z;
  i2_uid : Z; i2_gid : Z; i2_perm : Z; i2_blksize : Z;
  i2_atime : DbfsTimeSpec; i2_mtime : DbfsTimeSpec; i2_ctime : DbfsTimeSpec;
  i2_symlink_target : option bytes }.

(** The database and the transaction manager are those of the state; the
    cache holds addresses of inodes. *)
Record R2SuperBlock := MkR2SuperBlock {
  s2_block_size : Z; s2_magic : Z; s2_root_ino : Z; s2_mount_flags : Z;
  s2_inode_cache : gmap Z Z }.

Record R2Dentry := MkR2Dentry {
  e2_parent : option Z; e2_inode : Z; e2_name : bytes; e2_children : gmap bytes Z }.

(** What [readdir] and [get_attr] return; the other fields of the second are
    constants. *)
Record R2DirEntry := MkR2DirEntry { de2_ino : Z; de2_ty : VfsNodeType; de2_name : bytes }.
Record R2Stat := MkR2Stat {
  st2_ino : Z; st2_nlink : Z; st2_mode : Z; st2_uid : Z; st2_gid : Z; st2_rdev : Z;
  st2_size : Z; st2_blksize : Z; st2_blocks : Z;
  st2_atime : DbfsTimeSpec; st2_mtime : DbfsTimeSpec; st2_ctime : DbfsTimeSpec }.
Record R2FsStat := MkR2FsStat { fs2_type : Z; fs2_bsize : Z; fs2_namelen : Z; fs2_frsize : Z }.

(** [VfsTime]. *)
Inductive R2Time := AccessTime (ts : Z * Z) | ModifiedTime (ts : Z * Z) | OtherTime.

(** [String::from_utf8_lossy]: what is no character becomes U+FFFD, once for
    every longest beginning of one. *)
Definition replacement : bytes := [Byte.xef; Byte.xbf; Byte.xbd].

(** How many bytes of the front belong together, and whether they are a
    character. *)
Definition lossy_head (s : bytes) : nat * bool :=
  match s with
  | [] => (0%nat, true)
  | c :: s =>
      if byte_val c <? 0x80 then (1%nat, true)
      else if in_range 0xC2 0xDF c then
        match s with d :: _ => if cont_byte d then (2%nat, true) else (1%nat, false) | [] => (1%nat, false) end
      else if in_range 0xE0 0xEF c then
        match s with
        | d :: s => if second_ok c d
                    then match s with
                         | e :: _ => if cont_byte e then (3%nat, true) else (2%nat, false)
                         | [] => (2%nat, false)
                         end
                    else (1%nat, false)
        | [] => (1%nat, false)
        end
      else if in_range 0xF0 0xF4 c then
        match s with
        | d :: s =>
            if second_ok c d
            then match s with
                 | e :: s =>
                     if cont_byte e
                     then match s with
                          | f :: _ => if cont_byte f then (4%nat, true) else (3%nat, false)
                          | [] => (3%nat, false)
                          end
                     else (2%nat, false)
                 | [] => (2%nat, false)
                 end
            else (1%nat, false)
        | [] => (1%nat, false)
        end
      else (1%nat, false)
  end.

Fixpoint utf8_lossy (fuel : nat) (s : bytes) : bytes :=
  match fuel, s with
  | O, _ | _, [] => []
  | S fuel, _ =>
      let '(n, ok) := lossy_head s in
      (if ok then take n s else replacement) ++ utf8_lossy fuel (drop n s)
  end.

(** ** The state and its monad *)

Section nodes.
Context {St D : Type}.

Record nst := Nst {
  n_tm : Manager St (world D);
  n_inodes : gmap Z R2Inode; n_sbs : gmap Z R2SuperBlock; n_dentries : gmap Z R2Dentry }.

(** An error ([inl]) or a result; [None] is a panic. *)
Definition Nd (A : Type) : Type := nst -> option (VfsError + A) * nst.

#[export] Instance nd_ret : MRet Nd := fun A a s => (Some (inr a), s).
#[export] Instance nd_bind : MBind Nd := fun A B f m s =>
  match m s with
  | (Some (inr a), s) => f a s
  | (Some (inl e), s) => (Some (inl e), s)
  | (None, s) => (None, s)
  end.
Definition nd_err {A} (e : VfsError) : Nd A := fun s => (Some (inl e), s).
Definition nd_guard (c : bool) (e : VfsError) : Nd unit := if c then mret tt else nd_err e.

Definition set_tm (m : Manager St (world D)) (s : nst) : nst :=
  Nst m (n_inodes s) (n_sbs s) (n_dentries s).
Definition the_world (s : nst) : world D := tm_fs (n_tm s).
Definition set_world (w : world D) (s : nst) : nst :=
  set_tm (MkManager (tm_wal (n_tm s)) (tm_next (n_tm s)) w) s.

(** A call into the database, its error as the caller maps it. *)
Definition call {A} (err : DbfsError -> VfsError) (m : Op D A) : Nd A := fun s =>
  match m (the_world s) with
  | (Ok a, w) => (Some (inr a), set_world w s)
  | (Err e, w) => (Some (inl (err e)), set_world w s)
  | (Panic, w) => (None, set_world w s)
  end.
Definition io_error (e : DbfsError) : VfsError := VIoError.

Definition inode2_at (l : Z) : Nd R2Inode := fun s => (inr <$> n_inodes s !! l, s).
Definition sb2_at (l : Z) : Nd R2SuperBlock := fun s => (inr <$> n_sbs s !! l, s).
Definition dentry2_at (l : Z) : Nd R2Dentry := fun s => (inr <$> n_dentries s !! l, s).
Definition alloc_inode (i : R2Inode) : Nd Z := fun s =>
  let l := fresh (dom (n_inodes s)) in
  (Some (inr l), Nst (n_tm s) (<[l := i]> (n_inodes s)) (n_sbs s) (n_dentries s)).
Definition alloc_sb (b : R2SuperBlock) : Nd Z := fun s =>
  let l := fresh (dom (n_sbs s)) in
  (Some (inr l), Nst (n_tm s) (n_inodes s) (<[l := b]> (n_sbs s)) (n_dentries s)).
Definition alloc_dentry (e : R2Dentry) : Nd Z := fun s =>
  let l := fresh (dom (n_dentries s)) in
  (Some (inr l), Nst (n_tm s) (n_inodes s) (n_sbs s) (<[l := e]> (n_dentries s))).
Definition update_inode2 (l : Z) (f : R2Inode -> R2Inode) : Nd unit := fun s =>
  (Some (inr tt), Nst (n_tm s) (alter f l (n_inodes s)) (n_sbs s) (n_dentries s)).
Definition update_sb2 (l : Z) (f : R2SuperBlock -> R2SuperBlock) : Nd unit := fun s =>
  (Some (inr tt), Nst (n_tm s) (n_inodes s) (alter f l (n_sbs s)) (n_dentries s)).
Definition update_dentry2 (l : Z) (f : R2Dentry -> R2Dentry) : Nd unit := fun s =>
  (Some (inr tt), Nst (n_tm s) (n_inodes s) (n_sbs s) (alter f l (n_dentries s))).

Definition with_i2_size (z : Z) (i : R2Inode) : R2Inode :=
  MkR2Inode (i2_sb i) (i2_ino i) (i2_type i) z (i2_nlink i) (i2_uid i) (i2_gid i) (i2_perm i)
    (i2_blksize i) (i2_atime i) (i2_mtime i) (i2_ctime i) (i2_symlink_target i).
Definition with_i2_nlink (f : Z -> Z) (i : R2Inode) : R2Inode :=
  MkR2Inode (i2_sb i) (i2_ino i) (i2_type i) (i2_size i) (f (i2_nlink i)) (i2_uid i) (i2_gid i)
    (i2_perm i) (i2_blksize i) (i2_atime i) (i2_mtime i) (i2_ctime i) (i2_symlink_target i).
Definition with_cache (f : gmap Z Z -> gmap Z Z) (b : R2SuperBlock) : R2SuperBlock :=
  MkR2SuperBlock (s2_block_size b) (s2_magic b) (s2_root_ino b) (s2_mount_flags b)
    (f (s2_inode_cache b)).
Definition with_children (f : gmap bytes Z -> gmap bytes Z) (e : R2Dentry) : R2Dentry :=
  MkR2Dentry (e2_parent e) (e2_inode e) (e2_name e) (f (e2_children e)).

Context `{JammDb D, NodeCalls D, WalStorage St, EntryCodec, BottomFs (world D), VfsCore, VfsModes}.

(** A transaction of one operation. *)
Definition run_txn (op : TransactionOperation) : Nd unit := fun s =>
  let '(txn, m) := begin_transaction (n_tm s) in
  match commit (record_op op txn) m with
  | (inl _, m) => (Some (inl VIoError), set_tm m s)
  | (inr _, m) => (Some (inr tt), set_tm m s)
  end.

(** ** Inodes: inode.rs *)

(** The parameters [perm], [uid], [gid] and [ctime] of the three constructors
    are not looked at. *)
Definition new_object2 (sb ino : Z) (ty : VfsNodeType) (target : option bytes) : Nd Z :=
  attr ← call io_error (nc_attr ino);
  alloc_inode (MkR2Inode sb ino ty (a_size attr) (a_nlink attr) (a_uid attr) (a_gid attr)
    (a_perm attr) (a_blksize attr) (a_atime attr) (a_mtime attr) (a_ctime attr) target).

Definition new_dir (sb ino perm uid gid : Z) (ctime : DbfsTimeSpec) : Nd Z :=
  new_object2 sb ino VDir None.
Definition new_file (sb ino perm uid gid : Z) (ctime : DbfsTimeSpec) : Nd Z :=
  new_object2 sb ino VFile None.
Definition new_symlink (sb ino perm uid gid : Z) (target : bytes) (ctime : DbfsTimeSpec) : Nd Z :=
  new_object2 sb ino VSymLink (Some target).

Definition current_time : DbfsTimeSpec := TimeSpec 0 0.

Definition vfs_to_dbfs_type (ty : VfsNodeType) : DbfsFileType :=
  match ty with
  | VFile => RegularFile | VDir => Directory | VSymLink => Symlink
  | VCharDevice => CharDevice | VBlockDevice => BlockDevice | VFifo => NamedPipe
  | VSocket => Socket | VUnknown => RegularFile
  end.

Definition vfs_to_dbfs_perm (perm : Z) (ty : VfsNodeType) : Z :=
  let p := Perm.from_bits_truncate perm in
  Perm.union p
    (match ty with
     | VFile => Perm.S_IFREG | VDir => Perm.S_IFDIR | VSymLink => Perm.S_IFLNK
     | VCharDevice => Perm.S_IFCHR | VBlockDevice => Perm.S_IFBLK | VFifo => Perm.S_IFIFO
     | VSocket => Perm.S_IFSOCK | VUnknown => Perm.S_IFREG
     end).

(** [insert_inode], [get_inode], [remove_inode] of superblock.rs. *)
Definition insert_inode (sb ino l : Z) : Nd unit := update_sb2 sb (with_cache (<[ino := l]>)).
Definition get_inode (sb ino : Z) : Nd (option Z) :=
  b ← sb2_at sb; mret (s2_inode_cache b !! ino).
Definition remove_inode (sb ino : Z) : Nd unit := update_sb2 sb (with_cache (base.delete ino)).

Definition node_read_at (self offset : Z) (buf : bytes) : Nd (Z * bytes) :=
  i ← inode2_at self;
  nd_guard (bool_decide (i2_type i = VFile \/ i2_type i = VSymLink)) VNoSys;;
  call io_error (rvfs2_read (i2_ino i) buf offset).

Definition node_write_at (self offset : Z) (buf : bytes) : Nd Z :=
  i ← inode2_at self;
  nd_guard (bool_decide (i2_type i = VFile)) VNoSys;;
  run_txn (OpWrite (i2_ino i) offset buf);;
  let len := zlen buf in
  update_inode2 self (fun i => with_i2_size (Z.max (w64 (offset + len)) (i2_size i)) i);;
  mret len.

(** The entries of the bucket, in its order. *)
Definition readdir_pair (kv : bytes * bytes) : option (bytes * Z) :=
  if begins_with (bs "data:") kv.1
  then let name := drop 5 kv.1 in
       ino ← (if utf8_ok kv.2 then parse_usize kv.2 else None);
       Some (utf8_lossy (length name) name, ino)
  else None.

Definition node_readdir (self start_index : Z) : Nd (option R2DirEntry) :=
  i ← inode2_at self;
  nd_guard (bool_decide (i2_type i = VDir)) VNotDir;;
  entries ← call io_error (read_tx Question (
    bucket ← get_bucket (usize_be (i2_ino i));
    pairs ← kv_pairs bucket;
    mret (omap readdir_pair pairs)));
  match entries !! Z.to_nat start_index with
  | None => mret None
  | Some (name, ino) =>
      attr ← call io_error (nc_attr ino);
      let entry_type := match a_kind attr with
        | Directory => VDir | RegularFile => VFile | Symlink => VSymLink | _ => VFifo end in
      mret (Some (MkR2DirEntry ino entry_type name))
  end.

Definition node_flush (self : Z) : Nd unit := mret tt.
Definition node_get_super_block (self : Z) : Nd Z := i ← inode2_at self; mret (i2_sb i).
Definition node_perm (self : Z) : Nd Z :=
  i ← inode2_at self; mret (perm_truncate (Z.land (i2_perm i) 0x1FF)).
Definition node_inode_type (self : Z) : Nd VfsNodeType := i ← inode2_at self; mret (i2_type i).
Definition node_ino (self : Z) : Nd Z := i ← inode2_at self; mret (i2_ino i).

(** The node is in the database before its type is looked at. *)
Definition node_create (self : Z) (name : bytes) (ty : VfsNodeType) (perm : Z)
    (rdev : option Z) : Nd Z :=
  i ← inode2_at self;
  nd_guard (bool_decide (i2_type i = VDir)) VNotDir;;
  let dbfs_perm := vfs_to_dbfs_perm perm ty in
  let ctime := current_time in
  let dev := if bool_decide (ty = VCharDevice \/ ty = VBlockDevice)
             then Some (w32 (default 0 rdev)) else None in
  run_txn (OpCreate (i2_ino i) name 0 0 dbfs_perm dev);;
  attr ← call io_error (nc_lookup (i2_ino i) name);
  new_inode ← match ty with
    | VFile => new_file (i2_sb i) (a_ino attr) (a_perm attr) (a_uid attr) (a_gid attr) ctime
    | VDir => new_dir (i2_sb i) (a_ino attr) (a_perm attr) (a_uid attr) (a_gid attr) ctime
    | _ => nd_err VNoSys
    end;
  insert_inode (i2_sb i) (a_ino attr) new_inode;;
  mret new_inode.

(** [src] is [None] when it is no inode of this file system. *)
Definition node_link (self : Z) (name : bytes) (src : option Z) : Nd Z :=
  i ← inode2_at self;
  nd_guard (bool_decide (i2_type i = VDir)) VNotDir;;
  match src with
  | None => nd_err VInvalid
  | Some src =>
      o ← inode2_at src;
      call io_error (nc_link 0 0 (i2_ino o) (i2_ino i) name current_time);;
      update_inode2 src (with_i2_nlink (fun z => w32 (z + 1)));;
      mret src
  end.

Definition node_unlink (self : Z) (name : bytes) : Nd unit :=
  i ← inode2_at self;
  nd_guard (bool_decide (i2_type i = VDir)) VNotDir;;
  run_txn (OpDelete (i2_ino i) name).

(** Not through the transaction manager. *)
Definition node_symlink (self : Z) (name target : bytes) : Nd Z :=
  i ← inode2_at self;
  nd_guard (bool_decide (i2_type i = VDir)) VNotDir;;
  let perm := Perm.union Perm.S_IFLNK (Perm.from_bits_truncate 0x1FF) in
  let ctime := current_time in
  attr ← call io_error (nc_create (i2_ino i) name 0 0 ctime perm (Some target) None);
  symlink ← new_symlink (i2_sb i) (a_ino attr) (a_perm attr) (a_uid attr) (a_gid attr) target ctime;
  insert_inode (i2_sb i) (a_ino attr) symlink;;
  mret symlink.

(** The text of a target of 4096 bytes at most. *)
Definition target_text (len : Z) (buf : bytes) : Nd bytes := fun s =>
  match slice buf 0 len with
  | None => (None, s)
  | Some t => (Some (if utf8_ok t then inr t else inl VInvalid), s)
  end.

Definition node_lookup (self : Z) (name : bytes) : Nd Z :=
  i ← inode2_at self;
  nd_guard (bool_decide (i2_type i = VDir)) VNotDir;;
  attr ← call (fun _ => VNoEntry) (nc_lookup (i2_ino i) name);
  cached ← get_inode (i2_sb i) (a_ino attr);
  match cached with
  | Some l => mret l
  | None =>
      let ctime := current_time in
      inode ← match a_kind attr with
        | Directory =>
            new_dir (i2_sb i) (a_ino attr) (a_perm attr) (a_uid attr) (a_gid attr) ctime
        | RegularFile =>
            new_file (i2_sb i) (a_ino attr) (a_perm attr) (a_uid attr) (a_gid attr) ctime
        | Symlink =>
            '(len, target) ← call io_error (nc_readlink (a_ino attr) (replicate 4096 Byte.x00));
            target_str ← target_text len target;
            new_symlink (i2_sb i) (a_ino attr) (a_perm attr) (a_uid attr) (a_gid attr) target_str ctime
        | _ => nd_err VNoSys
        end;
      insert_inode (i2_sb i) (a_ino attr) inode;;
      mret inode
  end.

Definition node_rmdir (self : Z) (name : bytes) : Nd unit :=
  i ← inode2_at self;
  nd_guard (bool_decide (i2_type i = VDir)) VNotDir;;
  call (fun e => match e with NotEmpty => VNotEmpty | _ => VIoError end)
    (nc_rmdir 0 0 (i2_ino i) name current_time).

Definition node_readlink (self : Z) (_buf : bytes) : Nd Z := nd_err VNoSys.

(** The size of the object is set before the commit; its permissions never
    are. *)
Definition node_set_attr (self mode size : Z) : Nd unit :=
  i ← inode2_at self;
  let new_size := negb (size =? i2_size i) in
  let body : Tx D unit :=
    bucket ← get_bucket (usize_be (i2_ino i));
    tx_when new_size (put bucket (bs "size") (u64_be size));;
    tx_when (negb (w16 mode =? i2_perm i)) (put bucket (bs "mode") (u16_be (w16 mode))) in
  call io_error (op_begin Question true);;
  call io_error (peek (get_bucket (usize_be (i2_ino i))));;
  (if new_size then update_inode2 self (with_i2_size size) else mret tt);;
  call io_error (write_tx Question Question body).

Definition node_get_attr (self : Z) : Nd R2Stat :=
  i ← inode2_at self;
  attr ← call io_error (nc_attr (i2_ino i));
  let ty := match a_kind attr with
    | Directory => VDir | RegularFile => VFile | Symlink => VSymLink
    | CharDevice => VCharDevice | BlockDevice => VBlockDevice | NamedPipe => VFifo
    | Socket => VSocket end in
  mret (MkR2Stat (a_ino attr) (a_nlink attr) (mode_bits (perm_truncate (Z.land (a_perm attr) 0x1FF)) ty)
    (a_uid attr) (a_gid attr) (a_rdev attr) (a_size attr) (a_blksize attr) (a_blocks attr)
    (a_atime attr) (a_mtime attr) (a_ctime attr)).

Definition node_list_xattr (self : Z) : Nd (list bytes) := mret [].

Definition node_truncate (self len : Z) : Nd unit :=
  i ← inode2_at self;
  nd_guard (bool_decide (i2_type i = VFile)) VNoSys;;
  run_txn (OpTruncate (i2_ino i) len);;
  update_inode2 self (with_i2_size len).

(** The flag is not looked at. *)
Definition node_rename_to (self : Z) (old_name : bytes) (new_parent : option Z)
    (new_name : bytes) : Nd unit :=
  i ← inode2_at self;
  match new_parent with
  | None => nd_err VInvalid
  | Some p =>
      o ← inode2_at p;
      run_txn (OpRename (i2_ino i) old_name (i2_ino o) new_name)
  end.

(** Eight bytes of seconds and eight of nanoseconds. The nanoseconds of
    [current_time] are a [u32]: their four bytes do not fill the slice. *)
Definition time_bytes (sec nsec_bytes : bytes) : option bytes :=
  b ← copy_into (replicate 16 Byte.x00) 0 8 sec; copy_into b 8 16 nsec_bytes.

Definition node_update_time (self : Z) (time : R2Time) (_now : Z * Z) : Nd unit :=
  i ← inode2_at self;
  call io_error (write_tx Question Question (
    bucket ← get_bucket (usize_be (i2_ino i));
    let ctime := current_time in
    match time with
    | AccessTime ts =>
        v ← tx_unwrap (time_bytes (u64_be ts.1) (u64_be ts.2)); put bucket (bs "atime") v
    | ModifiedTime ts =>
        v ← tx_unwrap (time_bytes (u64_be ts.1) (u64_be ts.2)); put bucket (bs "mtime") v
    | OtherTime =>
        v ← tx_unwrap (time_bytes (u64_be (sec ctime)) (u32_be (nsec ctime)));
        put bucket (bs "ctime") v
    end)).

(** ** The super block: superblock.rs *)

(** [DbfsSuperBlock::new]; [block_size] is read again. The next inode number
    becomes the stored one. *)
Definition sb2_new (block_size magic mount_flags : Z) : Nd Z :=
  call io_error (op_begin Question false);;
  continue_number ← call io_error (peek (
    bucket ← get_bucket (bs "super_blk");
    v ← get_kv bucket (bs "continue_number");
    match v with
    | None => tx_fail Io
    | Some v => tx_unwrap (usize_of v)
    end));
  call io_error (store_next continue_number);;
  blk_size ← call io_error (peek (
    v ← get_kv (bs "super_blk") (bs "blk_size");
    match v with
    | None => tx_fail Io
    | Some v => tx_unwrap (u32_of v)
    end));
  alloc_sb (MkR2SuperBlock blk_size magic 1 mount_flags ∅).

Definition sb2_sync_fs (self : Z) (_wait : bool) : Nd unit :=
  call io_error (
    op_begin Question true;;
    peek (get_bucket (bs "super_blk"));;
    continue_number ← load_next;
    write_tx Question Question (
      bucket ← get_bucket (bs "super_blk");
      put bucket (bs "continue_number") (usize_be continue_number))).

(** [as i64]. *)
Definition sb2_stat_fs (self : Z) : Nd R2FsStat :=
  b ← sb2_at self;
  _ ← call io_error (FsCommon.dbfs_common_statfs (s2_block_size b) (s2_magic b)
         (s2_mount_flags b) 0 (s2_block_size b));
  mret (MkR2FsStat (s2_magic b) (as_i64 (s2_block_size b)) 255 (as_i64 (s2_block_size b))).

Definition sb2_fs_type (self : Z) : Nd unit := fun s => (None, s).

(** [impl Clone for DbfsSuperBlock]: a copy of the cache too. *)
Definition sb2_clone (self : Z) : Nd Z := b ← sb2_at self; alloc_sb b.

(** The root inode belongs to a copy of the super block. *)
Definition sb2_root_inode (self : Z) : Nd Z :=
  b ← sb2_at self;
  cached ← get_inode self (s2_root_ino b);
  match cached with
  | Some l => mret l
  | None =>
      copy ← sb2_clone self;
      root_inode ← new_dir copy (s2_root_ino b) 0x1ED 0 0 time_default;
      insert_inode self (s2_root_ino b) root_inode;;
      mret root_inode
  end.

(** ** Dentries: dentry.rs *)

Definition dentry2_new (inode : Z) (name : bytes) : Nd Z :=
  alloc_dentry (MkR2Dentry None inode name ∅).
Definition dentry2_root (inode : Z) : Nd Z := alloc_dentry (MkR2Dentry None inode (bs "/") ∅).
Definition dentry2_name (self : Z) : Nd bytes := e ← dentry2_at self; mret (e2_name e).
Definition dentry2_to_mount_point (self sub_fs_root mount_flag : Z) : Nd unit := nd_err VNoSys.
Definition dentry2_inode (self : Z) : Nd Z := e ← dentry2_at self; mret (e2_inode e).
Definition dentry2_mount_point (self : Z) : Nd (option Z) := mret None.
Definition dentry2_clear_mount_point (self : Z) : Nd unit := mret tt.

Definition dentry2_find (self : Z) (path : bytes) : Nd (option Z) :=
  e ← dentry2_at self;
  i ← inode2_at (e2_inode e);
  mret (if bool_decide (i2_type i = VDir) then e2_children e !! path else None).

(** The dentry is made before the name is looked for. *)
Definition dentry2_insert (self : Z) (name : bytes) (child : Z) : Nd Z :=
  dentry ← alloc_dentry (MkR2Dentry (Some self) child name ∅);
  e ← dentry2_at self;
  if bool_decide (is_Some (e2_children e !! name)) then nd_err VEExist
  else update_dentry2 self (with_children (<[name := dentry]>));; mret dentry.

Definition dentry2_remove (self : Z) (name : bytes) : Nd (option Z) :=
  e ← dentry2_at self;
  update_dentry2 self (with_children (base.delete name));;
  mret (e2_children e !! name).

Definition dentry2_parent (self : Z) : Nd (option Z) := e ← dentry2_at self; mret (e2_parent e).
Definition dentry2_set_parent (self parent : Z) : Nd unit :=
  update_dentry2 self (fun e => MkR2Dentry (Some parent) (e2_inode e) (e2_name e) (e2_children e)).

(** ** Mounting: fstype.rs *)

(** A number of the super block, four bytes. *)
Definition super_u32 (k : bytes) : Tx D Z :=
  bucket ← get_bucket (bs "super_blk");
  v ← get_kv bucket k;
  match v with None => tx_fail Io | Some v => tx_unwrap (u32_of v) end.

(** [dev] is the storage on the file [.dbfs.wal] of the device below, when
    there is a device: what [dev.create] returned. *)
Definition fs2_mount (dev : option (VfsError + St)) : Nd Z :=
  match dev with
  | None => mret tt
  | Some (inl _) => nd_err VIoError
  | Some (inr storage) => fun s => (Some (inr tt), set_tm (set_wal_storage storage (n_tm s)) s)
  end;;
  _ ← call io_error (FsCommon.dbfs_common_root_inode 0 0 time_default);
  '(blk_size, magic) ← call io_error (
    op_begin Question false;;
    peek (blk_size ← super_u32 (bs "blk_size");
          magic ← super_u32 (bs "magic");
          mret (blk_size, magic)));
  sb ← sb2_new blk_size magic 0;
  root_inode ← sb2_root_inode sb;
  dentry2_root root_inode.

Definition fs2_kill_sb (sb : Z) : Nd unit :=
  sb2_sync_fs sb true;;
  call io_error FsCommon.dbfs_common_umount.
End nodes.

Arguments Nst {St D} n_tm n_inodes n_sbs n_dentries.
Arguments nst : clear implicits.
Arguments Nd : clear implicits.

(** ** The log on an inode of another file system: mod.rs *)

(** [VfsWalStorage]: the numbers of bytes that [write_at] and [read_at] return
    are dropped. *)
#[export] Instance VfsWalStorage {V} `{VfsDevice V} : WalStorage V := {
  wal_write := fun v offset data =>
    match vi_write_at v offset data with
    | (inl e, v) => (inl (vi_debug (V := V) e), v)
    | (inr _, v) => (inr tt, v)
    end;
  wal_read := fun v offset buf =>
    match vi_read_at v offset buf with
    | inl e => inl (vi_debug (V := V) e)
    | inr (_, buf) => inr buf
    end;
  wal_truncate := fun v length =>
    match vi_truncate v length with
    | (inl e, v) => (inl (vi_debug (V := V) e), v)
    | (inr _, v) => (inr tt, v)
    end;
  wal_flush := fun v =>
    match vi_flush v with inl e => inl (vi_debug (V := V) e) | inr _ => inr tt end }.
