(* ===== verification/Rvfs2Mount.v ===== *)
(** * Time stamps and mounting in the second VFS adapter

    What the nodes of [Rvfs2Node] do themselves, whatever the functions behind
    them answer: the time stamps they store are read back without their
    nanoseconds, and mounting needs a root made elsewhere. *)

From S2P Require Import Prelude Bytes Common Store FsCommon MapDb Layout SuperBlock Fuse Wal Transaction Vfscore Rvfs2Common Rvfs2Node.

Section steps.
Context {St D : Type}.
Implicit Types (st : nst St D).

Lemma nd_bind_ok {A B} (m : Nd St D A) (f : A -> Nd St D B) st a st' :
  m st = (Some (inr a), st') -> (m ≫= f) st = f a st'.
Proof. intros E. unfold mbind, nd_bind. by rewrite E. Qed.

Lemma nd_bind_err {A B} (m : Nd St D A) (f : A -> Nd St D B) st e st' :
  m st = (Some (inl e), st') -> (m ≫= f) st = (Some (inl e), st').
Proof. intros E. unfold mbind, nd_bind. by rewrite E. Qed.

Lemma nd_bind_panic {A B} (m : Nd St D A) (f : A -> Nd St D B) st st' :
  m st = (None, st') -> (m ≫= f) st = (None, st').
Proof. intros E. unfold mbind, nd_bind. by rewrite E. Qed.

Lemma inode2_at_ok l st i : n_inodes st !! l = Some i -> inode2_at l st = (Some (inr i), st).
Proof. intros E. unfold inode2_at. by rewrite E. Qed.
Lemma sb2_at_ok l st b : n_sbs st !! l = Some b -> sb2_at l st = (Some (inr b), st).
Proof. intros E. unfold sb2_at. by rewrite E. Qed.

Lemma nd_guard_ok c e st : c = true -> nd_guard c e st = (Some (inr tt), st).
Proof. by intros ->. Qed.

Lemma call_ok {A} err (m : Op D A) st a w :
  m (the_world st) = (Ok a, w) -> call err m st = (Some (inr a), set_world w st).
Proof. intros E. unfold call. by rewrite E. Qed.
Lemma call_err {A} err (m : Op D A) st e w :
  m (the_world st) = (Err e, w) -> call err m st = (Some (inl (err e)), set_world w st).
Proof. intros E. unfold call. by rewrite E. Qed.

Lemma set_world_same st : set_world (the_world st) st = st.
Proof. by destruct st as [[] ???]. Qed.

Lemma call_same {A} err (m : Op D A) st a :
  m (the_world st) = (Ok a, the_world st) -> call err m st = (Some (inr a), st).
Proof. intros E. rewrite (call_ok _ _ _ _ _ E). by rewrite set_world_same. Qed.
End steps.

Section nodes.
Context {St D : Type} `{JammDbLaws D, !Reliable D, NodeCalls D}.
Implicit Types (st : nst St D).

(** ** Time stamps *)

(** The leading bytes of a number are those of its high part. *)
Lemma take_to_be m k z : take m (to_be (m + k) z) = to_be m (z / 256 ^ Z.of_nat k).
Proof.
  induction m as [|m IH]; [done|]. cbn [Nat.add to_be take]. rewrite IH. f_equal. f_equal.
  rewrite Z.div_div by lia. f_equal. rewrite Nat2Z.inj_add, Z.pow_add_r by lia. lia.
Qed.

Lemma time_bytes_some sec nsec :
  time_bytes (u64_be sec) (u64_be nsec) = Some (u64_be sec ++ u64_be nsec).
Proof. done. Qed.

Lemma time_bytes_none sec nsec : time_bytes (u64_be sec) (u32_be nsec) = None.
Proof. done. Qed.

(** The nanoseconds are read from the first four of their eight bytes. *)
Lemma time_of_wide sec nsec : is_u64 sec -> is_u64 nsec ->
  time_of_bytes (u64_be sec ++ u64_be nsec) = Some (TimeSpec sec (nsec / 2 ^ 32)).
Proof.
  intros Hs Hn.
  assert (E : u64_be nsec = u32_be (nsec / 2 ^ 32) ++ drop 4 (u64_be nsec)).
  { rewrite <- (take_drop 4 (u64_be nsec)) at 1. f_equal. unfold u64_be, u32_be.
    change 8%nat with (4 + 4)%nat. by rewrite take_to_be. }
  rewrite E, app_assoc.
  change (u64_be sec ++ u32_be (nsec / 2 ^ 32)) with (time_to_be_bytes (TimeSpec sec (nsec / 2 ^ 32))).
  apply time_roundtrip. split; [done|]. cbn. unfold is_u32, is_u64 in *.
  split; [apply Z.div_pos; lia|apply Z.div_lt_upper_bound; lia].
Qed.

Lemma update_time_stores st self i (k : bytes) ts now time :
  n_inodes st !! self = Some i -> db_has (w_db (the_world st)) (usize_be (i2_ino i)) = true ->
  (time = AccessTime ts /\ k = bs "atime" \/ time = ModifiedTime ts /\ k = bs "mtime") ->
  node_update_time self time now st =
  (Some (inr tt),
   set_world (set_db (the_world st) (db_put (w_db (the_world st)) (usize_be (i2_ino i)) k
    (u64_be ts.1 ++ u64_be ts.2))) st).
Proof.
  intros Hi Hb Ht. unfold node_update_time. erewrite nd_bind_ok by (by apply inode2_at_ok).
  apply call_ok, write_tx_ok. erewrite tx_bind_ok by (by apply get_bucket_ok).
  destruct Ht as [[-> ->]|[-> ->]]; cbv beta iota zeta; by rewrite time_bytes_some.
Qed.

(** [update_time] loses the nanoseconds and cannot set the change time: it stores the
    nanoseconds in eight bytes of which every reader takes the first four, so that for
    times below 2^32 ns the reader sees none; for the third kind of time it panics, since
    four bytes do not fill a slice of eight. *)
Theorem update_time_loses_nsec st self i sec nsec now :
  n_inodes st !! self = Some i -> db_has (w_db (the_world st)) (usize_be (i2_ino i)) = true ->
  is_u64 sec -> is_u32 nsec ->
  (exists st', node_update_time self (AccessTime (sec, nsec)) now st = (Some (inr tt), st') /\
     let d := w_db (the_world st') in
     read_time (usize_be (i2_ino i)) (bs "atime") d = Ok (TimeSpec sec 0, d)) /\
  (exists st', node_update_time self (ModifiedTime (sec, nsec)) now st = (Some (inr tt), st') /\
     let d := w_db (the_world st') in
     read_time (usize_be (i2_ino i)) (bs "mtime") d = Ok (TimeSpec sec 0, d)) /\
  (node_update_time self OtherTime now st).1 = None.
Proof.
  intros Hi Hb Hs Hn.
  assert (HR : forall k, let d := db_put (w_db (the_world st)) (usize_be (i2_ino i)) k (u64_be sec ++ u64_be nsec) in
    read_time (usize_be (i2_ino i)) k d = Ok (TimeSpec sec 0, d)).
  { intros k d. eapply read_field_ok; [by apply db_get_put_eq|].
    rewrite time_of_wide by (unfold is_u32, is_u64 in *; first [done|lia]).
    by rewrite Z.div_small. }
  split; [|split].
  - eexists. split.
    { apply (update_time_stores st self i (bs "atime") (sec, nsec) now _ Hi Hb). by left. }
    apply HR.
  - eexists. split.
    { apply (update_time_stores st self i (bs "mtime") (sec, nsec) now _ Hi Hb). by right. }
    apply HR.
  - unfold node_update_time. erewrite nd_bind_ok by (by apply inode2_at_ok).
    unfold call. rewrite write_tx_panic; [done|].
    erewrite tx_bind_ok by (by apply get_bucket_ok). done.
Qed.

(** ** Mounting *)

Lemma super_u32_ok d k z :
  db_get d (bs "super_blk") k = Some (u32_be z) -> is_u32 z -> super_u32 k d = Ok (z, d).
Proof.
  intros E Hz. unfold super_u32. erewrite tx_bind_ok by (eapply get_bucket_ok, db_has_some; exact E).
  erewrite tx_bind_ok by reflexivity. rewrite E. cbv beta iota. by rewrite u32_of_be.
Qed.

Lemma op_begin_same p wr st :
  call io_error (op_begin p wr) st = (Some (inr tt), st).
Proof. apply call_same, op_begin_ok. Qed.

(** The super block object made from the stored numbers. *)
Definition sb_of (blk magic flags : Z) : R2SuperBlock := MkR2SuperBlock blk magic 1 flags ∅.
Definition add_sb (b : R2SuperBlock) st : nst St D :=
  Nst (n_tm st) (n_inodes st) (<[fresh (dom (n_sbs st)) := b]> (n_sbs st)) (n_dentries st).

Lemma sb2_new_ok st next blk magic arg flags :
  super_at (w_db (the_world st)) next blk magic -> is_u64 next -> is_u32 blk ->
  sb2_new arg magic flags st =
  (Some (inr (fresh (dom (n_sbs st)))),
   add_sb (sb_of blk magic flags) (set_world (set_next (the_world st) next) st)).
Proof.
  intros [Hn Hb Hm] Hnext Hblk. unfold sb2_new.
  assert (Hh : db_has (w_db (the_world st)) (bs "super_blk") = true) by by eapply db_has_some.
  erewrite nd_bind_ok by apply op_begin_same.
  erewrite nd_bind_ok.
  2: { apply call_same. eapply peek_ok. erewrite tx_bind_ok by by apply get_bucket_ok.
       erewrite tx_bind_ok by reflexivity. rewrite Hn. cbv beta iota.
       unfold tx_unwrap. by rewrite usize_of_be. }
  erewrite nd_bind_ok by (apply call_ok; reflexivity).
  set (st1 := set_world (set_next (the_world st) next) st).
  erewrite (nd_bind_ok _ _ st1 blk st1); [reflexivity|].
  apply call_same. eapply peek_ok. erewrite tx_bind_ok by reflexivity.
  change (w_db (the_world st1)) with (w_db (the_world st)).
  rewrite Hb. unfold tx_unwrap. by rewrite u32_of_be.
Qed.

(** The object made for a node. *)
Definition object_of (sb ino : Z) (ty : VfsNodeType) (target : option bytes) (a : DbfsAttr) : R2Inode :=
  MkR2Inode sb ino ty (a_size a) (a_nlink a) (a_uid a) (a_gid a) (a_perm a) (a_blksize a)
    (a_atime a) (a_mtime a) (a_ctime a) target.

Definition add_object (i : R2Inode) st : nst St D :=
  Nst (n_tm st) (<[fresh (dom (n_inodes st)) := i]> (n_inodes st)) (n_sbs st) (n_dentries st).

Lemma new_object2_ok st sb ino ty target a :
  nc_attr ino (the_world st) = (Ok a, the_world st) ->
  new_object2 sb ino ty target st =
  (Some (inr (fresh (dom (n_inodes st)))), add_object (object_of sb ino ty target a) st).
Proof. intros Ha. unfold new_object2. by erewrite nd_bind_ok by by apply call_same. Qed.

Lemma sb2_root_ok st k b a :
  n_sbs st !! k = Some b -> s2_inode_cache b = ∅ -> s2_root_ino b = 1 ->
  nc_attr 1 (the_world st) = (Ok a, the_world st) ->
  exists l copy st', sb2_root_inode k st = (Some (inr l), st') /\
    n_tm st' = n_tm st /\ n_dentries st' = n_dentries st /\
    n_inodes st' !! l = Some (object_of copy 1 VDir None a) /\
    copy <> k /\ n_sbs st' !! copy = Some b /\ n_sbs st' !! k = Some (with_cache (<[1 := l]>) b).
Proof.
  intros Hb Hc Hroot Ha. set (copy := fresh (dom (n_sbs st))).
  assert (Hne : copy <> k).
  { intros <-. apply (is_fresh (dom (n_sbs st))), elem_of_dom. by exists b. }
  set (st1 := add_sb b st).
  assert (E1 : sb2_clone k st = (Some (inr copy), st1)).
  { unfold sb2_clone. by erewrite nd_bind_ok by by apply sb2_at_ok. }
  pose proof (new_object2_ok st1 copy 1 VDir None a Ha) as E2.
  exists (fresh (dom (n_inodes st1))), copy. eexists. split.
  { unfold sb2_root_inode. erewrite nd_bind_ok by by apply sb2_at_ok.
    unfold get_inode. erewrite nd_bind_ok by (erewrite nd_bind_ok by (by apply sb2_at_ok); reflexivity).
    rewrite Hc, lookup_empty, Hroot. erewrite nd_bind_ok by exact E1.
    unfold new_dir. erewrite nd_bind_ok by exact E2. by erewrite nd_bind_ok by reflexivity. }
  cbn. split_and!; try done.
  - by rewrite lookup_insert_eq.
  - by rewrite lookup_alter_ne, lookup_insert_eq by done.
  - by rewrite lookup_alter_eq, lookup_insert_ne, Hb by done.
Qed.

Lemma sb2_root_missing st k b e w :
  n_sbs st !! k = Some b -> s2_inode_cache b = ∅ -> s2_root_ino b = 1 ->
  nc_attr 1 (the_world st) = (Err e, w) ->
  sb2_root_inode k st = (Some (inl VIoError), set_world w (add_sb b st)).
Proof.
  intros Hb Hc Hroot Ha. unfold sb2_root_inode. erewrite nd_bind_ok by by apply sb2_at_ok.
  unfold get_inode. erewrite nd_bind_ok by (erewrite nd_bind_ok by (by apply sb2_at_ok); reflexivity).
  rewrite Hc, lookup_empty, Hroot.
  erewrite (nd_bind_ok _ _ st (fresh (dom (n_sbs st))) (add_sb b st)).
  2: { unfold sb2_clone. by erewrite nd_bind_ok by by apply sb2_at_ok. }
  apply nd_bind_err. unfold new_dir, new_object2. apply nd_bind_err. by apply (call_err io_error _ _ e).
Qed.

(** What [mount] reads before it makes the super block. *)
Lemma mount_numbers st next blk magic :
  super_at (w_db (the_world st)) next blk magic -> is_u32 blk -> is_u32 magic ->
  call io_error (
    op_begin Question false;;
    peek (blk_size ← super_u32 (bs "blk_size"); magic ← super_u32 (bs "magic");
          mret (blk_size, magic))) st = (Some (inr (blk, magic)), st).
Proof.
  intros [_ Hb Hm] Hblk Hmagic. apply call_same. erewrite op_bind_ok by apply op_begin_ok.
  eapply peek_ok. erewrite tx_bind_ok by by apply super_u32_ok.
  by erewrite tx_bind_ok by by apply super_u32_ok.
Qed.

(** Mounting needs a root made elsewhere. On a database whose super block is there
    but no root, where the attributes of inode 1 cannot be read, the first mount of a
    session fails with an input/output error and leaves the database as it was: the
    root it writes itself is dropped. With a root whose attributes can be read, the mount
    leaves the database as it is, continues with the stored inode number and returns a
    dentry "/" whose inode shows those attributes; the mounted super block holds that
    inode in its cache, but the inode itself belongs to a copy of the super block with a
    cache of its own. *)
Theorem mount_needs_root st next blk magic :
  super_at (w_db (the_world st)) next blk magic -> is_u64 next -> is_u32 blk -> is_u32 magic ->
  let w := set_next (the_world st) next in
  (forall e, db_has (w_db w) (usize_be 1) = false -> w_next (the_world st) = 1 ->
   nc_attr 1 w = (Err e, w) ->
   exists st', fs2_mount None st = (Some (inl VIoError), st') /\ the_world st' = w) /\
  (forall a, db_has (w_db w) (usize_be 1) = true -> nc_attr 1 w = (Ok a, w) ->
   exists l r k k' st', fs2_mount None st = (Some (inr l), st') /\ the_world st' = w /\
     n_dentries st' !! l = Some (MkR2Dentry None r (bs "/") ∅) /\
     n_inodes st' !! r = Some (object_of k' 1 VDir None a) /\
     k' <> k /\ n_sbs st' !! k' = Some (sb_of blk magic 0) /\
     n_sbs st' !! k = Some (with_cache (<[1 := r]>) (sb_of blk magic 0))).
Proof.
  intros Hsup Hnext Hblk Hmagic w. split.
  - intros e Hno Hw1 Ha. set (st1 := set_world (set_next (the_world st) 2) st).
    eexists. split.
    { unfold fs2_mount. erewrite nd_bind_ok by reflexivity.
      erewrite (nd_bind_ok _ _ st 1 st1).
      2: { by apply call_ok, FsCommon.root_inode_first. }
      erewrite nd_bind_ok by by apply (mount_numbers st1 next). cbv beta iota.
      erewrite nd_bind_ok by by apply (sb2_new_ok st1 next).
      apply nd_bind_err. apply (sb2_root_missing _ _ (sb_of blk magic 0) e w); try done.
      cbn. by rewrite lookup_insert_eq. }
    done.
  - intros a Hroot Ha. set (st1 := add_sb (sb_of blk magic 0) (set_world w st)).
    destruct (sb2_root_ok st1 (fresh (dom (n_sbs st))) (sb_of blk magic 0) a)
      as (r & k' & st2 & E & Etm & Ed & Ho); [|done..|].
    { cbn. by rewrite lookup_insert_eq. }
    eexists _, r, _, k', _. split.
    { unfold fs2_mount. erewrite nd_bind_ok by reflexivity.
      erewrite (nd_bind_ok _ _ st 1 st).
      2: { by apply call_same, FsCommon.root_inode_there. }
      erewrite nd_bind_ok by by apply (mount_numbers st next). cbv beta iota.
      erewrite nd_bind_ok by by apply (sb2_new_ok st next).
      erewrite nd_bind_ok by exact E. reflexivity. }
    cbn. unfold the_world at 1. cbn. rewrite Etm, lookup_insert_eq. by destruct_and!; split_and!.
Qed.
End nodes.

(** ** Witnesses *)

#[export] Instance sample_perms : VfsCore := {| perm_truncate z := z |}.
#[export] Instance sample_modes : VfsModes := {| mode_bits p _ := p |}.

(** Functions below that know the attributes of the root and refuse the rest. *)
Definition sample_attr : DbfsAttr :=
  Attr 1 0 0 time_default time_default time_default time_default Directory 0x41ED 2 0 0 0 512 0 0.
#[export] Instance sample_calls : NodeCalls mapdb := {
  nc_attr := fun ino w => (if ino =? 1 then Ok sample_attr else Err NotFound, w);
  nc_lookup := fun _ _ w => (Err NotFound, w);
  nc_create := fun _ _ _ _ _ _ _ _ w => (Err AccessError, w);
  nc_link := fun _ _ _ _ _ _ w => (Err AccessError, w);
  nc_readlink := fun _ _ w => (Err NotFound, w);
  nc_rmdir := fun _ _ _ _ _ w => (Err AccessError, w) }.

(** The file system [w] with an empty log, the inode of its root as object 0
    and its super block as object 0. *)
Definition sample_manager (w : world mapdb) : Manager MockStorage (world mapdb) :=
  set_wal_storage ([] : MockStorage) (manager_new w).
Definition sample_root : R2Inode :=
  MkR2Inode 0 1 VDir 2 2 0 0 0x41ED 512 time_default time_default time_default None.
Definition sample_objects (w : world mapdb) : nst MockStorage mapdb :=
  Nst (sample_manager w) {[ 0 := sample_root ]} {[ 0 := sb_of 512 1111 0 ]} ∅.

Lemma update_time_loses_nsec_witness :
  exists st', node_update_time 0 (AccessTime (77, 123456)) (0, 0) (sample_objects session_world) =
      (Some (inr tt), st') /\
    read_time (usize_be 1) (bs "atime") (w_db (the_world st')) =
      Ok (TimeSpec 77 0, w_db (the_world st')).
Proof.
  destruct (update_time_loses_nsec (sample_objects session_world) 0 sample_root 77 123456 (0, 0))
    as ((st' & E & Hread) & _).
  - reflexivity.
  - by vm_compute.
  - done.
  - done.
  - exists st'. split; [exact E|exact Hread].
Defined.

(** The file system of [session_world] with no objects yet. *)
Lemma mount_needs_root_witness :
  exists l st', fs2_mount None (Nst (sample_manager session_world) ∅ ∅ ∅) = (Some (inr l), st') /\
    w_next (the_world st') = 1.
Proof.
  destruct session_ok as [_ Hs].
  destruct (mount_needs_root (Nst (sample_manager session_world) ∅ ∅ ∅) 1 512 1111 Hs) as [_ Hm].
  - done.
  - done.
  - done.
  - destruct (Hm sample_attr) as (l & r & k & k' & st' & E & Ew & _).
    + by vm_compute.
    + reflexivity.
    + exists l, st'. split; [exact E|]. by rewrite Ew.
Defined.
