(* ===== verification/Rvfs2Heap.v ===== *)
(** * The objects of the second VFS adapter

    Whatever the functions behind the nodes do, the objects stay in order: an
    inode keeps its number, its type and its super block for ever, the cache
    of a super block leads to an inode of the number it is asked for, and
    dentries lead to objects that exist. *)

From S2P Require Import Prelude Bytes Common Store MapDb SuperBlock Fuse Wal Transaction Vfscore Rvfs2Common Rvfs2Node Rvfs2Mount.

Section heap.
Context {St D : Type}.
Implicit Types (st : nst St D) (i : R2Inode) (b : R2SuperBlock) (e : R2Dentry).

(** ** The invariant *)

Record heap_ok st : Prop := {
  ho_sb : forall l i, n_inodes st !! l = Some i -> is_Some (n_sbs st !! i2_sb i);
  ho_cache : forall k b ino l, n_sbs st !! k = Some b -> s2_inode_cache b !! ino = Some l ->
    exists i, n_inodes st !! l = Some i /\ i2_ino i = ino /\ i2_type i ∈ [VFile; VDir; VSymLink];
  ho_inode : forall l e, n_dentries st !! l = Some e -> is_Some (n_inodes st !! e2_inode e);
  ho_parent : forall l e p, n_dentries st !! l = Some e -> e2_parent e = Some p ->
    is_Some (n_dentries st !! p);
  ho_child : forall l e nm c, n_dentries st !! l = Some e -> e2_children e !! nm = Some c ->
    exists f, n_dentries st !! c = Some f /\ e2_name f = nm }.

(** The objects that were there are there still, with their number, type, super
    block and name. *)
Record extends st st' : Prop := {
  ex_inodes : forall l i, n_inodes st !! l = Some i -> exists i', n_inodes st' !! l = Some i' /\
    i2_ino i' = i2_ino i /\ i2_type i' = i2_type i /\ i2_sb i' = i2_sb i;
  ex_sbs : forall k, is_Some (n_sbs st !! k) -> is_Some (n_sbs st' !! k);
  ex_dentries : forall l e, n_dentries st !! l = Some e -> exists e', n_dentries st' !! l = Some e' /\
    e2_name e' = e2_name e /\ e2_inode e' = e2_inode e }.

#[export] Instance extends_preorder : PreOrder extends.
Proof.
  split.
  - intros st. split; eauto.
  - intros s1 s2 s3 [I1 B1 E1] [I2 B2 E2]. split.
    + intros l i Hl. destruct (I1 l i Hl) as (i' & Hl' & <- & <- & <-). by apply I2.
    + eauto.
    + intros l e Hl. destruct (E1 l e Hl) as (e' & Hl' & <- & <-). by apply E2.
Qed.

(** A computation that keeps the invariant and the objects, and ends with [Q]
    when it returns. *)
Definition keeps {A} (P : nst St D -> Prop) (m : Nd St D A) (Q : A -> nst St D -> Prop) : Prop :=
  forall st, heap_ok st -> P st ->
    heap_ok (m st).2 /\ extends st (m st).2 /\
    match (m st).1 with Some (inr a) => Q a (m st).2 | _ => True end.

(** Assertions that survive when objects are added. *)
Definition stable (P : nst St D -> Prop) : Prop :=
  forall st st', extends st st' -> P st -> P st'.

Definition has_inode (l : Z) st : Prop := is_Some (n_inodes st !! l).
Definition has_sb (k : Z) st : Prop := is_Some (n_sbs st !! k).
Definition has_dentry (l : Z) st : Prop := is_Some (n_dentries st !! l).
(** [l] is an object for [ino] that a cache may hold. *)
Definition object_for (ino l : Z) st : Prop :=
  exists i, n_inodes st !! l = Some i /\ i2_ino i = ino /\ i2_type i ∈ [VFile; VDir; VSymLink].
Definition named (nm : bytes) (l : Z) st : Prop :=
  exists e, n_dentries st !! l = Some e /\ e2_name e = nm.

Lemma stable_inode l : stable (has_inode l).
Proof. intros st st' [I _ _] [i Hi]. destruct (I l i Hi) as (i' & ? & _). by exists i'. Qed.
Lemma stable_sb k : stable (has_sb k).
Proof. intros st st' [_ B _]. apply B. Qed.
Lemma stable_dentry l : stable (has_dentry l).
Proof. intros st st' [_ _ E] [e He]. destruct (E l e He) as (e' & ? & _). by exists e'. Qed.
Lemma stable_object ino l : stable (object_for ino l).
Proof.
  intros st st' [I _ _] (i & Hi & <- & Ht). destruct (I l i Hi) as (i' & ? & E1 & E2 & _).
  exists i'. by rewrite E2.
Qed.
Lemma stable_named nm l : stable (named nm l).
Proof. intros st st' [_ _ E] (e & He & <-). destruct (E l e He) as (e' & ? & E1 & _). by exists e'. Qed.
Lemma stable_and P Q : stable P -> stable Q -> stable (fun st => P st /\ Q st).
Proof. intros HP HQ st st' Hx []. split; eauto. Qed.
Lemma stable_true : stable (fun _ => True).
Proof. done. Qed.

(** ** Rules *)

Lemma heap_bind {A B} P (m : Nd St D A) Q (f : A -> Nd St D B) R :
  keeps P m Q -> (forall a, keeps (Q a) (f a) R) -> keeps P (m ≫= f) R.
Proof.
  intros Hm Hf st Hok HP. destruct (Hm st Hok HP) as (Hok1 & Hx1 & HQ).
  unfold mbind, nd_bind. destruct (m st) as [[[x|a]|] st1]; cbn in *; try done.
  destruct (Hf a st1 Hok1 HQ) as (? & ? & ?). split; [done|]. split; [by etrans|done].
Qed.

Lemma keeps_pre {A} (P P' : nst St D -> Prop) (m : Nd St D A) Q :
  (forall st, heap_ok st -> P' st -> P st) -> keeps P m Q -> keeps P' m Q.
Proof. intros HP Hm st Hok ?. apply Hm; [done|]. by apply HP. Qed.

Lemma keeps_post {A} P (m : Nd St D A) (Q Q' : A -> nst St D -> Prop) :
  (forall a st, heap_ok st -> Q a st -> Q' a st) -> keeps P m Q -> keeps P m Q'.
Proof.
  intros HQ Hm st Hok HP. destruct (Hm st Hok HP) as (? & ? & HR). split; [done|]. split; [done|].
  destruct (m st).1 as [[x|a]|]; try done. by apply HQ.
Qed.

(** What holds before and survives holds after. *)
Lemma keeps_frame {A} (P F : nst St D -> Prop) (m : Nd St D A) Q :
  stable F -> keeps P m Q -> keeps (fun st => P st /\ F st) m (fun a st => Q a st /\ F st).
Proof.
  intros HF Hm st Hok [HP HFs]. destruct (Hm st Hok HP) as (? & Hx & HR).
  split; [done|]. split; [done|]. destruct (m st).1 as [[x|a]|]; try done. split; [done|].
  by apply (HF st).
Qed.

Lemma heap_ret {A} (a : A) (P : nst St D -> Prop) : keeps P (mret a) (fun a' st => a' = a /\ P st).
Proof. intros st Hok HP. done. Qed.
Lemma keeps_err {A} x (P : nst St D -> Prop) (Q : A -> nst St D -> Prop) : keeps P (nd_err x) Q.
Proof. intros st Hok HP. done. Qed.
Lemma keeps_panic {A} (P : nst St D -> Prop) (Q : A -> nst St D -> Prop) :
  keeps P (fun st => (None, st)) Q.
Proof. intros st Hok HP. done. Qed.
Lemma keeps_guard c x P : keeps P (nd_guard c x) (fun _ st => P st).
Proof. intros st Hok HP. unfold nd_guard. by destruct c. Qed.

Lemma heap_ok_tm m st : heap_ok st -> heap_ok (set_tm m st).
Proof. by intros []; split. Qed.
Lemma extends_tm m st : extends st (set_tm m st).
Proof. split; eauto. Qed.

Lemma keeps_call {A} err (op : Op D A) : keeps (fun _ => True) (call err op) (fun _ _ => True).
Proof.
  intros st Hok _. unfold call. destruct (op (the_world st)) as [[a|x|] w]; cbn;
    (split; [by apply heap_ok_tm|split; [apply extends_tm|done]]).
Qed.

Lemma keeps_txn `{WalStorage St, EntryCodec, BottomFs (world D)} op :
  keeps (fun _ => True) (run_txn op) (fun _ _ => True).
Proof.
  intros st Hok _. unfold run_txn. cbn [begin_transaction]. destruct (commit _ _) as [[x|[]] m]; cbn;
    (split; [by apply heap_ok_tm|split; [apply extends_tm|done]]).
Qed.

Lemma keeps_inode_at l :
  keeps (fun _ => True) (inode2_at l) (fun i st => has_inode l st /\ has_sb (i2_sb i) st).
Proof.
  intros st Hok _. unfold inode2_at. cbn. split; [done|]. split; [done|].
  destruct (n_inodes st !! l) as [i|] eqn:E; cbn; [|done]. split; [by exists i|]. by apply (ho_sb _ Hok l).
Qed.

Lemma keeps_sb_at k : keeps (fun _ => True) (sb2_at k)
  (fun b st => has_sb k st /\ forall ino l, s2_inode_cache b !! ino = Some l -> object_for ino l st).
Proof.
  intros st Hok _. unfold sb2_at. cbn. split; [done|]. split; [done|].
  destruct (n_sbs st !! k) as [b|] eqn:E; cbn; [|done]. split; [by exists b|].
  intros ino l Hl. by apply (ho_cache _ Hok k b).
Qed.

Lemma keeps_dentry_at l : keeps (fun _ => True) (dentry2_at l)
  (fun e st => has_dentry l st /\ has_inode (e2_inode e) st /\
     forall nm c, e2_children e !! nm = Some c -> named nm c st).
Proof.
  intros st Hok _. unfold dentry2_at. cbn. split; [done|]. split; [done|].
  destruct (n_dentries st !! l) as [e|] eqn:E; cbn; [|done]. split; [by exists e|].
  split; [by apply (ho_inode _ Hok l)|]. intros nm c Hc. by apply (ho_child _ Hok l e).
Qed.

(** ** Changes of the heap *)

Lemma fresh_none {V} (m : gmap Z V) : m !! fresh (dom m) = None.
Proof. apply not_elem_of_dom, is_fresh. Qed.

Lemma keeps_alloc_inode i :
  keeps (has_sb (i2_sb i)) (alloc_inode i)
    (fun l st => i2_type i ∈ [VFile; VDir; VSymLink] -> object_for (i2_ino i) l st).
Proof.
  intros st Hok Hsb. unfold alloc_inode. cbn. pose proof (fresh_none (n_inodes st)) as Hf.
  set (l := fresh _) in *. split; [|split].
  - destruct Hok as [Hs Hc Hi Hp Hch]. split; cbn; [| | |done|done].
    + intros l' i'. rewrite lookup_insert_Some. intros [[_ <-]|[_ E]]; eauto.
    + intros k b ino l' Hk Hl. destruct (Hc k b ino l' Hk Hl) as (i' & E & ?). exists i'.
      by rewrite lookup_insert_ne by (intros ->; congruence).
    + intros l' e E. destruct (decide (l = e2_inode e)) as [<-|]; [by rewrite lookup_insert_eq|].
      rewrite lookup_insert_ne by done. by apply (Hi l').
  - split; cbn; eauto. intros l' i' E. exists i'.
    by rewrite lookup_insert_ne by (intros ->; congruence).
  - intros Ht. exists i. cbn. by rewrite lookup_insert_eq.
Qed.

Lemma keeps_alloc_sb b :
  keeps (fun st => forall ino l, s2_inode_cache b !! ino = Some l -> object_for ino l st)
    (alloc_sb b) (fun k st => has_sb k st).
Proof.
  intros st Hok Hb. unfold alloc_sb. cbn. pose proof (fresh_none (n_sbs st)) as Hf.
  set (k := fresh _) in *. split; [|split].
  - destruct Hok as [Hs Hc Hi Hp Hch]. split; cbn; [| |done..].
    + intros l i E. destruct (decide (k = i2_sb i)) as [<-|]; [by rewrite lookup_insert_eq|].
      rewrite lookup_insert_ne by done. by apply (Hs l).
    + intros k' b' ino l. rewrite lookup_insert_Some. intros [[_ <-]|[_ E]] Hl; eauto.
      by apply Hb.
  - split; cbn; eauto. intros k' Hk. destruct (decide (k = k')) as [<-|].
    + by rewrite lookup_insert_eq.
    + by rewrite lookup_insert_ne.
  - unfold has_sb. cbn. by rewrite lookup_insert_eq.
Qed.

Lemma keeps_alloc_dentry e :
  e2_children e = ∅ ->
  keeps (fun st => has_inode (e2_inode e) st /\ forall p, e2_parent e = Some p -> has_dentry p st)
    (alloc_dentry e) (fun l st => named (e2_name e) l st).
Proof.
  intros He st Hok [Hi Hp]. unfold alloc_dentry. cbn. pose proof (fresh_none (n_dentries st)) as Hf.
  set (l := fresh _) in *. split; [|split].
  - destruct Hok as [Hs Hc Hin Hpa Hch]. split; cbn; [done|done| | |].
    + intros l' e'. rewrite lookup_insert_Some. intros [[_ <-]|[_ E]]; eauto.
    + intros l' e' p. rewrite lookup_insert_Some. intros [[_ <-]|[_ E]] Ep;
        (destruct (decide (l = p)) as [<-|]; [by rewrite lookup_insert_eq|];
         rewrite lookup_insert_ne by done); [by apply Hp|by apply (Hpa l' e')].
    + intros l' e' nm c. rewrite lookup_insert_Some. intros [[_ <-]|[_ E]] Ec;
        [by rewrite He in Ec|].
      destruct (Hch l' e' nm c E Ec) as (f & Ef & ?). exists f.
      by rewrite lookup_insert_ne by (intros ->; congruence).
  - split; cbn; eauto. intros l' e' E. exists e'.
    by rewrite lookup_insert_ne by (intros ->; congruence).
  - exists e. cbn. by rewrite lookup_insert_eq.
Qed.

(** An object may change but for its number, type and super block. *)
Lemma keeps_update_inode l f :
  (forall i, i2_ino (f i) = i2_ino i /\ i2_type (f i) = i2_type i /\ i2_sb (f i) = i2_sb i) ->
  keeps (fun _ => True) (update_inode2 l f) (fun _ _ => True).
Proof.
  intros Hf st [Hs Hc Hi Hp Hch] _. unfold update_inode2. cbn.
  assert (HA : forall l' i, n_inodes st !! l' = Some i -> exists i', alter f l (n_inodes st) !! l' = Some i' /\
    i2_ino i' = i2_ino i /\ i2_type i' = i2_type i /\ i2_sb i' = i2_sb i).
  { intros l' i E. rewrite lookup_alter. case_decide; subst; rewrite E; cbn; eauto. }
  split; [|split; [|done]].
  - split; cbn; [| | |done|done].
    + intros l' i'. rewrite lookup_alter_Some. intros [(<- & i & E & ->)|[_ E]]; [|eauto].
      destruct (Hf i) as (_ & _ & ->). eauto.
    + intros k b ino l' Hk Hl. destruct (Hc k b ino l' Hk Hl) as (i & E & <- & Ht).
      destruct (HA l' i E) as (i' & ? & ? & Ht' & _). exists i'. by rewrite Ht'.
    + intros l' e E. destruct (Hi l' e E) as [i Ei]. destruct (HA _ _ Ei) as (i' & ? & _). by exists i'.
  - split; cbn; eauto.
Qed.

Lemma keeps_insert_inode sb ino l :
  keeps (object_for ino l) (insert_inode sb ino l) (fun _ _ => True).
Proof.
  intros st [Hs Hc Hi Hp Hch] Ho. unfold insert_inode, update_sb2. cbn. split; [|split; [|done]].
  - split; cbn; [| |done..].
    + intros l' i E. rewrite lookup_alter_is_Some. by apply (Hs l').
    + intros k b ino' l'. rewrite lookup_alter_Some. intros [(<- & b0 & E & ->)|[_ E]]; [|eauto].
      cbn. rewrite lookup_insert_Some. intros [[<- <-]|[_ El]]; [done|eauto].
  - split; cbn; eauto. intros k. by rewrite lookup_alter_is_Some.
Qed.

Lemma keeps_remove_inode sb ino : keeps (fun _ => True) (remove_inode sb ino) (fun _ _ => True).
Proof.
  intros st [Hs Hc Hi Hp Hch] _. unfold remove_inode, update_sb2. cbn. split; [|split; [|done]].
  - split; cbn; [| |done..].
    + intros l' i E. rewrite lookup_alter_is_Some. by apply (Hs l').
    + intros k b ino' l'. rewrite lookup_alter_Some. intros [(<- & b0 & E & ->)|[_ E]]; [|eauto].
      cbn. rewrite lookup_delete_Some. intros [_ El]. eauto.
  - split; cbn; eauto. intros k. by rewrite lookup_alter_is_Some.
Qed.

(** A dentry may get other children and another parent that exist. *)
Lemma keeps_update_dentry l f (P : nst St D -> Prop) :
  (forall e, e2_name (f e) = e2_name e /\ e2_inode (f e) = e2_inode e) ->
  (forall st e p, P st -> e2_parent (f e) = Some p -> e2_parent e = Some p \/ has_dentry p st) ->
  (forall st e nm c, P st -> e2_children (f e) !! nm = Some c ->
     e2_children e !! nm = Some c \/ named nm c st) ->
  keeps P (update_dentry2 l f) (fun _ _ => True).
Proof.
  intros Hf HP HC st [Hs Hc Hi Hp Hch] Hst. unfold update_dentry2. cbn.
  assert (HA : forall l' e, n_dentries st !! l' = Some e -> exists e', alter f l (n_dentries st) !! l' = Some e' /\
    e2_name e' = e2_name e /\ e2_inode e' = e2_inode e).
  { intros l' e E. rewrite lookup_alter. case_decide; subst; rewrite E; cbn; eauto. }
  assert (HN : forall nm c, named nm c st -> exists e, alter f l (n_dentries st) !! c = Some e /\ e2_name e = nm).
  { intros nm c (e & E & <-). destruct (HA _ _ E) as (e' & ? & ? & _). by exists e'. }
  assert (HD : forall p, has_dentry p st -> is_Some (alter f l (n_dentries st) !! p)).
  { intros p [e E]. destruct (HA _ _ E) as (e' & ? & _). by exists e'. }
  split; [|split; [|done]].
  - split; cbn; [done|done| | |].
    + intros l' e'. rewrite lookup_alter_Some. intros [(<- & e & E & ->)|[_ E]]; [|eauto].
      destruct (Hf e) as (_ & ->). eauto.
    + intros l' e' p. rewrite lookup_alter_Some. intros [(<- & e & E & ->)|[_ E]] Ep; apply HD.
      * destruct (HP st e p Hst Ep); [by apply (Hp l e)|done].
      * by apply (Hp l' e').
    + intros l' e' nm c. rewrite lookup_alter_Some. intros [(<- & e & E & ->)|[_ E]] Ec; apply HN.
      * destruct (HC st e nm c Hst Ec); [by apply (Hch l e)|done].
      * by apply (Hch l' e').
  - split; cbn; eauto.
Qed.

(** ** The operations *)

Lemma stable_pure (φ : Prop) : stable (fun _ => φ).
Proof. by intros st st' _. Qed.
Lemma stable_all {X} (P : X -> nst St D -> Prop) : (forall x, stable (P x)) -> stable (fun st => forall x, P x st).
Proof. intros HP st st' Hx H x. by apply (HP x st). Qed.
Lemma stable_impl (φ : Prop) (P : nst St D -> Prop) : stable P -> stable (fun st => φ -> P st).
Proof. intros HP st st' Hx H Hφ. apply (HP st); auto. Qed.

Ltac solve_stable :=
  repeat first [ apply stable_inode | apply stable_sb | apply stable_dentry | apply stable_object
               | apply stable_named | apply stable_true | apply stable_pure | apply stable_and
               | apply stable_impl | apply stable_all; intros ? ].

Lemma keeps_with {A} (P : nst St D -> Prop) (m : Nd St D A) Q :
  stable P -> keeps (fun _ => True) m Q -> keeps P m (fun a st => Q a st /\ P st).
Proof.
  intros HP Hm. eapply keeps_pre; [|apply (keeps_frame _ P _ _ HP Hm)]. done.
Qed.

Lemma keeps_any {A} P (m : Nd St D A) Q : keeps (fun _ => True) m Q -> keeps P m (fun _ _ => True).
Proof. intros Hm. eapply keeps_post; [|eapply keeps_pre; [|exact Hm]]; done. Qed.

Lemma keeps_done {A} (a : A) (P : nst St D -> Prop) (Q : A -> nst St D -> Prop) :
  (forall st, heap_ok st -> P st -> Q a st) -> keeps P (mret a) Q.
Proof. intros HQ st Hok HP. split; [done|]. split; [done|]. by apply HQ. Qed.

(** A step that needs nothing, and then the rest. *)
Ltac kstep rule :=
  eapply heap_bind; [eapply keeps_with; [solve_stable|apply rule]|intros ?; cbn beta].
Ltac kdone := apply keeps_done; intuition eauto.
Ltac kguard :=
  eapply heap_bind;
  [eapply keeps_with; [solve_stable|eapply keeps_post; [|apply keeps_guard]; cbn beta; intros; exact I]
  |intros ?; cbn beta].

Context `{JammDb D, NodeCalls D, WalStorage St, EntryCodec, BottomFs (world D), VfsCore, VfsModes}.

Lemma keeps_new_object sb ino ty target :
  ty ∈ [VFile; VDir; VSymLink] ->
  keeps (has_sb sb) (new_object2 sb ino ty target) (fun l st => object_for ino l st).
Proof.
  intros Ht. unfold new_object2. kstep @keeps_call.
  eapply keeps_post; [|eapply keeps_pre; [|apply keeps_alloc_inode]]; cbn; tauto.
Qed.

Lemma keeps_object_then sb ino (m : Nd St D Z) :
  keeps (has_sb sb) m (fun l st => object_for ino l st) ->
  keeps (has_sb sb) (l ← m; insert_inode sb ino l;; mret l) (fun l st => object_for ino l st).
Proof.
  intros Hm. eapply heap_bind; [apply Hm|]. intros l. cbn beta.
  eapply heap_bind.
  - eapply keeps_pre; [|eapply keeps_frame; [apply (stable_object ino l)|apply (keeps_insert_inode sb ino l)]].
    cbn. tauto.
  - intros ?. kdone.
Qed.

Lemma node_read_at_keeps self off buf : keeps (fun _ => True) (node_read_at self off buf) (fun _ _ => True).
Proof. unfold node_read_at. kstep @keeps_inode_at. kguard. eapply keeps_any, keeps_call. Qed.

Lemma node_write_at_keeps self off buf : keeps (fun _ => True) (node_write_at self off buf) (fun _ _ => True).
Proof.
  unfold node_write_at. kstep @keeps_inode_at. kguard. kstep @keeps_txn.
  kstep @keeps_update_inode; [done|]. kdone.
Qed.

Lemma node_readdir_keeps self start : keeps (fun _ => True) (node_readdir self start) (fun _ _ => True).
Proof.
  unfold node_readdir. kstep @keeps_inode_at. kguard. kstep @keeps_call.
  destruct (_ !! _) as [[nm ino]|]; [|kdone]. kstep @keeps_call. kdone.
Qed.

Lemma node_create_keeps self name ty perm rdev :
  keeps (fun _ => True) (node_create self name ty perm rdev) (fun l st => has_inode l st).
Proof.
  unfold node_create. kstep @keeps_inode_at. kguard. kstep @keeps_txn. kstep @keeps_call.
  eapply keeps_post; [|eapply keeps_pre; [|apply keeps_object_then]].
  - intros l st _ (i & Hi & _). by exists i.
  - cbn. tauto.
  - destruct ty; try apply keeps_err; apply keeps_new_object; set_solver.
Qed.

Lemma node_link_keeps self name src :
  keeps (fun _ => True) (node_link self name src) (fun l st => has_inode l st).
Proof.
  unfold node_link. kstep @keeps_inode_at. kguard. destruct src as [src|]; [|apply keeps_err].
  kstep @keeps_inode_at. kstep @keeps_call. kstep @keeps_update_inode; [done|]. kdone.
Qed.

Lemma node_unlink_keeps self name : keeps (fun _ => True) (node_unlink self name) (fun _ _ => True).
Proof. unfold node_unlink. kstep @keeps_inode_at. kguard. eapply keeps_any, keeps_txn. Qed.

Lemma node_symlink_keeps self name target :
  keeps (fun _ => True) (node_symlink self name target) (fun l st => has_inode l st).
Proof.
  unfold node_symlink. kstep @keeps_inode_at. kguard. kstep @keeps_call.
  eapply keeps_post; [|eapply keeps_pre; [|apply keeps_object_then]].
  - intros l st _ (i & Hi & _). by exists i.
  - cbn. tauto.
  - apply keeps_new_object. set_solver.
Qed.

Lemma get_inode_keeps sb ino :
  keeps (fun _ => True) (get_inode sb ino)
    (fun c st => has_sb sb st /\ forall l, c = Some l -> object_for ino l st).
Proof. unfold get_inode. kstep @keeps_sb_at. apply keeps_done. intros st _ ((? & Hl) & _). eauto. Qed.

Lemma target_text_keeps len buf : keeps (fun _ => True) (target_text len buf) (fun _ _ => True).
Proof. intros st Hok _. unfold target_text. by destruct (slice buf 0 len) as [t|]; [destruct (utf8_ok t)|]. Qed.

Lemma node_lookup_keeps self name :
  keeps (fun _ => True) (node_lookup self name) (fun l st => has_inode l st).
Proof.
  unfold node_lookup. kstep @keeps_inode_at. kguard. kstep @keeps_call.
  eapply heap_bind; [eapply keeps_with; [solve_stable|apply get_inode_keeps]|].
  intros [l|]; cbn beta.
  - apply keeps_done. intros st _ ((_ & Hl) & _).
    destruct (Hl l eq_refl) as (i & Hi & _). by exists i.
  - eapply keeps_post; [|eapply keeps_pre; [|apply keeps_object_then]].
    + intros l st _ (i & Hi & _). by exists i.
    + cbn. tauto.
    + destruct (a_kind _); try apply keeps_err; try (apply keeps_new_object; set_solver).
      eapply heap_bind; [eapply keeps_with; [solve_stable|apply keeps_call]|intros [len target]; cbn beta].
      kstep @target_text_keeps.
      eapply keeps_pre; [|apply keeps_new_object; set_solver]. cbn. tauto.
Qed.

Lemma node_rmdir_keeps self name : keeps (fun _ => True) (node_rmdir self name) (fun _ _ => True).
Proof. unfold node_rmdir. kstep @keeps_inode_at. kguard. eapply keeps_any, keeps_call. Qed.

Lemma node_set_attr_keeps self mode size : keeps (fun _ => True) (node_set_attr self mode size) (fun _ _ => True).
Proof.
  unfold node_set_attr. kstep @keeps_inode_at. kstep @keeps_call. kstep @keeps_call.
  eapply heap_bind; [|intros ?; eapply keeps_any, keeps_call].
  destruct (negb _); [by eapply keeps_any, keeps_update_inode|kdone].
Qed.

Lemma node_get_attr_keeps self : keeps (fun _ => True) (node_get_attr self) (fun _ _ => True).
Proof. unfold node_get_attr. kstep @keeps_inode_at. kstep @keeps_call. kdone. Qed.

Lemma node_truncate_keeps self len : keeps (fun _ => True) (node_truncate self len) (fun _ _ => True).
Proof.
  unfold node_truncate. kstep @keeps_inode_at. kguard. kstep @keeps_txn.
  eapply keeps_any, keeps_update_inode. done.
Qed.

Lemma node_rename_keeps self old p new : keeps (fun _ => True) (node_rename_to self old p new) (fun _ _ => True).
Proof.
  unfold node_rename_to. kstep @keeps_inode_at. destruct p as [p|]; [|apply keeps_err].
  kstep @keeps_inode_at. eapply keeps_any, keeps_txn.
Qed.

Lemma node_update_time_keeps self time now : keeps (fun _ => True) (node_update_time self time now) (fun _ _ => True).
Proof. unfold node_update_time. kstep @keeps_inode_at. eapply keeps_any, keeps_call. Qed.

(** Super blocks. *)
Lemma sb2_sync_keeps self wait : keeps (fun _ => True) (sb2_sync_fs self wait) (fun _ _ => True).
Proof. unfold sb2_sync_fs. eapply keeps_any, keeps_call. Qed.

Lemma sb2_stat_keeps self : keeps (fun _ => True) (sb2_stat_fs self) (fun _ _ => True).
Proof. unfold sb2_stat_fs. kstep @keeps_sb_at. kstep @keeps_call. kdone. Qed.

Lemma sb2_clone_keeps self : keeps (fun _ => True) (sb2_clone self) (fun k st => has_sb k st).
Proof.
  unfold sb2_clone. kstep @keeps_sb_at. eapply keeps_pre; [|apply keeps_alloc_sb]. cbn. tauto.
Qed.

Lemma sb2_root_keeps self : keeps (fun _ => True) (sb2_root_inode self) (fun l st => has_inode l st).
Proof.
  unfold sb2_root_inode. kstep @keeps_sb_at.
  eapply heap_bind; [eapply keeps_with; [solve_stable|apply get_inode_keeps]|].
  intros [l|]; cbn beta.
  - apply keeps_done. intros st _ ((_ & Hl) & _).
    destruct (Hl l eq_refl) as (i & Hi & _). by exists i.
  - kstep @sb2_clone_keeps. eapply heap_bind.
    { eapply keeps_pre; [|apply keeps_new_object; set_solver]. cbn. tauto. }
    intros l. cbn beta. eapply heap_bind.
    { eapply keeps_pre; [|eapply keeps_frame; [apply stable_object|apply keeps_insert_inode]]. cbn. eauto. }
    intros ?. apply keeps_done. intros st _ (_ & i & Hi & _). by exists i.
Qed.

Lemma sb2_new_keeps bs m fl : keeps (fun _ => True) (sb2_new bs m fl) (fun k st => has_sb k st).
Proof.
  unfold sb2_new. kstep @keeps_call. kstep @keeps_call. kstep @keeps_call. kstep @keeps_call.
  eapply keeps_pre; [|apply keeps_alloc_sb]. done.
Qed.

(** Dentries. *)
Lemma dentry2_new_keeps inode name :
  keeps (has_inode inode) (dentry2_new inode name) (fun l st => named name l st).
Proof. eapply keeps_pre; [|by apply keeps_alloc_dentry]. cbn. split; [done|discriminate]. Qed.

Lemma dentry2_root_keeps inode :
  keeps (has_inode inode) (dentry2_root inode) (fun l st => named (bs "/") l st).
Proof. eapply keeps_pre; [|by apply keeps_alloc_dentry]. cbn. split; [done|discriminate]. Qed.

Lemma dentry2_find_keeps self path :
  keeps (fun _ => True) (dentry2_find self path) (fun c st => forall l, c = Some l -> named path l st).
Proof.
  unfold dentry2_find. kstep @keeps_dentry_at. kstep @keeps_inode_at. apply keeps_done.
  intros st _ (_ & (_ & _ & Hc) & _) l. case_bool_decide; [|done]. apply Hc.
Qed.

Lemma dentry2_insert_keeps self name child :
  keeps (fun st => has_dentry self st /\ has_inode child st) (dentry2_insert self name child)
    (fun l st => named name l st).
Proof.
  unfold dentry2_insert. eapply heap_bind.
  { eapply keeps_pre; [|by apply keeps_alloc_dentry]. cbn. intros st _ [? ?].
    split; [done|]. by intros p [= <-]. }
  intros l. cbn beta. cbn [e2_name]. kstep @keeps_dentry_at.
  destruct (bool_decide _); [apply keeps_err|]. eapply heap_bind.
  - eapply keeps_pre; [|eapply keeps_frame; [apply (stable_named name l)|]].
    + intros st _ (_ & Hn). split; [exact Hn|exact Hn].
    + apply keeps_update_dentry; [done|eauto|]. cbn. intros st f nm c Hn.
      rewrite lookup_insert_Some. intros [[<- <-]|[_ ?]]; eauto.
  - intros ?. apply keeps_done. by intros st _ [_ ?].
Qed.

Lemma dentry2_remove_keeps self name :
  keeps (fun _ => True) (dentry2_remove self name) (fun c st => forall l, c = Some l -> named name l st).
Proof.
  unfold dentry2_remove. kstep @keeps_dentry_at. eapply heap_bind.
  - eapply keeps_with; [solve_stable|]. apply keeps_update_dentry; [done|eauto|].
    cbn. intros st f nm c _. rewrite lookup_delete_Some. intros [_ ?]. eauto.
  - intros ?. apply keeps_done. intros st _ (_ & (_ & _ & Hc) & _) l. apply Hc.
Qed.

Lemma dentry2_set_parent_keeps self parent :
  keeps (has_dentry parent) (dentry2_set_parent self parent) (fun _ _ => True).
Proof.
  apply keeps_update_dentry; [done| |eauto]. cbn. intros st e p Hp [= <-]. by right.
Qed.

(** Mounting. *)
Lemma fs2_mount_keeps dev : keeps (fun _ => True) (fs2_mount dev) (fun l st => named (bs "/") l st).
Proof.
  unfold fs2_mount. eapply heap_bind with (Q := fun _ _ => True).
  { destruct dev as [[x|storage]|]; [apply keeps_err| |kdone].
    intros st Hok _. cbn. split; [by apply heap_ok_tm|split; [apply extends_tm|done]]. }
  intros ?. cbn beta. kstep @keeps_call.
  eapply heap_bind; [eapply keeps_with; [solve_stable|apply keeps_call]|intros [blk_size magic]; cbn beta].
  kstep @sb2_new_keeps. kstep @sb2_root_keeps.
  eapply keeps_pre; [|apply dentry2_root_keeps]. cbn. tauto.
Qed.

Lemma fs2_kill_keeps sb : keeps (fun _ => True) (fs2_kill_sb sb) (fun _ _ => True).
Proof. unfold fs2_kill_sb. kstep @sb2_sync_keeps. eapply keeps_any, keeps_call. Qed.

(** ** Clients *)

(** The operations that change objects or give them out. *)
Inductive vreq :=
  | VReadAt (self offset : Z) (buf : bytes) | VWriteAt (self offset : Z) (buf : bytes)
  | VReaddir (self start : Z) | VCreate (self : Z) (name : bytes) (ty : VfsNodeType) (perm : Z) (rdev : option Z)
  | VLink (self : Z) (name : bytes) (src : option Z) | VUnlink (self : Z) (name : bytes)
  | VSymlink (self : Z) (name target : bytes) | VLookup (self : Z) (name : bytes)
  | VRmdir (self : Z) (name : bytes) | VSetAttr (self mode size : Z) | VGetAttr (self : Z)
  | VTruncate (self len : Z) | VRename (self : Z) (old : bytes) (parent : option Z) (new : bytes)
  | VUpdateTime (self : Z) (time : R2Time) (now : Z * Z)
  | VSync (sb : Z) | VStat (sb : Z) | VRoot (sb : Z) | VForget (sb ino : Z)
  | VDentry (inode : Z) (name : bytes) | VFind (self : Z) (path : bytes)
  | VInsert (self : Z) (name : bytes) (child : Z) | VRemove (self : Z) (name : bytes)
  | VSetParent (self parent : Z) | VMount (dev : option (VfsError + St)) | VKill (sb : Z).

(** What a client gets hold of: an inode, a dentry, or neither. *)
Inductive vrep := GotInode (l : Z) | GotDentry (l : Z) | GotNothing.
Definition no_object {A} (m : Nd St D A) : Nd St D vrep := _ ← m; mret GotNothing.
Definition inode_of (m : Nd St D Z) : Nd St D vrep := l ← m; mret (GotInode l).
Definition dentry_of (m : Nd St D Z) : Nd St D vrep := l ← m; mret (GotDentry l).
Definition maybe_dentry (m : Nd St D (option Z)) : Nd St D vrep :=
  c ← m; mret (from_option GotDentry GotNothing c).

Definition vserve (r : vreq) : Nd St D vrep :=
  match r with
  | VReadAt self offset buf => no_object (node_read_at self offset buf)
  | VWriteAt self offset buf => no_object (node_write_at self offset buf)
  | VReaddir self start => no_object (node_readdir self start)
  | VCreate self name ty perm rdev => inode_of (node_create self name ty perm rdev)
  | VLink self name src => inode_of (node_link self name src)
  | VUnlink self name => no_object (node_unlink self name)
  | VSymlink self name target => inode_of (node_symlink self name target)
  | VLookup self name => inode_of (node_lookup self name)
  | VRmdir self name => no_object (node_rmdir self name)
  | VSetAttr self mode size => no_object (node_set_attr self mode size)
  | VGetAttr self => no_object (node_get_attr self)
  | VTruncate self len => no_object (node_truncate self len)
  | VRename self old parent new => no_object (node_rename_to self old parent new)
  | VUpdateTime self time now => no_object (node_update_time self time now)
  | VSync sb => no_object (sb2_sync_fs sb true)
  | VStat sb => no_object (sb2_stat_fs sb)
  | VRoot sb => inode_of (sb2_root_inode sb)
  | VForget sb ino => no_object (remove_inode sb ino)
  | VDentry inode name => dentry_of (dentry2_new inode name)
  | VFind self path => maybe_dentry (dentry2_find self path)
  | VInsert self name child => dentry_of (dentry2_insert self name child)
  | VRemove self name => maybe_dentry (dentry2_remove self name)
  | VSetParent self parent => no_object (dentry2_set_parent self parent)
  | VMount dev => dentry_of (fs2_mount dev)
  | VKill sb => no_object (fs2_kill_sb sb)
  end.

(** Where the code keeps an [Arc] it is given, the object is there. *)
Definition vreq_ok (r : vreq) st : Prop :=
  match r with
  | VDentry inode _ => has_inode inode st
  | VInsert self _ child => has_dentry self st /\ has_inode child st
  | VSetParent _ parent => has_dentry parent st
  | _ => True
  end.

Definition vrep_ok (r : vrep) st : Prop :=
  match r with
  | GotInode l => has_inode l st
  | GotDentry l => has_dentry l st
  | GotNothing => True
  end.

(** A client's requests, whatever their results: an error or a panic too leaves
    a state for the next one. *)
Inductive vstep st : nst St D -> Prop :=
  vstep_serve r : vreq_ok r st -> vstep st (vserve r st).2.

Lemma no_object_keeps {A} P (m : Nd St D A) Q :
  keeps P m Q -> keeps P (no_object m) (fun r st => vrep_ok r st).
Proof. intros Hm. eapply heap_bind; [exact Hm|]. intros ?. by apply keeps_done. Qed.

Lemma inode_of_keeps P (m : Nd St D Z) :
  keeps P m (fun l st => has_inode l st) -> keeps P (inode_of m) (fun r st => vrep_ok r st).
Proof. intros Hm. eapply heap_bind; [exact Hm|]. intros ?. by apply keeps_done. Qed.

Lemma has_named nm l st : named nm l st -> has_dentry l st.
Proof. intros (e & He & _). by exists e. Qed.

Lemma dentry_of_keeps P nm (m : Nd St D Z) :
  keeps P m (fun l st => named nm l st) -> keeps P (dentry_of m) (fun r st => vrep_ok r st).
Proof.
  intros Hm. eapply heap_bind; [exact Hm|]. intros ?. apply keeps_done. intros st _. apply has_named.
Qed.

Lemma maybe_dentry_keeps P nm (m : Nd St D (option Z)) :
  keeps P m (fun c st => forall l, c = Some l -> named nm l st) ->
  keeps P (maybe_dentry m) (fun r st => vrep_ok r st).
Proof.
  intros Hm. eapply heap_bind; [exact Hm|]. intros [l|]; apply keeps_done; [|done].
  intros st _ Hl. by eapply has_named, Hl.
Qed.

Lemma vserve_keeps r : keeps (vreq_ok r) (vserve r) (fun a st => vrep_ok a st).
Proof.
  destruct r; cbn [vreq_ok vserve];
    first [ eapply inode_of_keeps | eapply dentry_of_keeps | eapply maybe_dentry_keeps
          | eapply no_object_keeps ];
    eauto using node_read_at_keeps, node_write_at_keeps, node_readdir_keeps, node_create_keeps,
      node_link_keeps, node_unlink_keeps, node_symlink_keeps, node_lookup_keeps, node_rmdir_keeps,
      node_set_attr_keeps, node_get_attr_keeps, node_truncate_keeps, node_rename_keeps,
      node_update_time_keeps, sb2_sync_keeps, sb2_stat_keeps, sb2_root_keeps, keeps_remove_inode,
      dentry2_new_keeps, dentry2_find_keeps, dentry2_insert_keeps, dentry2_remove_keeps,
      dentry2_set_parent_keeps, fs2_mount_keeps, fs2_kill_keeps.
Qed.

Lemma heap_empty m : heap_ok (Nst m ∅ ∅ ∅).
Proof. split; cbn; intros *; by rewrite lookup_empty. Qed.

Lemma vstep_keeps st st' : heap_ok st -> vstep st st' -> heap_ok st' /\ extends st st'.
Proof. intros Hok [r Hr]. destruct (vserve_keeps r st Hok Hr) as (? & ? & _). done. Qed.

Lemma vsteps_keep st st' : heap_ok st -> rtc vstep st st' -> heap_ok st' /\ extends st st'.
Proof.
  intros Hok. induction 1 as [st|st st1 st2 H1s _ IH]; [done|].
  destruct (vstep_keeps st st1 Hok H1s) as [Hok1 Hx1]. destruct (IH Hok1) as [? Hx2].
  split; [done|]. by etrans.
Qed.

(** C21: The objects stay in order whatever a client does and whatever the database,
    the log and the functions below answer (errors and panics included): in every state
    reached from the start the cache of a super block leads, for an inode number, to a
    file, directory or symbolic link of that number; inodes, parents and children of
    dentries exist, children under their names; an object keeps its number, type and
    super block (a dentry its name and inode) as long as requests go on; and what a
    request gives out exists. *)
Theorem rvfs2_objects_typed m st st' :
  rtc vstep (Nst m ∅ ∅ ∅) st -> rtc vstep st st' ->
  heap_ok st' /\ extends st st' /\
  forall r a, vreq_ok r st' -> (vserve r st').1 = Some (inr a) -> vrep_ok a (vserve r st').2.
Proof.
  intros H1s H2s. destruct (vsteps_keep _ _ (heap_empty m) H1s) as [Hok _].
  destruct (vsteps_keep _ _ Hok H2s) as [Hok' Hx]. split; [done|]. split; [done|].
  intros r a Hr E. destruct (vserve_keeps r st' Hok' Hr) as (_ & _ & HQ). by rewrite E in HQ.
Qed.
End heap.

(** ** Witnesses *)

(** A device below that refuses every change. *)
#[local] Instance sample_bottom : BottomFs (world mapdb) := {
  dbfs_write := fun _ _ _ w => (inl AccessError, w);
  dbfs_create := fun _ _ _ _ _ _ _ _ w => (inl AccessError, w);
  dbfs_unlink := fun _ _ _ _ _ _ w => (inl AccessError, w);
  dbfs_rename := fun _ _ _ _ _ _ w => (inl AccessError, w);
  dbfs_truncate := fun _ _ _ w => (inl AccessError, w) }.

(** A client of [session_world] mounts it; another takes the root again. *)
Definition before_mount : nst MockStorage mapdb := Nst (sample_manager session_world) ∅ ∅ ∅.
Definition mounted : nst MockStorage mapdb := (vserve (VMount None) before_mount).2.

Lemma rvfs2_objects_typed_witness :
  heap_ok mounted /\ n_dentries mounted !! 0 = Some (MkR2Dentry None 0 (bs "/") ∅) /\
  (vserve (VRoot 0) mounted).1 = Some (inr (GotInode 0)) /\
  has_inode 0 (vserve (VRoot 0) mounted).2.
Proof.
  assert (E : (vserve (VRoot 0) mounted).1 = Some (inr (GotInode 0))) by by vm_compute.
  destruct (rvfs2_objects_typed (sample_manager session_world) mounted mounted) as (Hok & _ & Hrep).
  - apply rtc_once. exact (vstep_serve before_mount (VMount None) I).
  - apply rtc_refl.
  - split; [exact Hok|]. split; [by vm_compute|]. split; [exact E|].
    exact (Hrep (VRoot 0) (GotInode 0) I E).
Defined.
