(* ===== verification/Demo.v ===== *)
(** * The demonstration file system: src/src/rvfs2_demo

    A root directory with one file, [hello], that no database is behind: every
    inode is a constant, every change is refused, and only dentries have a
    state. What the [vfscore] crate answers for a super block's
    [root_inode], which the module does not define, is a parameter. *)

From S2P Require Import Prelude Bytes Store Common Vfscore.

(** ** Inodes: inode.rs *)

(** The super block is the same for all of them; the two counters are never
    written. *)
Record DemoInode := MkDemo { dm_ino : Z; dm_type : VfsNodeType; dm_size : Z; dm_nlink : Z }.

#[export] Instance DemoInode_eq_dec : EqDecision DemoInode.
Proof. solve_decision. Defined.

Record DemoEntry := MkDemoEntry { dme_ino : Z; dme_offset : Z; dme_type : VfsNodeType; dme_name : bytes }.

Definition demo_new_root : DemoInode := MkDemo 1 VDir 4096 2.
Definition demo_hello_file : DemoInode := MkDemo 2 VFile 12 1.

Section demo.
Context `{VfsCore} (sb_root_inode : VfsError + DemoInode).

Definition demo_mode (i : DemoInode) : Z :=
  if bool_decide (dm_type i = VDir) then perm_truncate 0x1ED else perm_truncate 0x1A4.

Definition demo_lookup (i : DemoInode) (name : bytes) : VfsError + DemoInode :=
  if negb (bool_decide (dm_type i = VDir)) then inl VNotDir
  else if bool_decide (name = bs "hello") then inr demo_hello_file
  else if bool_decide (name = bs ".") || bool_decide (name = bs "..") then sb_root_inode
  else inl VNoEntry.

Definition demo_readdir (i : DemoInode) : VfsError + list DemoEntry :=
  if negb (bool_decide (dm_type i = VDir)) then inl VNotDir
  else inr [MkDemoEntry 1 0 VDir (bs "."); MkDemoEntry 1 1 VDir (bs "..");
            MkDemoEntry 2 2 VFile (bs "hello")].

(** [create], [link], [unlink], [symlink], [mkdir], [rmdir], [rename_to] and
    [write_at]. *)
Definition demo_create (i : DemoInode) (name : bytes) (ty : VfsNodeType) (perm : Z)
    (rdev : option Z) : VfsError + DemoInode := inl VNoSys.
Definition demo_link (i : DemoInode) (name : bytes) (src : DemoInode) : VfsError + DemoInode := inl VNoSys.
Definition demo_unlink (i : DemoInode) (name : bytes) : VfsError + unit := inl VNoSys.
Definition demo_symlink (i : DemoInode) (name target : bytes) : VfsError + DemoInode := inl VNoSys.
Definition demo_mkdir (i : DemoInode) (name : bytes) (perm : Z) : VfsError + DemoInode := inl VNoSys.
Definition demo_rmdir (i : DemoInode) (name : bytes) : VfsError + unit := inl VNoSys.
Definition demo_rename_to (i : DemoInode) (old : bytes) (parent : DemoInode) (new : bytes) :
  VfsError + unit := inl VNoSys.
Definition demo_write_at (i : DemoInode) (buf : bytes) (offset : Z) : VfsError + Z := inl VNoSys.

(** The offset is not looked at; the buffer comes back. [None] would be a
    panic. *)
Definition hello_content : bytes := bs "Hello, DBFS!".
Definition demo_read_at (i : DemoInode) (_offset : Z) (buf : bytes) : option (VfsError + Z * bytes) :=
  if negb (bool_decide (dm_type i = VFile)) then Some (inl VIsDir)
  else
    let bytes_to_copy := Z.min (zlen buf) (zlen hello_content) in
    piece ← slice hello_content 0 bytes_to_copy;
    buf ← copy_into buf 0 bytes_to_copy piece;
    Some (inr (bytes_to_copy, buf)).

(** ** Dentries: dentry.rs *)

(** [dd_parent] and [dd_children] are addresses of dentries. *)
Record DemoDentry := MkDemoDentry {
  dd_parent : option Z; dd_inode : DemoInode; dd_name : bytes; dd_children : gmap bytes Z }.

Abbreviation demo_heap := (gmap Z DemoDentry).

Definition demo_alloc (e : DemoDentry) (h : demo_heap) : Z * demo_heap :=
  let l := fresh (dom h) in (l, <[l := e]> h).

Definition demo_root (inode : DemoInode) (h : demo_heap) : Z * demo_heap :=
  demo_alloc (MkDemoDentry None inode (bs "/") ∅) h.

Definition demo_find (self : Z) (path : bytes) (h : demo_heap) : option Z :=
  e ← h !! self; if bool_decide (dm_type (dd_inode e) = VDir) then dd_children e !! path else None.

Definition with_dd_children (f : gmap bytes Z -> gmap bytes Z) (e : DemoDentry) : DemoDentry :=
  MkDemoDentry (dd_parent e) (dd_inode e) (dd_name e) (f (dd_children e)).

(** The dentry is made before the name is looked for. *)
Definition demo_insert (self : Z) (name : bytes) (child : DemoInode) (h : demo_heap) :
  option ((VfsError + Z) * demo_heap) :=
  let '(dentry, h) := demo_alloc (MkDemoDentry (Some self) child name ∅) h in
  e ← h !! self;
  if bool_decide (is_Some (dd_children e !! name)) then Some (inl VEExist, h)
  else Some (inr dentry, alter (with_dd_children (<[name := dentry]>)) self h).

Definition demo_remove (self : Z) (name : bytes) (h : demo_heap) : option (option Z * demo_heap) :=
  e ← h !! self;
  Some (dd_children e !! name, alter (with_dd_children (base.delete name)) self h).

Definition demo_set_parent (self parent : Z) (h : demo_heap) : demo_heap :=
  alter (fun e => MkDemoDentry (Some parent) (dd_inode e) (dd_name e) (dd_children e)) self h.

(** ** Mounting: fstype.rs and superblock.rs *)

Definition demo_mount (h : demo_heap) : (VfsError + Z) * demo_heap :=
  let '(l, h) := demo_root demo_new_root h in (inr l, h).
Definition demo_kill_sb : VfsError + unit := inr tt.
Definition demo_fs_name : bytes := bs "dbfs".
Definition demo_sync_fs (_wait : bool) : VfsError + unit := inr tt.
Definition demo_stat_fs : DbfsFsStat :=
  {| f_bsize := 4096; f_frsize := 4096; f_blocks := 1024; f_bfree := 512; f_bavail := 512;
     f_files := 100; f_ffree := 50; f_favail := 50; f_fsid := 0x44424653; f_flag := 0;
     f_namemax := 255; f_name := replicate 32 Byte.x00 |}.

(** ** Facts *)

Lemma hello_length : zlen hello_content = 12.
Proof. by vm_compute. Qed.

Lemma demo_read_file offset buf :
  demo_read_at demo_hello_file offset buf =
  Some (inr (Z.min (zlen buf) 12, splice buf 0 (take (Z.to_nat (Z.min (zlen buf) 12)) hello_content))).
Proof.
  pose proof (zlen_nonneg buf). pose proof hello_length as Hh. unfold demo_read_at.
  cbn [demo_hello_file dm_type negb]. rewrite bool_decide_eq_true_2 by done. cbn [negb].
  rewrite Hh. cbv zeta. rewrite slice_ok by lia. rewrite Z.sub_0_r.
  change (drop (Z.to_nat 0) hello_content) with hello_content. cbn [mbind option_bind].
  rewrite copy_into_ok; [done|lia| |lia].
  unfold zlen in *. rewrite length_take. lia.
Qed.

(** A client that reads on from where the last read ended; it stops at a read
    of nothing. *)
Fixpoint demo_reads (buf : bytes) (k : nat) : option (Z * bool) :=
  match k with
  | O => Some (0, false)
  | S k =>
      '(offset, stopped) ← demo_reads buf k;
      if (stopped : bool) then Some (offset, true)
      else r ← demo_read_at demo_hello_file offset buf;
           match r with
           | inl _ => None
           | inr (len, _) => Some (if len =? 0 then (offset, true) else (offset + len, false))
           end
  end.

(** The demonstration's file never ends: its size says 12, but a client that
    looks it up from the mounted root and reads it piece by piece, with whatever
    non-empty buffer, is never told that it has reached the end: after any number of
    reads it is past where they would lead in an endless file. *)
Theorem demo_never_ends h buf :
  0 < zlen buf ->
  exists l e h', demo_mount h = (inr l, h') /\ h' !! l = Some e /\
    demo_lookup (dd_inode e) (bs "hello") = inr demo_hello_file /\
    dm_size demo_hello_file = 12 /\
    forall k, demo_reads buf k = Some (Z.of_nat k * Z.min (zlen buf) 12, false).
Proof.
  intros Hb. eexists _, _, _. split; [reflexivity|]. split; [apply lookup_insert_eq|].
  split; [done|]. split; [done|]. induction k as [|k IH]; [done|].
  cbn [demo_reads]. rewrite IH. cbn [mbind option_bind]. rewrite demo_read_file. cbn [mbind option_bind].
  rewrite Zeqb_ne by lia. do 2 f_equal. lia.
Qed.

(** A new name is found, with the inode, and a second insertion under it fails
    and leaves the first. *)
Lemma demo_insert_found self name child h e :
  h !! self = Some e -> dm_type (dd_inode e) = VDir -> dd_children e !! name = None ->
  exists l h', demo_insert self name child h = Some (inr l, h') /\
    demo_find self name h' = Some l /\ dd_inode <$> h' !! l = Some child /\
    forall other, exists h'', demo_insert self name other h' = Some (inl VEExist, h'') /\
      demo_find self name h'' = Some l.
Proof.
  intros He Hty Hn. set (l := fresh (dom h)).
  assert (Hne : l <> self) by (intros <-; apply (is_fresh (dom h)), elem_of_dom; by eexists).
  eexists l, _. split.
  { unfold demo_insert, demo_alloc. fold l. rewrite lookup_insert_ne, He by done.
    cbn [mbind option_bind]. by rewrite Hn. }
  set (h1 := alter _ self _).
  assert (Hs : h1 !! self = Some (with_dd_children <[name := l]> e)).
  { unfold h1. by rewrite lookup_alter_eq, lookup_insert_ne, He by done. }
  split; [|split].
  - unfold demo_find. rewrite Hs. cbn. rewrite bool_decide_eq_true_2 by done. apply lookup_insert_eq.
  - unfold h1. by rewrite lookup_alter_ne, lookup_insert_eq by done.
  - intros other. set (l1 := fresh (dom h1)).
    assert (Hne1 : l1 <> self).
    { intros E. apply (is_fresh (dom h1)). fold l1. rewrite E. apply elem_of_dom. by eexists. }
    eexists. split.
    { unfold demo_insert, demo_alloc. fold l1. rewrite lookup_insert_ne, Hs by done.
      cbn [mbind option_bind with_dd_children dd_children]. by rewrite lookup_insert_eq. }
    unfold demo_find. rewrite lookup_insert_ne, Hs by done. cbn.
    rewrite bool_decide_eq_true_2 by done. apply lookup_insert_eq.
Qed.
End demo.

Lemma demo_never_ends_witness :
  demo_reads [Byte.x00] 20 = Some (20, false).
Proof.
  destruct (demo_never_ends (inl VNoSys) ∅ [Byte.x00]) as (l & e & h & _ & _ & _ & _ & Hall).
  - by vm_compute.
  - exact (Hall 20%nat).
Defined.
